(** * gpufilter: the block-parallel recursive filter of [all_functions.ipynb]

    A shallow embedding of the Python reference implementation
    (src/python/all_functions.ipynb) of "Algorithm 5" and of its
    constant-padding and periodic extensions, with the properties of the
    block decomposer, the row sweeps, the carry stages and the matrix
    builders that the specification states, followed by the error
    behaviour, the recurrences and the composition of the same functions
    as the code has them.

    Conventions of the embedding.
    - A NumPy 1-D array is a [list D], a 2-D array a list of rows
      ([matrix]), the 4-D carry arrays are lists of lists of matrices indexed
      [m] then [n].  An array with a zero dimension keeps no trace of its
      other dimension in this representation; the theorems that depend on
      shapes assume positive sizes.
    - The scalars [D] are abstract: the code uses IEEE doubles, and every
      definition only uses [0], [1], [+], [-] and [*].  The theorems that
      move data hold for any such structure; the algebraic ones are stated
      over a commutative ring.
    - Python exceptions are values of [error]; a function that can raise
      returns a [result].  In-place updates are written as state passing:
      the updated array is returned. *)

From Stdlib Require Import ZArith List Lia Ring Permutation.
From Stdlib Require PrimFloat.
From stdpp Require Import base list.
Import ListNotations.


(** ** Exceptions and the result monad *)

Inductive error : Type :=
  | IndexError
  | ValueError
  | ZeroDivisionError
  | LinAlgError.

Inductive result (A : Type) : Type :=
  | Ok (a : A)
  | Err (e : error).
Arguments Ok {A} a.
Arguments Err {A} e.

#[global] Instance result_ret : MRet result := fun A a => Ok a.
#[global] Instance result_bind : MBind result := fun A B f m =>
  match m with
  | Ok a => f a
  | Err e => Err e
  end.

Definition is_ok {A} (m : result A) : Prop := exists a, m = Ok a.

(** [for x in xs: s = f(s, x)], stopping at the first exception. *)
Fixpoint foldM {S X : Type} (f : S -> X -> result S) (xs : list X) (s : S)
  : result S :=
  match xs with
  | [] => Ok s
  | x :: xs' => s' ← f s x; foldM f xs' s'
  end.

(** [range(n)] and [range(n-1, -1, -1)]. *)
Definition range (n : nat) : list nat := seq 0 n.
Definition range_down (n : nat) : list nat := List.rev (seq 0 n).

(** ** Python indexing *)

(** [l[i]] for a Python integer [i]: a negative index counts from the end. *)
Definition py_index (len : nat) (i : Z) : result nat :=
  if (0 <=? i)%Z then
    if (i <? Z.of_nat len)%Z then Ok (Z.to_nat i) else Err IndexError
  else
    if (- Z.of_nat len <=? i)%Z then Ok (Z.to_nat (Z.of_nat len + i))
    else Err IndexError.

Definition py_get {A : Type} (l : list A) (i : Z) : result A :=
  k ← py_index (length l) i;
  match l !! k with
  | Some x => Ok x
  | None => Err IndexError
  end.

(** [l[i] = x] on a list (or on the first axis of an array). *)
Definition py_set {A : Type} (l : list A) (i : Z) (x : A) : result (list A) :=
  k ← py_index (length l) i;
  Ok (<[k := x]> l).

(** ** Scalars *)

Class Scalar (D : Type) : Type := {
  rO : D;
  rI : D;
  radd : D -> D -> D;
  rsub : D -> D -> D;
  rmul : D -> D -> D
}.

#[global] Instance Z_scalar : Scalar Z := {
  rO := 0%Z;
  rI := 1%Z;
  radd := Z.add;
  rsub := Z.sub;
  rmul := Z.mul
}.

Section Model.
Context {D : Type} {SD : Scalar D}.

(** Vectors, 2-D arrays, and 4-D arrays indexed [m] then [n] with a 2-D
    array in each slot. *)
Abbreviation vec := (list D).
Abbreviation matrix := (list (list D)).
Abbreviation grid := (list (list (list (list D)))).

(** ** Shapes, constants and slices of 2-D arrays *)

Definition nrows (A : matrix) : nat := length A.

(** The width is read off the first row: an array without rows has width
    [0] here, whatever its NumPy shape [(0, w)] says. *)
Definition ncols (A : matrix) : nat :=
  match A with
  | [] => 0
  | row :: _ => length row
  end.

(** [A[i][j]] for indices known to be in range. *)
Definition entry (A : matrix) (i j : nat) : D := nth j (nth i A []) rO.

(** [np.zeros((h, w))] and [np.identity(n)]. *)
Definition zeros (h w : nat) : matrix := replicate h (replicate w rO).
Definition identity (n : nat) : matrix :=
  map (fun i => map (fun j => if decide (i = j) then rI else rO) (seq 0 n))
      (seq 0 n).

(** [A.transpose()], for an array with at least one row and one column
    (an array of shape [(0, w)] or [(h, 0)] transposes to the empty list
    here). *)
Definition transpose (A : matrix) : matrix :=
  map (fun j => map (fun row => nth j row rO) A) (seq 0 (ncols A)).

(** [np.flipud(A)]. *)
Definition flipud (A : matrix) : matrix := reverse A.

(** [l[:r]] and [l[-r:]]; [-0] is [0], so [l[-0:]] is the whole list. *)
Definition py_head {A : Type} (r : nat) (l : list A) : list A := take r l.
Definition py_tail {A : Type} (r : nat) (l : list A) : list A :=
  if decide (r = 0) then l else drop (length l - r) l.

(** [l[lo:hi]] for non-negative bounds. *)
Definition py_slice {A : Type} (lo hi : nat) (l : list A) : list A :=
  take (hi - lo) (drop lo l).

(** Head and tail operators. *)
Definition H (X : matrix) (r : nat) : matrix := py_head r X.
Definition T (X : matrix) (r : nat) : matrix := py_tail r X.
Definition HT (X : matrix) (r : nat) : matrix := map (py_head r) X.
Definition TT (X : matrix) (r : nat) : matrix := map (py_tail r) X.

(** [flip]: both loops of the source, entry by entry. *)
Definition flip (Bloc : matrix) : matrix :=
  map (fun i =>
         map (fun j => entry Bloc (nrows Bloc - 1 - i) (ncols Bloc - 1 - j))
             (seq 0 (ncols Bloc)))
      (seq 0 (nrows Bloc)).

(** [np.tile(A, (r, 1))] and [np.tile(A, (1, r))]. *)
Definition tile_rows (A : matrix) (r : nat) : matrix :=
  concat (replicate r A).
Definition tile_cols (A : matrix) (r : nat) : matrix :=
  map (fun row => concat (replicate r row)) A.

(** ** Element access *)

Definition mget (A : matrix) (i j : Z) : result D :=
  row ← py_get A i; py_get row j.

Definition mset (A : matrix) (i j : Z) (v : D) : result matrix :=
  row ← py_get A i;
  row' ← py_set row j v;
  py_set A i row'.

(** ** Broadcasting, sums and products *)

(** One axis of NumPy broadcasting to a target length [n]. *)
Definition stretch {A : Type} (n : nat) (l : list A) : result (list A) :=
  if decide (length l = n) then Ok l
  else match l with
       | [x] => Ok (replicate n x)
       | _ => Err ValueError
       end.

Fixpoint mapM {A B : Type} (f : A -> result B) (l : list A)
  : result (list B) :=
  match l with
  | [] => Ok []
  | x :: l' => y ← f x; ys ← mapM f l'; Ok (y :: ys)
  end.

(** Broadcast a 2-D value to shape [(h, w)], as an assignment into a slot of
    that shape does. *)
Definition broadcast_to (h w : nat) (V : matrix) : result matrix :=
  rows ← mapM (stretch w) V;
  stretch h rows.

(** The common length of one axis of two operands. *)
Definition bdim (a b : nat) : result nat :=
  if decide (a = b) then Ok a
  else if decide (a = 1) then Ok b
  else if decide (b = 1) then Ok a
  else Err ValueError.

Definition vadd (u v : vec) : vec := zip_with radd u v.
Definition vsub (u v : vec) : vec := zip_with rsub u v.
Definition vscale (c : D) (v : vec) : vec := map (rmul c) v.
Definition madd (A B : matrix) : matrix := zip_with vadd A B.
Definition msub (A B : matrix) : matrix := zip_with vsub A B.

Definition np_binop (op : matrix -> matrix -> matrix) (A B : matrix)
  : result matrix :=
  h ← bdim (nrows A) (nrows B);
  w ← bdim (ncols A) (ncols B);
  A' ← broadcast_to h w A;
  B' ← broadcast_to h w B;
  Ok (op A' B').

(** [A + B] and [A - B] on 2-D arrays. *)
Definition np_add : matrix -> matrix -> result matrix := np_binop madd.
Definition np_sub : matrix -> matrix -> result matrix := np_binop msub.

(** The row [sum_k a[k] * B[k]] of width [w]. *)
Definition lincomb (a : vec) (B : matrix) (w : nat) : vec :=
  foldr (fun cb acc => vadd (vscale cb.1 cb.2) acc) (replicate w rO)
        (zip a B).

(** The matrix product on well-shaped operands: entry [(i, j)] is
    [sum_k A[i][k] * B[k][j]]. *)
Definition dot (A B : matrix) : matrix :=
  map (fun a => lincomb a B (ncols B)) A.

(** [np.dot(A, B)] on 2-D arrays: the inner dimensions must agree. *)
Definition np_dot (A B : matrix) : result matrix :=
  if decide (Forall (fun a => length a = nrows B) A) then Ok (dot A B)
  else Err ValueError.

(** ** Row sweeps *)

(** One feedback tap of [fwd]: the body of the loop over [k]. *)
Definition fwd_tap (prol weig : vec) (j : nat) (bloc : vec) (k : nat)
  : result vec :=
  bj ← py_get bloc (Z.of_nat j);
  x ← (if (Z.of_nat j - Z.of_nat k <? 0)%Z
       then py_get prol (Z.of_nat j - Z.of_nat k)
       else py_get bloc (Z.of_nat j - Z.of_nat k));
  wk ← py_get weig (Z.of_nat k);
  Ok (<[j := rsub bj (rmul x wk)]> bloc).

(** The body of the loop over [j]. *)
Definition fwd_step (prol weig : vec) (bloc : vec) (j : nat) : result vec :=
  bj ← py_get bloc (Z.of_nat j);
  w0 ← py_get weig 0%Z;
  foldM (fwd_tap prol weig j) (seq 1 (length weig - 1))
        (<[j := rmul bj w0]> bloc).

(** [fwd(prol, bloc, weig)]; the row is updated in place, the updated row is
    the result. *)
Definition fwd (prol bloc weig : vec) : result vec :=
  foldM (fwd_step prol weig) (range (length bloc)) bloc.

(** [FT]: [FTB] is a copy of [Bloc], each of its rows is swept in place. *)
Definition FT_row (Prol : matrix) (weig : vec) (FTB : matrix) (row : nat)
  : result matrix :=
  prow ← py_get Prol (Z.of_nat row);
  brow ← py_get FTB (Z.of_nat row);
  brow' ← fwd prow brow weig;
  Ok (<[row := brow']> FTB).

Definition FT (Prol Bloc : matrix) (weig : vec) : result matrix :=
  foldM (FT_row Prol weig) (range (length Bloc)) Bloc.

Definition F (Prol Bloc : matrix) (weig : vec) : result matrix :=
  B ← FT (transpose Prol) (transpose Bloc) weig;
  Ok (transpose B).

Definition rev_tap (epil weig : vec) (j : nat) (bloc : vec) (k : nat)
  : result vec :=
  bj ← py_get bloc (Z.of_nat j);
  x ← (if decide (length bloc <= j + k)
       then py_get epil (Z.of_nat j + Z.of_nat k - Z.of_nat (length bloc))
       else py_get bloc (Z.of_nat j + Z.of_nat k));
  wk ← py_get weig (Z.of_nat k);
  Ok (<[j := rsub bj (rmul x wk)]> bloc).

(** The loop variable [j0] is replaced by [j = len(bloc)-1-j0]. *)
Definition rev_step (epil weig : vec) (bloc : vec) (j0 : nat) : result vec :=
  let j := length bloc - 1 - j0 in
  bj ← py_get bloc (Z.of_nat j);
  w0 ← py_get weig 0%Z;
  foldM (rev_tap epil weig j) (seq 1 (length weig - 1))
        (<[j := rmul bj w0]> bloc).

Definition rev (bloc epil weig : vec) : result vec :=
  foldM (rev_step epil weig) (range (length bloc)) bloc.

Definition RT_row (Epil : matrix) (weig : vec) (RTB : matrix) (row : nat)
  : result matrix :=
  brow ← py_get RTB (Z.of_nat row);
  erow ← py_get Epil (Z.of_nat row);
  brow' ← rev brow erow weig;
  Ok (<[row := brow']> RTB).

Definition RT (Bloc Epil : matrix) (weig : vec) : result matrix :=
  foldM (RT_row Epil weig) (range (length Bloc)) Bloc.

Definition R (Bloc Epil : matrix) (weig : vec) : result matrix :=
  B ← RT (transpose Bloc) (transpose Epil) weig;
  Ok (transpose B).

(** ** Block decomposer *)

(** [int(math.ceil(a / float(b)))] on non-negative integers: the exact
    ceiling of the quotient, which is what the binary64 division and
    [math.ceil] give while [a] and [b] are below [2^53]; the float division
    raises on [b = 0]. *)
Definition ceil_div (a b : nat) : result nat :=
  if decide (b = 0) then Err ZeroDivisionError else Ok ((a + b - 1) / b).

Definition get_mn (X : matrix) (b : nat) : result (nat * nat) :=
  m ← ceil_div (nrows X) b;
  n ← ceil_div (ncols X) b;
  Ok (m, n).

(** [X[r0:r1, c0:c1]]. *)
Definition slice2 (X : matrix) (r0 r1 c0 c1 : nat) : matrix :=
  map (py_slice c0 c1) (py_slice r0 r1 X).

(** One slot of [blocks]: the assignment broadcasts the slice to [(b, b)]. *)
Definition break_block (X : matrix) (b m n : nat) : result matrix :=
  broadcast_to b b (slice2 X (m * b) ((m + 1) * b) (n * b) ((n + 1) * b)).

(** [break_blocks(X, b, m_size, n_size)]; [blocks] starts as [np.empty] and
    every slot is assigned, so the grid is built slot by slot. *)
Definition break_blocks (X : matrix) (b : nat) (m_size n_size : option nat)
  : result grid :=
  mn ← match m_size, n_size with
       | Some m, Some n => Ok (m, n)
       | _, _ => get_mn X b
       end;
  mapM (fun m => mapM (fun n => break_block X b m n) (range mn.2))
       (range mn.1).

(** [np.empty((h, w))]: the contents are whatever the memory holds,
    [garbage i j] at cell [(i, j)]. *)
Definition np_empty (garbage : nat -> nat -> D) (h w : nat) : matrix :=
  map (fun i => map (garbage i) (seq 0 w)) (seq 0 h).

(** Cells [(i, j)] with [r0 <= i < r0+h] and [c0 <= j < c0+w] are replaced
    by those of [V]. *)
Definition write_window (image : matrix) (r0 c0 h w : nat) (V : matrix)
  : matrix :=
  imap (fun i row =>
          if decide (r0 <= i < r0 + h) then
            imap (fun j x =>
                    if decide (c0 <= j < c0 + w)
                    then entry V (i - r0) (j - c0) else x) row
          else row) image.

(** [image[r0:r1, c0:c1] = V] for an image of shape [shape]: the slice is
    clipped to the image and [V] is broadcast to the clipped shape. *)
Definition assign_slice2 (shape : nat * nat) (image : matrix)
    (r0 r1 c0 c1 : nat) (V : matrix) : result matrix :=
  let h := (r1 `min` shape.1) - (r0 `min` shape.1) in
  let w := (c1 `min` shape.2) - (c0 `min` shape.2) in
  V' ← broadcast_to h w V;
  Ok (write_window image r0 c0 h w V').

Definition get2 (G : grid) (m n : Z) : result matrix :=
  row ← py_get G m; py_get row n.

(** [G[m][n] = V]: the value is broadcast to the shape of the slot. *)
Definition set2 (G : grid) (m n : Z) (V : matrix) : result grid :=
  row ← py_get G m;
  old ← py_get row n;
  V' ← broadcast_to (nrows old) (ncols old) V;
  row' ← py_set row n V';
  py_set G m row'.

Definition join_block (blocks : grid) (b : nat) (Xshape : nat * nat)
    (m : nat) (image : matrix) (n : nat) : result matrix :=
  B ← get2 blocks (Z.of_nat m) (Z.of_nat n);
  assign_slice2 Xshape image (m * b) ((m + 1) * b) (n * b) ((n + 1) * b) B.

Definition join_blocks (garbage : nat -> nat -> D) (blocks : grid)
    (b m_size n_size : nat) (Xshape : nat * nat) : result matrix :=
  foldM (fun image m => foldM (join_block blocks b Xshape m) (range n_size) image)
        (range m_size) (np_empty garbage Xshape.1 Xshape.2).

(** ** Tuple unpacking *)

Definition unpack2 {A : Type} (l : list A) : result (A * A) :=
  match l with
  | [a; b] => Ok (a, b)
  | _ => Err ValueError
  end.

Definition unpack3 {A : Type} (l : list A) : result (A * A * A) :=
  match l with
  | [a; b; c] => Ok (a, b, c)
  | _ => Err ValueError
  end.

Definition unpack4 {A : Type} (l : list A) : result (A * A * A * A) :=
  match l with
  | [a; b; c; d] => Ok (a, b, c, d)
  | _ => Err ValueError
  end.

Definition unpack7 {A : Type} (l : list A)
  : result (A * A * A * A * A * A * A) :=
  match l with
  | [a; b; c; d; e; f; g] => Ok (a, b, c, d, e, f, g)
  | _ => Err ValueError
  end.

Definition unpack9 {A : Type} (l : list A)
  : result (A * A * A * A * A * A * A * A * A) :=
  match l with
  | [a; b; c; d; e; f; g; h; i] => Ok (a, b, c, d, e, f, g, h, i)
  | _ => Err ValueError
  end.

(** ** Elementary matrices *)

(** The loop that fills [AbarF]. *)
Definition AbarF_inner (r : nat) (wgt : vec) (ArF : matrix) (i : nat)
    (AbarF : matrix) (j : nat) : result matrix :=
  a ← mget ArF (Z.of_nat j - Z.of_nat i - 1) (Z.of_nat r - 1);
  w0 ← py_get wgt 0%Z;
  mset AbarF (Z.of_nat j) (Z.of_nat i) (rmul a w0).

Definition AbarF_outer (r : nat) (wgt : vec) (ArF : matrix)
    (AbarF : matrix) (i : nat) : result matrix :=
  w0 ← py_get wgt 0%Z;
  AbarF ← mset AbarF (Z.of_nat i) (Z.of_nat i) w0;
  foldM (AbarF_inner r wgt ArF i) (seq (i + 1) (r - (i + 1))) AbarF.

Definition build_AbarF (r : nat) (wgt : vec) (ArF : matrix) : result matrix :=
  foldM (AbarF_outer r wgt ArF) (range r) (zeros r r).

(** [build_alg5_matrices(b, r, wgt, width, height)]: the pack of 25
    matrices, in the order of the returned tuple. *)
Definition build_alg5_matrices (b r : nat) (wgt : vec) (width height : nat)
  : result (list matrix) :=
  let Zrb := zeros r b in
  let Zbr := zeros b r in
  let Ir := identity r in
  let Ib := identity b in
  let Zwr := zeros width r in
  let Zrh := zeros r height in
  let K := flipud Ir in
  AFP ← F Ir Zbr wgt;
  AFB ← F Zrb Ib wgt;
  ARE ← R Zbr Ir wgt;
  ARB ← R Ib Zrb wgt;
  let AbF := T AFP r in
  let AbR := H ARE r in
  let HARB := H ARB r in
  HARB_AFP ← np_dot HARB AFP;
  HARB_AFB ← np_dot HARB AFB;
  let AbFT := transpose AbF in
  let TAFBT := transpose (T AFB r) in
  ARB_AFP ← np_dot ARB AFP;
  let AbRT := transpose AbR in
  let HARB_AFPT := transpose HARB_AFP in
  let HARB_AFBT := transpose HARB_AFB in
  let ArF := H AFP r in
  let ArR := flip ArF in
  AbarF ← build_AbarF r wgt ArF;
  let AbarR := flip AbarF in
  FIZ ← F Ir Zwr wgt;
  let AwF := T FIZ r in
  RZI ← R Zwr Ir wgt;
  let AwR := H RZI r in
  FTIZ ← FT Ir Zrh wgt;
  let AhF := TT FTIZ r in
  RTZI ← RT Zrh Ir wgt;
  let AhR := HT RTZI r in
  Ok [Zrb; Zbr; Ir; Ib; AFP; AFB; AbF; AbR;
      HARB_AFP; AbFT; AbRT; HARB_AFPT; HARB_AFBT;
      ARB_AFP; TAFBT; ARE; K; ArF; ArR; AbarF; AbarR;
      AwF; AwR; AhF; AhR].

(** [build_alg5_carries(m_size, n_size, b, r)]: [(P, E, Pt, Et)]. *)
Definition build_alg5_carries (m_size n_size b r : nat)
  : grid * grid * grid * grid :=
  (replicate (m_size + 1) (replicate n_size (zeros r b)),
   replicate (m_size + 1) (replicate n_size (zeros r b)),
   replicate m_size (replicate (n_size + 1) (zeros b r)),
   replicate m_size (replicate (n_size + 1) (zeros b r))).

(** ** The arrays of one filter run *)

(** The arrays the stages read and write: the block grid and the four carry
    arrays.  A stage receives them by reference and updates them in place;
    here it maps the store before the call to the store after it. *)
Record store : Type := mk_store {
  blocks : grid;
  P : grid;
  E : grid;
  Pt : grid;
  Et : grid
}.

Definition set_blocks (st : store) (G : grid) : store :=
  mk_store G (P st) (E st) (Pt st) (Et st).
Definition set_P (st : store) (G : grid) : store :=
  mk_store (blocks st) G (E st) (Pt st) (Et st).
Definition set_E (st : store) (G : grid) : store :=
  mk_store (blocks st) (P st) G (Pt st) (Et st).
Definition set_Pt (st : store) (G : grid) : store :=
  mk_store (blocks st) (P st) (E st) G (Et st).
Definition set_Et (st : store) (G : grid) : store :=
  mk_store (blocks st) (P st) (E st) (Pt st) G.

(** The store of a run: [blocks] with the carries [(P, E, Pt, Et)]. *)
Definition store_of (bl : grid) (carries : grid * grid * grid * grid) : store :=
  let '(p, e, pt, et) := carries in mk_store bl p e pt et.

(** [P[m][n] = V] and its siblings. *)
Definition upd_blocks (st : store) (m n : Z) (V : matrix) : result store :=
  G ← set2 (blocks st) m n V; Ok (set_blocks st G).
Definition upd_P (st : store) (m n : Z) (V : matrix) : result store :=
  G ← set2 (P st) m n V; Ok (set_P st G).
Definition upd_E (st : store) (m n : Z) (V : matrix) : result store :=
  G ← set2 (E st) m n V; Ok (set_E st G).
Definition upd_Pt (st : store) (m n : Z) (V : matrix) : result store :=
  G ← set2 (Pt st) m n V; Ok (set_Pt st G).
Definition upd_Et (st : store) (m n : Z) (V : matrix) : result store :=
  G ← set2 (Et st) m n V; Ok (set_Et st G).

(** ** Algorithm 5, zero padding *)

(** The body of the loops of [alg5_stage1].  [B] is rebound to the fresh
    array that [F], [R], [FT] and [RT] return (they sweep a copy). *)
Definition stage1_block (r : nat) (wgt : vec) (Zrb Zbr : matrix)
    (st : store) (mn : nat * nat) : result store :=
  let m := Z.of_nat mn.1 in
  let n := Z.of_nat mn.2 in
  B ← get2 (blocks st) m n;
  B ← F Zrb B wgt;
  st ← upd_P st m n (T B r);
  B ← R B Zrb wgt;
  st ← upd_E st m n (H B r);
  B ← FT Zbr B wgt;
  st ← upd_Pt st m n (TT B r);
  B ← RT B Zbr wgt;
  upd_Et st m n (HT B r).

(** The pairs [(m, n)] in the order of [for n: for m:]. *)
Definition n_major (m_size n_size : nat) : list (nat * nat) :=
  n ← range n_size; m ← range m_size; [(m, n)].

Definition alg5_stage1 (m_size n_size r : nat) (wgt : vec)
    (matrices : list matrix) (st : store) : result store :=
  Z2 ← unpack2 (py_slice 0 2 matrices);
  foldM (stage1_block r wgt Z2.1 Z2.2) (n_major m_size n_size) st.

(** The right-hand sides of the carry recurrences, named after the
    equations in the comments of the source.  An operand is a [result] so
    that it is evaluated where Python evaluates it. *)
Definition eqn24 (AbF : matrix) (x y : result matrix) : result matrix :=
  a ← x;
  b ← y; d ← np_dot AbF b;
  np_add a d.

Definition eqn34 (HARB_AFP AbR : matrix) (x p y : result matrix)
  : result matrix :=
  a ← x;
  b ← p; d ← np_dot HARB_AFP b; s ← np_add a d;
  c ← y; d ← np_dot AbR c;
  np_add s d.

Definition eqn37 (ARB_AFP ARE TAFBT AbFT : matrix) (x p e y : result matrix)
  : result matrix :=
  a ← x;
  b ← p; d ← np_dot b TAFBT; d ← np_dot ARB_AFP d; s ← np_add a d;
  c ← e; d ← np_dot c TAFBT; d ← np_dot ARE d; s ← np_add s d;
  q ← y; d ← np_dot q AbFT;
  np_add s d.

Definition eqn39 (ARB_AFP ARE HARB_AFBT HARB_AFPT AbRT : matrix)
    (x p e pt y : result matrix) : result matrix :=
  a ← x;
  b ← p; d ← np_dot b HARB_AFBT; d ← np_dot ARB_AFP d; s ← np_add a d;
  c ← e; d ← np_dot c HARB_AFBT; d ← np_dot ARE d; s ← np_add s d;
  q ← pt; d ← np_dot q HARB_AFPT; s ← np_add s d;
  z ← y; d ← np_dot z AbRT;
  np_add s d.

(** [P[m][n] = P[m][n] + np.dot(AbF, P[m-1][n])]. *)
Definition stage2_step (AbF : matrix) (n : nat) (st : store) (m : nat)
  : result store :=
  let m := Z.of_nat m in
  let n := Z.of_nat n in
  V ← eqn24 AbF (get2 (P st) m n) (get2 (P st) (m - 1) n);
  upd_P st m n V.

(** [E[m][n] = E[m][n] + np.dot(HARB_AFP, P[m-1][n]) + np.dot(AbR, E[m+1][n])]. *)
Definition stage3_step (HARB_AFP AbR : matrix) (n : nat) (st : store) (m : nat)
  : result store :=
  let m := Z.of_nat m in
  let n := Z.of_nat n in
  V ← eqn34 HARB_AFP AbR (get2 (E st) m n) (get2 (P st) (m - 1) n)
                         (get2 (E st) (m + 1) n);
  upd_E st m n V.

(** The two sweeps of one column [n]. *)
Definition stage2_sweep (AbF : matrix) (m_size n : nat) (st : store)
  : result store :=
  foldM (stage2_step AbF n) (range m_size) st.
Definition stage3_sweep (HARB_AFP AbR : matrix) (m_size n : nat) (st : store)
  : result store :=
  foldM (stage3_step HARB_AFP AbR n) (range_down m_size) st.

Definition alg5_stage23 (m_size n_size : nat) (matrices : list matrix)
    (st : store) : result store :=
  M3 ← unpack3 (py_slice 6 9 matrices);
  let '(AbF, AbR, HARB_AFP) := M3 in
  foldM (fun st n =>
           st ← stage2_sweep AbF m_size n st;
           stage3_sweep HARB_AFP AbR m_size n st)
        (range n_size) st.

Definition stage4_step (ARB_AFP ARE TAFBT AbFT : matrix) (m : nat)
    (st : store) (n : nat) : result store :=
  let m := Z.of_nat m in
  let n := Z.of_nat n in
  V ← eqn37 ARB_AFP ARE TAFBT AbFT (get2 (Pt st) m n)
        (get2 (P st) (m - 1) n) (get2 (E st) (m + 1) n)
        (get2 (Pt st) m (n - 1));
  upd_Pt st m n V.

Definition stage5_step (ARB_AFP ARE HARB_AFBT HARB_AFPT AbRT : matrix)
    (m : nat) (st : store) (n : nat) : result store :=
  let m := Z.of_nat m in
  let n := Z.of_nat n in
  V ← eqn39 ARB_AFP ARE HARB_AFBT HARB_AFPT AbRT (get2 (Et st) m n)
        (get2 (P st) (m - 1) n) (get2 (E st) (m + 1) n)
        (get2 (Pt st) m (n - 1)) (get2 (Et st) m (n + 1));
  upd_Et st m n V.

Definition stage4_sweep (ARB_AFP ARE TAFBT AbFT : matrix) (n_size m : nat)
    (st : store) : result store :=
  foldM (stage4_step ARB_AFP ARE TAFBT AbFT m) (range n_size) st.
Definition stage5_sweep (ARB_AFP ARE HARB_AFBT HARB_AFPT AbRT : matrix)
    (n_size m : nat) (st : store) : result store :=
  foldM (stage5_step ARB_AFP ARE HARB_AFBT HARB_AFPT AbRT m)
        (range_down n_size) st.

Definition alg5_stage45 (m_size n_size : nat) (matrices : list matrix)
    (st : store) : result store :=
  M7 ← unpack7 (py_slice 9 16 matrices);
  let '(AbFT, AbRT, HARB_AFPT, HARB_AFBT, ARB_AFP, TAFBT, ARE) := M7 in
  foldM (fun st m =>
           st ← stage4_sweep ARB_AFP ARE TAFBT AbFT n_size m st;
           stage5_sweep ARB_AFP ARE HARB_AFBT HARB_AFPT AbRT n_size m st)
        (range m_size) st.

Definition stage6_block (wgt : vec) (st : store) (mn : nat * nat)
  : result store :=
  let m := Z.of_nat mn.1 in
  let n := Z.of_nat mn.2 in
  B ← get2 (blocks st) m n;
  p ← get2 (P st) (m - 1) n;
  B ← F p B wgt;
  e ← get2 (E st) (m + 1) n;
  B ← R B e wgt;
  pt ← get2 (Pt st) m (n - 1);
  B ← FT pt B wgt;
  et ← get2 (Et st) m (n + 1);
  B ← RT B et wgt;
  upd_blocks st m n B.

Definition alg5_stage6 (m_size n_size : nat) (wgt : vec) (st : store)
  : result store :=
  foldM (stage6_block wgt) (n_major m_size n_size) st.

(** ** Constant-padding extension (CPE) *)

(** The body of the loops of [alg5_cpe_stage1]: the boundary slots are
    written with [if m == 0: ... elif m == m_size-1: ...]. *)
Definition cpe_stage1_block (m_size n_size r : nat) (wgt : vec)
    (Zrb Zbr : matrix) (st : store) (mn : nat * nat) : result store :=
  let m := Z.of_nat mn.1 in
  let n := Z.of_nat mn.2 in
  B ← get2 (blocks st) m n;
  st ← (if decide (m = 0%Z) then upd_P st (-1) n (tile_rows (H B 1) r)
        else if decide (m = (Z.of_nat m_size - 1)%Z)
             then upd_E st (Z.of_nat m_size) n (tile_rows (T B 1) r)
             else Ok st);
  B ← F Zrb B wgt;
  st ← upd_P st m n (T B r);
  B ← R B Zrb wgt;
  st ← upd_E st m n (H B r);
  st ← (if decide (n = 0%Z) then upd_Pt st m (-1) (tile_cols (HT B 1) r)
        else if decide (n = (Z.of_nat n_size - 1)%Z)
             then upd_Et st m (Z.of_nat n_size) (tile_cols (TT B 1) r)
             else Ok st);
  B ← FT Zbr B wgt;
  st ← upd_Pt st m n (TT B r);
  B ← RT B Zbr wgt;
  upd_Et st m n (HT B r).

Definition alg5_cpe_stage1 (m_size n_size r : nat) (wgt : vec)
    (matrices : list matrix) (st : store) : result store :=
  Z2 ← unpack2 (py_slice 0 2 matrices);
  foldM (cpe_stage1_block m_size n_size r wgt Z2.1 Z2.2)
        (n_major m_size n_size) st.

Definition cpe_stage23_column (m_size : nat)
    (AbF AbR HARB_AFP SFAbarF SRFArF SRAbaRSRFArFSFAbarF : matrix)
    (st : store) (n : nat) : result store :=
  let nz := Z.of_nat n in
  let Mz := Z.of_nat m_size in
  p ← get2 (P st) (-1) nz;
  V ← np_dot SFAbarF p;
  st ← upd_P st (-1) nz V;
  st ← stage2_sweep AbF m_size n st;
  p ← get2 (P st) (Mz - 1) nz;
  a ← np_dot SRFArF p;
  e ← get2 (E st) Mz nz;
  b ← np_dot SRAbaRSRFArFSFAbarF e;
  V ← np_add a b;
  st ← upd_E st Mz nz V;
  stage3_sweep HARB_AFP AbR m_size n st.

Definition alg5_cpe_stage23 (m_size n_size : nat)
    (matrices cpe_matrices : list matrix) (st : store) : result store :=
  M3 ← unpack3 (py_slice 6 9 matrices);
  let '(AbF, AbR, HARB_AFP) := M3 in
  C3 ← unpack3 (py_slice 0 3 cpe_matrices);
  let '(SFAbarF, SRFArF, SRAbaRSRFArFSFAbarF) := C3 in
  foldM (cpe_stage23_column m_size AbF AbR HARB_AFP
                            SFAbarF SRFArF SRAbaRSRFArFSFAbarF)
        (range n_size) st.

Definition cpe_stage45_row (n_size r : nat)
    (AbFT AbRT HARB_AFPT HARB_AFBT ARB_AFP TAFBT ARE : matrix)
    (AbarFSFT ArFSRFT AbarFSFSRAbaRSRFArFT : matrix)
    (st : store) (m : nat) : result store :=
  let mz := Z.of_nat m in
  let Nz := Z.of_nat n_size in
  p ← get2 (P st) (mz - 1) 0;
  let cnw := tile_cols (HT p 1) r in
  e ← get2 (E st) (mz + 1) 0;
  let csw := tile_cols (HT e 1) r in
  pt ← get2 (Pt st) mz (-1);
  d ← np_dot ARB_AFP cnw; s ← np_add pt d;
  d ← np_dot ARE csw; V ← np_add s d;
  st ← upd_Pt st mz (-1) V;
  pt ← get2 (Pt st) mz (-1);
  V ← np_dot pt AbarFSFT;
  st ← upd_Pt st mz (-1) V;
  st ← stage4_sweep ARB_AFP ARE TAFBT AbFT n_size m st;
  p ← get2 (P st) (mz - 1) (Nz - 1);
  let cne := tile_cols (TT p 1) r in
  e ← get2 (E st) (mz + 1) (Nz - 1);
  let cse := tile_cols (TT e 1) r in
  et ← get2 (Et st) mz Nz;
  d ← np_dot ARB_AFP cne; s ← np_add et d;
  d ← np_dot ARE cse; V ← np_add s d;
  st ← upd_Et st mz Nz V;
  pt ← get2 (Pt st) mz (Nz - 1);
  a ← np_dot pt ArFSRFT;
  et ← get2 (Et st) mz Nz;
  b ← np_dot et AbarFSFSRAbaRSRFArFT;
  V ← np_add a b;
  st ← upd_Et st mz Nz V;
  stage5_sweep ARB_AFP ARE HARB_AFBT HARB_AFPT AbRT n_size m st.

Definition alg5_cpe_stage45 (m_size n_size r : nat)
    (matrices cpe_matrices : list matrix) (st : store) : result store :=
  M7 ← unpack7 (py_slice 9 16 matrices);
  let '(AbFT, AbRT, HARB_AFPT, HARB_AFBT, ARB_AFP, TAFBT, ARE) := M7 in
  C3 ← unpack3 (drop 3 cpe_matrices);
  let '(AbarFSFT, ArFSRFT, AbarFSFSRAbaRSRFArFT) := C3 in
  foldM (cpe_stage45_row n_size r AbFT AbRT HARB_AFPT HARB_AFBT ARB_AFP TAFBT
                         ARE AbarFSFT ArFSRFT AbarFSFSRAbaRSRFArFT)
        (range m_size) st.

(** ** Periodic extension (PE) *)

(** The first pass over one column: the accumulator [PM1Y]. *)
Definition pe_PM1Y (AbF Zrb : matrix) (m_size n : nat) (st : store)
  : result matrix :=
  foldM (fun PM1Y m =>
           eqn24 AbF (get2 (P st) (Z.of_nat m) (Z.of_nat n)) (Ok PM1Y))
        (range m_size) Zrb.

Definition pe_E0Z (HARB_AFP AbR Zrb : matrix) (m_size n : nat) (st : store)
  : result matrix :=
  foldM (fun E0Z m =>
           eqn34 HARB_AFP AbR (get2 (E st) (Z.of_nat m) (Z.of_nat n))
                 (get2 (P st) (Z.of_nat m - 1) (Z.of_nat n)) (Ok E0Z))
        (range_down m_size) Zrb.

Definition pe_stage23_column (m_size : nat)
    (Zrb AbF AbR HARB_AFP IAhF IAhR : matrix) (st : store) (n : nat)
  : result store :=
  PM1Y ← pe_PM1Y AbF Zrb m_size n st;
  V ← np_dot IAhF PM1Y;
  st ← upd_P st (-1) (Z.of_nat n) V;
  st ← stage2_sweep AbF m_size n st;
  E0Z ← pe_E0Z HARB_AFP AbR Zrb m_size n st;
  V ← np_dot IAhR E0Z;
  st ← upd_E st (Z.of_nat m_size) (Z.of_nat n) V;
  stage3_sweep HARB_AFP AbR m_size n st.

Definition alg5_pe_stage23 (m_size n_size : nat)
    (matrices pe_matrices : list matrix) (st : store) : result store :=
  Zrb ← py_get matrices 0;
  M3 ← unpack3 (py_slice 6 9 matrices);
  let '(AbF, AbR, HARB_AFP) := M3 in
  I2 ← unpack2 (py_slice 0 2 pe_matrices);
  let '(IAhF, IAhR) := I2 in
  foldM (pe_stage23_column m_size Zrb AbF AbR HARB_AFP IAhF IAhR)
        (range n_size) st.

Definition pe_stage45_row (n_size : nat)
    (AbFT AbRT HARB_AFPT HARB_AFBT ARB_AFP TAFBT ARE Zbr IAwF IAwR : matrix)
    (st : store) (m : nat) : result store :=
  let mz := Z.of_nat m in
  PtNU ← foldM (fun PtNU n =>
                  eqn37 ARB_AFP ARE TAFBT AbFT (get2 (Pt st) mz (Z.of_nat n))
                    (get2 (P st) (mz - 1) (Z.of_nat n))
                    (get2 (E st) (mz + 1) (Z.of_nat n)) (Ok PtNU))
               (range n_size) Zbr;
  V ← np_dot PtNU IAwF;
  st ← upd_Pt st mz (-1) V;
  st ← stage4_sweep ARB_AFP ARE TAFBT AbFT n_size m st;
  Et0V ← foldM (fun Et0V n =>
                  eqn39 ARB_AFP ARE HARB_AFBT HARB_AFPT AbRT
                    (get2 (Et st) mz (Z.of_nat n))
                    (get2 (P st) (mz - 1) (Z.of_nat n))
                    (get2 (E st) (mz + 1) (Z.of_nat n))
                    (get2 (Pt st) mz (Z.of_nat n - 1)) (Ok Et0V))
               (range_down n_size) Zbr;
  V ← np_dot Et0V IAwR;
  st ← upd_Et st mz (Z.of_nat n_size) V;
  stage5_sweep ARB_AFP ARE HARB_AFBT HARB_AFPT AbRT n_size m st.

Definition alg5_pe_stage45 (m_size n_size r : nat)
    (matrices pe_matrices : list matrix) (st : store) : result store :=
  M7 ← unpack7 (py_slice 9 16 matrices);
  let '(AbFT, AbRT, HARB_AFPT, HARB_AFBT, ARB_AFP, TAFBT, ARE) := M7 in
  Zbr ← py_get matrices 1;
  I2 ← unpack2 (drop 2 pe_matrices);
  let '(IAwF, IAwR) := I2 in
  foldM (pe_stage45_row n_size AbFT AbRT HARB_AFPT HARB_AFBT ARB_AFP TAFBT
                        ARE Zbr IAwF IAwR)
        (range m_size) st.

(** ** Even-periodic extension (EPE) *)

(** One column of [alg5_epe_stage23]; [tP] is the local copy of [P]. *)
Definition epe_stage23_column (m_size : nat)
    (Zrb AhF AbF AbR HARB_AFP L M1h M2h : matrix)
    (s : store * grid) (n : nat) : result (store * grid) :=
  let st := s.1 in
  let nz := Z.of_nat n in
  let Mz := Z.of_nat m_size in
  tP ← foldM (fun tP m =>
                V ← eqn24 AbF (get2 tP (Z.of_nat m) nz)
                              (get2 tP (Z.of_nat m - 1) nz);
                set2 tP (Z.of_nat m) nz V)
             (range m_size) s.2;
  E0Z ← foldM (fun E0Z m =>
                 eqn34 HARB_AFP AbR (get2 (E st) (Z.of_nat m) nz)
                       (get2 tP (Z.of_nat m - 1) nz) (Ok E0Z))
              (range_down m_size) Zrb;
  a ← np_dot M1h E0Z;
  t ← get2 tP (Mz - 1) nz;
  b ← np_dot M2h t;
  V ← np_add a b;
  st ← upd_P st (-1) nz V;
  p ← get2 (P st) (-1) nz;
  a ← np_dot AhF p;
  t ← get2 tP (Mz - 1) nz;
  b ← np_add a t;
  V ← np_dot L b;
  st ← upd_E st Mz nz V;
  st ← stage2_sweep AbF m_size n st;
  st ← stage3_sweep HARB_AFP AbR m_size n st;
  Ok (st, tP).

Definition alg5_epe_stage23 (m_size n_size : nat)
    (matrices epe_matrices : list matrix) (st : store) : result store :=
  Zrb ← py_get matrices 0;
  AhF ← py_get matrices 23;
  M3 ← unpack3 (py_slice 6 9 matrices);
  let '(AbF, AbR, HARB_AFP) := M3 in
  L ← py_get epe_matrices 0;
  M1h ← py_get epe_matrices 3;
  M2h ← py_get epe_matrices 4;
  s ← foldM (epe_stage23_column m_size Zrb AhF AbF AbR HARB_AFP L M1h M2h)
            (range n_size) (st, P st);
  Ok s.1.

(** One row of [alg5_epe_stage45]; [tPt] is the local copy of [Pt]. *)
Definition epe_stage45_row (n_size : nat)
    (Zbr AwF AbFT AbRT HARB_AFPT HARB_AFBT ARB_AFP TAFBT ARE L M1w M2w : matrix)
    (s : store * grid) (m : nat) : result (store * grid) :=
  let st := s.1 in
  let mz := Z.of_nat m in
  let Nz := Z.of_nat n_size in
  tPt ← foldM (fun tPt n =>
                 V ← eqn37 ARB_AFP ARE TAFBT AbFT (get2 tPt mz (Z.of_nat n))
                       (get2 (P st) (mz - 1) (Z.of_nat n))
                       (get2 (E st) (mz + 1) (Z.of_nat n))
                       (get2 tPt mz (Z.of_nat n - 1));
                 set2 tPt mz (Z.of_nat n) V)
              (range n_size) s.2;
  Et0V ← foldM (fun Et0V n =>
                  eqn39 ARB_AFP ARE HARB_AFBT HARB_AFPT AbRT
                    (get2 (Et st) mz (Z.of_nat n))
                    (get2 (P st) (mz - 1) (Z.of_nat n))
                    (get2 (E st) (mz + 1) (Z.of_nat n))
                    (get2 tPt mz (Z.of_nat n - 1)) (Ok Et0V))
               (range_down n_size) Zbr;
  a ← np_dot Et0V (transpose M1w);
  t ← get2 tPt mz (Nz - 1);
  b ← np_dot t (transpose M2w);
  V ← np_add a b;
  st ← upd_Pt st mz (-1) V;
  pt ← get2 (Pt st) mz (-1);
  a ← np_dot pt (transpose AwF);
  t ← get2 tPt mz (Nz - 1);
  b ← np_add a t;
  V ← np_dot b (transpose L);
  st ← upd_Et st mz Nz V;
  st ← stage4_sweep ARB_AFP ARE TAFBT AbFT n_size m st;
  st ← stage5_sweep ARB_AFP ARE HARB_AFBT HARB_AFPT AbRT n_size m st;
  Ok (st, tPt).

Definition alg5_epe_stage45 (m_size n_size r : nat)
    (matrices epe_matrices : list matrix) (st : store) : result store :=
  Zbr ← py_get matrices 1;
  AwF ← py_get matrices 21;
  M7 ← unpack7 (py_slice 9 16 matrices);
  let '(AbFT, AbRT, HARB_AFPT, HARB_AFBT, ARB_AFP, TAFBT, ARE) := M7 in
  L3 ← unpack3 (py_slice 0 3 epe_matrices);
  let '(L, M1w, M2w) := L3 in
  s ← foldM (epe_stage45_row n_size Zbr AwF AbFT AbRT HARB_AFPT HARB_AFBT
                             ARB_AFP TAFBT ARE L M1w M2w)
            (range m_size) (st, Pt st);
  Ok s.1.

(** ** Extension-matrix builders *)

Section Builders.

(** The two routines of the numeric library that the builders call:
    [np.linalg.inv(A)], which raises [LinAlgError] on a singular matrix, and
    [linalg.lu_solve(linalg.lu_factor(A), b)]. *)
Variable np_linalg_inv : matrix -> result matrix.
Variable lu_solve_factor : matrix -> vec -> result vec.

(** [sysA[k][u] -= ArR[j][q] * ArF[p][i]] with [u = r*p + q]. *)
Definition cpe_sys_tap (r : nat) (ArF ArR : matrix) (i j k : nat)
    (sysA : matrix) (qp : nat * nat) : result matrix :=
  let q := qp.1 in
  let p := qp.2 in
  let u := r * p + q in
  old ← mget sysA (Z.of_nat k) (Z.of_nat u);
  a ← mget ArR (Z.of_nat j) (Z.of_nat q);
  b ← mget ArF (Z.of_nat p) (Z.of_nat i);
  mset sysA (Z.of_nat k) (Z.of_nat u) (rsub old (rmul a b)).

(** The body of the loops over [i] and [j]: row [k = r*i + j] of the
    system. *)
Definition cpe_sys_row (r : nat) (ArF ArR AbarR : matrix)
    (S : matrix * vec) (ij : nat * nat) : result (matrix * vec) :=
  let i := ij.1 in
  let j := ij.2 in
  let k := r * i + j in
  sysA ← mset S.1 (Z.of_nat k) (Z.of_nat k) rI;
  sysA ← foldM (cpe_sys_tap r ArF ArR i j k)
               (q ← range r; p ← range r; [(q, p)]) sysA;
  v ← mget AbarR (Z.of_nat j) (Z.of_nat i);
  sysb ← py_set S.2 (Z.of_nat k) v;
  Ok (sysA, sysb).

(** [(sysA, sysb)] of [build_cpe_matrices]. *)
Definition cpe_system (r : nat) (ArF ArR AbarR : matrix)
  : result (matrix * vec) :=
  foldM (cpe_sys_row r ArF ArR AbarR) (i ← range r; j ← range r; [(i, j)])
        (zeros (r * r) (r * r), replicate (r * r) rO).

(** [SRF[j][i] = sysx[r*i + j]]. *)
Definition cpe_SRF (r : nat) (sysx : vec) : result matrix :=
  foldM (fun SRF ij =>
           v ← py_get sysx (Z.of_nat (r * ij.1 + ij.2));
           mset SRF (Z.of_nat ij.2) (Z.of_nat ij.1) v)
        (i ← range r; j ← range r; [(i, j)]) (zeros r r).

Definition build_cpe_matrices (r : nat) (wgt : vec) (alg5m : list matrix)
  : result (list matrix) :=
  Ir ← py_get alg5m 2;
  AFP ← py_get alg5m 4;
  A4 ← unpack4 (py_slice 17 21 alg5m);
  let '(ArF, ArR, AbarF, AbarR) := A4 in
  S ← cpe_system r ArF ArR AbarR;
  sysx ← lu_solve_factor S.1 S.2;
  SRF ← cpe_SRF r sysx;
  IArF ← np_sub Ir ArF;
  IArR ← np_sub Ir ArR;
  SF ← np_linalg_inv IArF;
  SR ← np_linalg_inv IArR;
  SFAbarF ← np_dot SF AbarF;
  SRFArF ← np_dot SRF ArF;
  a ← np_dot SR AbarR;
  b ← np_dot SRF ArF;
  c ← np_sub a b;
  c ← np_dot c SF;
  SRAbaRSRFArFSFAbarF ← np_dot c AbarF;
  let AbarFSFT := transpose SFAbarF in
  let ArFSRFT := transpose SRFArF in
  let AbarFSFSRAbaRSRFArFT := transpose SRAbaRSRFArFSFAbarF in
  Ok [SFAbarF; SRFArF; SRAbaRSRFArFSFAbarF;
      AbarFSFT; ArFSRFT; AbarFSFSRAbaRSRFArFT].

Definition build_pe_matrices (r : nat) (wgt : vec) (alg5m : list matrix)
  : result (list matrix) :=
  Ir ← py_get alg5m 2;
  A4 ← unpack4 (py_slice 21 25 alg5m);
  let '(AwF, AwR, AhF, AhR) := A4 in
  a ← np_sub Ir AwF; IAwF ← np_linalg_inv a;
  a ← np_sub Ir AwR; IAwR ← np_linalg_inv a;
  a ← np_sub Ir AhF; IAhF ← np_linalg_inv a;
  let IAhF := transpose IAhF in
  a ← np_sub Ir AhR; IAhR ← np_linalg_inv a;
  let IAhR := transpose IAhR in
  Ok [IAhF; IAhR; IAwF; IAwR].

Definition build_epe_matrices (r : nat) (wgt : vec) (alg5m : list matrix)
  : result (list matrix) :=
  Ir ← py_get alg5m 2;
  AbF ← py_get alg5m 6;
  AbR ← py_get alg5m 7;
  A9 ← unpack9 (py_slice 16 25 alg5m);
  let '(K, ArF, ArR, AbarF, AbarR, AwF, AwR, AhF, AhR) := A9 in
  a ← np_sub K ArR; a ← np_linalg_inv a;
  L ← np_dot a AbarR;
  a ← np_dot AwF AwF; a ← np_sub Ir a;
  IA2wF ← np_linalg_inv a;
  a ← np_dot AhF AhF; a ← np_sub Ir a;
  IA2hF ← np_linalg_inv a;
  AbarFi ← np_linalg_inv AbarF;
  a ← np_dot ArF ArR; a ← np_sub Ir a; a ← np_dot AbarFi a;
  a ← np_dot K a;
  M1w ← np_dot IA2wF a;
  a ← np_dot ArF AbarR; a ← np_dot AbarFi a; a ← np_dot AwR a;
  a ← np_dot K a; a ← np_add AwF a;
  M2w ← np_dot IA2wF a;
  a ← np_dot ArF ArR; a ← np_sub Ir a; a ← np_dot AbarFi a;
  a ← np_dot K a;
  M1h ← np_dot IA2hF a;
  a ← np_dot ArF AbarR; a ← np_dot AbarFi a; a ← np_dot AhR a;
  a ← np_dot K a; a ← np_add AhF a;
  M2h ← np_dot IA2hF a;
  Ok [L; M1w; M2w; M1h; M2h].

End Builders.

End Model.

(** ** Definitions that follow the words of the specification *)

Section Spec_words.
Context {D : Type} {SD : Scalar D}.

(** [l[i]] read as a value ([0] where Python would raise). *)
Definition py_nth (l : list D) (i : Z) : D :=
  match py_get l i with
  | Ok v => v
  | Err _ => rO
  end.

(** Entry [j] of the forward sweep in the words of the specification: the
    entry is scaled by [b0 = w[0]], then for [k = 1..r] the product of [w[k]]
    with [prol[j-k]] (when [j-k < 0]) or with the updated [y[j-k]] is
    subtracted. *)
Definition fwd_entry_spec (prol w x y : list D) (j : nat) : D :=
  fold_left
    (fun acc k =>
       rsub acc
            (rmul (nth k w rO)
                  (if (Z.of_nat j - Z.of_nat k <? 0)%Z
                   then py_nth prol (Z.of_nat j - Z.of_nat k)
                   else nth (j - k) y rO)))
    (seq 1 (length w - 1))
    (rmul (nth 0 w rO) (nth j x rO)).

(** The value a feedback tap reads, as the source reads it. *)
Definition fwd_operand (prol bloc : list D) (j k : nat) : D :=
  if (Z.of_nat j - Z.of_nat k <? 0)%Z
  then py_nth prol (Z.of_nat j - Z.of_nat k)
  else nth (j - k) bloc rO.


(** Entry [j] after the sweep, with the operands in the order of the
    source. *)
Definition fwd_entry (prol weig x y : list D) (j : nat) : D :=
  fold_left (fun acc k =>
               rsub acc (rmul (fwd_operand prol y j k) (nth k weig rO)))
            (seq 1 (length weig - 1))
            (rmul (nth j x rO) (nth 0 weig rO)).

(** A 2-D array of shape [(h, w)]. *)
Definition has_shape (h w : nat) (A : list (list D)) : Prop :=
  length A = h /\ Forall (fun row => length row = w) A.

(** Cell [(i, j)] of a 2-D array, when it exists. *)
Definition cell (A : list (list D)) (i j : nat) : option D :=
  A !! i ≫= fun row => row !! j.

(** Block [(m, n)] of a grid. *)
Definition grid_block (G : list (list (list (list D)))) (m n : nat)
  : list (list D) :=
  nth n (nth m G []) [].

(** The decomposition in the words of the specification: an [M] by [N]
    grid of [b] by [b] blocks with [M = ceil(H/b)] and [N = ceil(W/b)], block
    [(m, n)] holding rows [m*b .. (m+1)*b) and columns [n*b .. (n+1)*b) of
    [X], the cells outside the image holding zero. *)
Definition zero_padded_blocks (X : list (list D)) (b : nat)
    (G : list (list (list (list D)))) : Prop :=
  let Hh := nrows X in
  let W := ncols X in
  exists M N : nat,
    (Hh <= M * b < Hh + b) /\ (W <= N * b < W + b) /\
    length G = M /\ Forall (fun row => length row = N) G /\
    forall m n, m < M -> n < N ->
      has_shape b b (grid_block G m n) /\
      forall i j, i < b -> j < b ->
        entry (grid_block G m n) i j
        = if decide (m * b + i < Hh /\ n * b + j < W)
          then entry X (m * b + i) (n * b + j) else rO.

(** The grid of an image whose sides are multiples of [b]. *)
Definition exact_blocks (X : list (list D)) (b Mm Nn : nat)
  : list (list (list (list D))) :=
  map (fun m => map (fun n => slice2 X (m * b) ((m + 1) * b) (n * b) ((n + 1) * b))
                    (range Nn))
      (range Mm).

(** Prologues for [h] rows, each long enough for the taps of [weig]. *)
Definition long_rows (h : nat) (weig : list D) (Prol : list (list D)) : Prop :=
  h <= length Prol /\ Forall (fun p => length weig - 1 <= length p) Prol.

(** A 4-D array of shape [(rows, cols, h, w)]. *)
Definition grid_shape (rows cols h w : nat)
    (G : list (list (list (list D)))) : Prop :=
  length G = rows /\
  Forall (fun row => length row = cols /\ Forall (has_shape h w) row) G.

(** The grid with slot [(m, n)] replaced. *)
Definition grid_put (G : list (list (list (list D)))) (m n : nat)
    (V : list (list D)) : list (list (list (list D))) :=
  alter (fun row => <[n := V]> row) m G.

(** The arrays of a run on [M] by [N] blocks of side [b] with filter order
    [r], as [break_blocks] and [build_alg5_carries] shape them. *)
Definition wf_store (Mm Nn r b : nat) (st : store (D := D)) : Prop :=
  grid_shape Mm Nn b b (blocks st) /\
  grid_shape (Mm + 1) Nn r b (P st) /\
  grid_shape (Mm + 1) Nn r b (E st) /\
  grid_shape Mm (Nn + 1) b r (Pt st) /\
  grid_shape Mm (Nn + 1) b r (Et st).

(** Stage 1 on one block in the words of the specification (section 4.5):
    the four carries of a block [B] of side [b]. *)
Definition block_carries (r : nat) (w : list D) (B : list (list D))
  : result (list (list D) * list (list D) * list (list D) * list (list D)) :=
  let b := nrows B in
  B1 ← F (zeros r b) B w;
  B2 ← R B1 (zeros r b) w;
  B3 ← FT (zeros b r) B2 w;
  B4 ← RT B3 (zeros b r) w;
  Ok (T B1 r, H B2 r, TT B3 r, HT B4 r).

Definition carries_of (r : nat) (w : list D) (B : list (list D))
  : list (list D) * list (list D) * list (list D) * list (list D) :=
  match block_carries r w B with
  | Ok c => c
  | Err _ => ([], [], [], [])
  end.

(** The store with the four carries [c] written at slot [(m, n)]. *)
Definition store_put (st : store (D := D)) (m n : nat)
    (c : list (list D) * list (list D) * list (list D) * list (list D))
  : store :=
  mk_store (blocks st)
           (grid_put (P st) m n c.1.1.1) (grid_put (E st) m n c.1.1.2)
           (grid_put (Pt st) m n c.1.2) (grid_put (Et st) m n c.2).

(** The slots after the blocks [idxs] have been processed, in any order. *)
Definition stage1_done (r : nat) (wgt : list D) (st : store (D := D))
    (idxs : list (nat * nat)) (st' : store (D := D)) : Prop :=
  blocks st' = blocks st /\
  forall m n,
    let c := carries_of r wgt (grid_block (blocks st) m n) in
    grid_block (P st') m n
    = (if decide ((m, n) ∈ idxs) then c.1.1.1 else grid_block (P st) m n) /\
    grid_block (E st') m n
    = (if decide ((m, n) ∈ idxs) then c.1.1.2 else grid_block (E st) m n) /\
    grid_block (Pt st') m n
    = (if decide ((m, n) ∈ idxs) then c.1.2 else grid_block (Pt st) m n) /\
    grid_block (Et st') m n
    = (if decide ((m, n) ∈ idxs) then c.2 else grid_block (Et st) m n).

(** Powers of a square matrix and sums of [(h, w)] matrices, for the closed
    form of the forward sweep. *)
Fixpoint mpow (A : list (list D)) (k : nat) : list (list D) :=
  match k with
  | 0 => identity (nrows A)
  | S k' => dot A (mpow A k')
  end.

Definition msum (h w : nat) (l : list (list (list D))) : list (list D) :=
  foldr madd (zeros h w) l.

(** [sum over k = 0..m of AbF^(m-k) * P1[k]] for [r] by [b] carries. *)
Definition stage2_closed_form (AbF : list (list D)) (r b : nat)
    (P1 : nat -> list (list D)) (m : nat) : list (list D) :=
  msum r b (map (fun k => dot (mpow AbF (m - k)) (P1 k)) (seq 0 (m + 1))).

(** The row of slots that [G[m-1]] reads in an array of [M + 1] rows of
    slots: the boundary row [M] for [m = 0]. *)
Definition prev_row (Mm m : nat) : nat :=
  if decide (m = 0) then Mm else m - 1.

(** The PE accumulator in the words of the specification: [PM1Y] starts at
    zero and becomes [P[m][n] + AbF * PM1Y] for [m = 0..M-1]. *)
Definition pe_accumulate (AbF : list (list D)) (r b : nat)
    (P1 : nat -> list (list D)) (Mm : nat) : list (list D) :=
  fold_left (fun PM1Y m => madd (P1 m) (dot AbF PM1Y)) (seq 0 Mm) (zeros r b).

(** What the forward sweep of column [n] leaves in [P]: the slots of the
    column satisfy the recurrence, the boundary slot and the other columns
    are unchanged. *)
Definition swept_column (AbF : list (list D)) (Mm n : nat)
    (st : store (D := D)) (upto : nat) (st' : store (D := D)) : Prop :=
  blocks st' = blocks st /\ E st' = E st /\ Pt st' = Pt st /\ Et st' = Et st /\
  (forall m n', n' <> n -> grid_block (P st') m n' = grid_block (P st) m n') /\
  (forall m, upto <= m -> grid_block (P st') m n = grid_block (P st) m n) /\
  (forall m, m < upto ->
     grid_block (P st') m n
     = madd (grid_block (P st) m n)
            (dot AbF (grid_block (P st') (prev_row Mm m) n))).


(** Column [n] of [P] after stages 2 and 3: the boundary slot is the one of
    [st], the other slots satisfy the recurrence of the forward sweep. *)
Definition column_done (AbF : list (list D)) (Mm : nat)
    (st st' : store (D := D)) (n : nat) : Prop :=
  grid_block (P st') Mm n = grid_block (P st) Mm n /\
  forall m, m < Mm ->
    grid_block (P st') m n
    = madd (grid_block (P st) m n)
           (dot AbF (grid_block (P st') (prev_row Mm m) n)).

(** Column [n] of [P] after the PE stages 2 and 3, in the words of the
    specification: the boundary slot is [IAhF] times the accumulator, the
    other slots satisfy [P[m][n] = P1[m][n] + AbF * P[m-1][n]]. *)
Definition pe_column_done (AbF IAhF : list (list D)) (r b Mm : nat)
    (st st' : store (D := D)) (n : nat) : Prop :=
  grid_block (P st') Mm n
  = dot IAhF (pe_accumulate AbF r b (fun m => grid_block (P st) m n) Mm) /\
  forall m, m < Mm ->
    grid_block (P st') m n
    = madd (grid_block (P st) m n)
           (dot AbF (grid_block (P st') (prev_row Mm m) n)).

(** A computation that does not raise [LinAlgError]. *)
Definition no_linalg {A : Type} (m : result A) : Prop := m <> Err LinAlgError.

(** Every [np.linalg.inv] call of [build_cpe_matrices] returned: the
    arguments [I - ArF] and [I - ArR] were computed and inverted. *)
Definition cpe_inversions_ok
    (np_linalg_inv : list (list D) -> result (list (list D)))
    (alg5m : list (list (list D))) : Prop :=
  exists Ir ArF ArR IArF IArR,
    alg5m !! 2 = Some Ir /\ alg5m !! 17 = Some ArF /\ alg5m !! 18 = Some ArR /\
    np_sub Ir ArF = Ok IArF /\ np_sub Ir ArR = Ok IArR /\
    is_ok (np_linalg_inv IArF) /\ is_ok (np_linalg_inv IArR).

(** Every [np.linalg.inv] call of [build_epe_matrices] returned: the
    arguments [K - ArR], [I - AwF*AwF], [I - AhF*AhF] and [AbarF]. *)
Definition epe_inversions_ok
    (np_linalg_inv : list (list D) -> result (list (list D)))
    (alg5m : list (list (list D))) : Prop :=
  exists Ir K ArR AbarF AwF AhF X1 A2 X2 A3 X3,
    alg5m !! 2 = Some Ir /\ alg5m !! 16 = Some K /\ alg5m !! 18 = Some ArR /\
    alg5m !! 19 = Some AbarF /\ alg5m !! 21 = Some AwF /\
    alg5m !! 23 = Some AhF /\
    np_sub K ArR = Ok X1 /\
    np_dot AwF AwF = Ok A2 /\ np_sub Ir A2 = Ok X2 /\
    np_dot AhF AhF = Ok A3 /\ np_sub Ir A3 = Ok X3 /\
    is_ok (np_linalg_inv X1) /\ is_ok (np_linalg_inv X2) /\
    is_ok (np_linalg_inv X3) /\ is_ok (np_linalg_inv AbarF).

(** The row-filtered block [R(F(B))] of stage 1, from which the CPE takes
    its column boundary values. *)
Definition row_filtered (r : nat) (w : list D) (B : list (list D))
  : list (list D) :=
  match (B1 ← F (zeros r (nrows B)) B w; R B1 (zeros r (nrows B)) w) with
  | Ok Zh => Zh
  | Err _ => []
  end.

(** The store after one iteration of CPE stage 1 at block [(m, n)]. *)
Definition cpe_put (Mm Nn r : nat) (w : list D) (st : store (D := D))
    (m n : nat) : store :=
  let B := grid_block (blocks st) m n in
  let Zh := row_filtered r w B in
  let c := carries_of r w B in
  mk_store (blocks st)
    (grid_put (if decide (m = 0)
               then grid_put (P st) Mm n (tile_rows (H B 1) r) else P st)
              m n c.1.1.1)
    (grid_put (if decide (m <> 0 /\ m = Mm - 1)
               then grid_put (E st) Mm n (tile_rows (T B 1) r) else E st)
              m n c.1.1.2)
    (grid_put (if decide (n = 0)
               then grid_put (Pt st) m Nn (tile_cols (HT Zh 1) r) else Pt st)
              m n c.1.2)
    (grid_put (if decide (n <> 0 /\ n = Nn - 1)
               then grid_put (Et st) m Nn (tile_cols (TT Zh 1) r) else Et st)
              m n c.2).

(** A slot written by the block [own], if any, once that block has been
    processed. *)
Definition slot_after (idxs : list (nat * nat)) (own : option (nat * nat))
    (new old : list (list D)) : list (list D) :=
  match own with
  | Some x => if decide (x ∈ idxs) then new else old
  | None => old
  end.

(** The blocks that write the slots of [P], [E], [Pt] and [Et] in CPE
    stage 1: a slot of the boundary row [M] or column [N] is written by the
    first block of its column or row, or by the last one when that is not
    also the first. *)
Definition cpe_own_P (Mm : nat) (s : nat * nat) : option (nat * nat) :=
  if decide (s.1 = Mm) then Some (0, s.2) else Some s.
Definition cpe_own_E (Mm : nat) (s : nat * nat) : option (nat * nat) :=
  if decide (s.1 = Mm)
  then if decide (Mm - 1 = 0) then None else Some (Mm - 1, s.2)
  else Some s.
Definition cpe_own_Pt (Nn : nat) (s : nat * nat) : option (nat * nat) :=
  if decide (s.2 = Nn) then Some (s.1, 0) else Some s.
Definition cpe_own_Et (Nn : nat) (s : nat * nat) : option (nat * nat) :=
  if decide (s.2 = Nn)
  then if decide (Nn - 1 = 0) then None else Some (s.1, Nn - 1)
  else Some s.

(** The values CPE stage 1 writes into the slots. *)
Definition cpe_val_P (Mm r : nat) (w : list D) (st : store (D := D))
    (s : nat * nat) : list (list D) :=
  if decide (s.1 = Mm) then tile_rows (H (grid_block (blocks st) 0 s.2) 1) r
  else (carries_of r w (grid_block (blocks st) s.1 s.2)).1.1.1.
Definition cpe_val_E (Mm r : nat) (w : list D) (st : store (D := D))
    (s : nat * nat) : list (list D) :=
  if decide (s.1 = Mm)
  then tile_rows (T (grid_block (blocks st) (Mm - 1) s.2) 1) r
  else (carries_of r w (grid_block (blocks st) s.1 s.2)).1.1.2.
Definition cpe_val_Pt (Nn r : nat) (w : list D) (st : store (D := D))
    (s : nat * nat) : list (list D) :=
  if decide (s.2 = Nn)
  then tile_cols (HT (row_filtered r w (grid_block (blocks st) s.1 0)) 1) r
  else (carries_of r w (grid_block (blocks st) s.1 s.2)).1.2.
Definition cpe_val_Et (Nn r : nat) (w : list D) (st : store (D := D))
    (s : nat * nat) : list (list D) :=
  if decide (s.2 = Nn)
  then tile_cols
         (TT (row_filtered r w (grid_block (blocks st) s.1 (Nn - 1))) 1) r
  else (carries_of r w (grid_block (blocks st) s.1 s.2)).2.

(** The slots after CPE stage 1 has processed the blocks [idxs], in any
    order. *)
Definition cpe_stage1_done (Mm Nn r : nat) (w : list D)
    (st : store (D := D)) (idxs : list (nat * nat)) (st' : store (D := D))
  : Prop :=
  blocks st' = blocks st /\
  forall s : nat * nat,
    grid_block (P st') s.1 s.2
    = slot_after idxs (cpe_own_P Mm s) (cpe_val_P Mm r w st s)
        (grid_block (P st) s.1 s.2) /\
    grid_block (E st') s.1 s.2
    = slot_after idxs (cpe_own_E Mm s) (cpe_val_E Mm r w st s)
        (grid_block (E st) s.1 s.2) /\
    grid_block (Pt st') s.1 s.2
    = slot_after idxs (cpe_own_Pt Nn s) (cpe_val_Pt Nn r w st s)
        (grid_block (Pt st) s.1 s.2) /\
    grid_block (Et st') s.1 s.2
    = slot_after idxs (cpe_own_Et Nn s) (cpe_val_Et Nn r w st s)
        (grid_block (Et st) s.1 s.2).

End Spec_words.

(** ** Definitions used to state further properties of the code *)

Section Statements.
Context {D : Type} {SD : Scalar D}.

(** The value a feedback tap of [rev] reads: an entry of the epilogue past
    the end of the row, an entry of the row otherwise. *)
Definition rev_operand (epil bloc : list D) (j k : nat) : D :=
  if decide (length bloc <= j + k) then nth (j + k - length bloc) epil rO
  else nth (j + k) bloc rO.

(** Entry [j] after the reverse sweep, with the operands in the order of the
    source. *)
Definition rev_entry (epil weig x y : list D) (j : nat) : D :=
  fold_left (fun acc k =>
               rsub acc (rmul (rev_operand epil y j k) (nth k weig rO)))
            (seq 1 (length weig - 1))
            (rmul (nth j x rO) (nth 0 weig rO)).

(** Column [j] of a 2-D array. *)
Definition column (j : nat) (A : list (list D)) : list D :=
  map (fun row => nth j row rO) A.

(** Column [n] of [E] after stages 2 and 3: the boundary slot [E[M][n]] is
    the one of [st]; every other slot is its value in [st] plus [HARB_AFP]
    times the resolved [P[m-1][n]] plus [AbR] times the resolved
    [E[m+1][n]]. *)
Definition column_done_E (HARB_AFP AbR : list (list D)) (Mm : nat)
    (st st' : store (D := D)) (n : nat) : Prop :=
  grid_block (E st') Mm n = grid_block (E st) Mm n /\
  forall m, m < Mm ->
    grid_block (E st') m n
    = madd (madd (grid_block (E st) m n)
                 (dot HARB_AFP (grid_block (P st') (prev_row Mm m) n)))
           (dot AbR (grid_block (E st') (m + 1) n)).

(** The right-hand sides of eqns. (37) and (39) on well-shaped operands. *)
Definition eqn37_value (ARB_AFP ARE TAFBT AbFT X Pm Em Y : list (list D))
  : list (list D) :=
  madd (madd (madd X (dot ARB_AFP (dot Pm TAFBT))) (dot ARE (dot Em TAFBT)))
       (dot Y AbFT).

Definition eqn39_value
    (ARB_AFP ARE HARB_AFBT HARB_AFPT AbRT X Pm Em Ptm Y : list (list D))
  : list (list D) :=
  madd (madd (madd (madd X (dot ARB_AFP (dot Pm HARB_AFBT)))
                   (dot ARE (dot Em HARB_AFBT)))
             (dot Ptm HARB_AFPT))
       (dot Y AbRT).

(** Row [m] of [Pt] and [Et] after stages 4 and 5: the boundary slots
    [Pt[m][-1]] and [Et[m][N]] are those of [st]; the slots of [Pt] satisfy
    eqn. (37) from left to right and those of [Et] eqn. (39) from right to
    left. *)
Definition row_done
    (AbFT AbRT HARB_AFPT HARB_AFBT ARB_AFP TAFBT ARE : list (list D))
    (Mm Nn : nat) (st st' : store (D := D)) (m : nat) : Prop :=
  grid_block (Pt st') m Nn = grid_block (Pt st) m Nn /\
  grid_block (Et st') m Nn = grid_block (Et st) m Nn /\
  forall n, n < Nn ->
    grid_block (Pt st') m n
    = eqn37_value ARB_AFP ARE TAFBT AbFT (grid_block (Pt st) m n)
        (grid_block (P st) (prev_row Mm m) n) (grid_block (E st) (m + 1) n)
        (grid_block (Pt st') m (prev_row Nn n)) /\
    grid_block (Et st') m n
    = eqn39_value ARB_AFP ARE HARB_AFBT HARB_AFPT AbRT (grid_block (Et st) m n)
        (grid_block (P st) (prev_row Mm m) n) (grid_block (E st) (m + 1) n)
        (grid_block (Pt st') m (prev_row Nn n))
        (grid_block (Et st') m (n + 1)).

(** The matrices that stages 4 and 5 unpack, with their shapes. *)
Definition stage45_shapes (r b : nat)
    (AbFT AbRT HARB_AFPT HARB_AFBT ARB_AFP TAFBT ARE : list (list D)) : Prop :=
  has_shape r r AbFT /\ has_shape r r AbRT /\ has_shape r r HARB_AFPT /\
  has_shape b r HARB_AFBT /\ has_shape b r ARB_AFP /\ has_shape b r TAFBT /\
  has_shape b r ARE.

(** The block that stage 6 writes, as a function of the block and of its
    four incoming carries. *)
Definition block_output (w : list D) (B p e pt et : list (list D))
  : result (list (list D)) :=
  B1 ← F p B w; B2 ← R B1 e w; B3 ← FT pt B2 w; RT B3 et w.

(** The blocks after stage 6 has processed the blocks [idxs]. *)
Definition stage6_done (Mm Nn : nat) (w : list D) (st : store (D := D))
    (idxs : list (nat * nat)) (st' : store (D := D)) : Prop :=
  forall m n, m < Mm -> n < Nn ->
    if decide ((m, n) ∈ idxs)
    then block_output w (grid_block (blocks st) m n)
           (grid_block (P st) (prev_row Mm m) n) (grid_block (E st) (m + 1) n)
           (grid_block (Pt st) m (prev_row Nn n)) (grid_block (Et st) m (n + 1))
         = Ok (grid_block (blocks st') m n)
    else grid_block (blocks st') m n = grid_block (blocks st) m n.

(** The shapes of the 25 matrices of [build_alg5_matrices], in the order of
    the returned tuple.  The last four are cut out of arrays of [width] rows
    or [height] columns, which may be fewer than [r]. *)
Definition alg5_matrix_shapes (b r width height : nat) : list (nat * nat) :=
  [(r, b); (b, r); (r, r); (b, b); (b, r); (b, b); (r, r); (r, r);
   (r, r); (r, r); (r, r); (r, r); (b, r);
   (b, r); (b, r); (b, r); (r, r); (r, r); (r, r); (r, r); (r, r);
   (r `min` width, r); (r `min` width, r);
   (r, r `min` height); (r, r `min` height)].

(** Every [np.linalg.inv] call of [build_pe_matrices] returned: the
    arguments [I - AwF], [I - AwR], [I - AhF] and [I - AhR]. *)
Definition pe_inversions_ok
    (np_linalg_inv : list (list D) -> result (list (list D)))
    (alg5m : list (list (list D))) : Prop :=
  exists Ir AwF AwR AhF AhR X1 X2 X3 X4,
    alg5m !! 2 = Some Ir /\ alg5m !! 21 = Some AwF /\
    alg5m !! 22 = Some AwR /\ alg5m !! 23 = Some AhF /\
    alg5m !! 24 = Some AhR /\
    np_sub Ir AwF = Ok X1 /\ np_sub Ir AwR = Ok X2 /\
    np_sub Ir AhF = Ok X3 /\ np_sub Ir AhR = Ok X4 /\
    is_ok (np_linalg_inv X1) /\ is_ok (np_linalg_inv X2) /\
    is_ok (np_linalg_inv X3) /\ is_ok (np_linalg_inv X4).

(** Column [n] of [P] and [E] after the CPE stages 2 and 3: the boundary
    slot [P[-1][n]] is multiplied by [SFAbarF], the column of [P] satisfies
    the forward recurrence from it, the boundary slot [E[M][n]] is
    [SRFArF * P[M-1][n] + SRAbaR * E[M][n]] (eqn. 22, with the resolved [P]
    and the old [E]), and the column of [E] satisfies the backward
    recurrence from it. *)
Definition cpe_column_done
    (AbF AbR HARB_AFP SFAbarF SRFArF SRAbaR : list (list D)) (Mm : nat)
    (st st' : store (D := D)) (n : nat) : Prop :=
  grid_block (P st') Mm n = dot SFAbarF (grid_block (P st) Mm n) /\
  (forall m, m < Mm ->
     grid_block (P st') m n
     = madd (grid_block (P st) m n)
            (dot AbF (grid_block (P st') (prev_row Mm m) n))) /\
  grid_block (E st') Mm n
  = madd (dot SRFArF (grid_block (P st') (Mm - 1) n))
         (dot SRAbaR (grid_block (E st) Mm n)) /\
  (forall m, m < Mm ->
     grid_block (E st') m n
     = madd (madd (grid_block (E st) m n)
                  (dot HARB_AFP (grid_block (P st') (prev_row Mm m) n)))
            (dot AbR (grid_block (E st') (m + 1) n))).

(** Row [m] of [Pt] and [Et] after the CPE stages 4 and 5.  The boundary
    slot [Pt[m][-1]] is corrected with the first columns of [P[m-1][0]] and
    [E[m+1][0]], replicated [r] times, and multiplied by [AbarFSFT]; the row
    of [Pt] satisfies eqn. (37) from it.  The boundary slot [Et[m][N]] is
    corrected with the last columns of [P[m-1][N-1]] and [E[m+1][N-1]] and
    combined with the resolved [Pt[m][N-1]] (eqn. 22, transposed); the row of
    [Et] satisfies eqn. (39) from it. *)
Definition cpe_row_done
    (AbFT AbRT HARB_AFPT HARB_AFBT ARB_AFP TAFBT ARE : list (list D))
    (AbarFSFT ArFSRFT AbarFSFSRAbaRSRFArFT : list (list D))
    (Mm Nn r : nat) (st st' : store (D := D)) (m : nat) : Prop :=
  let Pm n := grid_block (P st) (prev_row Mm m) n in
  let Em n := grid_block (E st) (m + 1) n in
  grid_block (Pt st') m Nn
  = dot (madd (madd (grid_block (Pt st) m Nn)
                    (dot ARB_AFP (tile_cols (HT (Pm 0) 1) r)))
              (dot ARE (tile_cols (HT (Em 0) 1) r)))
        AbarFSFT /\
  (forall n, n < Nn ->
     grid_block (Pt st') m n
     = eqn37_value ARB_AFP ARE TAFBT AbFT (grid_block (Pt st) m n)
         (Pm n) (Em n) (grid_block (Pt st') m (prev_row Nn n))) /\
  grid_block (Et st') m Nn
  = madd (dot (grid_block (Pt st') m (Nn - 1)) ArFSRFT)
         (dot (madd (madd (grid_block (Et st) m Nn)
                          (dot ARB_AFP (tile_cols (TT (Pm (Nn - 1)) 1) r)))
                    (dot ARE (tile_cols (TT (Em (Nn - 1)) 1) r)))
              AbarFSFSRAbaRSRFArFT) /\
  (forall n, n < Nn ->
     grid_block (Et st') m n
     = eqn39_value ARB_AFP ARE HARB_AFBT HARB_AFPT AbRT
         (grid_block (Et st) m n) (Pm n) (Em n)
         (grid_block (Pt st') m (prev_row Nn n))
         (grid_block (Et st') m (n + 1))).

(** The accumulators of the PE stages 4 and 5 for row [m]: eqn. (37) run
    over the row from left to right and eqn. (39) from right to left, each
    value fed to the next in place of the neighbouring slot, starting from
    [Zbr]. *)
Definition pe_row_accumulate_Pt (ARB_AFP ARE TAFBT AbFT Zbr : list (list D))
    (X Pm Em : nat -> list (list D)) (Nn : nat) : list (list D) :=
  fold_left (fun acc n => eqn37_value ARB_AFP ARE TAFBT AbFT
                            (X n) (Pm n) (Em n) acc)
            (seq 0 Nn) Zbr.

Definition pe_row_accumulate_Et
    (ARB_AFP ARE HARB_AFBT HARB_AFPT AbRT Zbr : list (list D))
    (X Pm Em Ptm : nat -> list (list D)) (Nn : nat) : list (list D) :=
  fold_left (fun acc n => eqn39_value ARB_AFP ARE HARB_AFBT HARB_AFPT AbRT
                            (X n) (Pm n) (Em n) (Ptm n) acc)
            (List.rev (seq 0 Nn)) Zbr.

(** Row [m] of [Pt] and [Et] after the PE stages 4 and 5: the boundary slot
    [Pt[m][-1]] is the accumulator of eqn. (37) times [IAwF], the row of
    [Pt] satisfies eqn. (37) from it, the boundary slot [Et[m][N]] is the
    accumulator of eqn. (39), run on the resolved [Pt], times [IAwR], and
    the row of [Et] satisfies eqn. (39) from it. *)
Definition pe_row_done
    (AbFT AbRT HARB_AFPT HARB_AFBT ARB_AFP TAFBT ARE Zbr IAwF IAwR
     : list (list D))
    (Mm Nn : nat) (st st' : store (D := D)) (m : nat) : Prop :=
  let Pm n := grid_block (P st) (prev_row Mm m) n in
  let Em n := grid_block (E st) (m + 1) n in
  grid_block (Pt st') m Nn
  = dot (pe_row_accumulate_Pt ARB_AFP ARE TAFBT AbFT Zbr
           (fun n => grid_block (Pt st) m n) Pm Em Nn) IAwF /\
  (forall n, n < Nn ->
     grid_block (Pt st') m n
     = eqn37_value ARB_AFP ARE TAFBT AbFT (grid_block (Pt st) m n)
         (Pm n) (Em n) (grid_block (Pt st') m (prev_row Nn n))) /\
  grid_block (Et st') m Nn
  = dot (pe_row_accumulate_Et ARB_AFP ARE HARB_AFBT HARB_AFPT AbRT Zbr
           (fun n => grid_block (Et st) m n) Pm Em
           (fun n => grid_block (Pt st') m (prev_row Nn n)) Nn) IAwR /\
  (forall n, n < Nn ->
     grid_block (Et st') m n
     = eqn39_value ARB_AFP ARE HARB_AFBT HARB_AFPT AbRT
         (grid_block (Et st) m n) (Pm n) (Em n)
         (grid_block (Pt st') m (prev_row Nn n))
         (grid_block (Et st') m (n + 1))).

End Statements.

(** ** A small run used in the examples *)

(** A 4 by 4 integer image, the order-1 weights [(2, 1)] and, for block side
    2, the zero-initialised store of its four blocks. *)
Definition ex_image : list (list Z) :=
  [[1; 2; 5; 6]; [3; 4; 7; 8]; [1; 0; 2; 1]; [0; 1; 1; 3]]%Z.
Definition ex_weights : list Z := [2; 1]%Z.
Definition ex_blocks : list (list (list (list Z))) :=
  [[[[1; 2]; [3; 4]]; [[5; 6]; [7; 8]]];
   [[[1; 0]; [0; 1]]; [[2; 1]; [1; 3]]]]%Z.
Definition ex_store : store (D := Z) :=
  store_of ex_blocks (build_alg5_carries 2 2 2 1).

(** An exact inverse for the integer examples: 1 by 1 and 2 by 2 matrices of
    determinant 1 or -1 (their inverse is integral); [LinAlgError] on any
    other matrix, in particular on the singular ones. *)
Definition inv_Z (A : list (list Z)) : result (list (list Z)) :=
  match A with
  | [[a]] =>
      if decide (a = 1 \/ a = -1)%Z then Ok [[a]] else Err LinAlgError
  | [[a; b]; [c; d]] =>
      if decide (a * d - b * c = 1)%Z then Ok [[d; - b]; [- c; a]]%Z
      else if decide (a * d - b * c = -1)%Z then Ok [[- d; b]; [c; - a]]%Z
      else Err LinAlgError
  | _ => Err LinAlgError
  end.

(** A solver that never raises, for the integer examples: it returns the
    right-hand side. *)
Definition lu_solve_Z (A : list (list Z)) (b : list Z) : result (list Z) :=
  Ok b.

(** A 1 by 1 image [[5]] as one block of side 1 with the order-1 weights
    [(3, -2)], after stage 1. *)
Definition ex_pe_weights : list Z := [3; -2]%Z.
Definition ex_pe_store : store (D := Z) :=
  mk_store [[[[5%Z]]]]
           [[[[15%Z]]]; [[[0%Z]]]] [[[[45%Z]]]; [[[0%Z]]]]
           [[[[135%Z]]; [[0%Z]]]] [[[[405%Z]]; [[0%Z]]]].

(** The order-2 weights [(1, 1, -1)], for which the linear system of the
    CPE builder is singular. *)
Definition ex_cpe_weights : list Z := [1; 1; -1]%Z.

(** A 3 by 3 image as one block of side 3 with the order-2 weights
    [(1, 1, -1)], after CPE stage 1. *)
Definition ex_cpe_store : store (D := Z) :=
  mk_store [[[[1; 2; 3]; [4; 5; 6]; [7; 8; 10]]]]%Z
           [[[[3; 3; 3]; [5; 7; 10]]]; [[[1; 2; 3]; [1; 2; 3]]]]%Z
           [[[[8; 13; 20]; [-2; -4; -7]]]; [[[0; 0; 0]; [0; 0; 0]]]]%Z
           [[[[5; 23]; [-2; -7]; [2; 13]]; [[8; 8]; [-2; -2]; [5; 5]]]]%Z
           [[[[49; -18]; [-14; 5]; [29; -11]]; [[0; 0]; [0; 0]; [0; 0]]]]%Z.

(** A 6 by 6 integer image and the order-2 weights [(2, 1, -1)]. *)
Definition ex_image6 : list (list Z) :=
  [[1; 2; 5; 6; 1; 1]; [3; 4; 7; 8; 0; 2]; [1; 0; 2; 1; 5; 1];
   [0; 1; 1; 3; 2; 2]; [1; 1; 1; 1; 1; 1]; [0; 2; 0; 2; 0; 2]]%Z.
Definition ex_weights2 : list Z := [2; 1; -1]%Z.

(** The zero-padding pipeline: decompose, stages 1 to 6, join. *)
Definition alg5_run (X : list (list Z)) (b r : nat) (wgt : list Z)
    (Hh W : nat) : result (list (list Z)) :=
  mn ← get_mn X b;
  g ← break_blocks X b None None;
  matrices ← build_alg5_matrices b r wgt W Hh;
  st ← alg5_stage1 mn.1 mn.2 r wgt matrices
         (store_of g (build_alg5_carries mn.1 mn.2 b r));
  st ← alg5_stage23 mn.1 mn.2 matrices st;
  st ← alg5_stage45 mn.1 mn.2 matrices st;
  st ← alg5_stage6 mn.1 mn.2 wgt st;
  join_blocks (fun _ _ => 0%Z) (blocks st) b mn.1 mn.2 (Hh, W).

(** The sequential filter of the whole image with zero prologues and
    epilogues. *)
Definition sequential_filter (X : list (list Z)) (r : nat) (wgt : list Z)
    (Hh W : nat) : result (list (list Z)) :=
  B ← F (zeros r W) X wgt;
  B ← R B (zeros r W) wgt;
  B ← FT (zeros Hh r) B wgt;
  RT B (zeros Hh r) wgt.

(** Binary64 scalars, the [np.float64] of the carries, with the operations
    of the processor, and a column of three 1 by 1 blocks [0.1], [0.1],
    [2.5] with the order-1 weights [(1, -0.3)] (each value the nearest
    binary64 number). *)
Section Binary64.
Import PrimFloat.

Definition float_scalar : Scalar float := {|
  rO := 0%float;
  rI := 1%float;
  radd := PrimFloat.add;
  rsub := PrimFloat.sub;
  rmul := PrimFloat.mul
|}.


End Binary64.

(** * Properties *)

(** ** The embedding on concrete images *)

(** The blocks of [ex_image]. *)
Example break_blocks_ex_image :
  break_blocks ex_image 2 None None = Ok ex_blocks.
Proof. reflexivity. Qed.

(** On the two example images the six stages of Algorithm 5 give the
    sequential filter of the whole image (orders 1 and 2). *)
Example alg5_run_ex_image :
  alg5_run ex_image 2 1 ex_weights 4 4
  = sequential_filter ex_image 1 ex_weights 4 4.
Proof. vm_compute. reflexivity. Qed.

Example alg5_run_ex_image6 :
  alg5_run ex_image6 3 2 ex_weights2 6 6
  = sequential_filter ex_image6 2 ex_weights2 6 6.
Proof. vm_compute. reflexivity. Qed.

(** The sweeps on a row: [fwd] and [rev] with two taps. *)
Example fwd_ex :
  fwd [10; 20]%Z [1; 2; 3; 4]%Z [2; 1; 1]%Z = Ok [-28; 12; 22; -26]%Z.
Proof. reflexivity. Qed.

Example rev_ex :
  rev [1; 2; 3; 4]%Z [10; 20]%Z [2; 1; 1]%Z = Ok [-24; 8; 18; -22]%Z.
Proof. reflexivity. Qed.

(** A prologue shorter than the filter order raises [IndexError]. *)
Example fwd_short_prologue :
  fwd [10]%Z [1; 2; 3; 4]%Z [2; 1; 1]%Z = Err IndexError.
Proof. reflexivity. Qed.

(** ** The result monad and the loops *)

Lemma bind_Ok {A B : Type} (m : result A) (f : A -> result B) (b : B) :
  (m ≫= f) = Ok b -> exists a, m = Ok a /\ f a = Ok b.
Proof. destruct m as [a|e]; simpl; [eauto | discriminate]. Qed.

(** Decompose a hypothesis [x ← m; k = Ok v]. *)
Ltac inv_bind Hyp :=
  let x := fresh "x" in
  let Hx := fresh "Hx" in
  apply bind_Ok in Hyp; destruct Hyp as (x & Hx & Hyp).

Ltac inv_ok :=
  repeat match goal with
         | Hyp : Ok _ = Ok _ |- _ => injection Hyp as Hyp; subst
         | Hyp : Err _ = Ok _ |- _ => discriminate Hyp
         end.

(** Total correctness of a loop: an invariant indexed by the items already
    processed, established by every iteration, which also succeeds. *)
Lemma foldM_inv {S X : Type} (I : list X -> S -> Prop)
    (f : S -> X -> result S) (xs : list X) (s : S) :
  I [] s ->
  (forall done x rest s0, xs = done ++ x :: rest -> I done s0 ->
     exists s1, f s0 x = Ok s1 /\ I (done ++ [x]) s1) ->
  exists s', foldM f xs s = Ok s' /\ I xs s'.
Proof.
  revert I s. induction xs as [|x xs IH]; intros I s H0 Hstep; simpl.
  - eauto.
  - destruct (Hstep [] x xs s eq_refl H0) as (s1 & -> & H1). simpl.
    apply (IH (fun done => I (x :: done))); [exact H1|].
    intros done y rest s0 -> Hd.
    apply (Hstep (x :: done) y rest s0); [reflexivity | exact Hd].
Qed.

(** Partial correctness of a loop: what every successful iteration
    preserves holds after a successful loop. *)
Lemma foldM_preserves {S X : Type} (I : S -> Prop)
    (f : S -> X -> result S) (xs : list X) (s s' : S) :
  (forall x s0 s1, x ∈ xs -> I s0 -> f s0 x = Ok s1 -> I s1) ->
  I s -> foldM f xs s = Ok s' -> I s'.
Proof.
  revert s. induction xs as [|x xs IH]; intros s Hstep H0 Hrun; simpl in Hrun.
  - inv_ok. exact H0.
  - inv_bind Hrun. apply (IH x0).
    + intros y s0 s1 Hy. apply Hstep. by apply list_elem_of_further.
    + eapply Hstep; [apply list_elem_of_here | exact H0 | exact Hx].
    + exact Hrun.
Qed.

(** The same for [range n], the invariant indexed by the loop counter. *)
Lemma foldM_range_inv {S : Type} (I : nat -> S -> Prop)
    (f : S -> nat -> result S) (n : nat) (s : S) :
  I 0 s ->
  (forall i s0, i < n -> I i s0 -> exists s1, f s0 i = Ok s1 /\ I (Datatypes.S i) s1) ->
  exists s', foldM f (range n) s = Ok s' /\ I n s'.
Proof.
  intros H0 Hstep.
  destruct (foldM_inv (fun done s0 => I (length done) s0 /\ done = seq 0 (length done))
                      f (range n) s) as (s' & Hrun & Hs' & _).
  - split; [exact H0 | reflexivity].
  - intros done x rest s0 Hsplit [Hd Hseq].
    assert (x = length done /\ length done < n) as [-> Hlt].
    { unfold range in Hsplit.
      assert (Hlen : n = length done + Datatypes.S (length rest)).
      { apply (f_equal length) in Hsplit.
        rewrite length_seq, length_app in Hsplit. exact Hsplit. }
      assert (Hx : seq 0 n !! length done = Some x).
      { rewrite Hsplit. rewrite lookup_app_r by lia.
        by rewrite Nat.sub_diag. }
      apply lookup_seq in Hx. lia. }
    destruct (Hstep _ s0 Hlt Hd) as (s1 & Hf & H1).
    exists s1. split; [exact Hf|]. rewrite length_app. simpl.
    rewrite Nat.add_1_r. split; [exact H1|].
    rewrite seq_S. simpl. by rewrite <- Hseq.
  - exists s'. split; [exact Hrun|]. unfold range in Hs'.
    by rewrite length_seq in Hs'.
Qed.

(** ** Python indexing *)

Lemma py_index_nat (len i : nat) :
  i < len -> py_index len (Z.of_nat i) = Ok i.
Proof.
  intros Hi. unfold py_index.
  destruct (Z.leb_spec 0 (Z.of_nat i)); [|lia].
  destruct (Z.ltb_spec (Z.of_nat i) (Z.of_nat len)); [|lia].
  by rewrite Nat2Z.id.
Qed.

Lemma py_index_neg (len k : nat) :
  0 < k <= len -> py_index len (- Z.of_nat k) = Ok (len - k).
Proof.
  intros Hk. unfold py_index.
  destruct (Z.leb_spec 0 (- Z.of_nat k)); [lia|].
  destruct (Z.leb_spec (- Z.of_nat len) (- Z.of_nat k)); [|lia].
  f_equal. lia.
Qed.

Lemma py_get_nat {A : Type} (l : list A) (i : nat) (x : A) :
  l !! i = Some x -> py_get l (Z.of_nat i) = Ok x.
Proof.
  intros Hx. unfold py_get.
  rewrite py_index_nat by (by eapply lookup_lt_Some). simpl. by rewrite Hx.
Qed.

Lemma py_get_neg {A : Type} (l : list A) (k : nat) (x : A) :
  0 < k <= length l -> l !! (length l - k) = Some x ->
  py_get l (- Z.of_nat k) = Ok x.
Proof.
  intros Hk Hx. unfold py_get.
  rewrite py_index_neg by exact Hk. simpl. by rewrite Hx.
Qed.

Lemma py_set_nat {A : Type} (l : list A) (i : nat) (x : A) :
  i < length l -> py_set l (Z.of_nat i) x = Ok (<[i := x]> l).
Proof. intros Hi. unfold py_set. by rewrite py_index_nat. Qed.

(** ** The forward row sweep *)

Section Fwd.
Context {D : Type} {SD : Scalar D}.
Implicit Types (prol weig bloc x y : list D).

Lemma py_nth_prol prol (j k : nat) :
  j < k -> k - j <= length prol ->
  py_get prol (Z.of_nat j - Z.of_nat k) = Ok (py_nth prol (Z.of_nat j - Z.of_nat k)).
Proof.
  intros Hjk Hlen. unfold py_nth.
  replace (Z.of_nat j - Z.of_nat k)%Z with (- Z.of_nat (k - j))%Z by lia.
  destruct (lookup_lt_is_Some_2 prol (length prol - (k - j)) ltac:(lia)) as [v Hv].
  by rewrite (py_get_neg prol (k - j) v) by (lia || done).
Qed.

Lemma fwd_tap_ok prol weig bloc (j k : nat) :
  j < length bloc -> k < length weig -> (j < k -> k - j <= length prol) ->
  fwd_tap prol weig j bloc k
  = Ok (<[j := rsub (nth j bloc rO)
                    (rmul (fwd_operand prol bloc j k) (nth k weig rO))]> bloc).
Proof.
  intros Hj Hk Hp. unfold fwd_tap, fwd_operand.
  destruct (lookup_lt_is_Some_2 bloc j Hj) as [bj Hbj].
  destruct (lookup_lt_is_Some_2 weig k Hk) as [wk Hwk].
  rewrite (py_get_nat _ _ _ Hbj). simpl.
  rewrite (nth_lookup_Some _ _ _ _ Hbj), (nth_lookup_Some _ _ _ _ Hwk).
  destruct (Z.ltb_spec (Z.of_nat j - Z.of_nat k) 0) as [Hneg|Hpos].
  - rewrite py_nth_prol by lia. simpl.
    by rewrite (py_get_nat _ _ _ Hwk).
  - destruct (lookup_lt_is_Some_2 bloc (j - k) ltac:(lia)) as [v Hv].
    replace (Z.of_nat j - Z.of_nat k)%Z with (Z.of_nat (j - k)) by lia.
    rewrite (py_get_nat _ _ _ Hv). simpl.
    rewrite (py_get_nat _ _ _ Hwk). simpl.
    by rewrite (nth_lookup_Some _ _ _ _ Hv).
Qed.

Lemma fwd_operand_insert prol bloc (j k : nat) (v : D) :
  0 < k -> fwd_operand prol (<[j := v]> bloc) j k = fwd_operand prol bloc j k.
Proof.
  intros Hk. unfold fwd_operand.
  destruct (Z.ltb_spec (Z.of_nat j - Z.of_nat k) 0); [reflexivity|].
  rewrite !nth_lookup. by rewrite list_lookup_insert_ne by lia.
Qed.

(** The inner loop: the taps [ks] fold into entry [j]. *)
Lemma fwd_taps_ok prol weig bloc (j : nat) (ks : list nat) (v : D) :
  j < length bloc ->
  Forall (fun k => 0 < k /\ k < length weig /\ (j < k -> k - j <= length prol)) ks ->
  foldM (fwd_tap prol weig j) ks (<[j := v]> bloc)
  = Ok (<[j := fold_left (fun acc k =>
            rsub acc (rmul (fwd_operand prol bloc j k) (nth k weig rO))) ks v]> bloc).
Proof.
  intros Hj Hks. revert v.
  induction Hks as [|k ks (Hk0 & Hk & Hp) _ IH]; intros v; simpl; [reflexivity|].
  rewrite fwd_tap_ok by (rewrite ?length_insert; done).
  simpl. rewrite list_insert_insert_eq.
  rewrite (nth_lookup_Some _ j rO v) by (by apply list_lookup_insert_eq).
  rewrite fwd_operand_insert by done. apply IH.
Qed.

Lemma fwd_entry_agree prol weig x y y' (j : nat) :
  (forall i, i < j -> y !! i = y' !! i) ->
  fwd_entry prol weig x y j = fwd_entry prol weig x y' j.
Proof.
  intros Hag. unfold fwd_entry.
  generalize (rmul (nth j x rO) (nth 0 weig rO)).
  assert (Hks : Forall (fun k => 0 < k) (seq 1 (length weig - 1))).
  { apply Forall_forall. intros k Hk. apply elem_of_seq in Hk. lia. }
  induction Hks as [|k ks Hk _ IH]; intros v; simpl; [reflexivity|].
  rewrite IH. do 3 f_equal. unfold fwd_operand.
  destruct (Z.ltb_spec (Z.of_nat j - Z.of_nat k) 0); [reflexivity|].
  rewrite !nth_lookup. rewrite Hag by lia. reflexivity.
Qed.

Lemma fwd_step_ok prol weig bloc (j : nat) :
  j < length bloc -> 0 < length weig -> length weig - 1 <= length prol ->
  fwd_step prol weig bloc j
  = Ok (<[j := fwd_entry prol weig bloc bloc j]> bloc).
Proof.
  intros Hj Hw Hp. unfold fwd_step, fwd_entry.
  destruct (lookup_lt_is_Some_2 bloc j Hj) as [bj Hbj].
  destruct (lookup_lt_is_Some_2 weig 0 Hw) as [w0 Hw0].
  rewrite (py_get_nat _ _ _ Hbj). simpl.
  rewrite (py_get_nat weig 0 _ Hw0 : py_get weig 0%Z = Ok w0). simpl.
  rewrite (nth_lookup_Some _ _ _ _ Hbj), (nth_lookup_Some _ _ _ _ Hw0).
  apply fwd_taps_ok; [exact Hj|].
  apply Forall_forall. intros k Hk. apply elem_of_seq in Hk. lia.
Qed.

(** The sweep succeeds when the prologue holds at least [r] values; every
    entry then satisfies the recurrence of the source. *)
Lemma fwd_ok prol weig x :
  0 < length weig -> length weig - 1 <= length prol ->
  exists y, fwd prol x weig = Ok y /\ length y = length x /\
    forall j, j < length x -> y !! j = Some (fwd_entry prol weig x y j).
Proof.
  intros Hw Hp. unfold fwd.
  destruct (foldM_range_inv
    (fun i bloc => length bloc = length x /\
       (forall j, j < i -> bloc !! j = Some (fwd_entry prol weig x bloc j)) /\
       (forall j, i <= j -> bloc !! j = x !! j))
    (fwd_step prol weig) (length x) x) as (y & Hrun & Hlen & Hdone & _).
  - split; [reflexivity|]. split; [lia|]. reflexivity.
  - intros i bloc Hi (Hlen & Hdone & Hrest).
    exists (<[i := fwd_entry prol weig bloc bloc i]> bloc).
    split; [apply fwd_step_ok; lia|].
    split; [by rewrite length_insert|].
    assert (Hnew : fwd_entry prol weig bloc bloc i
                   = fwd_entry prol weig x (<[i := fwd_entry prol weig bloc bloc i]> bloc) i).
    { transitivity (fwd_entry prol weig x bloc i).
      - unfold fwd_entry. do 2 f_equal. rewrite !nth_lookup.
        by rewrite Hrest by lia.
      - apply fwd_entry_agree. intros i' Hi'.
        by rewrite list_lookup_insert_ne by lia. }
    split.
    + intros j Hj. destruct (decide (j = i)) as [->|Hne].
      * rewrite list_lookup_insert_eq by lia. f_equal. exact Hnew.
      * rewrite list_lookup_insert_ne by done. rewrite Hdone by lia.
        f_equal. apply fwd_entry_agree. intros i' Hi'.
        by rewrite list_lookup_insert_ne by lia.
    + intros j Hj. rewrite list_lookup_insert_ne by lia. apply Hrest. lia.
  - exists y. eauto.
Qed.

(** C3.  For a prologue of length at least [r], a row [x] and weights
    [w = (b0, a1, ..., ar)], [fwd(prol, x, w)] returns the row [y] of the
    same length in which, for [j] increasing from [0], entry [j] is [x[j]]
    scaled by [b0] minus, for [k = 1..r], [w[k]] times [prol[j-k]] when
    [j-k < 0] and [w[k]] times the updated entry [y[j-k]] otherwise. *)
Theorem fwd_forward_sweep prol x weig (b0 : D) (a : list D) :
  (forall u v : D, rmul u v = rmul v u) ->
  weig = b0 :: a ->
  length a <= length prol ->
  exists y, fwd prol x weig = Ok y /\ length y = length x /\
    forall j, j < length x -> y !! j = Some (fwd_entry_spec prol weig x y j).
Proof.
  intros Hcomm -> Hp.
  destruct (fwd_ok prol (b0 :: a) x) as (y & Hrun & Hlen & Hy);
    [simpl; lia | simpl; lia |].
  exists y. split; [exact Hrun|]. split; [exact Hlen|].
  intros j Hj. rewrite (Hy j Hj). f_equal.
  unfold fwd_entry, fwd_entry_spec, fwd_operand.
  rewrite (Hcomm (nth j x rO)).
  generalize (rmul (nth 0 (b0 :: a) rO) (nth j x rO)).
  generalize (seq 1 (length (b0 :: a) - 1)).
  intros ks. induction ks as [|k ks IH]; intros v; cbn [fold_left];
    [reflexivity|].
  rewrite IH. by rewrite (Hcomm (nth k (b0 :: a) rO)).
Qed.

End Fwd.

Lemma fwd_forward_sweep_witness :
  exists y, fwd [10; 20]%Z [1; 2; 3; 4]%Z [2; 1; 1]%Z = Ok y /\
    length y = 4 /\
    forall j, j < 4 ->
      y !! j = Some (fwd_entry_spec [10; 20]%Z [2; 1; 1]%Z [1; 2; 3; 4]%Z y j).
Proof.
  apply (fwd_forward_sweep (D := Z) [10; 20]%Z [1; 2; 3; 4]%Z [2; 1; 1]%Z
           2%Z [1; 1]%Z).
  - intros u v. simpl. lia.
  - reflexivity.
  - simpl. lia.
Defined.

(** ** The block decomposer *)

Section Blocks.
Context {D : Type} {SD : Scalar D}.
Implicit Types (X A B V : list (list D)) (G : list (list (list (list D)))).

Lemma mapM_Ok_map {A B : Type} (f : A -> result B) (g : A -> B) (l : list A) :
  (forall x, x ∈ l -> f x = Ok (g x)) -> mapM f l = Ok (map g l).
Proof.
  induction l as [|x l IH]; intros Hf; simpl; [reflexivity|].
  rewrite (Hf x) by apply list_elem_of_here. simpl.
  rewrite IH; [reflexivity|].
  intros y Hy. apply Hf. by apply list_elem_of_further.
Qed.

Lemma mapM_id {A : Type} (f : A -> result A) (l : list A) :
  (forall x, x ∈ l -> f x = Ok x) -> mapM f l = Ok l.
Proof.
  intros Hf. rewrite (mapM_Ok_map f id) by exact Hf. by rewrite map_id.
Qed.

Lemma stretch_same {A : Type} (n : nat) (l : list A) :
  length l = n -> stretch n l = Ok l.
Proof. intros Hl. unfold stretch. by rewrite decide_True. Qed.

(** A value that already has the shape of the slot is stored as it is. *)
Lemma broadcast_to_same (h w : nat) V :
  has_shape h w V -> broadcast_to h w V = Ok V.
Proof.
  intros [Hh Hw]. unfold broadcast_to.
  rewrite mapM_id.
  - simpl. by apply stretch_same.
  - intros row Hrow. apply stretch_same.
    rewrite Forall_forall in Hw. by apply Hw.
Qed.

Lemma entry_lookup A (i j : nat) (row : list D) (v : D) :
  A !! i = Some row -> row !! j = Some v -> entry A i j = v.
Proof.
  intros Hi Hj. unfold entry.
  rewrite (nth_lookup_Some _ _ _ _ Hi). by apply nth_lookup_Some.
Qed.

Lemma has_shape_lookup (h w : nat) A (i : nat) (row : list D) :
  has_shape h w A -> A !! i = Some row -> length row = w.
Proof.
  intros [_ Hw] Hi. rewrite Forall_forall in Hw. apply Hw.
  by eapply list_elem_of_lookup_2.
Qed.

Lemma has_shape_cell (h w : nat) A (i j : nat) :
  has_shape h w A -> i < h -> j < w -> cell A i j = Some (entry A i j).
Proof.
  intros Hs Hi Hj. unfold cell.
  destruct (lookup_lt_is_Some_2 A i) as [row Hrow]; [destruct Hs; lia|].
  rewrite Hrow. simpl.
  destruct (lookup_lt_is_Some_2 row j) as [v Hv].
  { by rewrite (has_shape_lookup _ _ _ _ _ Hs Hrow). }
  rewrite Hv. f_equal. symmetry. by eapply entry_lookup.
Qed.

(** Two arrays of one shape with the same cells are equal. *)
Lemma has_shape_eq (h w : nat) A B :
  has_shape h w A -> has_shape h w B ->
  (forall i j, i < h -> j < w -> entry A i j = entry B i j) -> A = B.
Proof.
  intros HA HB Hcells. apply list_eq. intros i.
  destruct (decide (i < h)) as [Hi|Hi].
  - destruct (lookup_lt_is_Some_2 A i) as [ra Hra]; [destruct HA; lia|].
    destruct (lookup_lt_is_Some_2 B i) as [rb Hrb]; [destruct HB; lia|].
    rewrite Hra, Hrb. f_equal. apply list_eq. intros j.
    pose proof (has_shape_lookup _ _ _ _ _ HA Hra) as Hla.
    pose proof (has_shape_lookup _ _ _ _ _ HB Hrb) as Hlb.
    destruct (decide (j < w)) as [Hj|Hj].
    + pose proof (has_shape_cell _ _ _ _ _ HA Hi Hj) as Ha.
      pose proof (has_shape_cell _ _ _ _ _ HB Hi Hj) as Hb.
      unfold cell in Ha, Hb. rewrite Hra in Ha. rewrite Hrb in Hb.
      simpl in Ha, Hb. rewrite Ha, Hb. f_equal. by apply Hcells.
    + rewrite !(lookup_ge_None_2) by lia. reflexivity.
  - destruct HA, HB. rewrite !(lookup_ge_None_2) by lia. reflexivity.
Qed.

Lemma py_slice_length {A : Type} (lo hi : nat) (l : list A) :
  hi <= length l -> length (py_slice lo hi l) = hi - lo.
Proof.
  intros Hhi. unfold py_slice. rewrite length_take, length_drop. lia.
Qed.

Lemma py_slice_lookup {A : Type} (lo hi : nat) (l : list A) (i : nat) :
  i < hi - lo -> py_slice lo hi l !! i = l !! (lo + i).
Proof.
  intros Hi. unfold py_slice. rewrite lookup_take_lt by exact Hi.
  apply lookup_drop.
Qed.

(** A slice inside the image has the shape of its bounds and the cells of
    the image. *)
Lemma slice2_shape (h w : nat) X (r0 r1 c0 c1 : nat) :
  has_shape h w X -> r1 <= h -> c1 <= w ->
  has_shape (r1 - r0) (c1 - c0) (slice2 X r0 r1 c0 c1).
Proof.
  intros [Hh Hw] Hr Hc. unfold slice2. split.
  - rewrite length_map. apply py_slice_length. lia.
  - apply Forall_forall. intros row Hrow.
    apply list_elem_of_fmap in Hrow as (row0 & -> & Hrow0).
    apply py_slice_length.
    unfold py_slice in Hrow0.
    apply elem_of_take in Hrow0 as (i & Hrow0 & _).
    rewrite lookup_drop in Hrow0.
    rewrite Forall_forall in Hw.
    rewrite (Hw row0); [lia|]. by eapply list_elem_of_lookup_2.
Qed.

Lemma slice2_entry X (r0 r1 c0 c1 i j : nat) :
  i < r1 - r0 -> j < c1 - c0 ->
  entry (slice2 X r0 r1 c0 c1) i j = entry X (r0 + i) (c0 + j).
Proof.
  intros Hi Hj. unfold entry, slice2.
  rewrite !nth_lookup. rewrite list_lookup_fmap.
  rewrite py_slice_lookup by exact Hi.
  destruct (X !! (r0 + i)) as [row|]; simpl.
  - by rewrite py_slice_lookup by exact Hj.
  - reflexivity.
Qed.

Lemma break_block_exact (Mm Nn b : nat) X (m n : nat) :
  has_shape (Mm * b) (Nn * b) X -> m < Mm -> n < Nn ->
  break_block X b m n
  = Ok (slice2 X (m * b) ((m + 1) * b) (n * b) ((n + 1) * b)).
Proof.
  intros HX Hm Hn. unfold break_block. apply broadcast_to_same.
  assert (Hr : (m + 1) * b <= Mm * b) by (apply Nat.mul_le_mono_r; lia).
  assert (Hc : (n + 1) * b <= Nn * b) by (apply Nat.mul_le_mono_r; lia).
  pose proof (slice2_shape _ _ X (m * b) _ (n * b) _ HX Hr Hc) as Hs.
  replace ((m + 1) * b - m * b) with b in Hs by lia.
  replace ((n + 1) * b - n * b) with b in Hs by lia.
  exact Hs.
Qed.

Lemma exact_blocks_block X (b Mm Nn m n : nat) :
  m < Mm -> n < Nn ->
  grid_block (exact_blocks X b Mm Nn) m n
  = slice2 X (m * b) ((m + 1) * b) (n * b) ((n + 1) * b).
Proof.
  intros Hm Hn. unfold grid_block, exact_blocks, range.
  erewrite (nth_lookup_Some _ m).
  2:{ rewrite list_lookup_fmap, lookup_seq_lt by exact Hm. reflexivity. }
  erewrite (nth_lookup_Some _ n).
  2:{ rewrite list_lookup_fmap, lookup_seq_lt by exact Hn. reflexivity. }
  reflexivity.
Qed.

Lemma get_mn_exact (Mm Nn b : nat) X :
  0 < b -> 0 < Mm -> has_shape (Mm * b) (Nn * b) X ->
  get_mn X b = Ok (Mm, Nn).
Proof.
  intros Hb HM HX. unfold get_mn, ceil_div.
  destruct (decide (b = 0)) as [|_]; [lia|]. simpl.
  assert (Hr : nrows X = Mm * b) by (by destruct HX).
  assert (Hc : ncols X = Nn * b).
  { unfold ncols. destruct X as [|row X'].
    - destruct HX as [Hlen _]. simpl in Hlen. nia.
    - apply (has_shape_lookup _ _ _ 0 _ HX). reflexivity. }
  rewrite Hr, Hc.
  assert (Hdiv : forall k, (k * b + b - 1) / b = k).
  { intros k. replace (k * b + b - 1) with (b - 1 + k * b) by lia.
    rewrite Nat.div_add by lia. rewrite Nat.div_small by lia. lia. }
  by rewrite !Hdiv.
Qed.

Lemma break_blocks_exact_run (Mm Nn b : nat) X :
  0 < b -> 0 < Mm -> has_shape (Mm * b) (Nn * b) X ->
  break_blocks X b None None = Ok (exact_blocks X b Mm Nn).
Proof.
  intros Hb HM HX. unfold break_blocks.
  rewrite (get_mn_exact Mm Nn) by done. simpl.
  apply mapM_Ok_map. intros m Hm. apply elem_of_seq in Hm.
  apply mapM_Ok_map. intros n Hn. apply elem_of_seq in Hn.
  apply (break_block_exact Mm Nn); [exact HX | lia | lia].
Qed.


Lemma exact_blocks_get2 X (b Mm Nn m n : nat) :
  m < Mm -> n < Nn ->
  get2 (exact_blocks X b Mm Nn) (Z.of_nat m) (Z.of_nat n)
  = Ok (slice2 X (m * b) ((m + 1) * b) (n * b) ((n + 1) * b)).
Proof.
  intros Hm Hn. unfold get2, exact_blocks, range.
  erewrite py_get_nat.
  2:{ rewrite list_lookup_fmap, lookup_seq_lt by exact Hm. reflexivity. }
  simpl. apply py_get_nat.
  rewrite list_lookup_fmap, lookup_seq_lt by exact Hn. reflexivity.
Qed.

Lemma exact_blocks_zero_padded (Mm Nn b : nat) X :
  0 < b -> 0 < Mm -> has_shape (Mm * b) (Nn * b) X ->
  zero_padded_blocks X b (exact_blocks X b Mm Nn).
Proof.
  intros Hb HM HX.
  assert (Hr : nrows X = Mm * b) by (by destruct HX).
  assert (Hc : ncols X = Nn * b).
  { unfold ncols. destruct X as [|row X'].
    - destruct HX as [Hlen _]. simpl in Hlen. nia.
    - apply (has_shape_lookup _ _ _ 0 _ HX). reflexivity. }
  exists Mm, Nn. rewrite Hr, Hc.
  split; [lia|]. split; [lia|].
  split; [unfold exact_blocks, range; by rewrite length_map, length_seq|].
  split.
  { apply Forall_forall. intros row Hrow. unfold exact_blocks in Hrow.
    apply list_elem_of_fmap in Hrow as (m & -> & _).
    unfold range. by rewrite length_map, length_seq. }
  intros m n Hm Hn. rewrite exact_blocks_block by done.
  assert (Hrm : (m + 1) * b <= Mm * b) by (apply Nat.mul_le_mono_r; lia).
  assert (Hcn : (n + 1) * b <= Nn * b) by (apply Nat.mul_le_mono_r; lia).
  split.
  - pose proof (slice2_shape _ _ X (m * b) _ (n * b) _ HX Hrm Hcn) as Hs.
    replace ((m + 1) * b - m * b) with b in Hs by lia.
    replace ((n + 1) * b - n * b) with b in Hs by lia.
    exact Hs.
  - intros i j Hi Hj. rewrite slice2_entry by lia.
    rewrite decide_True by lia. reflexivity.
Qed.

(** ** Joining the blocks *)

Lemma np_empty_shape (garbage : nat -> nat -> D) (h w : nat) :
  has_shape h w (np_empty garbage h w).
Proof.
  unfold np_empty. split.
  - by rewrite length_map, length_seq.
  - apply Forall_forall. intros row Hrow.
    apply list_elem_of_fmap in Hrow as (i & -> & _).
    by rewrite length_map, length_seq.
Qed.

Lemma write_window_shape (hh ww : nat) A (r0 c0 h w : nat) V :
  has_shape hh ww A -> has_shape hh ww (write_window A r0 c0 h w V).
Proof.
  intros [Hlen Hrows]. unfold write_window. split.
  - by rewrite length_imap.
  - apply Forall_forall. intros row Hrow.
    apply list_elem_of_lookup_1 in Hrow as (i & Hi).
    rewrite list_lookup_imap in Hi.
    destruct (A !! i) as [row0|] eqn:Hrow0; simpl in Hi; [|discriminate].
    injection Hi as <-.
    assert (length row0 = ww).
    { rewrite Forall_forall in Hrows. apply Hrows.
      by eapply list_elem_of_lookup_2. }
    destruct (decide (r0 <= i < r0 + h)); [|done].
    by rewrite length_imap.
Qed.

Lemma write_window_entry (hh ww : nat) A (r0 c0 h w : nat) V (i j : nat) :
  has_shape hh ww A -> i < hh -> j < ww ->
  entry (write_window A r0 c0 h w V) i j
  = if decide ((r0 <= i < r0 + h) /\ (c0 <= j < c0 + w))
    then entry V (i - r0) (j - c0) else entry A i j.
Proof.
  intros HA Hi Hj.
  destruct (lookup_lt_is_Some_2 A i) as [row Hrow]; [destruct HA; lia|].
  pose proof (has_shape_lookup _ _ _ _ _ HA Hrow) as Hlrow.
  destruct (lookup_lt_is_Some_2 row j) as [v Hv]; [lia|].
  rewrite (entry_lookup A i j row v Hrow Hv).
  unfold write_window.
  destruct (decide (r0 <= i < r0 + h)) as [Hin|Hout].
  - eapply entry_lookup.
    + rewrite list_lookup_imap, Hrow. simpl. rewrite decide_True by done.
      reflexivity.
    + rewrite list_lookup_imap, Hv. simpl.
      destruct (decide (c0 <= j < c0 + w)).
      * rewrite decide_True by done. reflexivity.
      * rewrite decide_False by tauto. reflexivity.
  - rewrite (decide_False (P := _ /\ _)) by tauto.
    eapply entry_lookup.
    + rewrite list_lookup_imap, Hrow. simpl. rewrite decide_False by done.
      reflexivity.
    + exact Hv.
Qed.

Lemma assign_slice2_same (shape : nat * nat) A (r0 r1 c0 c1 h w : nat) V :
  h = (r1 `min` shape.1) - (r0 `min` shape.1) ->
  w = (c1 `min` shape.2) - (c0 `min` shape.2) ->
  has_shape h w V ->
  assign_slice2 shape A r0 r1 c0 c1 V = Ok (write_window A r0 c0 h w V).
Proof.
  intros -> -> HV. unfold assign_slice2.
  by rewrite broadcast_to_same by exact HV.
Qed.

(** One block written back into an image whose sides are multiples of [b]. *)
Lemma join_block_exact (Mm Nn b : nat) X A (m n : nat) :
  has_shape (Mm * b) (Nn * b) X -> m < Mm -> n < Nn ->
  join_block (exact_blocks X b Mm Nn) b (Mm * b, Nn * b) m A n
  = Ok (write_window A (m * b) (n * b) b b
          (slice2 X (m * b) ((m + 1) * b) (n * b) ((n + 1) * b))).
Proof.
  intros HX Hm Hn. unfold join_block.
  rewrite exact_blocks_get2 by done. simpl.
  assert (Hrm : (m + 1) * b <= Mm * b) by (apply Nat.mul_le_mono_r; lia).
  assert (Hcn : (n + 1) * b <= Nn * b) by (apply Nat.mul_le_mono_r; lia).
  apply assign_slice2_same; simpl; [lia | lia |].
  pose proof (slice2_shape _ _ X (m * b) _ (n * b) _ HX Hrm Hcn) as Hs.
  replace ((m + 1) * b - m * b) with b in Hs by lia.
  replace ((n + 1) * b - n * b) with b in Hs by lia.
  exact Hs.
Qed.

Lemma join_blocks_exact (garbage : nat -> nat -> D) (Mm Nn b : nat) X :
  has_shape (Mm * b) (Nn * b) X ->
  join_blocks garbage (exact_blocks X b Mm Nn) b Mm Nn (Mm * b, Nn * b) = Ok X.
Proof.
  intros HX. unfold join_blocks.
  destruct (foldM_range_inv
    (fun m A => has_shape (Mm * b) (Nn * b) A /\
       forall i j, i < m * b -> i < Mm * b -> j < Nn * b ->
                   entry A i j = entry X i j)
    (fun image m =>
       foldM (join_block (exact_blocks X b Mm Nn) b (Mm * b, Nn * b) m)
             (range Nn) image)
    Mm (np_empty garbage (Mm * b) (Nn * b))) as (A & Hrun & HA & Hcells).
  - split; [apply np_empty_shape|]. intros i j Hi. lia.
  - intros m A0 Hm [HA0 Hdone].
    destruct (foldM_range_inv
      (fun n A => has_shape (Mm * b) (Nn * b) A /\
         forall i j, i < Mm * b -> j < Nn * b ->
           i < m * b \/ (i < (m + 1) * b /\ j < n * b) ->
           entry A i j = entry X i j)
      (join_block (exact_blocks X b Mm Nn) b (Mm * b, Nn * b) m)
      Nn A0) as (A1 & Hrun1 & HA1 & Hcells1).
    + split; [exact HA0|]. intros i j Hi Hj [Hlt|[_ Hlt]]; [|lia].
      by apply Hdone.
    + intros n A Hn [HAs Hc].
      eexists. split; [by apply join_block_exact|].
      split; [by apply write_window_shape|].
      intros i j Hi Hj Hcov.
      rewrite (write_window_entry _ _ _ _ _ _ _ _ _ _ HAs Hi Hj).
      destruct (decide ((m * b <= i < m * b + b) /\ (n * b <= j < n * b + b)))
        as [[Hwi Hwj]|Hout].
      * rewrite slice2_entry by lia. f_equal; lia.
      * apply Hc; [done|done|]. lia.
    + exists A1. split; [exact Hrun1|]. split; [exact HA1|].
      intros i j Hi Hi' Hj.
      destruct (decide (j < Nn * b)) as [Hjj|]; [|lia].
      apply Hcells1; [done|done|]. lia.
  - transitivity (Ok A); [exact Hrun|]. f_equal.
    apply (has_shape_eq (Mm * b) (Nn * b)); [exact HA | exact HX|].
    intros i j Hi Hj. by apply Hcells.
Qed.

(** C2, as the code has it.  For an image [X] of shape [(M*b, N*b)] with
    [M, b > 0], [break_blocks(X, b)] returns the [M] by [N] grid of [b] by
    [b] blocks in which block [(m, n)] holds rows [m*b .. (m+1)*b) and columns
    [n*b .. (n+1)*b) of [X]; no cell lies outside the image. *)
Theorem break_blocks_exact (Mm Nn b : nat) X :
  0 < b -> 0 < Mm -> has_shape (Mm * b) (Nn * b) X ->
  exists G, break_blocks X b None None = Ok G /\ zero_padded_blocks X b G.
Proof.
  intros Hb HM HX. exists (exact_blocks X b Mm Nn). split.
  - by apply (break_blocks_exact_run Mm Nn).
  - by apply exact_blocks_zero_padded.
Qed.

(** C10.  For an image [X] whose height [M*b] and width [N*b] are multiples
    of the block side, joining the blocks of [X] gives [X] back, whatever the
    freshly allocated image held. *)
Theorem join_break_roundtrip (garbage : nat -> nat -> D) (Mm Nn b : nat) X :
  0 < b -> 0 < Mm -> has_shape (Mm * b) (Nn * b) X ->
  exists G, break_blocks X b None None = Ok G /\
            join_blocks garbage G b Mm Nn (Mm * b, Nn * b) = Ok X.
Proof.
  intros Hb HM HX. exists (exact_blocks X b Mm Nn). split.
  - by apply (break_blocks_exact_run Mm Nn).
  - by apply join_blocks_exact.
Qed.

End Blocks.

Lemma break_blocks_exact_witness :
  exists G, break_blocks [[1; 2; 3; 4]; [5; 6; 7; 8]]%Z 2 None None = Ok G /\
            zero_padded_blocks [[1; 2; 3; 4]; [5; 6; 7; 8]]%Z 2 G.
Proof.
  apply (break_blocks_exact (D := Z) 1 2 2).
  - lia.
  - lia.
  - split; [reflexivity|]. repeat constructor.
Defined.

Lemma join_break_roundtrip_witness :
  exists G, break_blocks [[1; 2; 3; 4]; [5; 6; 7; 8]]%Z 2 None None = Ok G /\
            join_blocks (fun _ _ => 99%Z) G 2 1 2 (1 * 2, 2 * 2)
            = Ok [[1; 2; 3; 4]; [5; 6; 7; 8]]%Z.
Proof.
  apply (join_break_roundtrip (D := Z) (fun _ _ => 99%Z) 1 2 2).
  - lia.
  - lia.
  - split; [reflexivity|]. repeat constructor.
Defined.

(** C2 as stated fails: a trailing slice is not padded with zeros.  The
    1 by 1 image [[5]] with [b = 2] yields the block [[5, 5], [5, 5]] (the
    slice is broadcast), and a 2 by 2 image with [b = 3] raises
    [ValueError]. *)
Lemma break_blocks_no_zero_pad :
  ~ (exists G, break_blocks [[5%Z]] 2 None None = Ok G /\
               zero_padded_blocks [[5%Z]] 2 G)
  /\ break_blocks [[1; 2]; [3; 4]]%Z 3 None None = Err ValueError.
Proof.
  split; [|reflexivity].
  intros (G & Hrun & Mm & Nn & HM & HN & Hlen & Hrows & Hcells).
  vm_compute in Hrun. injection Hrun as <-.
  simpl in HM, HN, Hlen. subst Mm.
  assert (Nn = 1) as -> by lia.
  destruct (Hcells 0 0 ltac:(lia) ltac:(lia)) as [_ Hc].
  specialize (Hc 0 1 ltac:(lia) ltac:(lia)).
  vm_compute in Hc. discriminate Hc.
Qed.

(** ** The elementary-matrix builder *)

Section Elementary.
Context {D : Type} {SD : Scalar D}.

(** C5, as the code has it.  Two runs of [build_alg5_matrices] with the same
    [(w, b, r)] return the same first 21 matrices of the pack (everything up
    to [AbarR]) whatever the image width and height are; [AwF] and [AwR]
    agree when the widths agree, [AhF] and [AhR] when the heights agree. *)
Theorem build_alg5_matrices_size_independent
    (b r : nat) (wgt : list D) (width1 height1 width2 height2 : nat)
    (pack1 pack2 : list (list (list D))) :
  build_alg5_matrices b r wgt width1 height1 = Ok pack1 ->
  build_alg5_matrices b r wgt width2 height2 = Ok pack2 ->
  take 21 pack1 = take 21 pack2 /\
  (width1 = width2 ->
   pack1 !! 21 = pack2 !! 21 /\ pack1 !! 22 = pack2 !! 22) /\
  (height1 = height2 ->
   pack1 !! 23 = pack2 !! 23 /\ pack1 !! 24 = pack2 !! 24).
Proof.
  unfold build_alg5_matrices. intros H1 H2.
  repeat (let x := fresh "a" in let Hx := fresh "Ha" in
          apply bind_Ok in H1; destruct H1 as (x & Hx & H1)).
  repeat (let x := fresh "c" in let Hx := fresh "Hc" in
          apply bind_Ok in H2; destruct H2 as (x & Hx & H2)).
  injection H1 as <-. injection H2 as <-.
  repeat match goal with
         | Hx : ?e = Ok ?x, Hy : ?e = Ok ?y |- _ =>
             assert (x = y) by congruence; subst y; clear Hy
         end.
  split; [reflexivity|]. split.
  - intros <-.
    repeat match goal with
           | Hx : ?e = Ok ?x, Hy : ?e = Ok ?y |- _ =>
               assert (x = y) by congruence; subst y; clear Hy
           end.
    split; reflexivity.
  - intros <-.
    repeat match goal with
           | Hx : ?e = Ok ?x, Hy : ?e = Ok ?y |- _ =>
               assert (x = y) by congruence; subst y; clear Hy
           end.
    split; reflexivity.
Qed.

End Elementary.

Lemma build_alg5_matrices_size_independent_witness :
  exists pack1 pack2,
    build_alg5_matrices 2 1 [1; 2]%Z 2 1 = Ok pack1 /\
    build_alg5_matrices 2 1 [1; 2]%Z 2 3 = Ok pack2 /\
    take 21 pack1 = take 21 pack2 /\
    (2 = 2 -> pack1 !! 21 = pack2 !! 21 /\ pack1 !! 22 = pack2 !! 22) /\
    (1 = 3 -> pack1 !! 23 = pack2 !! 23 /\ pack1 !! 24 = pack2 !! 24).
Proof.
  eexists. eexists.
  split; [vm_compute; reflexivity|]. split; [vm_compute; reflexivity|].
  apply (build_alg5_matrices_size_independent (D := Z) 2 1 [1; 2]%Z 2 1 2 3);
    vm_compute; reflexivity.
Defined.

(** C5 as stated fails: with [w = (1, 2)], [b = 2], [r = 1] the packs built
    for widths 1 and 2 differ ([AwF] is [[-2]] and [[4]]), and so do the
    packs built for heights 1 and 2. *)
Lemma build_alg5_matrices_depends_on_size :
  build_alg5_matrices 2 1 [1; 2]%Z 1 1 <> build_alg5_matrices 2 1 [1; 2]%Z 2 1
  /\ build_alg5_matrices 2 1 [1; 2]%Z 1 1 <> build_alg5_matrices 2 1 [1; 2]%Z 1 2.
Proof. split; vm_compute; discriminate. Qed.

(** ** What the stages write *)

Section Frames.
Context {D : Type} {SD : Scalar D}.
Implicit Types (st : store (D := D)) (V : list (list D)).

Lemma upd_P_frame st (m n : Z) V st' :
  upd_P st m n V = Ok st' ->
  blocks st' = blocks st /\ E st' = E st /\ Pt st' = Pt st /\ Et st' = Et st.
Proof. unfold upd_P. intros Hu. inv_bind Hu. inv_ok. simpl. tauto. Qed.

Lemma upd_E_frame st (m n : Z) V st' :
  upd_E st m n V = Ok st' ->
  blocks st' = blocks st /\ P st' = P st /\ Pt st' = Pt st /\ Et st' = Et st.
Proof. unfold upd_E. intros Hu. inv_bind Hu. inv_ok. simpl. tauto. Qed.

Lemma upd_Pt_frame st (m n : Z) V st' :
  upd_Pt st m n V = Ok st' ->
  blocks st' = blocks st /\ P st' = P st /\ E st' = E st /\ Et st' = Et st.
Proof. unfold upd_Pt. intros Hu. inv_bind Hu. inv_ok. simpl. tauto. Qed.

Lemma upd_Et_frame st (m n : Z) V st' :
  upd_Et st m n V = Ok st' ->
  blocks st' = blocks st /\ P st' = P st /\ E st' = E st /\ Pt st' = Pt st.
Proof. unfold upd_Et. intros Hu. inv_bind Hu. inv_ok. simpl. tauto. Qed.

(** Collect the frame facts of every update among the hypotheses. *)
Ltac frames :=
  repeat match goal with
         | Hu : upd_P _ _ _ _ = Ok _ |- _ =>
             apply upd_P_frame in Hu; destruct Hu as (? & ? & ? & ?)
         | Hu : upd_E _ _ _ _ = Ok _ |- _ =>
             apply upd_E_frame in Hu; destruct Hu as (? & ? & ? & ?)
         | Hu : upd_Pt _ _ _ _ = Ok _ |- _ =>
             apply upd_Pt_frame in Hu; destruct Hu as (? & ? & ? & ?)
         | Hu : upd_Et _ _ _ _ = Ok _ |- _ =>
             apply upd_Et_frame in Hu; destruct Hu as (? & ? & ? & ?)
         end.

Ltac inv_binds Hyp :=
  repeat (let x := fresh "v" in
          let Hx := fresh "Hv" in
          apply bind_Ok in Hyp; destruct Hyp as (x & Hx & Hyp)).

Lemma stage1_block_frame (r : nat) (wgt : list D) (Zrb Zbr : list (list D))
    st (mn : nat * nat) st' :
  stage1_block r wgt Zrb Zbr st mn = Ok st' -> blocks st' = blocks st.
Proof.
  unfold stage1_block. intros Hs. inv_binds Hs. frames.
  injection Hs as <-. simpl. congruence.
Qed.

Lemma stage2_step_frame (AbF : list (list D)) (n : nat) st (m : nat) st' :
  stage2_step AbF n st m = Ok st' ->
  blocks st' = blocks st /\ E st' = E st /\ Pt st' = Pt st /\ Et st' = Et st.
Proof.
  unfold stage2_step. intros Hs. inv_bind Hs. by apply upd_P_frame in Hs.
Qed.

Lemma stage3_step_frame (HARB_AFP AbR : list (list D)) (n : nat) st (m : nat) st' :
  stage3_step HARB_AFP AbR n st m = Ok st' ->
  blocks st' = blocks st /\ P st' = P st /\ Pt st' = Pt st /\ Et st' = Et st.
Proof.
  unfold stage3_step. intros Hs. inv_bind Hs. by apply upd_E_frame in Hs.
Qed.

Lemma stage4_step_frame (ARB_AFP ARE TAFBT AbFT : list (list D)) (m : nat)
    st (n : nat) st' :
  stage4_step ARB_AFP ARE TAFBT AbFT m st n = Ok st' ->
  blocks st' = blocks st /\ P st' = P st /\ E st' = E st /\ Et st' = Et st.
Proof.
  unfold stage4_step. intros Hs. inv_bind Hs. by apply upd_Pt_frame in Hs.
Qed.

Lemma stage5_step_frame (ARB_AFP ARE HARB_AFBT HARB_AFPT AbRT : list (list D))
    (m : nat) st (n : nat) st' :
  stage5_step ARB_AFP ARE HARB_AFBT HARB_AFPT AbRT m st n = Ok st' ->
  blocks st' = blocks st /\ P st' = P st /\ E st' = E st /\ Pt st' = Pt st.
Proof.
  unfold stage5_step. intros Hs. inv_bind Hs. by apply upd_Et_frame in Hs.
Qed.

(** The forward sweep of a column writes [P] only. *)
Lemma stage2_sweep_frame (AbF : list (list D)) (m_size n : nat) st st' :
  stage2_sweep AbF m_size n st = Ok st' ->
  blocks st' = blocks st /\ E st' = E st /\ Pt st' = Pt st /\ Et st' = Et st.
Proof.
  unfold stage2_sweep.
  apply (foldM_preserves (fun s =>
    blocks s = blocks st /\ E s = E st /\ Pt s = Pt st /\ Et s = Et st));
    [|tauto].
  intros m s0 s1 _ (? & ? & ? & ?) Hs.
  apply stage2_step_frame in Hs as (? & ? & ? & ?).
  repeat split; congruence.
Qed.

Lemma stage3_sweep_frame (HARB_AFP AbR : list (list D)) (m_size n : nat) st st' :
  stage3_sweep HARB_AFP AbR m_size n st = Ok st' ->
  blocks st' = blocks st /\ P st' = P st /\ Pt st' = Pt st /\ Et st' = Et st.
Proof.
  unfold stage3_sweep.
  apply (foldM_preserves (fun s =>
    blocks s = blocks st /\ P s = P st /\ Pt s = Pt st /\ Et s = Et st));
    [|tauto].
  intros m s0 s1 _ (? & ? & ? & ?) Hs.
  apply stage3_step_frame in Hs as (? & ? & ? & ?).
  repeat split; congruence.
Qed.

Lemma stage4_sweep_frame (ARB_AFP ARE TAFBT AbFT : list (list D))
    (n_size m : nat) st st' :
  stage4_sweep ARB_AFP ARE TAFBT AbFT n_size m st = Ok st' ->
  blocks st' = blocks st /\ P st' = P st /\ E st' = E st /\ Et st' = Et st.
Proof.
  unfold stage4_sweep.
  apply (foldM_preserves (fun s =>
    blocks s = blocks st /\ P s = P st /\ E s = E st /\ Et s = Et st));
    [|tauto].
  intros n s0 s1 _ (? & ? & ? & ?) Hs.
  apply stage4_step_frame in Hs as (? & ? & ? & ?).
  repeat split; congruence.
Qed.

Lemma stage5_sweep_frame (ARB_AFP ARE HARB_AFBT HARB_AFPT AbRT : list (list D))
    (n_size m : nat) st st' :
  stage5_sweep ARB_AFP ARE HARB_AFBT HARB_AFPT AbRT n_size m st = Ok st' ->
  blocks st' = blocks st /\ P st' = P st /\ E st' = E st /\ Pt st' = Pt st.
Proof.
  unfold stage5_sweep.
  apply (foldM_preserves (fun s =>
    blocks s = blocks st /\ P s = P st /\ E s = E st /\ Pt s = Pt st));
    [|tauto].
  intros n s0 s1 _ (? & ? & ? & ?) Hs.
  apply stage5_step_frame in Hs as (? & ? & ? & ?).
  repeat split; congruence.
Qed.

Lemma alg5_stage1_frame (m_size n_size r : nat) (wgt : list D)
    (matrices : list (list (list D))) st st' :
  alg5_stage1 m_size n_size r wgt matrices st = Ok st' ->
  blocks st' = blocks st.
Proof.
  unfold alg5_stage1. intros Hs. inv_bind Hs. revert Hs.
  apply (foldM_preserves (fun s => blocks s = blocks st)); [|reflexivity].
  intros mn s0 s1 _ Hb Hs. apply stage1_block_frame in Hs. congruence.
Qed.

Lemma alg5_stage23_frame (m_size n_size : nat)
    (matrices : list (list (list D))) st st' :
  alg5_stage23 m_size n_size matrices st = Ok st' ->
  blocks st' = blocks st /\ Pt st' = Pt st /\ Et st' = Et st.
Proof.
  unfold alg5_stage23. intros Hs. inv_bind Hs.
  destruct x as [[AbF AbR] HARB_AFP]. revert Hs.
  apply (foldM_preserves (fun s =>
    blocks s = blocks st /\ Pt s = Pt st /\ Et s = Et st)); [|tauto].
  intros n s0 s1 _ (? & ? & ?) Hs. inv_bind Hs.
  apply stage2_sweep_frame in Hx0 as (? & ? & ? & ?).
  apply stage3_sweep_frame in Hs as (? & ? & ? & ?).
  repeat split; congruence.
Qed.

Lemma alg5_stage45_frame (m_size n_size : nat)
    (matrices : list (list (list D))) st st' :
  alg5_stage45 m_size n_size matrices st = Ok st' ->
  blocks st' = blocks st /\ P st' = P st /\ E st' = E st.
Proof.
  unfold alg5_stage45. intros Hs. inv_bind Hs.
  destruct x as [[[[[[AbFT AbRT] HARB_AFPT] HARB_AFBT] ARB_AFP] TAFBT] ARE].
  revert Hs.
  apply (foldM_preserves (fun s =>
    blocks s = blocks st /\ P s = P st /\ E s = E st)); [|tauto].
  intros m s0 s1 _ (? & ? & ?) Hs. inv_bind Hs.
  apply stage4_sweep_frame in Hx0 as (? & ? & ? & ?).
  apply stage5_sweep_frame in Hs as (? & ? & ? & ?).
  repeat split; congruence.
Qed.

(** C9.  A stage that returns has written only its own arrays:
    [alg5_stage1] leaves the blocks unchanged, [alg5_stage23] leaves the
    blocks, [Pt] and [Et] unchanged, [alg5_stage45] leaves the blocks, [P]
    and [E] unchanged. *)
Theorem stages_write_own_carries (m_size n_size r : nat) (wgt : list D)
    (matrices : list (list (list D))) st st1 st2 st3 :
  (alg5_stage1 m_size n_size r wgt matrices st = Ok st1 ->
   blocks st1 = blocks st) /\
  (alg5_stage23 m_size n_size matrices st = Ok st2 ->
   blocks st2 = blocks st /\ Pt st2 = Pt st /\ Et st2 = Et st) /\
  (alg5_stage45 m_size n_size matrices st = Ok st3 ->
   blocks st3 = blocks st /\ P st3 = P st /\ E st3 = E st).
Proof.
  split; [apply alg5_stage1_frame|].
  split; [apply alg5_stage23_frame | apply alg5_stage45_frame].
Qed.

End Frames.

Lemma stages_write_own_carries_witness :
  exists matrices st st1 st2 st3,
    build_alg5_matrices 2 1 ex_weights 4 4 = Ok matrices /\
    alg5_stage1 2 2 1 ex_weights matrices ex_store = Ok st /\
    alg5_stage1 2 2 1 ex_weights matrices st = Ok st1 /\
    alg5_stage23 2 2 matrices st = Ok st2 /\
    alg5_stage45 2 2 matrices st = Ok st3 /\
    blocks st1 = blocks st /\
    (blocks st2 = blocks st /\ Pt st2 = Pt st /\ Et st2 = Et st) /\
    (blocks st3 = blocks st /\ P st3 = P st /\ E st3 = E st).
Proof.
  do 5 eexists.
  split; [vm_compute; reflexivity|].
  split; [vm_compute; reflexivity|].
  match goal with
  | |- alg5_stage1 ?m ?n ?r ?w ?mat ?st = Ok ?s1 /\ ?b = Ok ?s2 /\
       ?c = Ok ?s3 /\ _ =>
      assert (Ha : alg5_stage1 m n r w mat st = Ok s1)
        by (vm_compute; reflexivity);
      assert (Hb : b = Ok s2) by (vm_compute; reflexivity);
      assert (Hc : c = Ok s3) by (vm_compute; reflexivity);
      pose proof (stages_write_own_carries m n r w mat st s1 s2 s3)
        as (H1 & H2 & H3)
  end.
  split; [exact Ha|]. split; [exact Hb|]. split; [exact Hc|].
  split; [exact (H1 Ha)|]. split; [exact (H2 Hb) | exact (H3 Hc)].
Defined.

(** ** Shapes of the sweeps *)

Section Shapes.
Context {D : Type} {SD : Scalar D}.
Implicit Types (A B X V Prol Epil Bloc : list (list D)) (weig : list D).

Lemma foldM_total {S X : Type} (I : S -> Prop) (f : S -> X -> result S)
    (xs : list X) (s : S) :
  (forall x s0, x ∈ xs -> I s0 -> exists s1, f s0 x = Ok s1 /\ I s1) ->
  I s -> exists s', foldM f xs s = Ok s' /\ I s'.
Proof.
  revert s. induction xs as [|x xs IH]; intros s Hstep H0; simpl; [eauto|].
  destruct (Hstep x s (list_elem_of_here _ _) H0) as (s1 & -> & H1). simpl.
  apply IH; [|exact H1].
  intros y s0 Hy. apply Hstep. by apply list_elem_of_further.
Qed.

Lemma has_shape_zeros (h w : nat) : has_shape h w (zeros h w).
Proof.
  unfold zeros. split; [apply length_replicate|].
  apply Forall_replicate. apply length_replicate.
Qed.

Lemma has_shape_ncols (h w : nat) A : has_shape h w A -> 0 < h -> ncols A = w.
Proof.
  intros HA Hh. destruct A as [|row A'].
  - destruct HA as [Hlen _]. simpl in Hlen. lia.
  - apply (has_shape_lookup _ _ _ 0 _ HA). reflexivity.
Qed.

Lemma has_shape_nrows (h w : nat) A : has_shape h w A -> nrows A = h.
Proof. by intros [? _]. Qed.

Lemma has_shape_insert (h w : nat) A (i : nat) (row : list D) :
  has_shape h w A -> length row = w -> has_shape h w (<[i := row]> A).
Proof.
  intros [Hlen Hrows] Hrow. split; [by rewrite length_insert|].
  by apply Forall_insert.
Qed.

Lemma transpose_shape (h w : nat) A :
  has_shape h w A -> 0 < h -> has_shape w h (transpose A).
Proof.
  intros HA Hh. unfold transpose.
  rewrite (has_shape_ncols _ _ _ HA Hh). split.
  - by rewrite length_map, length_seq.
  - apply Forall_forall. intros col Hcol.
    apply list_elem_of_fmap in Hcol as (j & -> & _).
    rewrite length_map. by destruct HA.
Qed.

Lemma H_shape (h w r : nat) A : has_shape h w A -> r <= h -> has_shape r w (H A r).
Proof.
  intros [Hlen Hrows] Hr. unfold H, py_head. split.
  - rewrite length_take. lia.
  - by apply Forall_take.
Qed.

Lemma T_shape (h w r : nat) A :
  has_shape h w A -> 0 < r <= h -> has_shape r w (T A r).
Proof.
  intros [Hlen Hrows] Hr. unfold T, py_tail.
  destruct (decide (r = 0)); [lia|]. split.
  - rewrite length_drop. lia.
  - by apply Forall_drop.
Qed.

Lemma HT_shape (h w r : nat) A : has_shape h w A -> r <= w -> has_shape h r (HT A r).
Proof.
  intros [Hlen Hrows] Hr. unfold HT, py_head. split.
  - by rewrite length_map.
  - apply Forall_fmap. eapply Forall_impl; [exact Hrows|].
    intros row Hrow. cbv beta in Hrow. simpl. rewrite length_take. lia.
Qed.

Lemma TT_shape (h w r : nat) A :
  has_shape h w A -> 0 < r <= w -> has_shape h r (TT A r).
Proof.
  intros [Hlen Hrows] Hr. unfold TT, py_tail. split.
  - by rewrite length_map.
  - apply Forall_fmap. eapply Forall_impl; [exact Hrows|].
    intros row Hrow. cbv beta in Hrow. simpl.
    destruct (decide (r = 0)); [lia|]. rewrite length_drop. lia.
Qed.

(** The forward sweep of a row returns a row of the same length. *)
Lemma fwd_total (prol x weig : list D) :
  0 < length weig -> length weig - 1 <= length prol ->
  exists y, fwd prol x weig = Ok y /\ length y = length x.
Proof.
  intros Hw Hp. destruct (fwd_ok prol weig x Hw Hp) as (y & Hy & Hlen & _).
  eauto.
Qed.

Lemma rev_tap_total (epil weig bloc : list D) (j k : nat) :
  j < length bloc -> 0 < k < length weig -> length weig - 1 <= length epil ->
  exists y, rev_tap epil weig j bloc k = Ok y /\ length y = length bloc.
Proof.
  intros Hj Hk He. unfold rev_tap.
  destruct (lookup_lt_is_Some_2 bloc j Hj) as [bj Hbj].
  destruct (lookup_lt_is_Some_2 weig k) as [wk Hwk]; [lia|].
  rewrite (py_get_nat _ _ _ Hbj). simpl.
  destruct (decide (length bloc <= j + k)) as [Hout|Hin].
  - destruct (lookup_lt_is_Some_2 epil (j + k - length bloc)) as [v Hv]; [lia|].
    replace (Z.of_nat j + Z.of_nat k - Z.of_nat (length bloc))%Z
      with (Z.of_nat (j + k - length bloc)) by lia.
    rewrite (py_get_nat _ _ _ Hv). simpl.
    rewrite (py_get_nat _ _ _ Hwk). simpl.
    eexists. split; [reflexivity|]. by rewrite length_insert.
  - destruct (lookup_lt_is_Some_2 bloc (j + k)) as [v Hv]; [lia|].
    replace (Z.of_nat j + Z.of_nat k)%Z with (Z.of_nat (j + k)) by lia.
    rewrite (py_get_nat _ _ _ Hv). simpl.
    rewrite (py_get_nat _ _ _ Hwk). simpl.
    eexists. split; [reflexivity|]. by rewrite length_insert.
Qed.

Lemma rev_step_total (epil weig bloc : list D) (j0 : nat) :
  j0 < length bloc -> 0 < length weig -> length weig - 1 <= length epil ->
  exists y, rev_step epil weig bloc j0 = Ok y /\ length y = length bloc.
Proof.
  intros Hj Hw He. unfold rev_step.
  set (j := length bloc - 1 - j0).
  assert (Hjlt : j < length bloc) by (unfold j; lia).
  destruct (lookup_lt_is_Some_2 bloc j Hjlt) as [bj Hbj].
  destruct (lookup_lt_is_Some_2 weig 0 Hw) as [w0 Hw0].
  rewrite (py_get_nat _ _ _ Hbj). simpl.
  rewrite (py_get_nat weig 0 _ Hw0 : py_get weig 0%Z = Ok w0). simpl.
  apply (foldM_total (fun s => length s = length bloc)).
  - intros k s0 Hk Hs0. apply elem_of_seq in Hk.
    destruct (rev_tap_total epil weig s0 j k) as (y & Hy & Hlen);
      [lia | lia | exact He |].
    exists y. split; [exact Hy | congruence].
  - by rewrite length_insert.
Qed.

(** The reverse sweep of a row returns a row of the same length. *)
Lemma rev_total (x epil weig : list D) :
  0 < length weig -> length weig - 1 <= length epil ->
  exists y, rev x epil weig = Ok y /\ length y = length x.
Proof.
  intros Hw He. unfold rev.
  apply (foldM_total (fun s => length s = length x)); [|reflexivity].
  intros j0 s0 Hj Hs0. apply elem_of_seq in Hj.
  destruct (rev_step_total epil weig s0 j0) as (y & Hy & Hlen);
    [lia | exact Hw | exact He |].
  exists y. split; [exact Hy | congruence].
Qed.

Lemma FT_total (h w : nat) Prol Bloc weig :
  has_shape h w Bloc -> long_rows h weig Prol -> 0 < length weig ->
  exists B', FT Prol Bloc weig = Ok B' /\ has_shape h w B'.
Proof.
  intros HB [Hlen Hrows] Hw. unfold FT.
  apply (foldM_total (has_shape h w)); [|exact HB].
  intros row FTB Hrow HF. apply elem_of_seq in Hrow.
  assert (Hh : length Bloc = h) by (by destruct HB).
  unfold FT_row.
  destruct (lookup_lt_is_Some_2 Prol row) as [prow Hprow]; [lia|].
  destruct (lookup_lt_is_Some_2 FTB row) as [brow Hbrow]; [destruct HF; lia|].
  rewrite (py_get_nat _ _ _ Hprow). simpl.
  rewrite (py_get_nat _ _ _ Hbrow). simpl.
  destruct (fwd_total prow brow weig Hw) as (y & Hy & Hylen).
  { rewrite Forall_forall in Hrows. apply Hrows.
    by eapply list_elem_of_lookup_2. }
  rewrite Hy. simpl. eexists. split; [reflexivity|].
  apply has_shape_insert; [exact HF|].
  rewrite Hylen. by eapply has_shape_lookup.
Qed.

Lemma RT_total (h w : nat) Bloc Epil weig :
  has_shape h w Bloc -> long_rows h weig Epil -> 0 < length weig ->
  exists B', RT Bloc Epil weig = Ok B' /\ has_shape h w B'.
Proof.
  intros HB [Hlen Hrows] Hw. unfold RT.
  apply (foldM_total (has_shape h w)); [|exact HB].
  intros row RTB Hrow HF. apply elem_of_seq in Hrow.
  assert (Hh : length Bloc = h) by (by destruct HB).
  unfold RT_row.
  destruct (lookup_lt_is_Some_2 Epil row) as [erow Herow]; [lia|].
  destruct (lookup_lt_is_Some_2 RTB row) as [brow Hbrow]; [destruct HF; lia|].
  rewrite (py_get_nat _ _ _ Hbrow). simpl.
  rewrite (py_get_nat _ _ _ Herow). simpl.
  destruct (rev_total brow erow weig Hw) as (y & Hy & Hylen).
  { rewrite Forall_forall in Hrows. apply Hrows.
    by eapply list_elem_of_lookup_2. }
  rewrite Hy. simpl. eexists. split; [reflexivity|].
  apply has_shape_insert; [exact HF|].
  rewrite Hylen. by eapply has_shape_lookup.
Qed.

Lemma has_shape_long_rows (h r : nat) weig A :
  has_shape h r A -> length weig - 1 <= r -> long_rows h weig A.
Proof.
  intros [Hlen Hrows] Hr. split; [lia|].
  eapply Forall_impl; [exact Hrows|]. intros row Hrow. simpl in Hrow. lia.
Qed.

(** [F] and [R] on a block of shape [(h, w)] with [r] rows of prologue. *)
Lemma F_total (h w r : nat) Prol Bloc weig :
  has_shape h w Bloc -> has_shape r w Prol ->
  0 < h -> 0 < w -> 0 < r -> 0 < length weig -> length weig - 1 <= r ->
  exists B', F Prol Bloc weig = Ok B' /\ has_shape h w B'.
Proof.
  intros HB HP Hh Hw Hr Hwg Hlen. unfold F.
  destruct (FT_total w h (transpose Prol) (transpose Bloc) weig)
    as (B1 & HB1 & Hs1).
  - by apply transpose_shape.
  - apply (has_shape_long_rows w r); [by apply transpose_shape | exact Hlen].
  - exact Hwg.
  - rewrite HB1. simpl. eexists. split; [reflexivity|].
    by apply transpose_shape.
Qed.

Lemma R_total (h w r : nat) Bloc Epil weig :
  has_shape h w Bloc -> has_shape r w Epil ->
  0 < h -> 0 < w -> 0 < r -> 0 < length weig -> length weig - 1 <= r ->
  exists B', R Bloc Epil weig = Ok B' /\ has_shape h w B'.
Proof.
  intros HB HP Hh Hw Hr Hwg Hlen. unfold R.
  destruct (RT_total w h (transpose Bloc) (transpose Epil) weig)
    as (B1 & HB1 & Hs1).
  - by apply transpose_shape.
  - apply (has_shape_long_rows w r); [by apply transpose_shape | exact Hlen].
  - exact Hwg.
  - rewrite HB1. simpl. eexists. split; [reflexivity|].
    by apply transpose_shape.
Qed.

End Shapes.

(** ** Slots of the 4-D arrays *)

Section Grids.
Context {D : Type} {SD : Scalar D}.
Implicit Types (G : list (list (list (list D)))) (V : list (list D)).

Lemma grid_shape_slot (rows cols h w : nat) G (m n : nat) :
  grid_shape rows cols h w G -> m < rows -> n < cols ->
  exists row, G !! m = Some row /\ length row = cols /\
              row !! n = Some (grid_block G m n) /\
              has_shape h w (grid_block G m n).
Proof.
  intros [Hlen Hrows] Hm Hn.
  destruct (lookup_lt_is_Some_2 G m) as [row Hrow]; [lia|].
  rewrite Forall_forall in Hrows.
  destruct (Hrows row) as [Hcols Hslots]; [by eapply list_elem_of_lookup_2|].
  destruct (lookup_lt_is_Some_2 row n) as [V HV]; [lia|].
  assert (Hb : grid_block G m n = V).
  { unfold grid_block. rewrite (nth_lookup_Some _ _ _ _ Hrow).
    by apply nth_lookup_Some. }
  exists row. rewrite Hb.
  split; [exact Hrow|]. split; [exact Hcols|]. split; [exact HV|].
  rewrite Forall_forall in Hslots. apply Hslots.
  by eapply list_elem_of_lookup_2.
Qed.

Lemma get2_nat (rows cols h w : nat) G (m n : nat) :
  grid_shape rows cols h w G -> m < rows -> n < cols ->
  get2 G (Z.of_nat m) (Z.of_nat n) = Ok (grid_block G m n).
Proof.
  intros HG Hm Hn.
  destruct (grid_shape_slot _ _ _ _ _ _ _ HG Hm Hn) as (row & Hrow & _ & HV & _).
  unfold get2. rewrite (py_get_nat _ _ _ Hrow). simpl.
  by apply py_get_nat.
Qed.

(** [G[-1][n]] is the last row of slots. *)
Lemma get2_last (rows cols h w : nat) G (n : nat) :
  grid_shape (rows + 1) cols h w G -> n < cols ->
  get2 G (-1) (Z.of_nat n) = Ok (grid_block G rows n).
Proof.
  intros HG Hn.
  destruct (grid_shape_slot _ _ _ _ _ rows n HG ltac:(lia) Hn)
    as (row & Hrow & _ & HV & _).
  unfold get2. destruct HG as [Hlen _].
  change (-1)%Z with (- Z.of_nat 1)%Z.
  rewrite (py_get_neg G 1 row).
  - simpl. by apply py_get_nat.
  - lia.
  - rewrite Hlen. replace (rows + 1 - 1) with rows by lia. exact Hrow.
Qed.

Lemma grid_put_shape (rows cols h w : nat) G (m n : nat) V :
  grid_shape rows cols h w G -> has_shape h w V ->
  grid_shape rows cols h w (grid_put G m n V).
Proof.
  intros [Hlen Hrows] HV. unfold grid_put. split.
  - by rewrite length_alter.
  - apply Forall_alter; [exact Hrows|].
    intros row _ [Hcols Hslots]. split.
    + by rewrite length_insert.
    + by apply Forall_insert.
Qed.

Lemma grid_block_put_eq (rows cols h w : nat) G (m n : nat) V :
  grid_shape rows cols h w G -> m < rows -> n < cols ->
  grid_block (grid_put G m n V) m n = V.
Proof.
  intros HG Hm Hn.
  destruct (grid_shape_slot _ _ _ _ _ _ _ HG Hm Hn) as (row & Hrow & Hc & _).
  unfold grid_block, grid_put.
  erewrite (nth_lookup_Some _ m).
  2:{ rewrite list_lookup_alter_eq, Hrow. reflexivity. }
  apply nth_lookup_Some. apply list_lookup_insert_eq. lia.
Qed.

Lemma grid_block_put_ne G (m n m' n' : nat) V :
  (m, n) <> (m', n') ->
  grid_block (grid_put G m n V) m' n' = grid_block G m' n'.
Proof.
  intros Hne. unfold grid_block, grid_put.
  destruct (decide (m = m')) as [<-|Hm].
  - assert (Hn : n <> n') by congruence.
    rewrite !nth_lookup, list_lookup_alter_eq.
    destruct (G !! m) as [row|]; simpl; [|reflexivity].
    rewrite ?nth_lookup. by rewrite list_lookup_insert_ne.
  - rewrite !nth_lookup. by rewrite list_lookup_alter_ne.
Qed.

(** A value of the shape of the slot is stored as it is. *)
Lemma set2_nat (rows cols h w : nat) G (m n : nat) V :
  grid_shape rows cols h w G -> m < rows -> n < cols -> 0 < h ->
  has_shape h w V ->
  set2 G (Z.of_nat m) (Z.of_nat n) V = Ok (grid_put G m n V).
Proof.
  intros HG Hm Hn Hh HV.
  destruct (grid_shape_slot _ _ _ _ _ _ _ HG Hm Hn)
    as (row & Hrow & Hc & Hold & Hso).
  unfold set2. rewrite (py_get_nat _ _ _ Hrow). simpl.
  rewrite (py_get_nat _ _ _ Hold). simpl.
  rewrite (has_shape_nrows _ _ _ Hso), (has_shape_ncols _ _ _ Hso Hh).
  rewrite (broadcast_to_same _ _ _ HV). simpl.
  rewrite py_set_nat by lia. simpl.
  rewrite py_set_nat by (destruct HG; lia).
  f_equal. unfold grid_put. apply list_eq. intros i.
  destruct (decide (i = m)) as [->|Hne].
  - rewrite list_lookup_insert_eq by (destruct HG; lia).
    by rewrite list_lookup_alter_eq, Hrow.
  - rewrite list_lookup_insert_ne by done.
    by rewrite list_lookup_alter_ne by done.
Qed.

(** [G[-1][n] = V] writes the last row of slots. *)
Lemma set2_last (rows cols h w : nat) G (n : nat) V :
  grid_shape (rows + 1) cols h w G -> n < cols -> 0 < h ->
  has_shape h w V ->
  set2 G (-1) (Z.of_nat n) V = Ok (grid_put G rows n V).
Proof.
  intros HG Hn Hh HV.
  rewrite <- (set2_nat (rows + 1) cols h w G rows n V HG ltac:(lia) Hn Hh HV).
  unfold set2, py_get, py_set. destruct HG as [Hlen _]. rewrite Hlen.
  change (-1)%Z with (- Z.of_nat 1)%Z.
  rewrite py_index_neg by lia. rewrite py_index_nat by lia.
  replace (rows + 1 - 1) with rows by lia. reflexivity.
Qed.

Lemma grid_shape_row (rows cols h w : nat) G (m : nat)
    (row : list (list (list D))) :
  grid_shape rows cols h w G -> G !! m = Some row -> length row = cols.
Proof.
  intros [_ Hrows] Hrow. rewrite Forall_forall in Hrows.
  destruct (Hrows row) as [Hc _]; [by eapply list_elem_of_lookup_2 | exact Hc].
Qed.

(** Two grids of one shape with the same slots are equal. *)
Lemma grid_ext (rows cols h w : nat) G1 G2 :
  grid_shape rows cols h w G1 -> grid_shape rows cols h w G2 ->
  (forall m n, m < rows -> n < cols -> grid_block G1 m n = grid_block G2 m n) ->
  G1 = G2.
Proof.
  intros HG1 HG2 Hslots. apply list_eq. intros m.
  destruct (decide (m < rows)) as [Hm|Hm].
  - destruct (lookup_lt_is_Some_2 G1 m) as [r1 Hr1]; [destruct HG1; lia|].
    destruct (lookup_lt_is_Some_2 G2 m) as [r2 Hr2]; [destruct HG2; lia|].
    rewrite Hr1, Hr2. f_equal. apply list_eq. intros n.
    pose proof (grid_shape_row _ _ _ _ _ _ _ HG1 Hr1) as Hl1.
    pose proof (grid_shape_row _ _ _ _ _ _ _ HG2 Hr2) as Hl2.
    destruct (decide (n < cols)) as [Hn|Hn].
    + destruct (grid_shape_slot _ _ _ _ _ _ _ HG1 Hm Hn)
        as (r1' & Hr1' & _ & Hv1 & _).
      destruct (grid_shape_slot _ _ _ _ _ _ _ HG2 Hm Hn)
        as (r2' & Hr2' & _ & Hv2 & _).
      assert (r1' = r1) as -> by congruence.
      assert (r2' = r2) as -> by congruence.
      rewrite Hv1, Hv2. f_equal. by apply Hslots.
    + rewrite !lookup_ge_None_2 by lia. reflexivity.
  - destruct HG1 as [Hl1 _], HG2 as [Hl2 _].
    rewrite !lookup_ge_None_2 by lia. reflexivity.
Qed.

End Grids.

(** ** Stage 1 *)

Section Stage1.
Context {D : Type} {SD : Scalar D}.
Implicit Types (st : store (D := D)) (B : list (list D)) (wgt : list D).

Lemma block_carries_total (r b : nat) wgt B :
  0 < r <= b -> length wgt = r + 1 -> has_shape b b B ->
  exists B1 B2 B3 B4,
    F (zeros r b) B wgt = Ok B1 /\ R B1 (zeros r b) wgt = Ok B2 /\
    FT (zeros b r) B2 wgt = Ok B3 /\ RT B3 (zeros b r) wgt = Ok B4 /\
    has_shape b b B1 /\ has_shape b b B2 /\ has_shape b b B3 /\
    has_shape b b B4.
Proof.
  intros Hr Hw HB.
  destruct (F_total b b r (zeros r b) B wgt) as (B1 & HF & H1);
    [exact HB | apply has_shape_zeros | lia..|].
  destruct (R_total b b r B1 (zeros r b) wgt) as (B2 & HR & H2);
    [exact H1 | apply has_shape_zeros | lia..|].
  destruct (FT_total b b (zeros b r) B2 wgt) as (B3 & HFT & H3);
    [exact H2 | apply (has_shape_long_rows b r); [apply has_shape_zeros | lia]
    | lia |].
  destruct (RT_total b b B3 (zeros b r) wgt) as (B4 & HRT & H4);
    [exact H3 | apply (has_shape_long_rows b r); [apply has_shape_zeros | lia]
    | lia |].
  exists B1, B2, B3, B4. tauto.
Qed.

(** The four carries of a block have the shapes of their slots. *)
Lemma carries_of_ok (r b : nat) wgt B :
  0 < r <= b -> length wgt = r + 1 -> has_shape b b B ->
  block_carries r wgt B = Ok (carries_of r wgt B) /\
  has_shape r b (carries_of r wgt B).1.1.1 /\
  has_shape r b (carries_of r wgt B).1.1.2 /\
  has_shape b r (carries_of r wgt B).1.2 /\
  has_shape b r (carries_of r wgt B).2.
Proof.
  intros Hr Hw HB.
  destruct (block_carries_total r b wgt B Hr Hw HB)
    as (B1 & B2 & B3 & B4 & HF & HR & HFT & HRT & H1 & H2 & H3 & H4).
  assert (Hrun : block_carries r wgt B = Ok (T B1 r, H B2 r, TT B3 r, HT B4 r)).
  { unfold block_carries. rewrite (has_shape_nrows _ _ _ HB).
    rewrite HF. simpl. rewrite HR. simpl. rewrite HFT. simpl.
    rewrite HRT. reflexivity. }
  unfold carries_of. rewrite Hrun. simpl.
  split; [reflexivity|].
  split; [apply (T_shape b); [exact H1 | lia]|].
  split; [apply (H_shape b); [exact H2 | lia]|].
  split; [apply (TT_shape b b); [exact H3 | lia]|].
  apply (HT_shape b b); [exact H4 | lia].
Qed.

(** One iteration of stage 1 writes the carries of its block into its four
    slots. *)
Lemma stage1_block_ok (Mm Nn r b : nat) wgt st (m n : nat) :
  0 < r <= b -> length wgt = r + 1 -> wf_store Mm Nn r b st ->
  m < Mm -> n < Nn ->
  stage1_block r wgt (zeros r b) (zeros b r) st (m, n)
  = Ok (store_put st m n (carries_of r wgt (grid_block (blocks st) m n))).
Proof.
  intros Hr Hw (Hbl & HP & HE & HPt & HEt) Hm Hn.
  destruct (grid_shape_slot _ _ _ _ _ _ _ Hbl Hm Hn) as (_ & _ & _ & _ & HB).
  set (B := grid_block (blocks st) m n) in *.
  destruct (block_carries_total r b wgt B Hr Hw HB)
    as (B1 & B2 & B3 & B4 & HF & HR & HFT & HRT & H1 & H2 & H3 & H4).
  assert (Hc : carries_of r wgt B = (T B1 r, H B2 r, TT B3 r, HT B4 r)).
  { unfold carries_of, block_carries. rewrite (has_shape_nrows _ _ _ HB).
    rewrite HF. simpl. rewrite HR. simpl. rewrite HFT. simpl.
    rewrite HRT. reflexivity. }
  rewrite Hc. unfold stage1_block. cbn [fst snd].
  rewrite (get2_nat _ _ _ _ _ _ _ Hbl Hm Hn). fold B. simpl.
  rewrite HF. simpl. unfold upd_P.
  rewrite (set2_nat (Mm + 1) Nn r b) by
    (try apply (T_shape b); try done; lia).
  simpl. rewrite HR. simpl. unfold upd_E. simpl.
  rewrite (set2_nat (Mm + 1) Nn r b) by
    (try apply (H_shape b); try done; lia).
  simpl. rewrite HFT. simpl. unfold upd_Pt. simpl.
  rewrite (set2_nat Mm (Nn + 1) b r) by
    (try apply (TT_shape b b); try done; lia).
  simpl. rewrite HRT. simpl. unfold upd_Et. simpl.
  rewrite (set2_nat Mm (Nn + 1) b r) by
    (try apply (HT_shape b b); try done; lia).
  reflexivity.
Qed.

Lemma store_put_wf (Mm Nn r b : nat) wgt st (m n : nat) :
  0 < r <= b -> length wgt = r + 1 -> wf_store Mm Nn r b st ->
  m < Mm -> n < Nn ->
  wf_store Mm Nn r b
    (store_put st m n (carries_of r wgt (grid_block (blocks st) m n))).
Proof.
  intros Hr Hw (Hbl & HP & HE & HPt & HEt) Hm Hn.
  destruct (grid_shape_slot _ _ _ _ _ _ _ Hbl Hm Hn) as (_ & _ & _ & _ & HB).
  destruct (carries_of_ok r b wgt _ Hr Hw HB) as (_ & Hp & He & Hpt & Het).
  unfold wf_store, store_put. simpl.
  split; [exact Hbl|].
  split; [by apply grid_put_shape|].
  split; [by apply grid_put_shape|].
  split; by apply grid_put_shape.
Qed.

Lemma put_slot_done (rows cols h w : nat) (G0 G : list (list (list (list D))))
    (done : list (nat * nat)) (m n m' n' : nat) (v : nat * nat -> list (list D)) :
  grid_shape rows cols h w G -> m < rows -> n < cols ->
  grid_block G m' n'
  = (if decide ((m', n') ∈ done) then v (m', n') else grid_block G0 m' n') ->
  grid_block (grid_put G m n (v (m, n))) m' n'
  = (if decide ((m', n') ∈ done ++ [(m, n)]) then v (m', n')
     else grid_block G0 m' n').
Proof.
  intros HG Hm Hn Hold.
  destruct (decide ((m, n) = (m', n'))) as [Heq|Hne].
  - injection Heq as <- <-.
    rewrite (grid_block_put_eq _ _ _ _ _ _ _ _ HG Hm Hn).
    rewrite decide_True; [reflexivity|].
    apply elem_of_app. right. apply list_elem_of_singleton. reflexivity.
  - rewrite grid_block_put_ne by exact Hne. rewrite Hold.
    destruct (decide ((m', n') ∈ done)) as [Hin|Hnin].
    + rewrite decide_True; [reflexivity|]. apply elem_of_app. by left.
    + rewrite decide_False; [reflexivity|].
      intros Hin. apply elem_of_app in Hin as [Hin|Hin]; [done|].
      apply list_elem_of_singleton in Hin. congruence.
Qed.

(** Stage 1 over any list of in-range block indices. *)
Lemma stage1_over (Mm Nn r b : nat) wgt st (idxs : list (nat * nat)) :
  0 < r <= b -> length wgt = r + 1 -> wf_store Mm Nn r b st ->
  Forall (fun mn => mn.1 < Mm /\ mn.2 < Nn) idxs ->
  exists st',
    foldM (stage1_block r wgt (zeros r b) (zeros b r)) idxs st = Ok st' /\
    wf_store Mm Nn r b st' /\ stage1_done r wgt st idxs st'.
Proof.
  intros Hr Hw Hwf Hidx.
  apply (foldM_inv (fun done s => wf_store Mm Nn r b s /\
                                  stage1_done r wgt st done s)).
  - split; [exact Hwf|]. split; [reflexivity|].
    intros m n. simpl. tauto.
  - intros done [m n] rest s0 Hsplit [Hwf0 [Hbl Hslots]].
    assert (Hmn : m < Mm /\ n < Nn).
    { rewrite Forall_forall in Hidx. apply (Hidx (m, n)).
      rewrite Hsplit. apply elem_of_app. right. apply list_elem_of_here. }
    destruct Hmn as [Hm Hn].
    eexists. split; [by apply (stage1_block_ok Mm Nn r b)|].
    split; [by apply store_put_wf|].
    destruct Hwf0 as (Hsbl & HsP & HsE & HsPt & HsEt).
    split; [simpl; exact Hbl|].
    intros m' n'. cbn zeta. unfold store_put. simpl. rewrite Hbl.
    destruct (Hslots m' n') as (HP' & HE' & HPt' & HEt').
    split; [|split; [|split]].
    + apply (put_slot_done (Mm + 1) Nn r b (P st) (P s0) done m n m' n'
               (fun mn => (carries_of r wgt (grid_block (blocks st) mn.1 mn.2)).1.1.1));
        [exact HsP | lia | lia | exact HP'].
    + apply (put_slot_done (Mm + 1) Nn r b (E st) (E s0) done m n m' n'
               (fun mn => (carries_of r wgt (grid_block (blocks st) mn.1 mn.2)).1.1.2));
        [exact HsE | lia | lia | exact HE'].
    + apply (put_slot_done Mm (Nn + 1) b r (Pt st) (Pt s0) done m n m' n'
               (fun mn => (carries_of r wgt (grid_block (blocks st) mn.1 mn.2)).1.2));
        [exact HsPt | lia | lia | exact HPt'].
    + apply (put_slot_done Mm (Nn + 1) b r (Et st) (Et s0) done m n m' n'
               (fun mn => (carries_of r wgt (grid_block (blocks st) mn.1 mn.2)).2));
        [exact HsEt | lia | lia | exact HEt'].
Qed.

Lemma elem_of_n_major (Mm Nn m n : nat) :
  (m, n) ∈ n_major Mm Nn <-> m < Mm /\ n < Nn.
Proof.
  unfold n_major, range. rewrite list_elem_of_bind. split.
  - intros (n0 & Hin & Hn0). apply list_elem_of_bind in Hin as (m0 & Hin & Hm0).
    apply list_elem_of_singleton in Hin. injection Hin as -> ->.
    apply elem_of_seq in Hn0, Hm0. lia.
  - intros [Hm Hn]. exists n. split; [|apply elem_of_seq; lia].
    apply list_elem_of_bind. exists m. split; [|apply elem_of_seq; lia].
    apply list_elem_of_singleton. reflexivity.
Qed.

(** Two stores of one shape described by the same set of processed blocks
    are equal. *)
Lemma stage1_done_unique (Mm Nn r b : nat) wgt st
    (idxs idxs' : list (nat * nat)) st1 st2 :
  (forall mn, mn ∈ idxs <-> mn ∈ idxs') ->
  wf_store Mm Nn r b st1 -> wf_store Mm Nn r b st2 ->
  stage1_done r wgt st idxs st1 -> stage1_done r wgt st idxs' st2 ->
  st1 = st2.
Proof.
  intros Hsame (_ & HP1 & HE1 & HPt1 & HEt1) (_ & HP2 & HE2 & HPt2 & HEt2)
         [Hb1 Hs1] [Hb2 Hs2].
  assert (Hdec : forall (m n : nat) (x y : list (list D)),
             (if decide ((m, n) ∈ idxs) then x else y)
             = (if decide ((m, n) ∈ idxs') then x else y)).
  { intros m n x y. destruct (decide ((m, n) ∈ idxs)) as [Hin|Hnin].
    - rewrite decide_True; [reflexivity | by apply Hsame].
    - rewrite decide_False; [reflexivity|]. intros Hin. by apply Hnin, Hsame. }
  destruct st1 as [bl1 p1 e1 pt1 et1], st2 as [bl2 p2 e2 pt2 et2].
  simpl in *. f_equal.
  - congruence.
  - apply (grid_ext _ _ _ _ _ _ HP1 HP2). intros m n _ _.
    destruct (Hs1 m n) as (-> & _), (Hs2 m n) as (-> & _). apply Hdec.
  - apply (grid_ext _ _ _ _ _ _ HE1 HE2). intros m n _ _.
    destruct (Hs1 m n) as (_ & -> & _), (Hs2 m n) as (_ & -> & _). apply Hdec.
  - apply (grid_ext _ _ _ _ _ _ HPt1 HPt2). intros m n _ _.
    destruct (Hs1 m n) as (_ & _ & -> & _), (Hs2 m n) as (_ & _ & -> & _).
    apply Hdec.
  - apply (grid_ext _ _ _ _ _ _ HEt1 HEt2). intros m n _ _.
    destruct (Hs1 m n) as (_ & _ & _ & ->), (Hs2 m n) as (_ & _ & _ & ->).
    apply Hdec.
Qed.

Lemma build_alg5_matrices_zeros (b r width height : nat) wgt
    (matrices : list (list (list D))) :
  build_alg5_matrices b r wgt width height = Ok matrices ->
  py_slice 0 2 matrices = [zeros r b; zeros b r].
Proof.
  unfold build_alg5_matrices. intros Hb.
  repeat (let x := fresh "a" in let Hx := fresh "Ha" in
          apply bind_Ok in Hb; destruct Hb as (x & Hx & Hb)).
  injection Hb as <-. reflexivity.
Qed.

(** C6.  With the matrices of [build_alg5_matrices] and well-shaped arrays,
    stage 1 returns; the carries it leaves at [(m, n)] are the carries of the
    block [blocks[m][n]] alone, computed from the block, [w] and [r]; and
    processing the block indices in any other order yields the same
    arrays. *)
Theorem stage1_block_independent (Mm Nn r b width height : nat) wgt
    (matrices : list (list (list D))) st :
  0 < r <= b -> length wgt = r + 1 ->
  build_alg5_matrices b r wgt width height = Ok matrices ->
  wf_store Mm Nn r b st ->
  exists st',
    alg5_stage1 Mm Nn r wgt matrices st = Ok st' /\
    (forall m n, m < Mm -> n < Nn ->
       exists p e pt et,
         block_carries r wgt (grid_block (blocks st) m n) = Ok (p, e, pt, et) /\
         grid_block (P st') m n = p /\ grid_block (E st') m n = e /\
         grid_block (Pt st') m n = pt /\ grid_block (Et st') m n = et) /\
    (forall idxs, Permutation idxs (n_major Mm Nn) ->
       foldM (stage1_block r wgt (zeros r b) (zeros b r)) idxs st = Ok st').
Proof.
  intros Hr Hw Hbuild Hwf.
  assert (Hrange : forall idxs, Permutation idxs (n_major Mm Nn) ->
            Forall (fun mn => mn.1 < Mm /\ mn.2 < Nn) idxs).
  { intros idxs Hperm. apply Forall_forall. intros [m n] Hin. simpl.
    apply elem_of_n_major. by rewrite <- Hperm. }
  destruct (stage1_over Mm Nn r b wgt st (n_major Mm Nn) Hr Hw Hwf
              (Hrange _ (Permutation_refl _))) as (st' & Hrun & Hwf' & Hdone).
  exists st'. split; [|split].
  - unfold alg5_stage1. rewrite (build_alg5_matrices_zeros _ _ _ _ _ _ Hbuild).
    simpl. exact Hrun.
  - intros m n Hm Hn.
    destruct Hwf as (Hbl & _).
    destruct (grid_shape_slot _ _ _ _ _ _ _ Hbl Hm Hn) as (_ & _ & _ & _ & HB).
    destruct (carries_of_ok r b wgt _ Hr Hw HB) as (Hc & _).
    destruct Hdone as [_ Hslots].
    destruct (Hslots m n) as (HP' & HE' & HPt' & HEt').
    rewrite decide_True in HP', HE', HPt', HEt' by (by apply elem_of_n_major).
    destruct (carries_of r wgt (grid_block (blocks st) m n))
      as [[[p e] pt] et] eqn:Hcar.
    exists p, e, pt, et. simpl in *. tauto.
  - intros idxs Hperm.
    destruct (stage1_over Mm Nn r b wgt st idxs Hr Hw Hwf (Hrange _ Hperm))
      as (st2 & Hrun2 & Hwf2 & Hdone2).
    rewrite Hrun2. f_equal.
    apply (stage1_done_unique Mm Nn r b wgt st idxs (n_major Mm Nn));
      [|exact Hwf2 | exact Hwf' | exact Hdone2 | exact Hdone].
    intros mn. by rewrite Hperm.
Qed.

End Stage1.

Lemma ex_store_wf : wf_store 2 2 1 2 ex_store.
Proof.
  unfold wf_store, grid_shape, has_shape. simpl.
  repeat split; repeat constructor.
Qed.

Lemma stage1_block_independent_witness :
  exists matrices,
    build_alg5_matrices 2 1 ex_weights 4 4 = Ok matrices /\
    exists st',
      alg5_stage1 2 2 1 ex_weights matrices ex_store = Ok st' /\
      (forall m n, m < 2 -> n < 2 ->
         exists p e pt et,
           block_carries 1 ex_weights (grid_block (blocks ex_store) m n)
           = Ok (p, e, pt, et) /\
           grid_block (P st') m n = p /\ grid_block (E st') m n = e /\
           grid_block (Pt st') m n = pt /\ grid_block (Et st') m n = et) /\
      (forall idxs, Permutation idxs (n_major 2 2) ->
         foldM (stage1_block 1 ex_weights (zeros 1 2) (zeros 2 1)) idxs ex_store
         = Ok st').
Proof.
  eexists. split; [vm_compute; reflexivity|].
  apply (stage1_block_independent (D := Z) 2 2 1 2 4 4 ex_weights _ ex_store).
  - lia.
  - reflexivity.
  - vm_compute. reflexivity.
  - exact ex_store_wf.
Defined.

(** ** CPE stage 1 *)

Section Cpe_stage1.
Context {D : Type} {SD : Scalar D}.
Implicit Types (st : store (D := D)) (B V : list (list D)) (wgt : list D)
  (G : list (list (list (list D)))).

Lemma tile_rows_shape (w r : nat) V :
  has_shape 1 w V -> has_shape r w (tile_rows V r).
Proof.
  intros [Hlen Hrows]. unfold tile_rows.
  induction r as [|r [IHl IHr]]; simpl; [split; [reflexivity | constructor]|].
  split.
  - rewrite length_app, IHl, Hlen. reflexivity.
  - apply Forall_app. split; assumption.
Qed.

Lemma tile_cols_shape (h r : nat) V :
  has_shape h 1 V -> has_shape h r (tile_cols V r).
Proof.
  intros [Hlen Hrows]. unfold tile_cols. split; [by rewrite length_map|].
  apply Forall_fmap. eapply Forall_impl; [exact Hrows|].
  intros row Hrow. cbv beta in Hrow. simpl.
  induction r as [|r IH]; simpl; [reflexivity|].
  rewrite length_app, IH, Hrow. reflexivity.
Qed.

(** [G[m][-1] = V] writes the last slot of row [m]. *)
Lemma set2_last_col (rows cols h w : nat) G (m : nat) V :
  grid_shape rows (cols + 1) h w G -> m < rows -> 0 < h ->
  has_shape h w V ->
  set2 G (Z.of_nat m) (-1) V = Ok (grid_put G m cols V).
Proof.
  intros HG Hm Hh HV.
  rewrite <- (set2_nat rows (cols + 1) h w G m cols V HG Hm ltac:(lia) Hh HV).
  destruct (grid_shape_slot _ _ _ _ _ m cols HG Hm ltac:(lia))
    as (row & Hrow & Hc & _).
  unfold set2. rewrite (py_get_nat _ _ _ Hrow). cbn [mbind result_bind].
  unfold py_get, py_set. rewrite Hc.
  change (-1)%Z with (- Z.of_nat 1)%Z.
  rewrite py_index_neg by lia. rewrite (py_index_nat (cols + 1) cols) by lia.
  replace (cols + 1 - 1) with cols by lia. reflexivity.
Qed.

Lemma row_filtered_eq (r b : nat) wgt B B1 B2 :
  has_shape b b B -> F (zeros r b) B wgt = Ok B1 ->
  R B1 (zeros r b) wgt = Ok B2 -> row_filtered r wgt B = B2.
Proof.
  intros HB HF HR. unfold row_filtered.
  rewrite (has_shape_nrows _ _ _ HB), HF. simpl. by rewrite HR.
Qed.


(** One iteration of CPE stage 1: the boundary write of the [if]/[elif],
    then the carries of the block. *)
Lemma cpe_stage1_block_ok (Mm Nn r b : nat) wgt st (m n : nat) :
  0 < r <= b -> length wgt = r + 1 -> wf_store Mm Nn r b st ->
  m < Mm -> n < Nn ->
  cpe_stage1_block Mm Nn r wgt (zeros r b) (zeros b r) st (m, n)
  = Ok (cpe_put Mm Nn r wgt st m n).
Proof.
  intros Hr Hw (Hbl & HP & HE & HPt & HEt) Hm Hn.
  destruct (grid_shape_slot _ _ _ _ _ _ _ Hbl Hm Hn) as (_ & _ & _ & _ & HB).
  unfold cpe_put. set (B := grid_block (blocks st) m n) in *.
  destruct (block_carries_total r b wgt B Hr Hw HB)
    as (B1 & B2 & B3 & B4 & HF & HR & HFT & HRT & H1 & H2 & H3 & H4).
  assert (Hc : carries_of r wgt B = (T B1 r, H B2 r, TT B3 r, HT B4 r)).
  { unfold carries_of, block_carries. rewrite (has_shape_nrows _ _ _ HB).
    rewrite HF. simpl. rewrite HR. simpl. rewrite HFT. simpl.
    rewrite HRT. reflexivity. }
  rewrite Hc, (row_filtered_eq r b wgt B B1 B2 HB HF HR). cbn [fst snd].
  assert (HtP : has_shape r b (tile_rows (H B 1) r))
    by (apply tile_rows_shape, (H_shape b); [exact HB | lia]).
  assert (HtE : has_shape r b (tile_rows (T B 1) r))
    by (apply tile_rows_shape, (T_shape b); [exact HB | lia]).
  assert (HtPt : has_shape b r (tile_cols (HT B2 1) r))
    by (apply tile_cols_shape, (HT_shape b b); [exact H2 | lia]).
  assert (HtEt : has_shape b r (tile_cols (TT B2 1) r))
    by (apply tile_cols_shape, (TT_shape b b); [exact H2 | lia]).
  unfold cpe_stage1_block. cbn [fst snd].
  rewrite (get2_nat _ _ _ _ _ _ _ Hbl Hm Hn). fold B. cbn [mbind result_bind].
  (* the row boundary *)
  set (st1 := if decide (m = 0)
              then set_P st (grid_put (P st) Mm n (tile_rows (H B 1) r))
              else if decide (m <> 0 /\ m = Mm - 1)
                   then set_E st (grid_put (E st) Mm n (tile_rows (T B 1) r))
                   else st).
  assert (Hb1 : (if decide (Z.of_nat m = 0%Z)
                 then upd_P st (-1) (Z.of_nat n) (tile_rows (H B 1) r)
                 else if decide (Z.of_nat m = (Z.of_nat Mm - 1)%Z)
                      then upd_E st (Z.of_nat Mm) (Z.of_nat n)
                             (tile_rows (T B 1) r)
                      else Ok st) = Ok st1).
  { subst st1. destruct (decide (m = 0)) as [->|Hm0].
    - rewrite decide_True by reflexivity. unfold upd_P.
      by rewrite (set2_last Mm Nn r b) by (done || lia).
    - rewrite decide_False by lia.
      destruct (decide (m <> 0 /\ m = Mm - 1)) as [[_ Hl]|Hnl].
      + rewrite decide_True by lia. unfold upd_E.
        by rewrite (set2_nat (Mm + 1) Nn r b) by (done || lia).
      + rewrite decide_False by lia. reflexivity. }
  rewrite Hb1. cbn [mbind result_bind].
  assert (Hst1 : blocks st1 = blocks st /\ Pt st1 = Pt st /\ Et st1 = Et st /\
                 P st1 = (if decide (m = 0)
                          then grid_put (P st) Mm n (tile_rows (H B 1) r)
                          else P st) /\
                 E st1 = (if decide (m <> 0 /\ m = Mm - 1)
                          then grid_put (E st) Mm n (tile_rows (T B 1) r)
                          else E st)).
  { subst st1. destruct (decide (m = 0)) as [->|Hm0].
    - rewrite decide_False by lia. done.
    - destruct (decide (m <> 0 /\ m = Mm - 1)); done. }
  destruct Hst1 as (Hs1b & Hs1Pt & Hs1Et & Hs1P & Hs1E).
  assert (HP1 : grid_shape (Mm + 1) Nn r b (P st1)).
  { rewrite Hs1P. destruct (decide (m = 0)); [by apply grid_put_shape | done]. }
  assert (HE1 : grid_shape (Mm + 1) Nn r b (E st1)).
  { rewrite Hs1E. destruct (decide (m <> 0 /\ m = Mm - 1));
      [by apply grid_put_shape | done]. }
  rewrite HF. cbn [mbind result_bind]. unfold upd_P.
  rewrite (set2_nat (Mm + 1) Nn r b) by
    (try apply (T_shape b); try done; lia).
  cbn [mbind result_bind]. rewrite HR. cbn [mbind result_bind].
  unfold upd_E. cbn [E set_P].
  rewrite (set2_nat (Mm + 1) Nn r b) by
    (try apply (H_shape b); try done; lia).
  cbn [mbind result_bind].
  set (st2 := set_E (set_P st1 (grid_put (P st1) m n (T B1 r)))
                    (grid_put (E st1) m n (H B2 r))).
  (* the column boundary *)
  set (st3 := if decide (n = 0)
              then set_Pt st2 (grid_put (Pt st) m Nn (tile_cols (HT B2 1) r))
              else if decide (n <> 0 /\ n = Nn - 1)
                   then set_Et st2
                          (grid_put (Et st) m Nn (tile_cols (TT B2 1) r))
                   else st2).
  assert (Hb3 : (if decide (Z.of_nat n = 0%Z)
                 then upd_Pt st2 (Z.of_nat m) (-1) (tile_cols (HT B2 1) r)
                 else if decide (Z.of_nat n = (Z.of_nat Nn - 1)%Z)
                      then upd_Et st2 (Z.of_nat m) (Z.of_nat Nn)
                             (tile_cols (TT B2 1) r)
                      else Ok st2) = Ok st3).
  { subst st3. destruct (decide (n = 0)) as [->|Hn0].
    - rewrite decide_True by reflexivity. unfold upd_Pt.
      subst st2. cbn [Pt set_E set_P]. rewrite Hs1Pt.
      by rewrite (set2_last_col Mm Nn b r) by (done || lia).
    - rewrite decide_False by lia.
      destruct (decide (n <> 0 /\ n = Nn - 1)) as [[_ Hl]|Hnl].
      + rewrite decide_True by lia. unfold upd_Et.
        subst st2. cbn [Et set_E set_P]. rewrite Hs1Et.
        by rewrite (set2_nat Mm (Nn + 1) b r) by (done || lia).
      + rewrite decide_False by lia. reflexivity. }
  rewrite Hb3. cbn [mbind result_bind].
  assert (Hst3 : blocks st3 = blocks st /\
                 P st3 = grid_put (P st1) m n (T B1 r) /\
                 E st3 = grid_put (E st1) m n (H B2 r) /\
                 Pt st3 = (if decide (n = 0)
                           then grid_put (Pt st) m Nn (tile_cols (HT B2 1) r)
                           else Pt st) /\
                 Et st3 = (if decide (n <> 0 /\ n = Nn - 1)
                           then grid_put (Et st) m Nn (tile_cols (TT B2 1) r)
                           else Et st)).
  { subst st3 st2. destruct (decide (n = 0)) as [->|Hn0].
    - rewrite decide_False by lia. cbn. done.
    - destruct (decide (n <> 0 /\ n = Nn - 1)); cbn; done. }
  destruct Hst3 as (Hs3b & Hs3P & Hs3E & Hs3Pt & Hs3Et).
  assert (HPt3 : grid_shape Mm (Nn + 1) b r (Pt st3)).
  { rewrite Hs3Pt. destruct (decide (n = 0)); [by apply grid_put_shape | done]. }
  assert (HEt3 : grid_shape Mm (Nn + 1) b r (Et st3)).
  { rewrite Hs3Et. destruct (decide (n <> 0 /\ n = Nn - 1));
      [by apply grid_put_shape | done]. }
  rewrite HFT. cbn [mbind result_bind]. unfold upd_Pt.
  rewrite (set2_nat Mm (Nn + 1) b r) by
    (try apply (TT_shape b b); try done; lia).
  cbn [mbind result_bind]. rewrite HRT. cbn [mbind result_bind].
  unfold upd_Et. cbn [Et set_Pt].
  rewrite (set2_nat Mm (Nn + 1) b r) by
    (try apply (HT_shape b b); try done; lia).
  cbn [mbind result_bind]. f_equal.
  unfold set_Et, set_Pt. cbn [blocks P E Pt Et].
  rewrite Hs3b, Hs3P, Hs3E, Hs3Pt, Hs3Et, Hs1P, Hs1E. reflexivity.
Qed.


Lemma cpe_put_wf (Mm Nn r b : nat) wgt st (m n : nat) :
  0 < r <= b -> length wgt = r + 1 -> wf_store Mm Nn r b st ->
  m < Mm -> n < Nn -> wf_store Mm Nn r b (cpe_put Mm Nn r wgt st m n).
Proof.
  intros Hr Hw (Hbl & HP & HE & HPt & HEt) Hm Hn.
  destruct (grid_shape_slot _ _ _ _ _ _ _ Hbl Hm Hn) as (_ & _ & _ & _ & HB).
  destruct (carries_of_ok r b wgt _ Hr Hw HB) as (_ & Hp & He & Hpt & Het).
  destruct (block_carries_total r b wgt _ Hr Hw HB)
    as (B1 & B2 & _ & _ & HF & HR & _ & _ & _ & H2 & _).
  unfold wf_store, cpe_put. cbn [blocks P E Pt Et].
  rewrite (row_filtered_eq r b wgt _ B1 B2 HB HF HR).
  split; [exact Hbl|].
  split; [apply grid_put_shape; [|exact Hp]; destruct (decide (m = 0));
            [apply grid_put_shape; [exact HP|] | exact HP];
          apply tile_rows_shape, (H_shape b); [exact HB | lia]|].
  split; [apply grid_put_shape; [|exact He];
          destruct (decide (m <> 0 /\ m = Mm - 1));
            [apply grid_put_shape; [exact HE|] | exact HE];
          apply tile_rows_shape, (T_shape b); [exact HB | lia]|].
  split; [apply grid_put_shape; [|exact Hpt]; destruct (decide (n = 0));
            [apply grid_put_shape; [exact HPt|] | exact HPt];
          apply tile_cols_shape, (HT_shape b b); [exact H2 | lia]|].
  apply grid_put_shape; [|exact Het].
  destruct (decide (n <> 0 /\ n = Nn - 1));
    [apply grid_put_shape; [exact HEt|] | exact HEt].
  apply tile_cols_shape, (TT_shape b b); [exact H2 | lia].
Qed.

Lemma slot_after_snoc_other (done : list (nat * nat)) (x : nat * nat)
    (own : option (nat * nat)) (new old : list (list D)) :
  own <> Some x ->
  slot_after (done ++ [x]) own new old = slot_after done own new old.
Proof.
  intros Hne. unfold slot_after. destruct own as [y|]; [|reflexivity].
  destruct (decide (y ∈ done)) as [Hin|Hnin].
  - rewrite decide_True; [reflexivity|]. apply elem_of_app. by left.
  - rewrite decide_False; [reflexivity|].
    intros Hin. apply elem_of_app in Hin as [Hin|Hin]; [done|].
    apply list_elem_of_singleton in Hin. congruence.
Qed.

Lemma slot_after_snoc_own (done : list (nat * nat)) (x : nat * nat)
    (new old : list (list D)) :
  slot_after (done ++ [x]) (Some x) new old = new.
Proof.
  unfold slot_after. rewrite decide_True; [reflexivity|].
  apply elem_of_app. right. apply list_elem_of_singleton. reflexivity.
Qed.

(** An iteration that writes the slot [(m, n)] of the block [x = (m, n)]
    and, when [c] holds, the boundary slot [bs], in a grid whose slots are
    owned through [own]. *)
Lemma put_owned (rows cols h w : nat) G0 G (done : list (nat * nat))
    (own : nat * nat -> option (nat * nat)) (v : nat * nat -> list (list D))
    (c : Prop) `{!Decision c} (bs : nat * nat) (m n : nat) :
  grid_shape rows cols h w G -> m < rows -> n < cols ->
  has_shape h w (v bs) ->
  own (m, n) = Some (m, n) ->
  (c -> own bs = Some (m, n) /\ bs.1 < rows /\ bs.2 < cols) ->
  (forall s, own s = Some (m, n) -> s = (m, n) \/ (c /\ s = bs)) ->
  (forall s : nat * nat,
     grid_block G s.1 s.2
     = slot_after done (own s) (v s) (grid_block G0 s.1 s.2)) ->
  forall s : nat * nat,
    grid_block
      (grid_put (if decide c then grid_put G bs.1 bs.2 (v bs) else G)
                m n (v (m, n))) s.1 s.2
    = slot_after (done ++ [(m, n)]) (own s) (v s) (grid_block G0 s.1 s.2).
Proof.
  intros HG Hm Hn Hvb Hown Hbs Honly Hold [m' n']. cbn [fst snd].
  assert (HG' : grid_shape rows cols h w
                  (if decide c then grid_put G bs.1 bs.2 (v bs) else G)).
  { destruct (decide c); [by apply grid_put_shape | exact HG]. }
  destruct (decide ((m, n) = (m', n'))) as [Heq|Hne].
  { injection Heq as <- <-.
    rewrite (grid_block_put_eq _ _ _ _ _ _ _ _ HG' Hm Hn), Hown.
    by rewrite slot_after_snoc_own. }
  rewrite grid_block_put_ne by exact Hne.
  destruct (decide c) as [Hc|Hnc].
  - destruct (Hbs Hc) as (Hob & Hb1 & Hb2).
    destruct (decide (bs = (m', n'))) as [Hbeq|Hbne].
    + subst bs. cbn [fst snd] in *.
      rewrite (grid_block_put_eq _ _ _ _ _ _ _ _ HG Hb1 Hb2), Hob.
      by rewrite slot_after_snoc_own.
    + rewrite grid_block_put_ne by (destruct bs; exact Hbne).
      pose proof (Hold (m', n')) as Ho'. cbn [fst snd] in Ho'. rewrite Ho'.
      rewrite slot_after_snoc_other; [reflexivity|].
      intros Ho. destruct (Honly _ Ho) as [Hs|[_ Hs]]; congruence.
  - pose proof (Hold (m', n')) as Ho'. cbn [fst snd] in Ho'. rewrite Ho'.
    rewrite slot_after_snoc_other; [reflexivity|].
    intros Ho. destruct (Honly _ Ho) as [Hs|[Hc' _]]; [congruence | done].
Qed.


(** CPE stage 1 over any list of in-range block indices. *)
Lemma cpe_stage1_over (Mm Nn r b : nat) wgt st (idxs : list (nat * nat)) :
  0 < r <= b -> length wgt = r + 1 -> wf_store Mm Nn r b st ->
  Forall (fun mn => mn.1 < Mm /\ mn.2 < Nn) idxs ->
  exists st',
    foldM (cpe_stage1_block Mm Nn r wgt (zeros r b) (zeros b r)) idxs st
    = Ok st' /\
    wf_store Mm Nn r b st' /\ cpe_stage1_done Mm Nn r wgt st idxs st'.
Proof.
  intros Hr Hw Hwf Hidx.
  apply (foldM_inv (fun done s => wf_store Mm Nn r b s /\
                                  cpe_stage1_done Mm Nn r wgt st done s)).
  { split; [exact Hwf|]. split; [reflexivity|]. intros s.
    unfold slot_after.
    destruct (cpe_own_P Mm s), (cpe_own_E Mm s), (cpe_own_Pt Nn s),
      (cpe_own_Et Nn s); repeat split;
      try reflexivity; rewrite decide_False; try reflexivity;
      apply not_elem_of_nil. }
  intros done [m n] rest s0 Hsplit [Hwf0 [Hbl Hslots]].
  assert (Hmn : m < Mm /\ n < Nn).
  { rewrite Forall_forall in Hidx. apply (Hidx (m, n)).
    rewrite Hsplit. apply elem_of_app. right. apply list_elem_of_here. }
  destruct Hmn as [Hm Hn].
  exists (cpe_put Mm Nn r wgt s0 m n).
  split; [by apply (cpe_stage1_block_ok Mm Nn r b)|].
  split; [by apply cpe_put_wf|].
  destruct Hwf0 as (Hsbl & HsP & HsE & HsPt & HsEt).
  destruct Hwf as (Hbl0 & _).
  assert (Hblk : forall m' n', m' < Mm -> n' < Nn ->
            has_shape b b (grid_block (blocks st) m' n')).
  { intros m' n' Hm' Hn'.
    by destruct (grid_shape_slot _ _ _ _ _ _ _ Hbl0 Hm' Hn')
      as (_ & _ & _ & _ & HB). }
  assert (Hzh : forall m' n', m' < Mm -> n' < Nn ->
            has_shape b b (row_filtered r wgt (grid_block (blocks st) m' n'))).
  { intros m' n' Hm' Hn'.
    destruct (block_carries_total r b wgt _ Hr Hw (Hblk m' n' Hm' Hn'))
      as (B1 & B2 & _ & _ & HF & HR & _ & _ & _ & H2 & _).
    by rewrite (row_filtered_eq r b wgt _ B1 B2 (Hblk m' n' Hm' Hn') HF HR). }
  split; [exact Hbl|].
  intros s. unfold cpe_put. cbn [blocks P E Pt Et]. rewrite Hbl.
  split; [|split; [|split]].
  - assert (Hb : (if decide (m = 0)
                  then grid_put (P s0) Mm n
                         (tile_rows (H (grid_block (blocks st) m n) 1) r)
                  else P s0)
                 = (if decide (m = 0)
                    then grid_put (P s0) (Mm, n).1 (Mm, n).2
                           (cpe_val_P Mm r wgt st (Mm, n))
                    else P s0)).
    { destruct (decide (m = 0)) as [->|]; [|reflexivity].
      unfold cpe_val_P. cbn [fst snd]. by rewrite decide_True. }
    assert (Hv : (carries_of r wgt (grid_block (blocks st) m n)).1.1.1
                 = cpe_val_P Mm r wgt st (m, n)).
    { unfold cpe_val_P. cbn [fst snd]. by rewrite decide_False by lia. }
    rewrite Hb, Hv.
    apply (put_owned (Mm + 1) Nn r b (P st) (P s0) done (cpe_own_P Mm)
             (cpe_val_P Mm r wgt st) (m = 0) (Mm, n) m n);
      [exact HsP | lia | lia | | | | | intros s'; apply Hslots].
    + unfold cpe_val_P. cbn [fst snd]. rewrite decide_True by reflexivity.
      apply tile_rows_shape, (H_shape b); [apply Hblk; lia | lia].
    + unfold cpe_own_P. cbn [fst snd]. by rewrite decide_False by lia.
    + intros ->. unfold cpe_own_P. cbn [fst snd].
      rewrite decide_True by reflexivity. split; [reflexivity | lia].
    + intros [m' n']. unfold cpe_own_P. cbn [fst snd].
      destruct (decide (m' = Mm)) as [->|]; intros Ho; injection Ho as Ho1 Ho2;
        subst; [right | left]; done.
  - assert (Hb : (if decide (m <> 0 /\ m = Mm - 1)
                  then grid_put (E s0) Mm n
                         (tile_rows (T (grid_block (blocks st) m n) 1) r)
                  else E s0)
                 = (if decide (m <> 0 /\ m = Mm - 1)
                    then grid_put (E s0) (Mm, n).1 (Mm, n).2
                           (cpe_val_E Mm r wgt st (Mm, n))
                    else E s0)).
    { destruct (decide (m <> 0 /\ m = Mm - 1)) as [[_ ->]|]; [|reflexivity].
      unfold cpe_val_E. cbn [fst snd]. by rewrite decide_True. }
    assert (Hv : (carries_of r wgt (grid_block (blocks st) m n)).1.1.2
                 = cpe_val_E Mm r wgt st (m, n)).
    { unfold cpe_val_E. cbn [fst snd]. by rewrite decide_False by lia. }
    rewrite Hb, Hv.
    apply (put_owned (Mm + 1) Nn r b (E st) (E s0) done (cpe_own_E Mm)
             (cpe_val_E Mm r wgt st) (m <> 0 /\ m = Mm - 1) (Mm, n) m n);
      [exact HsE | lia | lia | | | | | intros s'; apply Hslots].
    + unfold cpe_val_E. cbn [fst snd]. rewrite decide_True by reflexivity.
      apply tile_rows_shape, (T_shape b); [apply Hblk; lia | lia].
    + unfold cpe_own_E. cbn [fst snd]. by rewrite decide_False by lia.
    + intros [Hm0 ->]. unfold cpe_own_E. cbn [fst snd].
      rewrite decide_True by reflexivity. rewrite decide_False by lia.
      split; [reflexivity | lia].
    + intros [m' n']. unfold cpe_own_E. cbn [fst snd].
      destruct (decide (m' = Mm)) as [->|].
      * destruct (decide (Mm - 1 = 0)); [discriminate|].
        intros Ho; injection Ho as Ho1 Ho2. subst. right. done.
      * intros Ho; injection Ho as Ho1 Ho2. subst. by left.
  - assert (Hb : (if decide (n = 0)
                  then grid_put (Pt s0) m Nn
                         (tile_cols
                            (HT (row_filtered r wgt
                                   (grid_block (blocks st) m n)) 1) r)
                  else Pt s0)
                 = (if decide (n = 0)
                    then grid_put (Pt s0) (m, Nn).1 (m, Nn).2
                           (cpe_val_Pt Nn r wgt st (m, Nn))
                    else Pt s0)).
    { destruct (decide (n = 0)) as [->|]; [|reflexivity].
      unfold cpe_val_Pt. cbn [fst snd]. by rewrite decide_True. }
    assert (Hv : (carries_of r wgt (grid_block (blocks st) m n)).1.2
                 = cpe_val_Pt Nn r wgt st (m, n)).
    { unfold cpe_val_Pt. cbn [fst snd]. by rewrite decide_False by lia. }
    rewrite Hb, Hv.
    apply (put_owned Mm (Nn + 1) b r (Pt st) (Pt s0) done (cpe_own_Pt Nn)
             (cpe_val_Pt Nn r wgt st) (n = 0) (m, Nn) m n);
      [exact HsPt | lia | lia | | | | | intros s'; apply Hslots].
    + unfold cpe_val_Pt. cbn [fst snd]. rewrite decide_True by reflexivity.
      apply tile_cols_shape, (HT_shape b b); [apply Hzh; lia | lia].
    + unfold cpe_own_Pt. cbn [fst snd]. by rewrite decide_False by lia.
    + intros ->. unfold cpe_own_Pt. cbn [fst snd].
      rewrite decide_True by reflexivity. split; [reflexivity | lia].
    + intros [m' n']. unfold cpe_own_Pt. cbn [fst snd].
      destruct (decide (n' = Nn)) as [->|]; intros Ho; injection Ho as Ho1 Ho2;
        subst; [right | left]; done.
  - assert (Hb : (if decide (n <> 0 /\ n = Nn - 1)
                  then grid_put (Et s0) m Nn
                         (tile_cols
                            (TT (row_filtered r wgt
                                   (grid_block (blocks st) m n)) 1) r)
                  else Et s0)
                 = (if decide (n <> 0 /\ n = Nn - 1)
                    then grid_put (Et s0) (m, Nn).1 (m, Nn).2
                           (cpe_val_Et Nn r wgt st (m, Nn))
                    else Et s0)).
    { destruct (decide (n <> 0 /\ n = Nn - 1)) as [[_ ->]|]; [|reflexivity].
      unfold cpe_val_Et. cbn [fst snd]. by rewrite decide_True. }
    assert (Hv : (carries_of r wgt (grid_block (blocks st) m n)).2
                 = cpe_val_Et Nn r wgt st (m, n)).
    { unfold cpe_val_Et. cbn [fst snd]. by rewrite decide_False by lia. }
    rewrite Hb, Hv.
    apply (put_owned Mm (Nn + 1) b r (Et st) (Et s0) done (cpe_own_Et Nn)
             (cpe_val_Et Nn r wgt st) (n <> 0 /\ n = Nn - 1) (m, Nn) m n);
      [exact HsEt | lia | lia | | | | | intros s'; apply Hslots].
    + unfold cpe_val_Et. cbn [fst snd]. rewrite decide_True by reflexivity.
      apply tile_cols_shape, (TT_shape b b); [apply Hzh; lia | lia].
    + unfold cpe_own_Et. cbn [fst snd]. by rewrite decide_False by lia.
    + intros [Hn0 ->]. unfold cpe_own_Et. cbn [fst snd].
      rewrite decide_True by reflexivity. rewrite decide_False by lia.
      split; [reflexivity | lia].
    + intros [m' n']. unfold cpe_own_Et. cbn [fst snd].
      destruct (decide (n' = Nn)) as [->|].
      * destruct (decide (Nn - 1 = 0)); [discriminate|].
        intros Ho; injection Ho as Ho1 Ho2. subst. right. done.
      * intros Ho; injection Ho as Ho1 Ho2. subst. by left.
Qed.


(** X23.  CPE stage 1 on well-shaped arrays: it returns, the interior
    slots hold the carries of stage 1, [P[-1][n]] and [Pt[m][-1]] hold the
    tiles of the first row and of the first column, and [E[M][n]] and
    [Et[m][N]] hold the tiles of the last row and of the last column when
    the grid has at least two block rows, respectively block columns; with
    a single block row or column they keep their input value. *)
Lemma alg5_cpe_stage1_slots (Mm Nn r b width height : nat) wgt
    (matrices : list (list (list D))) st :
  0 < r <= b -> length wgt = r + 1 ->
  build_alg5_matrices b r wgt width height = Ok matrices ->
  wf_store Mm Nn r b st ->
  exists st',
    alg5_cpe_stage1 Mm Nn r wgt matrices st = Ok st' /\
    blocks st' = blocks st /\
    (forall m n, m < Mm -> n < Nn ->
       let c := carries_of r wgt (grid_block (blocks st) m n) in
       grid_block (P st') m n = c.1.1.1 /\ grid_block (E st') m n = c.1.1.2 /\
       grid_block (Pt st') m n = c.1.2 /\ grid_block (Et st') m n = c.2) /\
    (forall n, 0 < Mm -> n < Nn ->
       grid_block (P st') Mm n
       = tile_rows (H (grid_block (blocks st) 0 n) 1) r /\
       grid_block (E st') Mm n
       = (if decide (Mm = 1) then grid_block (E st) Mm n
          else tile_rows (T (grid_block (blocks st) (Mm - 1) n) 1) r)) /\
    (forall m, m < Mm -> 0 < Nn ->
       grid_block (Pt st') m Nn
       = tile_cols (HT (row_filtered r wgt (grid_block (blocks st) m 0)) 1) r /\
       grid_block (Et st') m Nn
       = (if decide (Nn = 1) then grid_block (Et st) m Nn
          else tile_cols
                 (TT (row_filtered r wgt
                        (grid_block (blocks st) m (Nn - 1))) 1) r)).
Proof.
  intros Hr Hw Hbuild Hwf.
  assert (Hidx : Forall (fun mn : nat * nat => mn.1 < Mm /\ mn.2 < Nn)
                        (n_major Mm Nn)).
  { apply Forall_forall. intros [m n] Hin. simpl. by apply elem_of_n_major. }
  destruct (cpe_stage1_over Mm Nn r b wgt st (n_major Mm Nn) Hr Hw Hwf Hidx)
    as (st' & Hrun & Hwf' & Hbl & Hslots).
  exists st'. split; [|split; [exact Hbl|]].
  { unfold alg5_cpe_stage1.
    rewrite (build_alg5_matrices_zeros _ _ _ _ _ _ Hbuild). exact Hrun. }
  assert (Hin : forall m n (new old : list (list D)), m < Mm -> n < Nn ->
            slot_after (n_major Mm Nn) (Some (m, n)) new old = new).
  { intros m n new old Hm Hn. unfold slot_after.
    rewrite decide_True by (by apply elem_of_n_major). reflexivity. }
  split; [|split].
  - intros m n Hm Hn. cbn zeta.
    destruct (Hslots (m, n)) as (HP' & HE' & HPt' & HEt').
    unfold cpe_own_P, cpe_val_P in HP'. unfold cpe_own_E, cpe_val_E in HE'.
    unfold cpe_own_Pt, cpe_val_Pt in HPt'.
    unfold cpe_own_Et, cpe_val_Et in HEt'.
    cbn [fst snd] in HP', HE', HPt', HEt'.
    rewrite !decide_False in HP' by lia. rewrite !decide_False in HE' by lia.
    rewrite !decide_False in HPt' by lia. rewrite !decide_False in HEt' by lia.
    rewrite Hin in HP' by done. rewrite Hin in HE' by done.
    rewrite Hin in HPt' by done. rewrite Hin in HEt' by done. done.
  - intros n HM Hn.
    destruct (Hslots (Mm, n)) as (HP' & HE' & _).
    unfold cpe_own_P, cpe_val_P in HP'. unfold cpe_own_E, cpe_val_E in HE'.
    cbn [fst snd] in HP', HE'.
    rewrite !(decide_True (P := Mm = Mm)) in HP' by reflexivity.
    rewrite !(decide_True (P := Mm = Mm)) in HE' by reflexivity.
    rewrite Hin in HP' by done. split; [exact HP'|].
    destruct (decide (Mm = 1)) as [HM1|HM1].
    + rewrite decide_True in HE' by lia. exact HE'.
    + rewrite decide_False in HE' by lia.
      rewrite Hin in HE' by lia. exact HE'.
  - intros m Hm HN.
    destruct (Hslots (m, Nn)) as (_ & _ & HPt' & HEt').
    unfold cpe_own_Pt, cpe_val_Pt in HPt'.
    unfold cpe_own_Et, cpe_val_Et in HEt'.
    cbn [fst snd] in HPt', HEt'.
    rewrite !(decide_True (P := Nn = Nn)) in HPt' by reflexivity.
    rewrite !(decide_True (P := Nn = Nn)) in HEt' by reflexivity.
    rewrite Hin in HPt' by done. split; [exact HPt'|].
    destruct (decide (Nn = 1)) as [HN1|HN1].
    + rewrite decide_True in HEt' by lia. exact HEt'.
    + rewrite decide_False in HEt' by lia.
      rewrite Hin in HEt' by lia. exact HEt'.
Qed.

End Cpe_stage1.

(** C4 at [M = N = 1], [r = 1], [b = 2], [w = (1, 1)] and the block
    [[1, 2], [3, 4]]: stage 1 stores the tile of the first row in [P[-1][0]]
    and the tile of the first column of the row-filtered block in
    [Pt[0][-1]], but the [elif] branches are not taken, so [E[M][0]] and
    [Et[0][N]] keep the zeros of [build_alg5_carries] instead of the tiles of
    the last row [[3, 4]] and of the last column. *)
Theorem cpe_stage1_single_block :
  let B := [[1; 2]; [3; 4]]%Z in
  let wgt := [1; 1]%Z in
  let st := store_of [[B]] (build_alg5_carries 1 1 2 1) in
  exists matrices st' Zhat,
    build_alg5_matrices 2 1 wgt 2 2 = Ok matrices /\
    alg5_cpe_stage1 1 1 1 wgt matrices st = Ok st' /\
    (F (zeros 1 2) B wgt ≫= fun B1 => R B1 (zeros 1 2) wgt) = Ok Zhat /\
    get2 (P st') (-1) 0 = Ok (tile_rows (H B 1) 1) /\
    get2 (Pt st') 0 (-1) = Ok (tile_cols (HT Zhat 1) 1) /\
    get2 (E st') 1 0 = Ok [[0; 0]]%Z /\
    tile_rows (T B 1) 1 = [[3; 4]]%Z /\
    get2 (Et st') 0 1 = Ok [[0]; [0]]%Z /\
    tile_cols (TT Zhat 1) 1 <> [[0]; [0]]%Z.
Proof.
  vm_compute. do 3 eexists.
  repeat (split; [reflexivity|]). discriminate.
Qed.

(** ** Sums and products of well-shaped arrays *)

Section Linear.
Context {D : Type} {SD : Scalar D}.
Implicit Types (A B X Y : list (list D)) (u v a : list D).

Lemma vadd_length u v : length (vadd u v) = length u `min` length v.
Proof. unfold vadd. apply length_zip_with. Qed.

Lemma vscale_length (c : D) v : length (vscale c v) = length v.
Proof. unfold vscale. apply length_map. Qed.

Lemma lincomb_length (w : nat) a B :
  Forall (fun row => length row = w) B -> length (lincomb a B w) = w.
Proof.
  intros HB. unfold lincomb. revert a.
  induction HB as [|row B Hrow _ IH]; intros a.
  - destruct a; simpl; apply length_replicate.
  - destruct a as [|c a]; simpl; [apply length_replicate|].
    rewrite vadd_length, vscale_length, (IH a). lia.
Qed.

Lemma madd_shape (h w : nat) X Y :
  has_shape h w X -> has_shape h w Y -> has_shape h w (madd X Y).
Proof.
  intros [HlX HrX] [HlY HrY]. unfold madd. split.
  - rewrite length_zip_with. lia.
  - apply Forall_forall. intros row Hrow.
    apply list_elem_of_lookup_1 in Hrow as (i & Hi).
    apply lookup_zip_with_Some in Hi as (x & y & -> & Hx & Hy).
    rewrite Forall_forall in HrX, HrY.
    rewrite vadd_length, (HrX x), (HrY y); [lia|..];
      by eapply list_elem_of_lookup_2.
Qed.

Lemma dot_shape (h k w : nat) A B :
  length A = h -> has_shape k w B -> 0 < k -> has_shape h w (dot A B).
Proof.
  intros HA HB Hk. unfold dot. split; [by rewrite length_map|].
  apply Forall_fmap, Forall_forall. intros a _. simpl.
  rewrite (has_shape_ncols _ _ _ HB Hk). apply lincomb_length. by destruct HB.
Qed.

(** Entry [j] of a linear combination of rows: the sum of the
    coefficients times the entries of column [j]. *)
Lemma lincomb_nth (w j : nat) a B :
  Forall (fun row => length row = w) B -> j < w ->
  nth j (lincomb a B w) rO
  = foldr (fun cb acc => radd (rmul cb.1 (nth j cb.2 rO)) acc) rO (zip a B).
Proof.
  intros HB Hj. unfold lincomb. revert a.
  induction HB as [|row B Hrow HB IH]; intros a.
  - destruct a; simpl; rewrite nth_lookup, lookup_replicate_2; done.
  - destruct a as [|c a]; simpl.
    + rewrite nth_lookup, lookup_replicate_2; done.
    + rewrite <- (IH a).
      assert (Hl : length (foldr (fun cb acc => vadd (vscale cb.1 cb.2) acc)
                            (replicate w rO) (zip a B)) = w)
        by (apply (lincomb_length w a B HB)).
      unfold vadd, vscale. rewrite !nth_lookup.
      rewrite lookup_zip_with, list_lookup_fmap.
      destruct (lookup_lt_is_Some_2 row j) as [x Hx]; [lia|].
      destruct (lookup_lt_is_Some_2
                  (foldr (fun cb acc => vadd (vscale cb.1 cb.2) acc)
                     (replicate w rO) (zip a B)) j) as [y Hy]; [lia|].
      unfold vadd, vscale in Hy |- *. by rewrite Hx, Hy.
Qed.

(** Entry [(i, j)] of [dot A B] is the product of row [i] of [A] with
    column [j] of [B]. *)
Lemma dot_entry (k w i j : nat) A B :
  has_shape k w B -> 0 < k -> i < length A -> j < w ->
  entry (dot A B) i j
  = foldr (fun cb acc => radd (rmul cb.1 (nth j cb.2 rO)) acc) rO
      (zip (nth i A []) B).
Proof.
  intros HB Hk Hi Hj. unfold entry, dot.
  rewrite (has_shape_ncols _ _ _ HB Hk).
  destruct (lookup_lt_is_Some_2 A i Hi) as [a Ha].
  rewrite (nth_lookup_Some A i [] a Ha).
  rewrite (nth_lookup_Some _ i [] (lincomb a B w))
    by (by rewrite list_lookup_fmap, Ha).
  apply lincomb_nth; [by destruct HB | exact Hj].
Qed.

(** [np.dot] of a [(h, k)] by a [(k, w)] array. *)
Lemma np_dot_ok (h k w : nat) A B :
  has_shape h k A -> has_shape k w B -> np_dot A B = Ok (dot A B).
Proof.
  intros [_ HA] [HB _]. unfold np_dot, nrows. rewrite HB.
  by rewrite decide_True.
Qed.

(** [+] of two arrays of one shape. *)
Lemma np_add_ok (h w : nat) X Y :
  has_shape h w X -> has_shape h w Y -> 0 < h -> np_add X Y = Ok (madd X Y).
Proof.
  intros HX HY Hh. unfold np_add, np_binop, bdim.
  rewrite (has_shape_nrows _ _ _ HX), (has_shape_nrows _ _ _ HY).
  rewrite (has_shape_ncols _ _ _ HX Hh), (has_shape_ncols _ _ _ HY Hh).
  rewrite !decide_True by reflexivity. simpl.
  rewrite (broadcast_to_same _ _ _ HX). simpl.
  by rewrite (broadcast_to_same _ _ _ HY).
Qed.

(** The right-hand side of eqn. (24) on well-shaped operands. *)
Lemma eqn24_ok (r b : nat) (AbF : list (list D)) X Y :
  0 < r -> has_shape r r AbF -> has_shape r b X -> has_shape r b Y ->
  eqn24 AbF (Ok X) (Ok Y) = Ok (madd X (dot AbF Y)) /\
  has_shape r b (madd X (dot AbF Y)).
Proof.
  intros Hr HA HX HY.
  assert (Hd : has_shape r b (dot AbF Y))
    by (apply (dot_shape r r b); [by destruct HA | exact HY | exact Hr]).
  split; [|by apply madd_shape].
  unfold eqn24. simpl. rewrite (np_dot_ok r r b) by done. simpl.
  by apply (np_add_ok r b).
Qed.

(** The right-hand side of eqn. (34) on well-shaped operands. *)
Lemma eqn34_ok (r b : nat) (HARB_AFP AbR : list (list D)) X Pm Y :
  0 < r -> has_shape r r HARB_AFP -> has_shape r r AbR ->
  has_shape r b X -> has_shape r b Pm -> has_shape r b Y ->
  eqn34 HARB_AFP AbR (Ok X) (Ok Pm) (Ok Y)
  = Ok (madd (madd X (dot HARB_AFP Pm)) (dot AbR Y)) /\
  has_shape r b (madd (madd X (dot HARB_AFP Pm)) (dot AbR Y)).
Proof.
  intros Hr HH HA HX HP HY.
  assert (Hd1 : has_shape r b (dot HARB_AFP Pm))
    by (apply (dot_shape r r b); [by destruct HH | exact HP | exact Hr]).
  assert (Hd2 : has_shape r b (dot AbR Y))
    by (apply (dot_shape r r b); [by destruct HA | exact HY | exact Hr]).
  assert (Hs1 : has_shape r b (madd X (dot HARB_AFP Pm)))
    by (by apply madd_shape).
  split; [|by apply madd_shape].
  unfold eqn34. cbn [mbind result_bind].
  rewrite (np_dot_ok r r b HARB_AFP Pm) by done. cbn [mbind result_bind].
  rewrite (np_add_ok r b X) by done. cbn [mbind result_bind].
  rewrite (np_dot_ok r r b AbR Y) by done. cbn [mbind result_bind].
  by apply (np_add_ok r b).
Qed.

End Linear.

(** ** Matrix algebra over a commutative ring *)

Section Algebra.
Context {D : Type} {SD : Scalar D}.
Variable ropp : D -> D.
Hypothesis Dring : ring_theory rO rI radd rmul rsub ropp eq.
Add Ring Dring_ring : Dring.
Implicit Types (A B C X Y : list (list D)) (u v a : list D).

Lemma vadd_comm u v : vadd u v = vadd v u.
Proof.
  unfold vadd. revert v. induction u as [|x u IH]; intros [|y v]; simpl;
    try reflexivity.
  rewrite IH. f_equal. ring.
Qed.

Lemma vadd_assoc u v a : vadd u (vadd v a) = vadd (vadd u v) a.
Proof.
  unfold vadd. revert v a.
  induction u as [|x u IH]; intros [|y v] [|z a]; simpl; try reflexivity.
  rewrite IH. f_equal. ring.
Qed.

Lemma vadd_zero_r (w : nat) u : length u = w -> vadd u (replicate w rO) = u.
Proof.
  intros <-. unfold vadd. induction u as [|x u IH]; simpl; [reflexivity|].
  rewrite IH. f_equal. ring.
Qed.

Lemma vadd_zero_l (w : nat) u : length u = w -> vadd (replicate w rO) u = u.
Proof. intros Hu. rewrite vadd_comm. by apply vadd_zero_r. Qed.

Lemma vscale_vadd (c : D) u v :
  vscale c (vadd u v) = vadd (vscale c u) (vscale c v).
Proof.
  unfold vscale, vadd. revert v.
  induction u as [|x u IH]; intros [|y v]; simpl; try reflexivity.
  rewrite IH. f_equal. ring.
Qed.

Lemma vscale_vscale (c d : D) u : vscale c (vscale d u) = vscale (rmul c d) u.
Proof.
  unfold vscale. induction u as [|x u IH]; simpl; [reflexivity|].
  rewrite IH. f_equal. ring.
Qed.

Lemma vscale_zeros (c : D) (w : nat) :
  vscale c (replicate w rO) = replicate w rO.
Proof.
  unfold vscale. induction w as [|w IH]; simpl; [reflexivity|].
  rewrite IH. f_equal. ring.
Qed.

Lemma vscale_zero u : vscale rO u = replicate (length u) rO.
Proof.
  unfold vscale. induction u as [|x u IH]; simpl; [reflexivity|].
  rewrite IH. f_equal. ring.
Qed.

Lemma vscale_one u : vscale rI u = u.
Proof.
  unfold vscale. induction u as [|x u IH]; simpl; [reflexivity|].
  rewrite IH. f_equal. ring.
Qed.

Lemma vadd_swap u v a c :
  vadd (vadd u v) (vadd a c) = vadd (vadd u a) (vadd v c).
Proof.
  rewrite <- (vadd_assoc u v), (vadd_assoc v a c), (vadd_comm v a).
  rewrite <- (vadd_assoc a v c). apply vadd_assoc.
Qed.

Lemma lincomb_cons (c : D) a (row : list D) B (w : nat) :
  lincomb (c :: a) (row :: B) w = vadd (vscale c row) (lincomb a B w).
Proof. reflexivity. Qed.

Lemma lincomb_nil_l B (w : nat) : lincomb [] B w = replicate w rO.
Proof. reflexivity. Qed.

Lemma lincomb_nil_r a (w : nat) : lincomb a [] w = replicate w rO.
Proof. by destruct a. Qed.

(** The product distributes over the sum of its right operand. *)
Lemma lincomb_madd (w : nat) a X Y :
  length X = length Y ->
  Forall (fun row => length row = w) X -> Forall (fun row => length row = w) Y ->
  lincomb a (madd X Y) w = vadd (lincomb a X w) (lincomb a Y w).
Proof.
  intros Hlen HX. revert a Y Hlen.
  induction HX as [|x X Hx _ IH]; intros a [|y Y] Hlen HY;
    try discriminate Hlen.
  - rewrite !lincomb_nil_r. by rewrite vadd_zero_r by apply length_replicate.
  - destruct a as [|c a].
    + rewrite !lincomb_nil_l. by rewrite vadd_zero_r by apply length_replicate.
    + apply Forall_cons in HY as [Hy HY]. injection Hlen as Hlen.
      change (madd (x :: X) (y :: Y)) with (vadd x y :: madd X Y).
      rewrite !lincomb_cons, (IH a Y Hlen HY), vscale_vadd.
      apply vadd_swap.
Qed.

Lemma lincomb_zeros (k w : nat) a : lincomb a (zeros k w) w = replicate w rO.
Proof.
  unfold zeros. revert a. induction k as [|k IH]; intros a; simpl.
  - apply lincomb_nil_r.
  - destruct a as [|c a]; [reflexivity|].
    rewrite lincomb_cons, IH, vscale_zeros.
    by rewrite vadd_zero_r by apply length_replicate.
Qed.

(** The product is linear in its left operand. *)
Lemma lincomb_vadd (w : nat) u v C :
  length u = length v -> Forall (fun row => length row = w) C ->
  lincomb (vadd u v) C w = vadd (lincomb u C w) (lincomb v C w).
Proof.
  intros Hlen HC. revert u v Hlen.
  induction HC as [|row C Hrow _ IH]; intros u v Hlen.
  - rewrite !lincomb_nil_r. by rewrite vadd_zero_r by apply length_replicate.
  - destruct u as [|x u], v as [|y v]; try discriminate Hlen.
    + rewrite !lincomb_nil_l. by rewrite vadd_zero_r by apply length_replicate.
    + injection Hlen as Hlen.
      change (vadd (x :: u) (y :: v)) with (radd x y :: vadd u v).
      rewrite !lincomb_cons, (IH u v Hlen).
      rewrite (vadd_swap (vscale x row) (lincomb u C w)). f_equal.
      unfold vscale, vadd. clear -Dring.
      induction row as [|z row IHr]; simpl; [reflexivity|].
      rewrite <- IHr. f_equal. ring.
Qed.

Lemma lincomb_vscale (w : nat) (c : D) u C :
  lincomb (vscale c u) C w = vscale c (lincomb u C w).
Proof.
  revert u. induction C as [|row C IH]; intros u.
  - rewrite !lincomb_nil_r. by rewrite vscale_zeros.
  - destruct u as [|x u].
    + simpl. rewrite !lincomb_nil_l. by rewrite vscale_zeros.
    + change (vscale c (x :: u)) with (rmul c x :: vscale c u).
      rewrite !lincomb_cons, IH, vscale_vadd, vscale_vscale. reflexivity.
Qed.

Lemma lincomb_zero_l (k w : nat) C :
  Forall (fun row => length row = w) C ->
  lincomb (replicate k rO) C w = replicate w rO.
Proof.
  intros HC. revert k. induction HC as [|row C Hrow _ IH]; intros k.
  - apply lincomb_nil_r.
  - destruct k as [|k]; [reflexivity|]. simpl replicate.
    rewrite lincomb_cons, IH, vscale_zero, Hrow.
    by rewrite vadd_zero_r by apply length_replicate.
Qed.

(** Associativity, row by row. *)
Lemma lincomb_assoc (k w : nat) a B C :
  Forall (fun row => length row = k) B ->
  Forall (fun row => length row = w) C ->
  lincomb (lincomb a B k) C w = lincomb a (map (fun b => lincomb b C w) B) w.
Proof.
  intros HB HC. revert a. induction HB as [|brow B Hbrow HB IH]; intros a.
  - rewrite lincomb_nil_r. simpl. rewrite lincomb_nil_r.
    by apply lincomb_zero_l.
  - destruct a as [|c a].
    + rewrite !lincomb_nil_l. by apply lincomb_zero_l.
    + simpl map. rewrite !lincomb_cons.
      rewrite lincomb_vadd; [|by rewrite vscale_length, lincomb_length|exact HC].
      by rewrite lincomb_vscale, IH.
Qed.

Lemma madd_comm X Y : madd X Y = madd Y X.
Proof.
  unfold madd. revert Y. induction X as [|x X IH]; intros [|y Y]; simpl;
    try reflexivity.
  by rewrite IH, vadd_comm.
Qed.

Lemma madd_assoc X Y C : madd X (madd Y C) = madd (madd X Y) C.
Proof.
  unfold madd. revert Y C.
  induction X as [|x X IH]; intros [|y Y] [|c C]; simpl; try reflexivity.
  by rewrite IH, vadd_assoc.
Qed.

Lemma dot_madd_r (k w : nat) A X Y :
  0 < k -> has_shape k w X -> has_shape k w Y ->
  dot A (madd X Y) = madd (dot A X) (dot A Y).
Proof.
  intros Hk HX HY. unfold dot.
  rewrite (has_shape_ncols _ _ _ (madd_shape _ _ _ _ HX HY) Hk).
  rewrite (has_shape_ncols _ _ _ HX Hk), (has_shape_ncols _ _ _ HY Hk).
  unfold madd at 2. induction A as [|a A IH]; simpl; [reflexivity|].
  rewrite IH. f_equal. destruct HX as [HlX HrX], HY as [HlY HrY].
  apply lincomb_madd; [lia | exact HrX | exact HrY].
Qed.

Lemma dot_zeros_r (h k w : nat) A :
  0 < k -> length A = h -> dot A (zeros k w) = zeros h w.
Proof.
  intros Hk <-. unfold dot.
  rewrite (has_shape_ncols _ _ _ (has_shape_zeros k w) Hk).
  unfold zeros at 2. induction A as [|a A IH]; simpl; [reflexivity|].
  by rewrite IH, lincomb_zeros.
Qed.

Lemma dot_assoc (k l w : nat) A B C :
  0 < k -> 0 < l -> has_shape k l B -> has_shape l w C ->
  Forall (fun a => length a = k) A ->
  dot (dot A B) C = dot A (dot B C).
Proof.
  intros Hk Hl HB HC HA. unfold dot.
  rewrite (has_shape_ncols _ _ _ HB Hk), (has_shape_ncols _ _ _ HC Hl).
  assert (Hnc : ncols (map (fun a => lincomb a C w) B) = w).
  { apply (has_shape_ncols k); [|exact Hk].
    split; [rewrite length_map; by destruct HB|].
    apply Forall_fmap, Forall_forall. intros b0 _. simpl.
    apply lincomb_length. by destruct HC. }
  rewrite Hnc. rewrite map_map. apply map_ext. intros a.
  apply lincomb_assoc; [by destruct HB | by destruct HC].
Qed.

(** Row [i] of the identity selects row [i]. *)
Lemma lincomb_unit (w : nat) X (i s : nat) :
  Forall (fun row => length row = w) X ->
  lincomb (map (fun j => if decide (i = j) then rI else rO) (seq s (length X)))
          X w
  = if decide (s <= i < s + length X) then nth (i - s) X [] else replicate w rO.
Proof.
  intros HX. revert s. induction HX as [|row X Hrow HX' IH]; intros s.
  - simpl. rewrite decide_False by lia. reflexivity.
  - simpl length. simpl seq. simpl map. rewrite lincomb_cons, IH.
    destruct (decide (i = s)) as [->|Hne].
    + rewrite vscale_one, decide_False by lia. rewrite decide_True by lia.
      rewrite Nat.sub_diag. simpl. by apply vadd_zero_r.
    + rewrite vscale_zero, Hrow.
      destruct (decide (S s <= i < S s + length X)) as [Hin|Hout].
      * rewrite decide_True by lia.
        replace (i - s) with (S (i - S s)) by lia. simpl.
        apply vadd_zero_l.
        destruct (nth_lookup_or_length X (i - S s) []) as [Hl|Hl]; [|lia].
        rewrite Forall_forall in HX'. apply HX'.
        by eapply list_elem_of_lookup_2.
      * rewrite decide_False by lia.
        by rewrite vadd_zero_r by apply length_replicate.
Qed.

Lemma dot_identity_l (h w : nat) X :
  0 < h -> has_shape h w X -> dot (identity h) X = X.
Proof.
  intros Hh HX. unfold dot, identity.
  rewrite (has_shape_ncols _ _ _ HX Hh). destruct HX as [Hlen HX].
  rewrite map_map. apply list_eq. intros i.
  rewrite list_lookup_fmap.
  destruct (decide (i < h)) as [Hi|Hi].
  - rewrite lookup_seq_lt by exact Hi. simpl. rewrite <- Hlen.
    rewrite (lincomb_unit w X i 0 HX). rewrite decide_True by lia.
    rewrite Nat.sub_0_r.
    destruct (nth_lookup_or_length X i []) as [Hl|Hl]; [by rewrite Hl | lia].
  - rewrite lookup_seq_ge by lia. simpl. symmetry. apply lookup_ge_None_2. lia.
Qed.

Lemma identity_shape (n : nat) : has_shape n n (identity n).
Proof.
  unfold identity. split; [by rewrite length_map, length_seq|].
  apply Forall_fmap, Forall_forall. intros i _. simpl.
  by rewrite length_map, length_seq.
Qed.

Lemma mpow_shape (r : nat) A (k : nat) :
  0 < r -> has_shape r r A -> has_shape r r (mpow A k).
Proof.
  intros Hr HA. induction k as [|k IH]; simpl.
  - rewrite (has_shape_nrows _ _ _ HA). apply identity_shape.
  - apply (dot_shape r r r); [by destruct HA | exact IH | exact Hr].
Qed.

Lemma msum_shape (h w : nat) (l : list (list (list D))) :
  Forall (has_shape h w) l -> has_shape h w (msum h w l).
Proof.
  intros Hl. unfold msum. induction Hl as [|X l HX _ IH]; simpl.
  - apply has_shape_zeros.
  - by apply madd_shape.
Qed.

Lemma msum_snoc (h w : nat) (l : list (list (list D))) X :
  Forall (has_shape h w) l -> has_shape h w X ->
  msum h w (l ++ [X]) = madd X (msum h w l).
Proof.
  intros Hl HX. unfold msum. induction Hl as [|Y l HY _ IH]; simpl.
  - reflexivity.
  - rewrite IH. rewrite !madd_assoc. by rewrite (madd_comm Y X).
Qed.

Lemma dot_msum (r b : nat) A (l : list (list (list D))) :
  0 < r -> has_shape r r A -> Forall (has_shape r b) l ->
  dot A (msum r b l) = msum r b (map (dot A) l).
Proof.
  intros Hr HA Hl. unfold msum. induction Hl as [|X l HX Hl IH]; simpl.
  - apply dot_zeros_r; [exact Hr | by destruct HA].
  - rewrite (dot_madd_r r b); [by rewrite IH | exact Hr | exact HX|].
    by apply msum_shape.
Qed.

(** The closed form satisfies the recurrence of the forward sweep. *)
Lemma closed_form_0 (r b : nat) A (P1 : nat -> list (list D)) :
  0 < r -> has_shape r r A -> has_shape r b (P1 0) ->
  stage2_closed_form A r b P1 0 = madd (P1 0) (dot A (zeros r b)).
Proof.
  intros Hr HA H0. unfold stage2_closed_form, msum. simpl.
  rewrite (has_shape_nrows _ _ _ HA), (dot_identity_l r b) by done.
  rewrite (dot_zeros_r r r b) by (done || by destruct HA). reflexivity.
Qed.

Lemma closed_form_S (r b : nat) A (P1 : nat -> list (list D)) (m : nat) :
  0 < r -> has_shape r r A -> (forall k, k <= S m -> has_shape r b (P1 k)) ->
  stage2_closed_form A r b P1 (S m)
  = madd (P1 (S m)) (dot A (stage2_closed_form A r b P1 m)).
Proof.
  intros Hr HA HP. unfold stage2_closed_form.
  assert (Hseq : seq 0 (S m + 1) = seq 0 (m + 1) ++ [S m]).
  { replace (S m + 1) with (S (m + 1)) by lia. rewrite seq_S.
    do 2 f_equal. lia. }
  rewrite Hseq, map_app. cbn [map]. rewrite Nat.sub_diag. cbn [mpow].
  assert (Hterms : Forall (has_shape r b)
            (map (fun k => dot (mpow A (m - k)) (P1 k)) (seq 0 (m + 1)))).
  { apply Forall_fmap, Forall_forall. intros k Hk. apply elem_of_seq in Hk.
    simpl. apply (dot_shape r r b); [|apply HP; lia | exact Hr].
    by destruct (mpow_shape r A (m - k) Hr HA). }
  assert (Hmap : map (fun k => dot (mpow A (S m - k)) (P1 k)) (seq 0 (m + 1))
                 = map (dot A)
                     (map (fun k => dot (mpow A (m - k)) (P1 k)) (seq 0 (m + 1)))).
  { rewrite map_map. apply map_ext_in. intros k Hk. apply in_seq in Hk.
    replace (S m - k) with (S (m - k)) by lia. simpl.
    apply (dot_assoc r r b); [exact Hr | exact Hr | | apply HP; lia
                              | by destruct HA].
    by apply mpow_shape. }
  rewrite Hmap.
  rewrite (has_shape_nrows _ _ _ HA), (dot_identity_l r b)
    by (done || apply HP; lia).
  rewrite (msum_snoc r b).
  - by rewrite (dot_msum r b).
  - apply Forall_fmap. eapply Forall_impl; [exact Hterms|].
    intros X HX. simpl. apply (dot_shape r r b); [by destruct HA | done | done].
  - apply HP. lia.
Qed.

End Algebra.

(** ** Stages 2 and 3 *)

Section Stage23.
Context {D : Type} {SD : Scalar D}.
Implicit Types (st : store (D := D)) (G : list (list (list (list D)))).

(** [G[m-1][n]] in an array of [M + 1] rows of slots. *)
Lemma get2_prev (Mm cols h w : nat) G (m n : nat) :
  grid_shape (Mm + 1) cols h w G -> m <= Mm -> n < cols ->
  get2 G (Z.of_nat m - 1) (Z.of_nat n) = Ok (grid_block G (prev_row Mm m) n).
Proof.
  intros HG Hm Hn. unfold prev_row. destruct (decide (m = 0)) as [->|Hne].
  - by apply (get2_last Mm cols h w).
  - replace (Z.of_nat m - 1)%Z with (Z.of_nat (m - 1)) by lia.
    apply (get2_nat (Mm + 1) cols h w); [exact HG | lia | exact Hn].
Qed.

Lemma upd_P_ok (Mm Nn r b : nat) st (m n : nat) (V : list (list D)) :
  wf_store Mm Nn r b st -> 0 < r -> m <= Mm -> n < Nn -> has_shape r b V ->
  upd_P st (Z.of_nat m) (Z.of_nat n) V = Ok (set_P st (grid_put (P st) m n V)) /\
  wf_store Mm Nn r b (set_P st (grid_put (P st) m n V)).
Proof.
  intros (Hbl & HP & HE & HPt & HEt) Hr Hm Hn HV. split.
  - unfold upd_P. by rewrite (set2_nat (Mm + 1) Nn r b) by (done || lia).
  - unfold wf_store. simpl. repeat (split; [done|]).
    split; [by apply grid_put_shape|]. done.
Qed.

Lemma upd_E_ok (Mm Nn r b : nat) st (m n : nat) (V : list (list D)) :
  wf_store Mm Nn r b st -> 0 < r -> m <= Mm -> n < Nn -> has_shape r b V ->
  upd_E st (Z.of_nat m) (Z.of_nat n) V = Ok (set_E st (grid_put (E st) m n V)) /\
  wf_store Mm Nn r b (set_E st (grid_put (E st) m n V)).
Proof.
  intros (Hbl & HP & HE & HPt & HEt) Hr Hm Hn HV. split.
  - unfold upd_E. by rewrite (set2_nat (Mm + 1) Nn r b) by (done || lia).
  - unfold wf_store. simpl. repeat (split; [done|]).
    split; [by apply grid_put_shape|]. done.
Qed.

(** [P[-1][n] = V] writes the boundary row of slots. *)
Lemma upd_P_last_ok (Mm Nn r b : nat) st (n : nat) (V : list (list D)) :
  wf_store Mm Nn r b st -> 0 < r -> n < Nn -> has_shape r b V ->
  upd_P st (-1) (Z.of_nat n) V = Ok (set_P st (grid_put (P st) Mm n V)).
Proof.
  intros (Hbl & HP & HE & HPt & HEt) Hr Hn HV.
  unfold upd_P. by rewrite (set2_last Mm Nn r b) by done.
Qed.

Lemma stage2_sweep_spec (Mm Nn r b : nat) (AbF : list (list D)) st (n : nat) :
  wf_store Mm Nn r b st -> 0 < r -> has_shape r r AbF -> n < Nn ->
  exists st',
    stage2_sweep AbF Mm n st = Ok st' /\ wf_store Mm Nn r b st' /\
    swept_column AbF Mm n st Mm st'.
Proof.
  intros Hwf Hr HA Hn. unfold stage2_sweep.
  apply (foldM_range_inv
    (fun i s => wf_store Mm Nn r b s /\ swept_column AbF Mm n st i s)).
  - split; [exact Hwf|]. unfold swept_column.
    do 6 (split; [reflexivity|]). intros m Hm. lia.
  - intros i s0 Hi (Hwf0 & Hbl & HE & HPt & HEt & Hcols & Hrest & Hdone).
    pose proof Hwf0 as (_ & HP0 & _).
    destruct (grid_shape_slot _ _ _ _ _ i n HP0 ltac:(lia) Hn)
      as (_ & _ & _ & _ & HX).
    destruct (grid_shape_slot _ _ _ _ _ (prev_row Mm i) n HP0) as (_ & _ & _ & _ & HY);
      [unfold prev_row; destruct (decide (i = 0)); lia | exact Hn |].
    destruct (eqn24_ok r b AbF _ _ Hr HA HX HY) as [Heq HV].
    destruct (upd_P_ok Mm Nn r b s0 i n _ Hwf0 Hr ltac:(lia) Hn HV)
      as [Hupd Hwf1].
    eexists. split.
    { unfold stage2_step.
      rewrite (get2_nat (Mm + 1) Nn r b) by (done || lia).
      rewrite (get2_prev Mm Nn r b) by (done || lia).
      rewrite Heq. cbn [mbind result_bind]. exact Hupd. }
    split; [exact Hwf1|].
    assert (Hprev : forall m, m <= i -> prev_row Mm m <> i).
    { intros m Hm. unfold prev_row. destruct (decide (m = 0)); lia. }
    unfold swept_column. simpl.
    repeat (split; [done|]).
    split; [|split].
    + intros m n' Hne. rewrite grid_block_put_ne by congruence. by apply Hcols.
    + intros m Hm. rewrite grid_block_put_ne by (intros [=]; lia).
      apply Hrest. lia.
    + intros m Hm. destruct (decide (m = i)) as [->|Hne].
      * rewrite (grid_block_put_eq (Mm + 1) Nn r b) by (done || lia).
        rewrite grid_block_put_ne by (intros [=]; by eapply Hprev).
        rewrite (Hrest i) by lia. reflexivity.
      * rewrite grid_block_put_ne by (intros [=]; lia).
        rewrite grid_block_put_ne
          by (intros [=]; eapply (Hprev m); [lia | done]).
        apply Hdone. lia.
Qed.

(** The backward sweep of a column returns and keeps the shapes. *)
Lemma stage3_sweep_total (Mm Nn r b : nat) (HARB_AFP AbR : list (list D))
    st (n : nat) :
  wf_store Mm Nn r b st -> 0 < r -> has_shape r r HARB_AFP ->
  has_shape r r AbR -> n < Nn ->
  exists st', stage3_sweep HARB_AFP AbR Mm n st = Ok st' /\
              wf_store Mm Nn r b st'.
Proof.
  intros Hwf Hr HH HA Hn. unfold stage3_sweep.
  apply (foldM_total (wf_store Mm Nn r b)); [|exact Hwf].
  intros m s0 Hm Hwf0.
  assert (Hlt : m < Mm).
  { unfold range_down in Hm. apply list_elem_of_In, in_rev, in_seq in Hm. lia. }
  pose proof Hwf0 as (_ & HP0 & HE0 & _).
  destruct (grid_shape_slot _ _ _ _ _ m n HE0 ltac:(lia) Hn)
    as (_ & _ & _ & _ & HX).
  destruct (grid_shape_slot _ _ _ _ _ (prev_row Mm m) n HP0) as (_ & _ & _ & _ & HPm);
    [unfold prev_row; destruct (decide (m = 0)); lia | exact Hn |].
  destruct (grid_shape_slot _ _ _ _ _ (m + 1) n HE0 ltac:(lia) Hn)
    as (_ & _ & _ & _ & HY).
  destruct (eqn34_ok r b HARB_AFP AbR _ _ _ Hr HH HA HX HPm HY) as [Heq HV].
  destruct (upd_E_ok Mm Nn r b s0 m n _ Hwf0 Hr ltac:(lia) Hn HV)
    as [Hupd Hwf1].
  eexists. split; [|exact Hwf1].
  unfold stage3_step.
  rewrite (get2_nat (Mm + 1) Nn r b) by (done || lia).
  rewrite (get2_prev Mm Nn r b) by (done || lia).
  replace (Z.of_nat m + 1)%Z with (Z.of_nat (m + 1)) by lia.
  rewrite (get2_nat (Mm + 1) Nn r b (E s0) (m + 1)) by (done || lia).
  rewrite Heq. cbn [mbind result_bind]. exact Hupd.
Qed.


(** Stages 2 and 3 on well-shaped arrays: the run returns and every column
    of [P] satisfies the recurrence of the forward sweep. *)
Lemma alg5_stage23_spec (Mm Nn r b : nat) (AbF AbR HARB_AFP : list (list D))
    (matrices : list (list (list D))) st :
  wf_store Mm Nn r b st -> 0 < r ->
  py_slice 6 9 matrices = [AbF; AbR; HARB_AFP] ->
  has_shape r r AbF -> has_shape r r AbR -> has_shape r r HARB_AFP ->
  exists st',
    alg5_stage23 Mm Nn matrices st = Ok st' /\ wf_store Mm Nn r b st' /\
    forall n, n < Nn -> column_done AbF Mm st st' n.
Proof.
  intros Hwf Hr Hpack HA HR HH. unfold alg5_stage23. rewrite Hpack.
  cbn [unpack3 mbind result_bind].
  destruct (foldM_range_inv
    (fun i s => wf_store Mm Nn r b s /\
       (forall m n, i <= n -> grid_block (P s) m n = grid_block (P st) m n) /\
       (forall n, n < i -> column_done AbF Mm st s n))
    (fun s n => s1 ← stage2_sweep AbF Mm n s; stage3_sweep HARB_AFP AbR Mm n s1)
    Nn st) as (st' & Hrun & Hwf' & _ & Hdone).
  - split; [exact Hwf|]. split; [reflexivity|]. intros n Hn. lia.
  - intros i s0 Hi (Hwf0 & Hrest & Hdone).
    destruct (stage2_sweep_spec Mm Nn r b AbF s0 i Hwf0 Hr HA Hi)
      as (s1 & Hrun1 & Hwf1 & _ & _ & _ & _ & Hcols & Hlast & Hrec).
    destruct (stage3_sweep_total Mm Nn r b HARB_AFP AbR s1 i Hwf1 Hr HH HR Hi)
      as (s2 & Hrun2 & Hwf2).
    destruct (stage3_sweep_frame _ _ _ _ _ _ Hrun2) as (_ & HP2 & _).
    exists s2. split; [by rewrite Hrun1|]. split; [exact Hwf2|].
    unfold column_done. rewrite HP2. split.
    + intros m n Hn. rewrite Hcols by lia. apply Hrest. lia.
    + intros n Hn. destruct (decide (n = i)) as [->|Hne].
      * split.
        -- rewrite (Hlast Mm) by lia. by apply Hrest.
        -- intros m Hm. rewrite (Hrec m Hm). by rewrite (Hrest m i) by lia.
      * destruct (Hdone n ltac:(lia)) as [Hb Hr0]. split.
        -- by rewrite Hcols by done.
        -- intros m Hm. rewrite !Hcols by done. by apply Hr0.
  - exists st'. split; [exact Hrun|]. split; [exact Hwf'|]. exact Hdone.
Qed.

Lemma F_shape (h w r : nat) (Prol Bloc B' : list (list D)) (weig : list D) :
  F Prol Bloc weig = Ok B' ->
  has_shape h w Bloc -> has_shape r w Prol ->
  0 < h -> 0 < w -> 0 < r -> 0 < length weig -> length weig - 1 <= r ->
  has_shape h w B'.
Proof.
  intros Hrun HB HP Hh Hw Hr Hwg Hlen.
  destruct (F_total h w r Prol Bloc weig HB HP Hh Hw Hr Hwg Hlen)
    as (B1 & HB1 & Hs). congruence.
Qed.

Lemma R_shape (h w r : nat) (Bloc Epil B' : list (list D)) (weig : list D) :
  R Bloc Epil weig = Ok B' ->
  has_shape h w Bloc -> has_shape r w Epil ->
  0 < h -> 0 < w -> 0 < r -> 0 < length weig -> length weig - 1 <= r ->
  has_shape h w B'.
Proof.
  intros Hrun HB HP Hh Hw Hr Hwg Hlen.
  destruct (R_total h w r Bloc Epil weig HB HP Hh Hw Hr Hwg Hlen)
    as (B1 & HB1 & Hs). congruence.
Qed.

(** The three matrices that stages 2 and 3 unpack are [r] by [r]. *)
Lemma build_alg5_matrices_stage23 (b r width height : nat) (wgt : list D)
    (matrices : list (list (list D))) :
  0 < r <= b -> length wgt = r + 1 ->
  build_alg5_matrices b r wgt width height = Ok matrices ->
  exists AbF AbR HARB_AFP,
    py_slice 6 9 matrices = [AbF; AbR; HARB_AFP] /\
    has_shape r r AbF /\ has_shape r r AbR /\ has_shape r r HARB_AFP.
Proof.
  intros Hr Hw Hb. unfold build_alg5_matrices in Hb.
  apply bind_Ok in Hb as (AFP & HAFP & Hb).
  apply bind_Ok in Hb as (AFB & HAFB & Hb).
  apply bind_Ok in Hb as (ARE & HARE & Hb).
  apply bind_Ok in Hb as (ARB & HARB & Hb).
  apply bind_Ok in Hb as (HARB_AFP & Hdot & Hb).
  repeat (let x := fresh "a" in let Hx := fresh "Ha" in
          apply bind_Ok in Hb; destruct Hb as (x & Hx & Hb)).
  injection Hb as <-.
  exists (T AFP r), (H ARE r), HARB_AFP. split; [reflexivity|].
  assert (HsAFP : has_shape b r AFP).
  { apply (F_shape b r r _ _ _ _ HAFP);
      [apply has_shape_zeros | apply identity_shape | lia..]. }
  assert (HsARE : has_shape b r ARE).
  { apply (R_shape b r r _ _ _ _ HARE);
      [apply has_shape_zeros | apply identity_shape | lia..]. }
  assert (HsARB : has_shape b b ARB).
  { apply (R_shape b b r _ _ _ _ HARB);
      [apply identity_shape | apply has_shape_zeros | lia..]. }
  split; [apply (T_shape b); [exact HsAFP | lia]|].
  split; [apply (H_shape b); [exact HsARE | lia]|].
  unfold np_dot in Hdot.
  destruct (decide _) as [_|_] in Hdot; [|discriminate Hdot].
  injection Hdot as <-.
  apply (dot_shape r b r); [|exact HsAFP | lia].
  unfold H, py_head. rewrite length_take. destruct HsARB. lia.
Qed.

End Stage23.

(** ** The closed form of the forward sweep *)

Section Closed_form.
Context {D : Type} {SD : Scalar D}.
Variable ropp : D -> D.
Hypothesis Dring : ring_theory rO rI radd rmul rsub ropp eq.
Implicit Types (st : store (D := D)).

Lemma column_done_closed_form (Mm Nn r b : nat) (AbF : list (list D))
    st st' (n : nat) :
  0 < r -> has_shape r r AbF -> grid_shape (Mm + 1) Nn r b (P st) -> n < Nn ->
  grid_block (P st) Mm n = zeros r b ->
  column_done AbF Mm st st' n ->
  forall m, m < Mm ->
    grid_block (P st') m n
    = stage2_closed_form AbF r b (fun k => grid_block (P st) k n) m.
Proof.
  intros Hr HA HP Hn Hzero [Hlast Hrec].
  assert (Hshape : forall k, k <= Mm -> has_shape r b (grid_block (P st) k n)).
  { intros k Hk.
    by destruct (grid_shape_slot _ _ _ _ _ k n HP ltac:(lia) Hn)
      as (_ & _ & _ & _ & Hs). }
  induction m as [|m IH]; intros Hm.
  - rewrite (Hrec 0 Hm). unfold prev_row. simpl. rewrite Hlast, Hzero.
    symmetry. apply (closed_form_0 ropp Dring); [exact Hr | exact HA|].
    apply Hshape. lia.
  - rewrite (Hrec (S m) Hm). unfold prev_row. simpl. rewrite Nat.sub_0_r.
    rewrite IH by lia. symmetry.
    apply (closed_form_S ropp Dring); [exact Hr | exact HA|].
    intros k Hk. apply Hshape. lia.
Qed.

(** Stage 2 from any well-shaped carries whose boundary slots are zero. *)
Lemma alg5_stage23_closed_form (Mm Nn r b : nat)
    (AbF AbR HARB_AFP : list (list D)) (matrices : list (list (list D))) st :
  wf_store Mm Nn r b st -> 0 < r ->
  py_slice 6 9 matrices = [AbF; AbR; HARB_AFP] ->
  has_shape r r AbF -> has_shape r r AbR -> has_shape r r HARB_AFP ->
  (forall n, n < Nn -> grid_block (P st) Mm n = zeros r b) ->
  exists st',
    alg5_stage23 Mm Nn matrices st = Ok st' /\
    forall m n, m < Mm -> n < Nn ->
      grid_block (P st') m n
      = stage2_closed_form AbF r b (fun k => grid_block (P st) k n) m.
Proof.
  intros Hwf Hr Hpack HA HR HH Hzero.
  destruct (alg5_stage23_spec Mm Nn r b AbF AbR HARB_AFP matrices st
              Hwf Hr Hpack HA HR HH) as (st' & Hrun & _ & Hdone).
  exists st'. split; [exact Hrun|]. intros m n Hm Hn.
  destruct Hwf as (_ & HP & _).
  apply (column_done_closed_form Mm Nn r b AbF st st' n); auto.
Qed.

Lemma build_alg5_carries_wf (Mm Nn r b : nat)
    (bl : list (list (list (list D)))) :
  grid_shape Mm Nn b b bl ->
  wf_store Mm Nn r b (store_of bl (build_alg5_carries Mm Nn b r)).
Proof.
  intros Hbl. unfold wf_store, store_of, build_alg5_carries. simpl.
  assert (Hz : forall rows cols h w,
             grid_shape rows cols h w (replicate rows (replicate cols (zeros h w)))).
  { intros rows cols h w. split; [apply length_replicate|].
    apply Forall_replicate. split; [apply length_replicate|].
    apply Forall_replicate. apply has_shape_zeros. }
  split; [exact Hbl|]. repeat split; apply Hz.
Qed.

End Closed_form.

Lemma ex_blocks_shape : grid_shape 2 2 2 2 ex_blocks.
Proof.
  unfold grid_shape, has_shape. simpl. repeat split; repeat constructor.
Qed.



Section Rounding.
Import PrimFloat.
#[local] Existing Instance float_scalar.


End Rounding.

(** ** Periodic extension, stages 2 and 3 *)

Section Periodic.
Context {D : Type} {SD : Scalar D}.
Implicit Types (st : store (D := D)).

Lemma fold_left_agree {A X : Type} (f g : A -> X -> A) (l : list X) (a : A) :
  (forall x acc, x ∈ l -> f acc x = g acc x) ->
  fold_left f l a = fold_left g l a.
Proof.
  revert a. induction l as [|x l IH]; intros a Hfg; simpl; [reflexivity|].
  rewrite (Hfg x a) by apply list_elem_of_here.
  apply IH. intros y acc Hy. apply Hfg. by apply list_elem_of_further.
Qed.

Lemma py_get_nat_inv {A : Type} (l : list A) (i : nat) (x : A) :
  py_get l (Z.of_nat i) = Ok x -> l !! i = Some x.
Proof.
  unfold py_get, py_index.
  destruct (Z.leb_spec 0 (Z.of_nat i)); [|lia].
  destruct (Z.ltb_spec (Z.of_nat i) (Z.of_nat (length l))); simpl;
    [|discriminate].
  rewrite Nat2Z.id. destruct (l !! i); [congruence | discriminate].
Qed.

(** The first pass returns the accumulator of the specification. *)
Lemma pe_PM1Y_ok (Mm Nn r b : nat) (AbF Zrb : list (list D)) st (n : nat) :
  wf_store Mm Nn r b st -> 0 < r -> has_shape r r AbF -> has_shape r b Zrb ->
  n < Nn ->
  let acc := fold_left (fun PM1Y m => madd (grid_block (P st) m n) (dot AbF PM1Y))
                       (seq 0 Mm) Zrb in
  pe_PM1Y AbF Zrb Mm n st = Ok acc /\ has_shape r b acc.
Proof.
  intros Hwf Hr HA HZ Hn. cbn zeta. unfold pe_PM1Y.
  destruct (foldM_range_inv
    (fun i acc => has_shape r b acc /\
       acc = fold_left (fun PM1Y m => madd (grid_block (P st) m n) (dot AbF PM1Y))
                       (seq 0 i) Zrb)
    (fun PM1Y m => eqn24 AbF (get2 (P st) (Z.of_nat m) (Z.of_nat n)) (Ok PM1Y))
    Mm Zrb) as (acc & Hrun & Hs & Hacc).
  - split; [exact HZ | reflexivity].
  - intros i acc Hi [Hs ->].
    pose proof Hwf as (_ & HP & _).
    destruct (grid_shape_slot _ _ _ _ _ i n HP ltac:(lia) Hn)
      as (_ & _ & _ & _ & HX).
    destruct (eqn24_ok r b AbF _ _ Hr HA HX Hs) as [Heq HV].
    eexists. split.
    { rewrite (get2_nat (Mm + 1) Nn r b) by (done || lia). exact Heq. }
    split; [exact HV|]. rewrite seq_S, fold_left_app. reflexivity.
  - subst acc. split; [exact Hrun | exact Hs].
Qed.

Lemma pe_E0Z_total (Mm Nn r b : nat) (HARB_AFP AbR Zrb : list (list D))
    st (n : nat) :
  wf_store Mm Nn r b st -> 0 < r -> has_shape r r HARB_AFP ->
  has_shape r r AbR -> has_shape r b Zrb -> n < Nn ->
  exists E0Z, pe_E0Z HARB_AFP AbR Zrb Mm n st = Ok E0Z /\ has_shape r b E0Z.
Proof.
  intros Hwf Hr HH HA HZ Hn. unfold pe_E0Z.
  apply (foldM_total (has_shape r b)); [|exact HZ].
  intros m acc Hm Hs.
  assert (Hlt : m < Mm).
  { unfold range_down in Hm. apply list_elem_of_In, in_rev, in_seq in Hm. lia. }
  pose proof Hwf as (_ & HP & HE & _).
  destruct (grid_shape_slot _ _ _ _ _ m n HE ltac:(lia) Hn)
    as (_ & _ & _ & _ & HX).
  destruct (grid_shape_slot _ _ _ _ _ (prev_row Mm m) n HP) as (_ & _ & _ & _ & HPm);
    [unfold prev_row; destruct (decide (m = 0)); lia | exact Hn |].
  destruct (eqn34_ok r b HARB_AFP AbR _ _ _ Hr HH HA HX HPm Hs) as [Heq HV].
  eexists. split; [|exact HV].
  rewrite (get2_nat (Mm + 1) Nn r b) by (done || lia).
  rewrite (get2_prev Mm Nn r b) by (done || lia). exact Heq.
Qed.

(** One column of the PE stages 2 and 3. *)
Lemma pe_stage23_column_spec (Mm Nn r b : nat)
    (Zrb AbF AbR HARB_AFP IAhF IAhR : list (list D)) st (n : nat) :
  wf_store Mm Nn r b st -> 0 < r -> Zrb = zeros r b ->
  has_shape r r AbF -> has_shape r r AbR -> has_shape r r HARB_AFP ->
  has_shape r r IAhF -> has_shape r r IAhR -> n < Nn ->
  exists st',
    pe_stage23_column Mm Zrb AbF AbR HARB_AFP IAhF IAhR st n = Ok st' /\
    wf_store Mm Nn r b st' /\
    (forall m n', n' <> n -> grid_block (P st') m n' = grid_block (P st) m n') /\
    pe_column_done AbF IAhF r b Mm st st' n.
Proof.
  intros Hwf Hr -> HA HR HH HIF HIR Hn. unfold pe_stage23_column.
  destruct (pe_PM1Y_ok Mm Nn r b AbF (zeros r b) st n Hwf Hr HA
              (has_shape_zeros r b) Hn) as [Hacc Hsacc].
  rewrite Hacc. cbn [mbind result_bind].
  fold (pe_accumulate AbF r b (fun m => grid_block (P st) m n) Mm) in *.
  set (acc := pe_accumulate AbF r b (fun m => grid_block (P st) m n) Mm) in *.
  assert (HV : has_shape r b (dot IAhF acc))
    by (apply (dot_shape r r b); [by destruct HIF | exact Hsacc | exact Hr]).
  rewrite (np_dot_ok r r b IAhF acc) by done. cbn [mbind result_bind].
  rewrite (upd_P_last_ok Mm Nn r b) by done. cbn [mbind result_bind].
  set (s1 := set_P st (grid_put (P st) Mm n (dot IAhF acc))).
  assert (Hwf1 : wf_store Mm Nn r b s1).
  { destruct Hwf as (Hbl & HP & HE & HPt & HEt). unfold wf_store, s1. simpl.
    split; [done|]. split; [by apply grid_put_shape|]. done. }
  destruct (stage2_sweep_spec Mm Nn r b AbF s1 n Hwf1 Hr HA Hn)
    as (s2 & Hrun2 & Hwf2 & _ & HE2 & _ & _ & Hcols & Hlast & Hrec).
  rewrite Hrun2. cbn [mbind result_bind].
  destruct (pe_E0Z_total Mm Nn r b HARB_AFP AbR (zeros r b) s2 n Hwf2 Hr HH HR
              (has_shape_zeros r b) Hn) as (E0Z & HE0Z & HsE0Z).
  rewrite HE0Z. cbn [mbind result_bind].
  assert (HVE : has_shape r b (dot IAhR E0Z))
    by (apply (dot_shape r r b); [by destruct HIR | exact HsE0Z | exact Hr]).
  rewrite (np_dot_ok r r b IAhR E0Z) by done. cbn [mbind result_bind].
  destruct (upd_E_ok Mm Nn r b s2 Mm n _ Hwf2 Hr ltac:(lia) Hn HVE)
    as [Hupd Hwf3].
  rewrite Hupd. cbn [mbind result_bind].
  destruct (stage3_sweep_total Mm Nn r b HARB_AFP AbR _ n Hwf3 Hr HH HR Hn)
    as (s4 & Hrun4 & Hwf4).
  destruct (stage3_sweep_frame _ _ _ _ _ _ Hrun4) as (_ & HP4 & _).
  simpl in HP4.
  exists s4. split; [exact Hrun4|]. split; [exact Hwf4|].
  unfold pe_column_done. rewrite HP4.
  destruct Hwf as (_ & HP & _).
  split; [|split].
  - intros m n' Hne. rewrite Hcols by done. unfold s1. simpl.
    apply grid_block_put_ne. congruence.
  - rewrite (Hlast Mm) by lia. unfold s1. simpl.
    apply (grid_block_put_eq (Mm + 1) Nn r b); [exact HP | lia | exact Hn].
  - intros m Hm. rewrite (Hrec m Hm). f_equal. unfold s1. simpl.
    apply grid_block_put_ne. intros [=]. lia.
Qed.

(** The PE stages 2 and 3 on well-shaped arrays. *)
Lemma alg5_pe_stage23_spec (Mm Nn r b : nat)
    (AbF AbR HARB_AFP IAhF IAhR : list (list D))
    (matrices pe_matrices : list (list (list D))) st :
  wf_store Mm Nn r b st -> 0 < r ->
  matrices !! 0 = Some (zeros r b) ->
  py_slice 6 9 matrices = [AbF; AbR; HARB_AFP] ->
  py_slice 0 2 pe_matrices = [IAhF; IAhR] ->
  has_shape r r AbF -> has_shape r r AbR -> has_shape r r HARB_AFP ->
  has_shape r r IAhF -> has_shape r r IAhR ->
  exists st',
    alg5_pe_stage23 Mm Nn matrices pe_matrices st = Ok st' /\
    forall n, n < Nn -> pe_column_done AbF IAhF r b Mm st st' n.
Proof.
  intros Hwf Hr HZ Hpack Hpe HA HR HH HIF HIR. unfold alg5_pe_stage23.
  rewrite (py_get_nat matrices 0 _ HZ : py_get matrices 0%Z = Ok (zeros r b)).
  rewrite Hpack, Hpe. cbn [unpack3 unpack2 mbind result_bind].
  destruct (foldM_range_inv
    (fun i s => wf_store Mm Nn r b s /\
       (forall m n, i <= n -> grid_block (P s) m n = grid_block (P st) m n) /\
       (forall n, n < i -> pe_column_done AbF IAhF r b Mm st s n))
    (pe_stage23_column Mm (zeros r b) AbF AbR HARB_AFP IAhF IAhR)
    Nn st) as (st' & Hrun & _ & _ & Hdone).
  - split; [exact Hwf|]. split; [reflexivity|]. intros n Hn. lia.
  - intros i s0 Hi (Hwf0 & Hrest & Hdone).
    destruct (pe_stage23_column_spec Mm Nn r b (zeros r b) AbF AbR HARB_AFP
                IAhF IAhR s0 i Hwf0 Hr eq_refl HA HR HH HIF HIR Hi)
      as (s1 & Hrun1 & Hwf1 & Hcols & Hlast & Hrec).
    exists s1. split; [exact Hrun1|]. split; [exact Hwf1|]. split.
    + intros m n Hn. rewrite Hcols by lia. apply Hrest. lia.
    + intros n Hn. unfold pe_column_done.
      destruct (decide (n = i)) as [->|Hne].
      * split.
        -- rewrite Hlast. f_equal. unfold pe_accumulate.
           apply fold_left_agree. intros m acc Hm. f_equal. by apply Hrest.
        -- intros m Hm. rewrite (Hrec m Hm). by rewrite (Hrest m i) by lia.
      * destruct (Hdone n ltac:(lia)) as [Hb Hr0]. split.
        -- by rewrite Hcols by done.
        -- intros m Hm. rewrite !Hcols by done. by apply Hr0.
  - exists st'. split; [exact Hrun | exact Hdone].
Qed.

Section With_inverse.
Variable np_linalg_inv : list (list D) -> result (list (list D)).

(** [IAhF] as [build_pe_matrices] stores it. *)
Lemma build_pe_matrices_IAhF (r : nat) (wgt : list D)
    (alg5m pe_matrices : list (list (list D))) :
  build_pe_matrices np_linalg_inv r wgt alg5m = Ok pe_matrices ->
  exists Ir AhF X Xinv IAhR IAwF IAwR,
    alg5m !! 2 = Some Ir /\ alg5m !! 23 = Some AhF /\
    np_sub Ir AhF = Ok X /\ np_linalg_inv X = Ok Xinv /\
    pe_matrices = [transpose Xinv; IAhR; IAwF; IAwR].
Proof.
  unfold build_pe_matrices. intros Hb.
  apply bind_Ok in Hb as (Ir & HIr & Hb).
  apply bind_Ok in Hb as (A4 & HA4 & Hb).
  destruct A4 as [[[AwF AwR] AhF] AhR].
  apply bind_Ok in Hb as (a1 & Ha1 & Hb).
  apply bind_Ok in Hb as (IAwF & HIAwF & Hb).
  apply bind_Ok in Hb as (a2 & Ha2 & Hb).
  apply bind_Ok in Hb as (IAwR & HIAwR & Hb).
  apply bind_Ok in Hb as (X & HX & Hb).
  apply bind_Ok in Hb as (Xinv & HXinv & Hb).
  apply bind_Ok in Hb as (a4 & Ha4 & Hb).
  apply bind_Ok in Hb as (Yinv & HYinv & Hb).
  injection Hb as <-.
  exists Ir, AhF, X, Xinv, (transpose Yinv), IAwF, IAwR.
  apply (py_get_nat_inv alg5m 2) in HIr.
  split; [exact HIr|]. split; [|done].
  unfold unpack4 in HA4.
  destruct (py_slice 21 25 alg5m) as [|x0 [|x1 [|x2 [|x3 [|x4 l]]]]] eqn:Hs;
    try discriminate HA4.
  injection HA4 as -> -> -> ->.
  apply (f_equal (fun l => l !! 2)) in Hs.
  rewrite py_slice_lookup in Hs by lia. exact Hs.
Qed.

(** C7.  PE stages 2-3 on well-shaped arrays, with the matrices of
    [build_pe_matrices]: the run returns; [IAhF] is the transpose of the
    inverse of [I - AhF]; and for every column [n] the boundary slot
    [P[-1][n]] is [IAhF] times the accumulator [PM1Y] (zero-initialised and
    updated as [P[m][n] + AbF * PM1Y] for [m = 0..M-1]), while the other
    slots satisfy the standard sweep [P[m][n] = P[m][n] + AbF * P[m-1][n]]. *)
Theorem pe_stage23_P_sweep (Mm Nn r b : nat) (wgt : list D)
    (AbF AbR HARB_AFP : list (list D))
    (alg5m pe_matrices : list (list (list D))) st :
  wf_store Mm Nn r b st -> 0 < r ->
  alg5m !! 0 = Some (zeros r b) ->
  py_slice 6 9 alg5m = [AbF; AbR; HARB_AFP] ->
  has_shape r r AbF -> has_shape r r AbR -> has_shape r r HARB_AFP ->
  build_pe_matrices np_linalg_inv r wgt alg5m = Ok pe_matrices ->
  Forall (has_shape r r) pe_matrices ->
  exists Ir AhF X Xinv st',
    alg5m !! 2 = Some Ir /\ alg5m !! 23 = Some AhF /\
    np_sub Ir AhF = Ok X /\ np_linalg_inv X = Ok Xinv /\
    pe_matrices !! 0 = Some (transpose Xinv) /\
    alg5_pe_stage23 Mm Nn alg5m pe_matrices st = Ok st' /\
    forall n, n < Nn ->
      pe_column_done AbF (transpose Xinv) r b Mm st st' n.
Proof.
  intros Hwf Hr HZ Hpack HA HR HH Hbuild Hshapes.
  destruct (build_pe_matrices_IAhF r wgt alg5m pe_matrices Hbuild)
    as (Ir & AhF & X & Xinv & IAhR & IAwF & IAwR & HIr & HAhF & HX & HXinv & ->).
  apply Forall_cons in Hshapes as [HIF Hshapes].
  apply Forall_cons in Hshapes as [HIR _].
  destruct (alg5_pe_stage23_spec Mm Nn r b AbF AbR HARB_AFP (transpose Xinv)
              IAhR alg5m [transpose Xinv; IAhR; IAwF; IAwR] st
              Hwf Hr HZ Hpack eq_refl HA HR HH HIF HIR) as (st' & Hrun & Hdone).
  exists Ir, AhF, X, Xinv, st'. repeat (split; [done|]). exact Hdone.
Qed.

End With_inverse.

End Periodic.

Lemma pe_stage23_P_sweep_witness :
  exists alg5m pe_matrices,
    build_alg5_matrices 1 1 ex_pe_weights 1 1 = Ok alg5m /\
    build_pe_matrices inv_Z 1 ex_pe_weights alg5m = Ok pe_matrices /\
    exists Ir AhF X Xinv st',
      alg5m !! 2 = Some Ir /\ alg5m !! 23 = Some AhF /\
      np_sub Ir AhF = Ok X /\ inv_Z X = Ok Xinv /\
      pe_matrices !! 0 = Some (transpose Xinv) /\
      alg5_pe_stage23 1 1 alg5m pe_matrices ex_pe_store = Ok st' /\
      forall n, n < 1 ->
        pe_column_done [[2%Z]] (transpose Xinv) 1 1 1 ex_pe_store st' n.
Proof.
  eexists. eexists.
  split; [vm_compute; reflexivity|]. split; [vm_compute; reflexivity|].
  apply (pe_stage23_P_sweep (D := Z) inv_Z 1 1 1 1 ex_pe_weights
           [[2%Z]] [[2%Z]] [[6%Z]] _ _ ex_pe_store).
  - unfold wf_store, grid_shape, has_shape. simpl.
    repeat split; repeat constructor.
  - lia.
  - reflexivity.
  - reflexivity.
  - split; [reflexivity | repeat constructor].
  - split; [reflexivity | repeat constructor].
  - split; [reflexivity | repeat constructor].
  - vm_compute. reflexivity.
  - unfold has_shape. repeat constructor.
Defined.

(** ** Where a singular matrix is detected *)

Create HintDb nolinalg.

Section No_linalg.
Context {D : Type} {SD : Scalar D}.
Implicit Types (st : store (D := D)).

Lemma no_linalg_Ok {A : Type} (a : A) : no_linalg (Ok a).
Proof. discriminate. Qed.

#[local] Hint Resolve no_linalg_Ok : nolinalg.

Lemma no_linalg_Err {A : Type} (e : error) :
  e <> LinAlgError -> no_linalg (A := A) (Err e).
Proof. intros He Heq. injection Heq as ->. by apply He. Qed.

Lemma no_linalg_bind {A B : Type} (m : result A) (f : A -> result B) :
  no_linalg m -> (forall a, no_linalg (f a)) -> no_linalg (m ≫= f).
Proof.
  intros Hm Hf. destruct m as [a|e]; simpl; [apply Hf|].
  intros Heq. apply Hm. injection Heq as ->. reflexivity.
Qed.

Lemma no_linalg_foldM {S X : Type} (f : S -> X -> result S) (xs : list X)
    (s : S) :
  (forall s0 x, no_linalg (f s0 x)) -> no_linalg (foldM f xs s).
Proof.
  intros Hf. revert s. induction xs as [|x xs IH]; intros s; simpl.
  - apply no_linalg_Ok.
  - apply no_linalg_bind; [apply Hf | exact IH].
Qed.

Lemma no_linalg_mapM {A B : Type} (f : A -> result B) (l : list A) :
  (forall x, no_linalg (f x)) -> no_linalg (mapM f l).
Proof.
  intros Hf. induction l as [|x l IH]; simpl; [apply no_linalg_Ok|].
  apply no_linalg_bind; [apply Hf|]. intros y.
  apply no_linalg_bind; [exact IH|]. intros ys. apply no_linalg_Ok.
Qed.

(** Take a computation apart: binds, loops, conditionals and matches. *)
Ltac nla :=
  repeat first
    [ solve [auto with nolinalg]
    | apply no_linalg_Ok
    | apply no_linalg_Err; discriminate
    | apply no_linalg_foldM; intros ? ?
    | apply no_linalg_mapM; intros ?
    | match goal with
      | |- no_linalg (if ?c then _ else _) => destruct c
      | |- no_linalg (match ?x with _ => _ end) => destruct x
      | |- no_linalg (let '(_, _) := ?x in _) => destruct x
      end
    | apply no_linalg_bind; [|intros ?] ].

Lemma py_index_nla (len : nat) (i : Z) : no_linalg (py_index len i).
Proof. unfold py_index. nla. Qed.
#[local] Hint Resolve py_index_nla : nolinalg.

Lemma py_get_nla {A : Type} (l : list A) (i : Z) : no_linalg (py_get l i).
Proof. unfold py_get. nla. Qed.
#[local] Hint Resolve py_get_nla : nolinalg.

Lemma py_set_nla {A : Type} (l : list A) (i : Z) (x : A) :
  no_linalg (py_set l i x).
Proof. unfold py_set. nla. Qed.
#[local] Hint Resolve py_set_nla : nolinalg.

Lemma stretch_nla {A : Type} (n : nat) (l : list A) : no_linalg (stretch n l).
Proof. unfold stretch. nla. Qed.
#[local] Hint Resolve stretch_nla : nolinalg.

Lemma broadcast_to_nla (h w : nat) (V : list (list D)) :
  no_linalg (broadcast_to h w V).
Proof. unfold broadcast_to. nla. Qed.
#[local] Hint Resolve broadcast_to_nla : nolinalg.

Lemma bdim_nla (a b : nat) : no_linalg (bdim a b).
Proof. unfold bdim. nla. Qed.
#[local] Hint Resolve bdim_nla : nolinalg.

Lemma np_add_nla (A B : list (list D)) : no_linalg (np_add A B).
Proof. unfold np_add, np_binop. nla. Qed.
#[local] Hint Resolve np_add_nla : nolinalg.

Lemma np_dot_nla (A B : list (list D)) : no_linalg (np_dot A B).
Proof. unfold np_dot. nla. Qed.
#[local] Hint Resolve np_dot_nla : nolinalg.

Lemma fwd_nla (prol bloc weig : list D) : no_linalg (fwd prol bloc weig).
Proof. unfold fwd, fwd_step, fwd_tap. nla. Qed.
#[local] Hint Resolve fwd_nla : nolinalg.

Lemma rev_nla (bloc epil weig : list D) : no_linalg (rev bloc epil weig).
Proof. unfold rev, rev_step, rev_tap. nla. Qed.
#[local] Hint Resolve rev_nla : nolinalg.

Lemma FT_nla (Prol Bloc : list (list D)) (weig : list D) :
  no_linalg (FT Prol Bloc weig).
Proof. unfold FT, FT_row. nla. Qed.
#[local] Hint Resolve FT_nla : nolinalg.

Lemma RT_nla (Bloc Epil : list (list D)) (weig : list D) :
  no_linalg (RT Bloc Epil weig).
Proof. unfold RT, RT_row. nla. Qed.
#[local] Hint Resolve RT_nla : nolinalg.

Lemma F_nla (Prol Bloc : list (list D)) (weig : list D) :
  no_linalg (F Prol Bloc weig).
Proof. unfold F. nla. Qed.
#[local] Hint Resolve F_nla : nolinalg.

Lemma R_nla (Bloc Epil : list (list D)) (weig : list D) :
  no_linalg (R Bloc Epil weig).
Proof. unfold R. nla. Qed.
#[local] Hint Resolve R_nla : nolinalg.

Lemma get2_nla (G : list (list (list (list D)))) (m n : Z) :
  no_linalg (get2 G m n).
Proof. unfold get2. nla. Qed.
#[local] Hint Resolve get2_nla : nolinalg.

Lemma set2_nla (G : list (list (list (list D)))) (m n : Z) (V : list (list D)) :
  no_linalg (set2 G m n V).
Proof. unfold set2. nla. Qed.
#[local] Hint Resolve set2_nla : nolinalg.

Lemma upd_nla st (m n : Z) (V : list (list D)) :
  no_linalg (upd_blocks st m n V) /\ no_linalg (upd_P st m n V) /\
  no_linalg (upd_E st m n V) /\ no_linalg (upd_Pt st m n V) /\
  no_linalg (upd_Et st m n V).
Proof.
  unfold upd_blocks, upd_P, upd_E, upd_Pt, upd_Et. repeat split; nla.
Qed.

Lemma upd_P_nla st (m n : Z) (V : list (list D)) : no_linalg (upd_P st m n V).
Proof. apply upd_nla. Qed.
Lemma upd_E_nla st (m n : Z) (V : list (list D)) : no_linalg (upd_E st m n V).
Proof. apply upd_nla. Qed.
Lemma upd_Pt_nla st (m n : Z) (V : list (list D)) : no_linalg (upd_Pt st m n V).
Proof. apply upd_nla. Qed.
Lemma upd_Et_nla st (m n : Z) (V : list (list D)) : no_linalg (upd_Et st m n V).
Proof. apply upd_nla. Qed.
Lemma upd_blocks_nla st (m n : Z) (V : list (list D)) :
  no_linalg (upd_blocks st m n V).
Proof. apply upd_nla. Qed.
#[local] Hint Resolve upd_P_nla upd_E_nla upd_Pt_nla upd_Et_nla upd_blocks_nla
  : nolinalg.

Lemma unpack2_nla {A : Type} (l : list A) : no_linalg (unpack2 l).
Proof. unfold unpack2. nla. Qed.
Lemma unpack3_nla {A : Type} (l : list A) : no_linalg (unpack3 l).
Proof. unfold unpack3. nla. Qed.
Lemma unpack7_nla {A : Type} (l : list A) : no_linalg (unpack7 l).
Proof. unfold unpack7. nla. Qed.
#[local] Hint Resolve unpack2_nla unpack3_nla unpack7_nla : nolinalg.

Lemma eqn24_nla (AbF : list (list D)) (x y : result (list (list D))) :
  no_linalg x -> no_linalg y -> no_linalg (eqn24 AbF x y).
Proof. intros Hx Hy. unfold eqn24. nla. Qed.

Lemma eqn34_nla (HARB_AFP AbR : list (list D)) (x p y : result (list (list D))) :
  no_linalg x -> no_linalg p -> no_linalg y ->
  no_linalg (eqn34 HARB_AFP AbR x p y).
Proof. intros Hx Hp Hy. unfold eqn34. nla. Qed.

Lemma eqn37_nla (ARB_AFP ARE TAFBT AbFT : list (list D))
    (x p e y : result (list (list D))) :
  no_linalg x -> no_linalg p -> no_linalg e -> no_linalg y ->
  no_linalg (eqn37 ARB_AFP ARE TAFBT AbFT x p e y).
Proof. intros Hx Hp He Hy. unfold eqn37. nla. Qed.

Lemma eqn39_nla (ARB_AFP ARE HARB_AFBT HARB_AFPT AbRT : list (list D))
    (x p e pt y : result (list (list D))) :
  no_linalg x -> no_linalg p -> no_linalg e -> no_linalg pt -> no_linalg y ->
  no_linalg (eqn39 ARB_AFP ARE HARB_AFBT HARB_AFPT AbRT x p e pt y).
Proof. intros Hx Hp He Hpt Hy. unfold eqn39. nla. Qed.
#[local] Hint Resolve eqn24_nla eqn34_nla eqn37_nla eqn39_nla : nolinalg.

Lemma stage2_sweep_nla (AbF : list (list D)) (m_size n : nat) st :
  no_linalg (stage2_sweep AbF m_size n st).
Proof. unfold stage2_sweep, stage2_step. nla. Qed.

Lemma stage3_sweep_nla (HARB_AFP AbR : list (list D)) (m_size n : nat) st :
  no_linalg (stage3_sweep HARB_AFP AbR m_size n st).
Proof. unfold stage3_sweep, stage3_step. nla. Qed.

Lemma stage4_sweep_nla (ARB_AFP ARE TAFBT AbFT : list (list D))
    (n_size m : nat) st :
  no_linalg (stage4_sweep ARB_AFP ARE TAFBT AbFT n_size m st).
Proof. unfold stage4_sweep, stage4_step. nla. Qed.

Lemma stage5_sweep_nla (ARB_AFP ARE HARB_AFBT HARB_AFPT AbRT : list (list D))
    (n_size m : nat) st :
  no_linalg (stage5_sweep ARB_AFP ARE HARB_AFBT HARB_AFPT AbRT n_size m st).
Proof. unfold stage5_sweep, stage5_step. nla. Qed.
#[local] Hint Resolve stage2_sweep_nla stage3_sweep_nla stage4_sweep_nla
  stage5_sweep_nla : nolinalg.

Lemma alg5_stage1_nla (m_size n_size r : nat) (wgt : list D)
    (matrices : list (list (list D))) st :
  no_linalg (alg5_stage1 m_size n_size r wgt matrices st).
Proof. unfold alg5_stage1, stage1_block. nla. Qed.

Lemma alg5_stage6_nla (m_size n_size : nat) (wgt : list D) st :
  no_linalg (alg5_stage6 m_size n_size wgt st).
Proof. unfold alg5_stage6, stage6_block. nla. Qed.

Lemma alg5_cpe_stage1_nla (m_size n_size r : nat) (wgt : list D)
    (matrices : list (list (list D))) st :
  no_linalg (alg5_cpe_stage1 m_size n_size r wgt matrices st).
Proof. unfold alg5_cpe_stage1, cpe_stage1_block. nla. Qed.

Lemma alg5_cpe_stage23_nla (m_size n_size : nat)
    (matrices cpe_matrices : list (list (list D))) st :
  no_linalg (alg5_cpe_stage23 m_size n_size matrices cpe_matrices st).
Proof. unfold alg5_cpe_stage23, cpe_stage23_column. nla. Qed.

Lemma alg5_cpe_stage45_nla (m_size n_size r : nat)
    (matrices cpe_matrices : list (list (list D))) st :
  no_linalg (alg5_cpe_stage45 m_size n_size r matrices cpe_matrices st).
Proof. unfold alg5_cpe_stage45, cpe_stage45_row. nla. Qed.

Lemma alg5_epe_stage23_nla (m_size n_size : nat)
    (matrices epe_matrices : list (list (list D))) st :
  no_linalg (alg5_epe_stage23 m_size n_size matrices epe_matrices st).
Proof. unfold alg5_epe_stage23, epe_stage23_column. nla. Qed.

Lemma alg5_epe_stage45_nla (m_size n_size r : nat)
    (matrices epe_matrices : list (list (list D))) st :
  no_linalg (alg5_epe_stage45 m_size n_size r matrices epe_matrices st).
Proof. unfold alg5_epe_stage45, epe_stage45_row. nla. Qed.

Lemma alg5_pe_stage23_nla (m_size n_size : nat)
    (matrices pe_matrices : list (list (list D))) st :
  no_linalg (alg5_pe_stage23 m_size n_size matrices pe_matrices st).
Proof.
  unfold alg5_pe_stage23, pe_stage23_column, pe_PM1Y, pe_E0Z. nla.
Qed.

Lemma alg5_pe_stage45_nla (m_size n_size r : nat)
    (matrices pe_matrices : list (list (list D))) st :
  no_linalg (alg5_pe_stage45 m_size n_size r matrices pe_matrices st).
Proof. unfold alg5_pe_stage45, pe_stage45_row. nla. Qed.


Section With_linalg.
Variable np_linalg_inv : list (list D) -> result (list (list D)).
Variable lu_solve_factor : list (list D) -> list D -> result (list D).

Lemma build_cpe_matrices_inversions (r : nat) (wgt : list D)
    (alg5m pack : list (list (list D))) :
  build_cpe_matrices np_linalg_inv lu_solve_factor r wgt alg5m = Ok pack ->
  cpe_inversions_ok np_linalg_inv alg5m.
Proof.
  unfold build_cpe_matrices. intros Hb.
  apply bind_Ok in Hb as (Ir & HIr & Hb).
  apply bind_Ok in Hb as (AFP & HAFP & Hb).
  apply bind_Ok in Hb as (A4 & HA4 & Hb).
  destruct A4 as [[[ArF ArR] AbarF] AbarR].
  apply bind_Ok in Hb as (S & HS & Hb).
  apply bind_Ok in Hb as (sysx & Hsysx & Hb).
  apply bind_Ok in Hb as (SRF & HSRF & Hb).
  apply bind_Ok in Hb as (IArF & HIArF & Hb).
  apply bind_Ok in Hb as (IArR & HIArR & Hb).
  apply bind_Ok in Hb as (SF & HSF & Hb).
  apply bind_Ok in Hb as (SR & HSR & Hb).
  exists Ir, ArF, ArR, IArF, IArR.
  apply (py_get_nat_inv alg5m 2) in HIr.
  unfold unpack4 in HA4.
  destruct (py_slice 17 21 alg5m) as [|x0 [|x1 [|x2 [|x3 [|x4 l]]]]] eqn:Hs;
    try discriminate HA4.
  injection HA4 as -> -> -> ->.
  pose proof (f_equal (fun l => l !! 0) Hs) as H0.
  pose proof (f_equal (fun l => l !! 1) Hs) as H1.
  rewrite py_slice_lookup in H0, H1 by lia. simpl in H0, H1.
  repeat (split; [done|]). split; [by exists SF | by exists SR].
Qed.

Lemma build_epe_matrices_inversions (r : nat) (wgt : list D)
    (alg5m pack : list (list (list D))) :
  build_epe_matrices np_linalg_inv r wgt alg5m = Ok pack ->
  epe_inversions_ok np_linalg_inv alg5m.
Proof.
  unfold build_epe_matrices. intros Hb.
  apply bind_Ok in Hb as (Ir & HIr & Hb).
  apply bind_Ok in Hb as (AbF & HAbF & Hb).
  apply bind_Ok in Hb as (AbR & HAbR & Hb).
  apply bind_Ok in Hb as (A9 & HA9 & Hb).
  destruct A9 as [[[[[[[[K ArF] ArR] AbarF] AbarR] AwF] AwR] AhF] AhR].
  apply bind_Ok in Hb as (X1 & HX1 & Hb).
  apply bind_Ok in Hb as (I1 & HI1 & Hb).
  apply bind_Ok in Hb as (L & HL & Hb).
  apply bind_Ok in Hb as (A2 & HA2 & Hb).
  apply bind_Ok in Hb as (X2 & HX2 & Hb).
  apply bind_Ok in Hb as (I2 & HI2 & Hb).
  apply bind_Ok in Hb as (A3 & HA3 & Hb).
  apply bind_Ok in Hb as (X3 & HX3 & Hb).
  apply bind_Ok in Hb as (I3 & HI3 & Hb).
  apply bind_Ok in Hb as (I4 & HI4 & Hb).
  exists Ir, K, ArR, AbarF, AwF, AhF, X1, A2, X2, A3, X3.
  apply (py_get_nat_inv alg5m 2) in HIr.
  unfold unpack9 in HA9.
  destruct (py_slice 16 25 alg5m)
    as [|x0 [|x1 [|x2 [|x3 [|x4 [|x5 [|x6 [|x7 [|x8 [|x9 l]]]]]]]]]] eqn:Hs;
    try discriminate HA9.
  injection HA9 as -> -> -> -> -> -> -> -> ->.
  pose proof (f_equal (fun l => l !! 0) Hs) as H0.
  pose proof (f_equal (fun l => l !! 2) Hs) as H2.
  pose proof (f_equal (fun l => l !! 3) Hs) as H3.
  pose proof (f_equal (fun l => l !! 5) Hs) as H5.
  pose proof (f_equal (fun l => l !! 7) Hs) as H7.
  rewrite py_slice_lookup in H0, H2, H3, H5, H7 by lia.
  simpl in H0, H2, H3, H5, H7.
  repeat (split; [done|]).
  split; [by exists I1|]. split; [by exists I2|].
  split; [by exists I3 | by exists I4].
Qed.

(** C8, as the code has it.  An extension-matrix builder returns only if
    each of its [np.linalg.inv] calls returned, so a call that raises
    [LinAlgError] on a singular matrix makes the builder fail during setup;
    and no stage of the CPE and EPE pipelines raises [LinAlgError]. *)
Theorem inversion_failures_in_setup :
  (forall r wgt alg5m pack,
     build_cpe_matrices np_linalg_inv lu_solve_factor r wgt alg5m = Ok pack ->
     cpe_inversions_ok np_linalg_inv alg5m) /\
  (forall r wgt alg5m pack,
     build_epe_matrices np_linalg_inv r wgt alg5m = Ok pack ->
     epe_inversions_ok np_linalg_inv alg5m) /\
  (forall m_size n_size r wgt matrices ext st,
     no_linalg (alg5_stage1 m_size n_size r wgt matrices st) /\
     no_linalg (alg5_cpe_stage1 m_size n_size r wgt matrices st) /\
     no_linalg (alg5_cpe_stage23 m_size n_size matrices ext st) /\
     no_linalg (alg5_cpe_stage45 m_size n_size r matrices ext st) /\
     no_linalg (alg5_epe_stage23 m_size n_size matrices ext st) /\
     no_linalg (alg5_epe_stage45 m_size n_size r matrices ext st) /\
     no_linalg (alg5_stage6 m_size n_size wgt st)).
Proof.
  split; [apply build_cpe_matrices_inversions|].
  split; [apply build_epe_matrices_inversions|].
  intros m_size n_size r wgt matrices ext st.
  split; [apply alg5_stage1_nla|].
  split; [apply alg5_cpe_stage1_nla|].
  split; [apply alg5_cpe_stage23_nla|].
  split; [apply alg5_cpe_stage45_nla|].
  split; [apply alg5_epe_stage23_nla|].
  split; [apply alg5_epe_stage45_nla | apply alg5_stage6_nla].
Qed.

Lemma build_pe_matrices_inversions (r : nat) (wgt : list D)
    (alg5m pack : list (list (list D))) :
  build_pe_matrices np_linalg_inv r wgt alg5m = Ok pack ->
  pe_inversions_ok np_linalg_inv alg5m /\ length pack = 4.
Proof.
  unfold build_pe_matrices. intros Hb.
  apply bind_Ok in Hb as (Ir & HIr & Hb).
  apply bind_Ok in Hb as (A4 & HA4 & Hb).
  destruct A4 as [[[AwF AwR] AhF] AhR].
  apply bind_Ok in Hb as (X1 & HX1 & Hb).
  apply bind_Ok in Hb as (I1 & HI1 & Hb).
  apply bind_Ok in Hb as (X2 & HX2 & Hb).
  apply bind_Ok in Hb as (I2 & HI2 & Hb).
  apply bind_Ok in Hb as (X3 & HX3 & Hb).
  apply bind_Ok in Hb as (I3 & HI3 & Hb).
  apply bind_Ok in Hb as (X4 & HX4 & Hb).
  apply bind_Ok in Hb as (I4 & HI4 & Hb).
  injection Hb as <-. split; [|reflexivity].
  exists Ir, AwF, AwR, AhF, AhR, X1, X2, X3, X4.
  apply (py_get_nat_inv alg5m 2) in HIr.
  unfold unpack4 in HA4.
  destruct (py_slice 21 25 alg5m) as [|x0 [|x1 [|x2 [|x3 [|x4 l]]]]] eqn:Hs;
    try discriminate HA4.
  injection HA4 as -> -> -> ->.
  pose proof (f_equal (fun l => l !! 0) Hs) as H0.
  pose proof (f_equal (fun l => l !! 1) Hs) as H1.
  pose proof (f_equal (fun l => l !! 2) Hs) as H2.
  pose proof (f_equal (fun l => l !! 3) Hs) as H3.
  rewrite py_slice_lookup in H0, H1, H2, H3 by lia.
  simpl in H0, H1, H2, H3.
  repeat (split; [done|]).
  split; [by exists I1|]. split; [by exists I2|].
  split; [by exists I3 | by exists I4].
Qed.

(** X26.  The periodic extension: [build_pe_matrices] returns only if each
    of its four [np.linalg.inv] calls returned, and then it returns four
    matrices; a singular [I - AwF], [I - AwR], [I - AhF] or [I - AhR] makes
    the builder fail during setup, and neither PE stage raises
    [LinAlgError]. *)
Theorem pe_inversions_in_setup :
  (forall r wgt alg5m pack,
     build_pe_matrices np_linalg_inv r wgt alg5m = Ok pack ->
     pe_inversions_ok np_linalg_inv alg5m /\ length pack = 4) /\
  (forall m_size n_size r matrices ext st,
     no_linalg (alg5_pe_stage23 m_size n_size matrices ext st) /\
     no_linalg (alg5_pe_stage45 m_size n_size r matrices ext st)).
Proof.
  split; [apply build_pe_matrices_inversions|].
  intros m_size n_size r matrices ext st.
  split; [apply alg5_pe_stage23_nla | apply alg5_pe_stage45_nla].
Qed.

End With_linalg.

End No_linalg.

Lemma inversion_failures_in_setup_witness :
  exists alg5m pack,
    build_alg5_matrices 3 2 ex_cpe_weights 3 3 = Ok alg5m /\
    build_cpe_matrices inv_Z lu_solve_Z 2 ex_cpe_weights alg5m = Ok pack /\
    cpe_inversions_ok inv_Z alg5m.
Proof.
  eexists. eexists.
  split; [vm_compute; reflexivity|].
  match goal with
  | |- ?b = Ok ?p /\ _ =>
      assert (Hb : b = Ok p) by (vm_compute; reflexivity)
  end.
  split; [exact Hb|].
  exact (proj1 (inversion_failures_in_setup (D := Z) inv_Z lu_solve_Z)
               _ _ _ _ Hb).
Defined.

(** C8 as stated fails for the linear system of the CPE builder.  With
    [w = (1, 1, -1)], [b = 3], [r = 2] the 4 by 4 matrix [sysA] is singular
    (its first and last rows coincide: the combination [(1, 0, 0, -1)] of its
    rows is zero), the system is handed to the LU solver, which raises
    nothing, the two matrices passed to [np.linalg.inv] are invertible, and
    the builder returns. *)
Lemma build_cpe_matrices_singular_system :
  exists alg5m ArF ArR AbarF AbarR sysA sysb pack,
    build_alg5_matrices 3 2 ex_cpe_weights 3 3 = Ok alg5m /\
    py_slice 17 21 alg5m = [ArF; ArR; AbarF; AbarR] /\
    cpe_system 2 ArF ArR AbarR = Ok (sysA, sysb) /\
    lincomb [1; 0; 0; -1]%Z sysA 4 = [0; 0; 0; 0]%Z /\
    build_cpe_matrices inv_Z lu_solve_Z 2 ex_cpe_weights alg5m = Ok pack.
Proof.
  do 8 eexists.
  split; [vm_compute; reflexivity|].
  split; [vm_compute; reflexivity|].
  split; [vm_compute; reflexivity|].
  split; vm_compute; reflexivity.
Qed.

(** ** When the row sweeps raise *)

Section Sweep_errors.
Context {D : Type} {SD : Scalar D}.
Implicit Types (prol epil weig bloc x y : list D).

Lemma foldM_app {S X : Type} (f : S -> X -> result S) (xs ys : list X) (s : S) :
  foldM f (xs ++ ys) s = foldM f xs s ≫= foldM f ys.
Proof.
  revert s. induction xs as [|x xs IH]; intros s; simpl; [reflexivity|].
  destruct (f s x) as [s'|e]; simpl; [apply IH | reflexivity].
Qed.

Lemma py_get_below {A : Type} (l : list A) (k : nat) :
  length l < k -> py_get l (- Z.of_nat k) = Err IndexError.
Proof.
  intros Hk. unfold py_get, py_index.
  destruct (Z.leb_spec 0 (- Z.of_nat k)); [lia|].
  destruct (Z.leb_spec (- Z.of_nat (length l)) (- Z.of_nat k)); [lia|].
  reflexivity.
Qed.

Lemma py_get_above {A : Type} (l : list A) (k : nat) :
  length l <= k -> py_get l (Z.of_nat k) = Err IndexError.
Proof.
  intros Hk. unfold py_get, py_index.
  destruct (Z.leb_spec 0 (Z.of_nat k)); [|lia].
  destruct (Z.ltb_spec (Z.of_nat k) (Z.of_nat (length l))); [lia|].
  reflexivity.
Qed.

(** At [j = 0] the tap [k = len(prol) + 1] reads [prol[-k]], which does not
    exist. *)
Lemma fwd_step_short prol weig bloc :
  0 < length bloc -> 0 < length weig -> length prol + 1 < length weig ->
  fwd_step prol weig bloc 0 = Err IndexError.
Proof.
  intros Hb Hw Hp. unfold fwd_step.
  destruct (lookup_lt_is_Some_2 bloc 0 Hb) as [b0 Hb0].
  destruct (lookup_lt_is_Some_2 weig 0 Hw) as [w0 Hw0].
  rewrite (py_get_nat bloc 0 _ Hb0).
  cbn [mbind result_bind].
  rewrite (py_get_nat weig 0 _ Hw0 : py_get weig 0%Z = Ok w0).
  cbn [mbind result_bind].
  replace (length weig - 1)
    with (length prol + S (length weig - 1 - length prol - 1)) by lia.
  rewrite seq_app, foldM_app.
  rewrite fwd_taps_ok.
  - cbn [mbind result_bind seq foldM]. unfold fwd_tap.
    rewrite (py_get_nat _ 0 (fold_left _ _ _))
      by (apply list_lookup_insert_eq; lia).
    cbn [mbind result_bind].
    replace (Z.of_nat 0 - Z.of_nat (1 + length prol))%Z
      with (- Z.of_nat (1 + length prol))%Z by lia.
    destruct (Z.ltb_spec (- Z.of_nat (1 + length prol)) 0) as [_|]; [|lia].
    rewrite py_get_below by lia. reflexivity.
  - exact Hb.
  - apply Forall_forall. intros k Hk. apply elem_of_seq in Hk. lia.
Qed.

Lemma fwd_step_no_weights prol bloc :
  0 < length bloc -> fwd_step prol [] bloc 0 = Err IndexError.
Proof.
  intros Hb. unfold fwd_step.
  destruct (lookup_lt_is_Some_2 bloc 0 Hb) as [b0 Hb0].
  rewrite (py_get_nat bloc 0 _ Hb0).
  reflexivity.
Qed.

Lemma fwd_Ok_or_IndexError prol x weig :
  (x = [] \/ 0 < length weig <= length prol + 1 -> is_ok (fwd prol x weig)) /\
  (~ (x = [] \/ 0 < length weig <= length prol + 1) ->
   fwd prol x weig = Err IndexError).
Proof.
  destruct x as [|x0 x].
  { split; [intros _; by exists [] | intros Hn; destruct Hn; by left]. }
  split.
  - intros [Hx|Hok]; [discriminate Hx|].
    destruct (fwd_ok prol weig (x0 :: x)) as (y & Hy & _); [lia | lia |].
    by exists y.
  - intros Hbad. unfold fwd, range. cbn [length seq foldM].
    destruct weig as [|w0 weig].
    + by rewrite fwd_step_no_weights by (simpl; lia).
    + rewrite fwd_step_short; [reflexivity | simpl; lia | simpl; lia|].
      simpl in *. lia.
Qed.

(** X1.  [fwd] returns exactly when the row is empty or the weights are not
    empty and the prologue holds at least [r = len(weig) - 1] values; in
    every other case it raises [IndexError] (from [weig[0]] or from
    [prol[j-k]] at the first entry). *)
Theorem fwd_raises_IndexError prol x weig :
  (is_ok (fwd prol x weig)
   <-> x = [] \/ 0 < length weig <= length prol + 1) /\
  (is_ok (fwd prol x weig) \/ fwd prol x weig = Err IndexError).
Proof.
  destruct (fwd_Ok_or_IndexError prol x weig) as [Hok Herr].
  destruct (decide (x = [] \/ 0 < length weig <= length prol + 1)) as [Hc|Hc].
  - split; [|left; by apply Hok]. split; [done | intros _; by apply Hok].
  - split; [|right; by apply Herr]. rewrite (Herr Hc). split; [|done].
    intros [y Hy]. discriminate Hy.
Qed.

End Sweep_errors.

(** ** The reverse row sweep *)

Section Rev.
Context {D : Type} {SD : Scalar D}.
Implicit Types (epil weig bloc x y : list D).

Lemma rev_tap_ok epil weig bloc (j k : nat) :
  j < length bloc -> 0 < k < length weig ->
  (length bloc <= j + k -> j + k - length bloc < length epil) ->
  rev_tap epil weig j bloc k
  = Ok (<[j := rsub (nth j bloc rO)
                    (rmul (rev_operand epil bloc j k) (nth k weig rO))]> bloc).
Proof.
  intros Hj Hk He. unfold rev_tap, rev_operand.
  destruct (lookup_lt_is_Some_2 bloc j Hj) as [bj Hbj].
  destruct (lookup_lt_is_Some_2 weig k) as [wk Hwk]; [lia|].
  rewrite (py_get_nat _ _ _ Hbj). cbn [mbind result_bind].
  rewrite (nth_lookup_Some _ _ _ _ Hbj), (nth_lookup_Some _ _ _ _ Hwk).
  destruct (decide (length bloc <= j + k)) as [Hout|Hin].
  - destruct (lookup_lt_is_Some_2 epil (j + k - length bloc)) as [v Hv]; [lia|].
    replace (Z.of_nat j + Z.of_nat k - Z.of_nat (length bloc))%Z
      with (Z.of_nat (j + k - length bloc)) by lia.
    rewrite (py_get_nat _ _ _ Hv). cbn [mbind result_bind].
    rewrite (py_get_nat _ _ _ Hwk). cbn [mbind result_bind].
    by rewrite (nth_lookup_Some _ _ _ _ Hv).
  - destruct (lookup_lt_is_Some_2 bloc (j + k)) as [v Hv]; [lia|].
    replace (Z.of_nat j + Z.of_nat k)%Z with (Z.of_nat (j + k)) by lia.
    rewrite (py_get_nat _ _ _ Hv). cbn [mbind result_bind].
    rewrite (py_get_nat _ _ _ Hwk). cbn [mbind result_bind].
    by rewrite (nth_lookup_Some _ _ _ _ Hv).
Qed.

Lemma rev_operand_insert epil bloc (j k : nat) (v : D) :
  0 < k -> rev_operand epil (<[j := v]> bloc) j k = rev_operand epil bloc j k.
Proof.
  intros Hk. unfold rev_operand. rewrite length_insert.
  destruct (decide (length bloc <= j + k)); [reflexivity|].
  rewrite !nth_lookup. by rewrite list_lookup_insert_ne by lia.
Qed.

Lemma rev_taps_ok epil weig bloc (j : nat) (ks : list nat) (v : D) :
  j < length bloc ->
  Forall (fun k => 0 < k < length weig /\
                   (length bloc <= j + k -> j + k - length bloc < length epil))
         ks ->
  foldM (rev_tap epil weig j) ks (<[j := v]> bloc)
  = Ok (<[j := fold_left (fun acc k =>
            rsub acc (rmul (rev_operand epil bloc j k) (nth k weig rO))) ks v]> bloc).
Proof.
  intros Hj Hks. revert v.
  induction Hks as [|k ks [Hk He] _ IH]; intros v; cbn [foldM fold_left];
    [reflexivity|].
  rewrite rev_tap_ok by (rewrite ?length_insert; done).
  cbn [mbind result_bind]. rewrite list_insert_insert_eq.
  rewrite (nth_lookup_Some _ j rO v) by (by apply list_lookup_insert_eq).
  rewrite rev_operand_insert by lia. apply IH.
Qed.

Lemma rev_entry_agree epil weig x y y' (j : nat) :
  length y = length y' ->
  (forall i, j < i -> y !! i = y' !! i) ->
  rev_entry epil weig x y j = rev_entry epil weig x y' j.
Proof.
  intros Hlen Hag. unfold rev_entry.
  generalize (rmul (nth j x rO) (nth 0 weig rO)).
  assert (Hks : Forall (fun k => 0 < k) (seq 1 (length weig - 1))).
  { apply Forall_forall. intros k Hk. apply elem_of_seq in Hk. lia. }
  induction Hks as [|k ks Hk _ IH]; intros v; cbn [fold_left]; [reflexivity|].
  rewrite IH. do 3 f_equal. unfold rev_operand. rewrite Hlen.
  destruct (decide (length y' <= j + k)); [reflexivity|].
  rewrite !nth_lookup. rewrite Hag by lia. reflexivity.
Qed.

Lemma rev_step_ok epil weig bloc (j0 : nat) :
  j0 < length bloc -> 0 < length weig -> length weig - 1 <= length epil ->
  rev_step epil weig bloc j0
  = Ok (<[length bloc - 1 - j0 :=
            rev_entry epil weig bloc bloc (length bloc - 1 - j0)]> bloc).
Proof.
  intros Hj Hw He. unfold rev_step, rev_entry.
  set (j := length bloc - 1 - j0).
  assert (Hjlt : j < length bloc) by (unfold j; lia).
  destruct (lookup_lt_is_Some_2 bloc j Hjlt) as [bj Hbj].
  destruct (lookup_lt_is_Some_2 weig 0 Hw) as [w0 Hw0].
  rewrite (py_get_nat _ _ _ Hbj). cbn [mbind result_bind].
  rewrite (py_get_nat weig 0 _ Hw0 : py_get weig 0%Z = Ok w0).
  cbn [mbind result_bind].
  rewrite (nth_lookup_Some _ _ _ _ Hbj), (nth_lookup_Some _ _ _ _ Hw0).
  apply rev_taps_ok; [exact Hjlt|].
  apply Forall_forall. intros k Hk. apply elem_of_seq in Hk. lia.
Qed.

(** X2.  For weights [w = (b0, a1, ..., ar)] and an epilogue of at least
    [r] values, [rev(x, epil, w)] returns a row [y] of the length of [x] in
    which entry [j] is [x[j] * w[0]] minus, for [k = 1..r], [w[k]] times
    [epil[j+k-len(x)]] when [j+k >= len(x)] and times the updated entry
    [y[j+k]] otherwise. *)
Theorem rev_backward_sweep x epil weig :
  0 < length weig -> length weig - 1 <= length epil ->
  exists y, rev x epil weig = Ok y /\ length y = length x /\
    forall j, j < length x -> y !! j = Some (rev_entry epil weig x y j).
Proof.
  intros Hw He. unfold rev.
  destruct (foldM_range_inv
    (fun i bloc => length bloc = length x /\
       (forall j, length x - i <= j < length x ->
          bloc !! j = Some (rev_entry epil weig x bloc j)) /\
       (forall j, j < length x - i -> bloc !! j = x !! j))
    (rev_step epil weig) (length x) x) as (y & Hrun & Hlen & Hdone & _).
  - split; [reflexivity|]. split; [lia|]. reflexivity.
  - intros i bloc Hi (Hlen & Hdone & Hrest).
    set (j := length bloc - 1 - i).
    exists (<[j := rev_entry epil weig bloc bloc j]> bloc).
    split; [apply rev_step_ok; lia|].
    split; [by rewrite length_insert|].
    assert (Hnew : rev_entry epil weig bloc bloc j
                   = rev_entry epil weig x
                       (<[j := rev_entry epil weig bloc bloc j]> bloc) j).
    { transitivity (rev_entry epil weig x bloc j).
      - unfold rev_entry. do 2 f_equal. rewrite !nth_lookup.
        by rewrite Hrest by (unfold j; lia).
      - apply rev_entry_agree; [by rewrite length_insert|]. intros i' Hi'.
        by rewrite list_lookup_insert_ne by lia. }
    split.
    + intros j' Hj'. destruct (decide (j' = j)) as [->|Hne].
      * rewrite list_lookup_insert_eq by (unfold j; lia). f_equal. exact Hnew.
      * rewrite list_lookup_insert_ne by done.
        rewrite Hdone by (unfold j in Hne; lia).
        f_equal. apply rev_entry_agree; [by rewrite length_insert|].
        intros i' Hi'.
        rewrite list_lookup_insert_ne; [reflexivity|]. unfold j in *. lia.
    + intros j' Hj'. rewrite list_lookup_insert_ne by (unfold j; lia).
      apply Hrest. lia.
  - exists y. split; [exact Hrun|]. split; [exact Hlen|].
    intros j Hj. apply Hdone. lia.
Qed.

(** At [j = len(bloc) - 1] the tap [k = len(epil) + 1] reads
    [epil[len(epil)]], which does not exist. *)
Lemma rev_step_short epil weig bloc :
  0 < length bloc -> 0 < length weig -> length epil + 1 < length weig ->
  rev_step epil weig bloc 0 = Err IndexError.
Proof.
  intros Hb Hw Hp. unfold rev_step.
  set (j := length bloc - 1 - 0).
  assert (Hjlt : j < length bloc) by (unfold j; lia).
  destruct (lookup_lt_is_Some_2 bloc j Hjlt) as [bj Hbj].
  destruct (lookup_lt_is_Some_2 weig 0 Hw) as [w0 Hw0].
  rewrite (py_get_nat _ _ _ Hbj). cbn [mbind result_bind].
  rewrite (py_get_nat weig 0 _ Hw0 : py_get weig 0%Z = Ok w0).
  cbn [mbind result_bind].
  replace (length weig - 1)
    with (length epil + S (length weig - 1 - length epil - 1)) by lia.
  rewrite seq_app, foldM_app.
  rewrite (rev_taps_ok epil weig bloc j (seq 1 (length epil))).
  - cbn [mbind result_bind seq foldM]. unfold rev_tap.
    rewrite (py_get_nat _ j (fold_left _ _ _))
      by (apply list_lookup_insert_eq; lia).
    cbn [mbind result_bind]. rewrite length_insert.
    rewrite decide_True by (unfold j; lia).
    replace (Z.of_nat j + Z.of_nat (1 + length epil) - Z.of_nat (length bloc))%Z
      with (Z.of_nat (length epil)) by (unfold j; lia).
    rewrite (py_get_above epil (length epil)) by lia. reflexivity.
  - exact Hjlt.
  - apply Forall_forall. intros k Hk. apply elem_of_seq in Hk.
    unfold j. lia.
Qed.

Lemma rev_step_no_weights epil bloc :
  0 < length bloc -> rev_step epil [] bloc 0 = Err IndexError.
Proof.
  intros Hb. unfold rev_step.
  destruct (lookup_lt_is_Some_2 bloc (length bloc - 1 - 0)) as [b0 Hb0]; [lia|].
  rewrite (py_get_nat _ _ _ Hb0).
  reflexivity.
Qed.

Lemma rev_Ok_or_IndexError x epil weig :
  (x = [] \/ 0 < length weig <= length epil + 1 -> is_ok (rev x epil weig)) /\
  (~ (x = [] \/ 0 < length weig <= length epil + 1) ->
   rev x epil weig = Err IndexError).
Proof.
  destruct x as [|x0 x].
  { split; [intros _; by exists [] | intros Hn; destruct Hn; by left]. }
  split.
  - intros [Hx|Hok]; [discriminate Hx|].
    destruct (rev_total (x0 :: x) epil weig) as (y & Hy & _); [lia | lia |].
    by exists y.
  - intros Hbad. unfold rev, range. cbn [length seq foldM].
    destruct weig as [|w0 weig].
    + by rewrite rev_step_no_weights by (simpl; lia).
    + rewrite rev_step_short; [reflexivity | simpl; lia | simpl; lia|].
      simpl in *. lia.
Qed.

(** X3.  [rev] returns exactly when the row is empty or the weights are not
    empty and the epilogue holds at least [r = len(weig) - 1] values; in
    every other case it raises [IndexError] (from [weig[0]] or from the
    epilogue at the last entry). *)
Theorem rev_raises_IndexError x epil weig :
  (is_ok (rev x epil weig)
   <-> x = [] \/ 0 < length weig <= length epil + 1) /\
  (is_ok (rev x epil weig) \/ rev x epil weig = Err IndexError).
Proof.
  destruct (rev_Ok_or_IndexError x epil weig) as [Hok Herr].
  destruct (decide (x = [] \/ 0 < length weig <= length epil + 1)) as [Hc|Hc].
  - split; [|left; by apply Hok]. split; [done | intros _; by apply Hok].
  - split; [|right; by apply Herr]. rewrite (Herr Hc). split; [|done].
    intros [y Hy]. discriminate Hy.
Qed.

End Rev.

(** ** The sweeps of a block, row by row and column by column *)

Section Block_sweeps.
Context {D : Type} {SD : Scalar D}.
Implicit Types (Prol Epil Bloc : list (list D)) (weig : list D).

Lemma mapM_app {A B : Type} (f : A -> result B) (l1 l2 : list A) :
  mapM f (l1 ++ l2)
  = (ys1 ← mapM f l1; ys2 ← mapM f l2; Ok (ys1 ++ ys2)).
Proof.
  induction l1 as [|x l1 IH]; cbn [mapM app mbind result_bind].
  - by destruct (mapM f l2).
  - destruct (f x) as [y|e]; cbn [mbind result_bind]; [|reflexivity].
    rewrite IH. destruct (mapM f l1) as [ys1|e]; cbn [mbind result_bind];
      [|reflexivity].
    by destruct (mapM f l2).
Qed.

Lemma mapM_length {A B : Type} (f : A -> result B) (l : list A) (ys : list B) :
  mapM f l = Ok ys -> length ys = length l.
Proof.
  revert ys. induction l as [|x l IH]; intros ys Hm; cbn [mapM] in Hm.
  - by injection Hm as <-.
  - inv_bind Hm. inv_bind Hm. injection Hm as <-. simpl. f_equal. by apply IH.
Qed.

(** A loop over raising calls raises what one of the calls raises. *)
Lemma mapM_Err {A B : Type} (f : A -> result B) (l : list A) (e : error) :
  mapM f l = Err e -> exists x, x ∈ l /\ f x = Err e.
Proof.
  induction l as [|x l IH]; cbn [mapM]; [discriminate|].
  destruct (f x) as [y|e'] eqn:Hfx; cbn [mbind result_bind].
  - destruct (mapM f l) as [ys|e'] eqn:Hm; cbn [mbind result_bind];
      [discriminate|].
    intros [= ->]. destruct (IH eq_refl) as (x' & Hin & Hx').
    exists x'. split; [by apply list_elem_of_further | exact Hx'].
  - intros [= ->]. exists x. split; [apply list_elem_of_here | exact Hfx].
Qed.

Lemma fwd_Err_IndexError (prol x weig : list D) (e : error) :
  fwd prol x weig = Err e -> e = IndexError.
Proof.
  intros He. destruct (fwd_Ok_or_IndexError prol x weig) as [Hok Herr].
  destruct (decide (x = [] \/ 0 < length weig <= length prol + 1)) as [Hc|Hc].
  - destruct (Hok Hc) as [y Hy]. congruence.
  - rewrite (Herr Hc) in He. congruence.
Qed.

Lemma rev_Err_IndexError (x epil weig : list D) (e : error) :
  rev x epil weig = Err e -> e = IndexError.
Proof.
  intros He. destruct (rev_Ok_or_IndexError x epil weig) as [Hok Herr].
  destruct (decide (x = [] \/ 0 < length weig <= length epil + 1)) as [Hc|Hc].
  - destruct (Hok Hc) as [y Hy]. congruence.
  - rewrite (Herr Hc) in He. congruence.
Qed.

Lemma FT_row_at Prol weig (FTB : list (list D)) (row : nat) (p x : list D) :
  Prol !! row = Some p -> FTB !! row = Some x ->
  FT_row Prol weig FTB row = (y ← fwd p x weig; Ok (<[row := y]> FTB)).
Proof.
  intros Hp Hx. unfold FT_row.
  rewrite (py_get_nat _ _ _ Hp). cbn [mbind result_bind].
  by rewrite (py_get_nat _ _ _ Hx).
Qed.

Lemma RT_row_at Epil weig (RTB : list (list D)) (row : nat) (p x : list D) :
  Epil !! row = Some p -> RTB !! row = Some x ->
  RT_row Epil weig RTB row = (y ← rev x p weig; Ok (<[row := y]> RTB)).
Proof.
  intros Hp Hx. unfold RT_row.
  rewrite (py_get_nat _ _ _ Hx). cbn [mbind result_bind].
  by rewrite (py_get_nat _ _ _ Hp).
Qed.

Lemma FT_row_short Prol weig (FTB : list (list D)) (row : nat) :
  length Prol <= row -> FT_row Prol weig FTB row = Err IndexError.
Proof.
  intros Hr. unfold FT_row. rewrite (py_get_above Prol row Hr). reflexivity.
Qed.

Lemma RT_row_short Epil weig (RTB : list (list D)) (row : nat) (x : list D) :
  RTB !! row = Some x -> length Epil <= row ->
  RT_row Epil weig RTB row = Err IndexError.
Proof.
  intros Hx Hr. unfold RT_row. rewrite (py_get_nat _ _ _ Hx).
  cbn [mbind result_bind]. rewrite (py_get_above Epil row Hr). reflexivity.
Qed.

(** The loop of [FT] over the rows [rest1], after the rows [done]. *)
Lemma FT_rows_from weig (done rest1 rest2 Pd Pr : list (list D)) :
  length Pd = length done -> length rest1 <= length Pr ->
  foldM (FT_row (Pd ++ Pr) weig) (seq (length done) (length rest1))
        (done ++ rest1 ++ rest2)
  = (ys ← mapM (fun pb => fwd pb.1 pb.2 weig) (zip Pr rest1);
     Ok (done ++ ys ++ rest2)).
Proof.
  revert done Pd Pr.
  induction rest1 as [|x rest1 IH]; intros done Pd Pr Hd Hr.
  - destruct Pr; reflexivity.
  - destruct Pr as [|p Pr]; [simpl in Hr; lia|].
    cbn [length seq foldM zip zip_with mapM].
    rewrite (FT_row_at _ _ _ _ p x).
    2:{ rewrite lookup_app_r by lia. by rewrite Hd, Nat.sub_diag. }
    2:{ rewrite lookup_app_r by lia. by rewrite Nat.sub_diag. }
    cbn [mbind result_bind fst snd].
    destruct (fwd p x weig) as [y|e]; cbn [mbind result_bind]; [|reflexivity].
    replace (<[length done := y]> (done ++ (x :: rest1) ++ rest2))
      with ((done ++ [y]) ++ rest1 ++ rest2).
    2:{ rewrite insert_app_r_alt by lia. rewrite Nat.sub_diag.
        by rewrite <- app_assoc. }
    replace (Pd ++ p :: Pr) with ((Pd ++ [p]) ++ Pr)
      by (by rewrite <- app_assoc).
    replace (S (length done)) with (length (done ++ [y]))
      by (rewrite length_app; simpl; lia).
    rewrite IH by (rewrite ?length_app; simpl in *; lia).
    destruct (mapM _ (zip Pr rest1)) as [ys|e]; cbn [mbind result_bind];
      [|reflexivity].
    by rewrite <- app_assoc.
Qed.

Lemma FT_mapM Prol Bloc weig :
  length Bloc <= length Prol ->
  FT Prol Bloc weig = mapM (fun pb => fwd pb.1 pb.2 weig) (zip Prol Bloc).
Proof.
  intros Hlen. unfold FT, range.
  pose proof (FT_rows_from weig [] Bloc [] [] Prol eq_refl Hlen) as Hrun.
  cbn [length app] in Hrun. rewrite app_nil_r in Hrun. rewrite Hrun.
  destruct (mapM _ _) as [ys|e]; cbn [mbind result_bind]; [|reflexivity].
  by rewrite app_nil_r.
Qed.

Lemma FT_short Prol Bloc weig :
  length Prol < length Bloc -> FT Prol Bloc weig = Err IndexError.
Proof.
  intros Hlen. unfold FT, range.
  rewrite <- (take_drop (length Prol) Bloc) at 1 2.
  rewrite length_app, seq_app, foldM_app.
  assert (Ht : length (take (length Prol) Bloc) = length Prol)
    by (rewrite length_take; lia).
  pose proof (FT_rows_from weig [] (take (length Prol) Bloc)
                (drop (length Prol) Bloc) [] Prol eq_refl ltac:(lia)) as Hrun.
  cbn [length app] in Hrun. rewrite Hrun. clear Hrun.
  destruct (mapM _ _) as [ys|e] eqn:Hm; cbn [mbind result_bind].
  - destruct (drop (length Prol) Bloc) as [|x rest] eqn:Hdrop.
    { apply (f_equal length) in Hdrop. rewrite length_drop in Hdrop.
      simpl in Hdrop. lia. }
    cbn [length seq foldM]. rewrite Ht. cbn [Nat.add].
    by rewrite FT_row_short.
  - apply mapM_Err in Hm as ([p x] & _ & Hf). cbn [fst snd] in Hf.
    by rewrite (fwd_Err_IndexError _ _ _ _ Hf).
Qed.

(** X4.  [FT] sweeps every row of the block with the row of the same index
    of the prologue matrix: when the prologue matrix has at least as many rows
    as the block, [FT] is [fwd] mapped over the pairs of rows (and raises
    what the first failing [fwd] raises); when it has fewer rows, [FT]
    raises [IndexError]. *)
Theorem FT_rows Prol Bloc weig :
  (length Bloc <= length Prol ->
   FT Prol Bloc weig = mapM (fun pb => fwd pb.1 pb.2 weig) (zip Prol Bloc)) /\
  (length Prol < length Bloc -> FT Prol Bloc weig = Err IndexError).
Proof. split; [apply FT_mapM | apply FT_short]. Qed.

(** The loop of [RT] over the rows [rest1], after the rows [done]. *)
Lemma RT_rows_from weig (done rest1 rest2 Ed Er : list (list D)) :
  length Ed = length done -> length rest1 <= length Er ->
  foldM (RT_row (Ed ++ Er) weig) (seq (length done) (length rest1))
        (done ++ rest1 ++ rest2)
  = (ys ← mapM (fun be => rev be.1 be.2 weig) (zip rest1 Er);
     Ok (done ++ ys ++ rest2)).
Proof.
  revert done Ed Er.
  induction rest1 as [|x rest1 IH]; intros done Ed Er Hd Hr.
  - reflexivity.
  - destruct Er as [|p Er]; [simpl in Hr; lia|].
    cbn [length seq foldM zip zip_with mapM].
    rewrite (RT_row_at _ _ _ _ p x).
    2:{ rewrite lookup_app_r by lia. by rewrite Hd, Nat.sub_diag. }
    2:{ rewrite lookup_app_r by lia. by rewrite Nat.sub_diag. }
    cbn [mbind result_bind fst snd].
    destruct (rev x p weig) as [y|e]; cbn [mbind result_bind]; [|reflexivity].
    replace (<[length done := y]> (done ++ (x :: rest1) ++ rest2))
      with ((done ++ [y]) ++ rest1 ++ rest2).
    2:{ rewrite insert_app_r_alt by lia. rewrite Nat.sub_diag.
        by rewrite <- app_assoc. }
    replace (Ed ++ p :: Er) with ((Ed ++ [p]) ++ Er)
      by (by rewrite <- app_assoc).
    replace (S (length done)) with (length (done ++ [y]))
      by (rewrite length_app; simpl; lia).
    rewrite IH by (rewrite ?length_app; simpl in *; lia).
    destruct (mapM _ (zip rest1 Er)) as [ys|e]; cbn [mbind result_bind];
      [|reflexivity].
    by rewrite <- app_assoc.
Qed.

Lemma RT_mapM Bloc Epil weig :
  length Bloc <= length Epil ->
  RT Bloc Epil weig = mapM (fun be => rev be.1 be.2 weig) (zip Bloc Epil).
Proof.
  intros Hlen. unfold RT, range.
  pose proof (RT_rows_from weig [] Bloc [] [] Epil eq_refl Hlen) as Hrun.
  cbn [length app] in Hrun. rewrite app_nil_r in Hrun. rewrite Hrun.
  destruct (mapM _ _) as [ys|e]; cbn [mbind result_bind]; [|reflexivity].
  by rewrite app_nil_r.
Qed.

Lemma RT_short Bloc Epil weig :
  length Epil < length Bloc -> RT Bloc Epil weig = Err IndexError.
Proof.
  intros Hlen. unfold RT, range.
  rewrite <- (take_drop (length Epil) Bloc) at 1 2.
  rewrite length_app, seq_app, foldM_app.
  assert (Ht : length (take (length Epil) Bloc) = length Epil)
    by (rewrite length_take; lia).
  pose proof (RT_rows_from weig [] (take (length Epil) Bloc)
                (drop (length Epil) Bloc) [] Epil eq_refl ltac:(lia)) as Hrun.
  cbn [length app] in Hrun. rewrite Hrun. clear Hrun.
  destruct (mapM _ _) as [ys|e] eqn:Hm; cbn [mbind result_bind].
  - destruct (drop (length Epil) Bloc) as [|x rest] eqn:Hdrop.
    { apply (f_equal length) in Hdrop. rewrite length_drop in Hdrop.
      simpl in Hdrop. lia. }
    cbn [length seq foldM].
    apply mapM_length in Hm. rewrite length_zip_with in Hm.
    rewrite Ht. cbn [Nat.add].
    rewrite (RT_row_short _ _ _ _ x); [reflexivity | | lia].
    rewrite lookup_app_r by lia.
    replace (length Epil - length ys) with 0 by lia. reflexivity.
  - apply mapM_Err in Hm as ([x p] & _ & Hf). cbn [fst snd] in Hf.
    by rewrite (rev_Err_IndexError _ _ _ _ Hf).
Qed.

(** X5.  [RT] sweeps every row of the block backwards with the row of the
    same index of the epilogue matrix: with at least as many epilogue rows as
    block rows, [RT] is [rev] mapped over the pairs of rows; with fewer, it
    raises [IndexError]. *)
Theorem RT_rows Bloc Epil weig :
  (length Bloc <= length Epil ->
   RT Bloc Epil weig = mapM (fun be => rev be.1 be.2 weig) (zip Bloc Epil)) /\
  (length Epil < length Bloc -> RT Bloc Epil weig = Err IndexError).
Proof. split; [apply RT_mapM | apply RT_short]. Qed.

Lemma mapM_map {A B C : Type} (f : B -> result C) (g : A -> B) (l : list A) :
  mapM f (map g l) = mapM (fun x => f (g x)) l.
Proof.
  induction l as [|x l IH]; cbn [map mapM]; [reflexivity|]. by rewrite IH.
Qed.

Lemma zip_map_seq {A B : Type} (f : nat -> A) (g : nat -> B) (s m n : nat) :
  n <= m ->
  zip (map f (seq s m)) (map g (seq s n)) = map (fun j => (f j, g j)) (seq s n).
Proof.
  revert s m. induction n as [|n IH]; intros s m Hn.
  - by destruct (map f (seq s m)).
  - destruct m as [|m]; [lia|]. cbn [seq map zip zip_with]. f_equal.
    apply IH. lia.
Qed.

Lemma zip_map_seq_l {A B : Type} (f : nat -> A) (g : nat -> B) (s m n : nat) :
  n <= m ->
  zip (map f (seq s n)) (map g (seq s m)) = map (fun j => (f j, g j)) (seq s n).
Proof.
  revert s m. induction n as [|n IH]; intros s m Hn.
  - reflexivity.
  - destruct m as [|m]; [lia|]. cbn [seq map zip zip_with]. f_equal.
    apply IH. lia.
Qed.

Lemma transpose_length (A : list (list D)) : length (transpose A) = ncols A.
Proof. unfold transpose. by rewrite length_map, length_seq. Qed.

(** [F] and [R] in the embedding, whatever the shapes: the sweeps of the
    columns that [transpose] produces. *)
Lemma F_mapM_columns Prol Bloc weig :
  (ncols Bloc <= ncols Prol ->
   F Prol Bloc weig
   = (B ← mapM (fun j => fwd (column j Prol) (column j Bloc) weig)
               (seq 0 (ncols Bloc));
      Ok (transpose B))) /\
  (ncols Prol < ncols Bloc -> F Prol Bloc weig = Err IndexError).
Proof.
  split; intros Hc; unfold F.
  - rewrite FT_mapM by (by rewrite !transpose_length).
    change (transpose Prol)
      with (map (fun j => column j Prol) (seq 0 (ncols Prol))).
    change (transpose Bloc)
      with (map (fun j => column j Bloc) (seq 0 (ncols Bloc))).
    rewrite zip_map_seq by exact Hc.
    by rewrite mapM_map.
  - by rewrite FT_short by (by rewrite !transpose_length).
Qed.

Lemma R_mapM_columns Bloc Epil weig :
  (ncols Bloc <= ncols Epil ->
   R Bloc Epil weig
   = (B ← mapM (fun j => rev (column j Bloc) (column j Epil) weig)
               (seq 0 (ncols Bloc));
      Ok (transpose B))) /\
  (ncols Epil < ncols Bloc -> R Bloc Epil weig = Err IndexError).
Proof.
  split; intros Hc; unfold R.
  - rewrite RT_mapM by (by rewrite !transpose_length).
    change (transpose Epil)
      with (map (fun j => column j Epil) (seq 0 (ncols Epil))).
    change (transpose Bloc)
      with (map (fun j => column j Bloc) (seq 0 (ncols Bloc))).
    rewrite (zip_map_seq_l (fun j => column j Bloc) (fun j => column j Epil))
      by exact Hc.
    by rewrite mapM_map.
  - by rewrite RT_short by (by rewrite !transpose_length).
Qed.

(** X6.  On a block of [h] rows and [w] columns and a prologue matrix of
    [r] rows and [wp] columns, with [h], [w] and [r] positive, [F] sweeps
    every column of the block downwards with the column of the same index of
    the prologue matrix: when the prologues have at least as many columns as
    the block, the columns of the result are [fwd] of the pairs of columns;
    when they have fewer, [F] raises [IndexError]. *)
Theorem F_columns (h w r wp : nat) Prol Bloc weig :
  has_shape h w Bloc -> has_shape r wp Prol ->
  0 < h -> 0 < w -> 0 < r ->
  (w <= wp ->
   F Prol Bloc weig
   = (B ← mapM (fun j => fwd (column j Prol) (column j Bloc) weig) (seq 0 w);
      Ok (transpose B))) /\
  (wp < w -> F Prol Bloc weig = Err IndexError).
Proof.
  intros HB HP Hh Hw Hr.
  pose proof (has_shape_ncols h w Bloc HB Hh) as HcB.
  pose proof (has_shape_ncols r wp Prol HP Hr) as HcP.
  destruct (F_mapM_columns Prol Bloc weig) as [Hok Herr].
  rewrite HcB, HcP in Hok, Herr. split; [exact Hok | exact Herr].
Qed.

(** X7.  On a block of [h] rows and [w] columns and an epilogue matrix of
    [r] rows and [wp] columns, with [h], [w] and [r] positive, [R] sweeps
    every column of the block upwards with the column of the same index of
    the epilogue matrix; with fewer epilogue columns than block columns it
    raises [IndexError]. *)
Theorem R_columns (h w r wp : nat) Bloc Epil weig :
  has_shape h w Bloc -> has_shape r wp Epil ->
  0 < h -> 0 < w -> 0 < r ->
  (w <= wp ->
   R Bloc Epil weig
   = (B ← mapM (fun j => rev (column j Bloc) (column j Epil) weig) (seq 0 w);
      Ok (transpose B))) /\
  (wp < w -> R Bloc Epil weig = Err IndexError).
Proof.
  intros HB HP Hh Hw Hr.
  pose proof (has_shape_ncols h w Bloc HB Hh) as HcB.
  pose proof (has_shape_ncols r wp Epil HP Hr) as HcP.
  destruct (R_mapM_columns Bloc Epil weig) as [Hok Herr].
  rewrite HcB, HcP in Hok, Herr. split; [exact Hok | exact Herr].
Qed.

End Block_sweeps.

(** ** Superposition *)

Section Superposition.
Context {D : Type} {SD : Scalar D}.
Variable ropp : D -> D.
Hypothesis Dring : ring_theory rO rI radd rmul rsub ropp eq.
Add Ring Dring_super : Dring.
Implicit Types (prol weig x y u v : list D).

Lemma vadd_nth u v (j : nat) :
  j < length u -> j < length v ->
  nth j (vadd u v) rO = radd (nth j u rO) (nth j v rO).
Proof.
  intros Hu Hv. unfold vadd.
  destruct (lookup_lt_is_Some_2 u j Hu) as [a Ha].
  destruct (lookup_lt_is_Some_2 v j Hv) as [b Hb].
  rewrite (nth_lookup_Some _ _ _ _ Ha), (nth_lookup_Some _ _ _ _ Hb).
  apply nth_lookup_Some. rewrite lookup_zip_with, Ha, Hb. reflexivity.
Qed.

Lemma py_nth_neg u (k : nat) :
  0 < k <= length u -> py_nth u (- Z.of_nat k) = nth (length u - k) u rO.
Proof.
  intros Hk. unfold py_nth.
  destruct (lookup_lt_is_Some_2 u (length u - k)) as [a Ha]; [lia|].
  rewrite (py_get_neg u k a Hk Ha). symmetry. by apply nth_lookup_Some.
Qed.

Lemma fwd_operand_add (p1 p2 y1 y2 : list D) (j k : nat) :
  length p1 = length p2 -> length y1 = length y2 ->
  0 < k -> k <= length p1 -> j < length y1 ->
  fwd_operand (vadd p1 p2) (vadd y1 y2) j k
  = radd (fwd_operand p1 y1 j k) (fwd_operand p2 y2 j k).
Proof.
  intros Hp Hy Hk Hkp Hj. unfold fwd_operand.
  destruct (Z.ltb_spec (Z.of_nat j - Z.of_nat k) 0) as [Hneg|Hpos].
  - replace (Z.of_nat j - Z.of_nat k)%Z with (- Z.of_nat (k - j))%Z by lia.
    assert (Hl : length (vadd p1 p2) = length p1)
      by (unfold vadd; rewrite length_zip_with; lia).
    rewrite !py_nth_neg by lia. rewrite Hl, <- Hp.
    apply vadd_nth; lia.
  - apply vadd_nth; lia.
Qed.

Lemma fwd_entry_add (p1 p2 weig x1 x2 y1 y2 : list D) (j : nat) :
  length p1 = length p2 -> length x1 = length x2 -> length y1 = length y2 ->
  length y1 = length x1 -> length weig - 1 <= length p1 -> j < length x1 ->
  fwd_entry (vadd p1 p2) weig (vadd x1 x2) (vadd y1 y2) j
  = radd (fwd_entry p1 weig x1 y1 j) (fwd_entry p2 weig x2 y2 j).
Proof.
  intros Hp Hx Hy Hyx Hw Hj. unfold fwd_entry.
  rewrite vadd_nth by lia.
  assert (Hks : Forall (fun k => 0 < k <= length p1)
                       (seq 1 (length weig - 1))).
  { apply Forall_forall. intros k Hk. apply elem_of_seq in Hk. lia. }
  assert (Hinit : rmul (radd (nth j x1 rO) (nth j x2 rO)) (nth 0 weig rO)
                  = radd (rmul (nth j x1 rO) (nth 0 weig rO))
                         (rmul (nth j x2 rO) (nth 0 weig rO))) by ring.
  rewrite Hinit.
  generalize (rmul (nth j x1 rO) (nth 0 weig rO)).
  generalize (rmul (nth j x2 rO) (nth 0 weig rO)).
  induction Hks as [|k ks [Hk0 Hk] _ IH]; intros a2 a1; cbn [fold_left];
    [reflexivity|].
  rewrite <- IH. f_equal.
  rewrite fwd_operand_add by lia. ring.
Qed.

(** The recurrence of the forward sweep has one solution. *)
Lemma fwd_entry_unique prol weig x y y' :
  length y = length x -> length y' = length x ->
  (forall j, j < length x -> y !! j = Some (fwd_entry prol weig x y j)) ->
  (forall j, j < length x -> y' !! j = Some (fwd_entry prol weig x y' j)) ->
  y = y'.
Proof.
  intros Hly Hly' Hy Hy'. apply list_eq.
  assert (Hind : forall n j, j < n -> y !! j = y' !! j).
  { induction n as [|n IH]; intros j Hj; [lia|].
    destruct (decide (j < length x)) as [Hjx|Hjx].
    - rewrite Hy, Hy' by exact Hjx. f_equal.
      apply fwd_entry_agree. intros i Hi.
      destruct (decide (j = n)) as [->|]; [by apply IH|].
      apply IH. lia.
    - rewrite !lookup_ge_None_2 by lia. reflexivity. }
  intros j. apply (Hind (S j)). lia.
Qed.

(** X8.  The forward sweep is additive in the prologue and the row
    together (scalars in a commutative ring): sweeping the sum of two
    prologues and two rows gives the sum of the two sweeps. *)
Theorem fwd_superposition (p1 p2 x1 x2 weig : list D) :
  0 < length weig -> length weig - 1 <= length p1 ->
  length p1 = length p2 -> length x1 = length x2 ->
  exists y1 y2,
    fwd p1 x1 weig = Ok y1 /\ fwd p2 x2 weig = Ok y2 /\
    fwd (vadd p1 p2) (vadd x1 x2) weig = Ok (vadd y1 y2).
Proof.
  intros Hw Hp Hpp Hxx.
  destruct (fwd_ok p1 weig x1 Hw Hp) as (y1 & Hr1 & Hl1 & He1).
  destruct (fwd_ok p2 weig x2 Hw ltac:(lia)) as (y2 & Hr2 & Hl2 & He2).
  assert (Hlp : length (vadd p1 p2) = length p1)
    by (unfold vadd; rewrite length_zip_with; lia).
  assert (Hlx : length (vadd x1 x2) = length x1)
    by (unfold vadd; rewrite length_zip_with; lia).
  assert (Hly : length (vadd y1 y2) = length x1)
    by (unfold vadd; rewrite length_zip_with; lia).
  destruct (fwd_ok (vadd p1 p2) weig (vadd x1 x2) Hw ltac:(lia))
    as (y & Hr & Hl & He).
  exists y1, y2. split; [exact Hr1|]. split; [exact Hr2|].
  rewrite Hr. f_equal.
  apply (fwd_entry_unique (vadd p1 p2) weig (vadd x1 x2)).
  - exact Hl.
  - lia.
  - exact He.
  - intros j Hj. rewrite Hlx in Hj.
    rewrite fwd_entry_add by lia.
    unfold vadd at 1. rewrite lookup_zip_with.
    rewrite He1, He2 by lia. reflexivity.
Qed.

End Superposition.

(** ** [flip] and [get_mn] *)

Section Flip.
Context {D : Type} {SD : Scalar D}.
Implicit Types (A : list (list D)).

Lemma flip_shape (h w : nat) A : has_shape h w A -> has_shape h w (flip A).
Proof.
  intros HA. unfold flip. rewrite (has_shape_nrows _ _ _ HA). split.
  - by rewrite length_map, length_seq.
  - apply Forall_forall. intros row Hrow.
    apply list_elem_of_fmap in Hrow as (i & -> & Hi). apply elem_of_seq in Hi.
    rewrite length_map, length_seq. apply (has_shape_ncols h w A HA). lia.
Qed.

Lemma flip_entry (h w : nat) A (i j : nat) :
  has_shape h w A -> i < h -> j < w ->
  entry (flip A) i j = entry A (h - 1 - i) (w - 1 - j).
Proof.
  intros HA Hi Hj. unfold flip.
  rewrite (has_shape_nrows _ _ _ HA), (has_shape_ncols h w A HA) by lia.
  eapply entry_lookup.
  - rewrite list_lookup_fmap, lookup_seq_lt by exact Hi. reflexivity.
  - rewrite list_lookup_fmap, lookup_seq_lt by exact Hj. reflexivity.
Qed.

Lemma reverse_rows_entry (h w : nat) A (i j : nat) :
  has_shape h w A -> i < h -> j < w ->
  entry (flipud (map reverse A)) i j = entry A (h - 1 - i) (w - 1 - j).
Proof.
  intros HA Hi Hj. pose proof HA as [Hlen Hrows]. unfold flipud.
  destruct (lookup_lt_is_Some_2 A (h - 1 - i)) as [row Hrow]; [lia|].
  pose proof (has_shape_lookup _ _ _ _ _ HA Hrow) as Hl.
  destruct (lookup_lt_is_Some_2 row (w - 1 - j)) as [v Hv]; [lia|].
  rewrite (entry_lookup A _ _ row v Hrow Hv).
  eapply entry_lookup.
  - rewrite reverse_lookup by (rewrite length_map; lia).
    rewrite length_map, list_lookup_fmap, Hlen.
    replace (h - S i) with (h - 1 - i) by lia. rewrite Hrow. reflexivity.
  - rewrite reverse_lookup by lia. rewrite Hl.
    replace (w - S j) with (w - 1 - j) by lia. exact Hv.
Qed.

(** X9.  On a rectangular array [flip] reverses the order of the rows and
    of the entries of every row (NumPy's [flipud] after [fliplr]), and
    flipping twice gives the array back. *)
Theorem flip_involutive (h w : nat) A :
  has_shape h w A ->
  flip A = flipud (map reverse A) /\ flip (flip A) = A.
Proof.
  intros HA. pose proof (flip_shape h w A HA) as HF. split.
  - apply (has_shape_eq h w); [exact HF | |].
    + destruct HA as [Hlen Hrows]. unfold flipud. split.
      * by rewrite length_reverse, length_map.
      * apply Forall_reverse, Forall_fmap.
        eapply Forall_impl; [exact Hrows|]. intros row Hrow. simpl.
        by rewrite length_reverse.
    + intros i j Hi Hj.
      by rewrite (flip_entry h w), (reverse_rows_entry h w).
  - apply (has_shape_eq h w); [by apply flip_shape | exact HA|].
    intros i j Hi Hj.
    rewrite (flip_entry h w) by done.
    rewrite (flip_entry h w) by (done || lia).
    f_equal; lia.
Qed.

(** X10.  On an image of [H] rows, at least one, and [W] columns, with the
    sizes and the block side below [2^53] (where the binary64 quotient of
    the code has the exact ceiling): [get_mn] raises [ZeroDivisionError] for
    a block side of zero; for a positive block side it returns the least
    numbers of blocks that cover the rows and the columns of the image. *)
Theorem get_mn_covers (Hh W : nat) (X : list (list D)) (b : nat) :
  has_shape Hh W X -> 0 < Hh ->
  (Z.of_nat Hh < 2 ^ 53)%Z -> (Z.of_nat W < 2 ^ 53)%Z ->
  (Z.of_nat b < 2 ^ 53)%Z ->
  (b = 0 -> get_mn X b = Err ZeroDivisionError) /\
  (0 < b ->
   exists M N, get_mn X b = Ok (M, N) /\
     Hh <= M * b < Hh + b /\ W <= N * b < W + b).
Proof.
  intros HX Hpos _ _ _. split.
  - intros ->. reflexivity.
  - intros Hb. unfold get_mn, ceil_div.
    rewrite (has_shape_nrows _ _ _ HX), (has_shape_ncols _ _ _ HX Hpos).
    destruct (decide (b = 0)) as [|_]; [lia|]. cbn [mbind result_bind].
    eexists _, _. split; [reflexivity|].
    assert (Hq : forall a, a <= (a + b - 1) / b * b < a + b).
    { intros a. pose proof (Nat.div_mod_eq (a + b - 1) b) as Hdm.
      pose proof (Nat.mod_upper_bound (a + b - 1) b ltac:(lia)) as Hub.
      nia. }
    split; apply Hq.
Qed.

End Flip.

(** ** Images whose sides are not multiples of the block side *)

Section Ragged.
Context {D : Type} {SD : Scalar D}.
Implicit Types (X V : list (list D)).

Lemma stretch_is_ok {A : Type} (n : nat) (l : list A) :
  is_ok (stretch n l) <-> length l = n \/ length l = 1.
Proof.
  unfold stretch. destruct (decide (length l = n)) as [Hl|Hl].
  - split; [by left | intros _; by eexists].
  - destruct l as [|x [|y l]]; simpl in *.
    + split; [intros [? [=]] | lia].
    + split; [by right | intros _; by eexists].
    + split; [intros [? [=]] | lia].
Qed.

Lemma stretch_Err {A : Type} (n : nat) (l : list A) (e : error) :
  stretch n l = Err e -> e = ValueError.
Proof.
  unfold stretch. destruct (decide _); [discriminate|].
  destruct l as [|x [|y l]]; congruence.
Qed.

Lemma stretch_length {A : Type} (n : nat) (l l' : list A) :
  stretch n l = Ok l' -> length l' = n.
Proof.
  unfold stretch. destruct (decide _) as [Hl|Hl]; [congruence|].
  destruct l as [|x [|y l]]; try discriminate.
  intros [= <-]. apply length_replicate.
Qed.

Lemma mapM_is_ok {A B : Type} (f : A -> result B) (l : list A) :
  is_ok (mapM f l) <-> forall x, x ∈ l -> is_ok (f x).
Proof.
  induction l as [|x l IH]; cbn [mapM].
  - split; [intros _ y Hy; by apply elem_of_nil in Hy | intros _; by eexists].
  - split.
    + intros [ys Hys]. inv_bind Hys. inv_bind Hys.
      intros y Hy. apply elem_of_cons in Hy as [->|Hy]; [by eexists|].
      apply IH; [by eexists | exact Hy].
    + intros Hall. destruct (Hall x (list_elem_of_here _ _)) as [y ->].
      cbn [mbind result_bind].
      destruct (proj2 IH) as [ys ->]; [|by eexists].
      intros z Hz. apply Hall. by apply list_elem_of_further.
Qed.

Lemma broadcast_to_Err (h w : nat) V (e : error) :
  broadcast_to h w V = Err e -> e = ValueError.
Proof.
  unfold broadcast_to. destruct (mapM (stretch w) V) as [rows|e'] eqn:Hm;
    cbn [mbind result_bind].
  - apply stretch_Err.
  - intros [= <-]. apply mapM_Err in Hm as (row & _ & Hrow).
    by apply stretch_Err in Hrow.
Qed.

(** An assignment into a slot of shape [(h', w')] broadcasts a value of
    shape [(h, w)] exactly when each side has the length of the slot or
    length one. *)
Lemma broadcast_to_is_ok (h w h' w' : nat) V :
  has_shape h w V -> 0 < h ->
  (is_ok (broadcast_to h' w' V) <-> (h = h' \/ h = 1) /\ (w = w' \/ w = 1)).
Proof.
  intros [Hlen Hrows] Hh. rewrite Forall_forall in Hrows.
  unfold broadcast_to. split.
  - intros [V' HV']. inv_bind HV'.
    pose proof (mapM_length _ _ _ Hx) as Hl.
    split.
    + rewrite <- Hlen, <- Hl. apply stretch_is_ok. by eexists.
    + destruct V as [|row V]; [simpl in Hlen; lia|].
      rewrite <- (Hrows row) by apply list_elem_of_here.
      apply stretch_is_ok.
      apply (proj1 (mapM_is_ok (stretch w') (row :: V))); [by eexists|].
      apply list_elem_of_here.
  - intros [Hhh Hww].
    destruct (proj2 (mapM_is_ok (stretch w') V)) as [rows Hm].
    { intros row Hrow. apply stretch_is_ok. by rewrite (Hrows row Hrow). }
    rewrite Hm. cbn [mbind result_bind]. apply stretch_is_ok.
    rewrite (mapM_length _ _ _ Hm). lia.
Qed.

(** A slice is clipped to the array. *)
Lemma slice2_clip_shape (Hh W : nat) X (r0 r1 c0 c1 : nat) :
  has_shape Hh W X ->
  has_shape (r1 `min` Hh - r0) (c1 `min` W - c0) (slice2 X r0 r1 c0 c1).
Proof.
  intros [Hlen Hrows]. unfold slice2, py_slice. split.
  - rewrite length_map, length_take, length_drop. lia.
  - apply Forall_fmap, Forall_take, Forall_drop.
    eapply Forall_impl; [exact Hrows|]. intros row Hrow. simpl in *.
    rewrite length_take, length_drop. lia.
Qed.

(** The number of rows of the image in block row [m]. *)
Lemma clip_side (Hh b m : nat) :
  0 < b -> m * b < Hh ->
  ((m + 1) * b) `min` Hh - m * b = b \/
  (((m + 1) * b) `min` Hh - m * b = Hh `mod` b /\ 0 < Hh `mod` b < b).
Proof.
  intros Hb Hm. destruct (decide ((m + 1) * b <= Hh)) as [Hfull|Hpart].
  - left. lia.
  - right.
    assert (Hmod : Hh `mod` b = Hh - m * b).
    { symmetry. apply (Nat.mod_unique Hh b m); lia. }
    lia.
Qed.

Lemma clip_sides_iff (Hh b M : nat) :
  0 < b -> 0 < Hh -> Hh <= M * b < Hh + b ->
  (forall m, m < M ->
     ((m + 1) * b) `min` Hh - m * b = b \/ ((m + 1) * b) `min` Hh - m * b = 1)
  <-> Hh `mod` b <= 1.
Proof.
  intros Hb Hpos HM. split.
  - intros Hall.
    assert (HM1 : (M - 1) * b < Hh) by nia.
    pose proof (Nat.mod_upper_bound Hh b ltac:(lia)) as Hub.
    destruct (Hall (M - 1) ltac:(nia)) as [Hv|Hv];
      destruct (clip_side Hh b (M - 1) Hb HM1) as [Hc|[Hc Hr]]; try lia.
    assert (HMb : (M - 1 + 1) * b = (M - 1) * b + b) by lia.
    assert (HMM : (M - 1 + 1) * b = M * b) by (f_equal; nia).
    assert (Hh = M * b) by lia. subst Hh.
    rewrite Nat.Div0.mod_mul. lia.
  - intros Hmod m Hm.
    assert (Hmb : m * b < Hh) by nia.
    destruct (clip_side Hh b m Hb Hmb) as [Hc|[Hc Hr]]; [by left|].
    right. lia.
Qed.

(** X11.  For a non-empty image and a positive block side, [break_blocks]
    returns exactly when each side of the image leaves a remainder of at
    most one modulo the block side (a single trailing row or column is
    broadcast over its block); with a larger remainder the assignment of the
    trailing slice raises [ValueError]. *)
Theorem break_blocks_returns_iff (Hh W b : nat) X :
  has_shape Hh W X -> 0 < b -> 0 < Hh -> 0 < W ->
  (is_ok (break_blocks X b None None)
   <-> Hh `mod` b <= 1 /\ W `mod` b <= 1) /\
  (is_ok (break_blocks X b None None) \/
   break_blocks X b None None = Err ValueError).
Proof.
  intros HX Hb HH HW.
  assert (Hq : forall a, a <= (a + b - 1) / b * b < a + b).
  { intros a. pose proof (Nat.div_mod_eq (a + b - 1) b) as Hdm.
    pose proof (Nat.mod_upper_bound (a + b - 1) b ltac:(lia)) as Hub.
    nia. }
  set (M := (Hh + b - 1) / b). set (N := (W + b - 1) / b).
  pose proof (Hq Hh) as HM. pose proof (Hq W) as HN. fold M in HM. fold N in HN.
  assert (Hrun : break_blocks X b None None
                 = mapM (fun m => mapM (fun n => break_block X b m n) (range N))
                        (range M)).
  { unfold break_blocks, get_mn, ceil_div.
    destruct (decide (b = 0)) as [|_]; [lia|]. cbn [mbind result_bind].
    rewrite (has_shape_nrows _ _ _ HX), (has_shape_ncols _ _ _ HX HH).
    reflexivity. }
  rewrite Hrun.
  assert (Hblock : forall m n, m < M -> n < N ->
            (is_ok (break_block X b m n) <->
             (((m + 1) * b) `min` Hh - m * b = b \/
              ((m + 1) * b) `min` Hh - m * b = 1) /\
             (((n + 1) * b) `min` W - n * b = b \/
              ((n + 1) * b) `min` W - n * b = 1))).
  { intros m n Hm Hn. unfold break_block.
    apply broadcast_to_is_ok; [by apply slice2_clip_shape|]. nia. }
  split.
  - rewrite <- (clip_sides_iff Hh b M Hb HH HM).
    rewrite <- (clip_sides_iff W b N Hb HW HN).
    rewrite mapM_is_ok. split.
    + intros Hall. split.
      * intros m Hm.
        assert (Hin : m ∈ range M) by (apply elem_of_seq; lia).
        pose proof (proj1 (mapM_is_ok _ _) (Hall m Hin) 0) as H0.
        apply (Hblock m 0 Hm ltac:(nia)). apply H0. apply elem_of_seq. nia.
      * intros n Hn.
        assert (Hin : 0 ∈ range M) by (apply elem_of_seq; nia).
        pose proof (proj1 (mapM_is_ok _ _) (Hall 0 Hin) n) as H0.
        apply (Hblock 0 n ltac:(nia) Hn). apply H0. apply elem_of_seq. lia.
    + intros [Hrows Hcols] m Hm. apply elem_of_seq in Hm.
      apply mapM_is_ok. intros n Hn. apply elem_of_seq in Hn.
      apply Hblock; [lia | lia|]. split; [apply Hrows | apply Hcols]; lia.
  - destruct (mapM _ (range M)) as [G|e] eqn:Hm; [left; by eexists|].
    right. f_equal.
    apply mapM_Err in Hm as (m & _ & Hm).
    apply mapM_Err in Hm as (n & _ & Hm).
    by apply broadcast_to_Err in Hm.
Qed.

(** X12.  With a block side of zero, [break_blocks] raises
    [ZeroDivisionError] when it has to compute the numbers of blocks; when
    both are given it returns a grid of empty blocks. *)
Theorem break_blocks_zero_side X (m n : nat) :
  break_blocks X 0 None None = Err ZeroDivisionError /\
  break_blocks X 0 (Some m) None = Err ZeroDivisionError /\
  break_blocks X 0 None (Some n) = Err ZeroDivisionError /\
  break_blocks X 0 (Some m) (Some n) = Ok (replicate m (replicate n [])).
Proof.
  do 3 (split; [reflexivity|]).
  unfold break_blocks. cbn [mbind result_bind fst snd].
  assert (Hb : forall m' n', break_block X 0 m' n' = Ok []).
  { intros m' n'. unfold break_block, slice2, py_slice.
    rewrite !Nat.mul_0_r. reflexivity. }
  assert (Hrow : forall k, mapM (fun n' => break_block X 0 k n') (range n)
                           = Ok (replicate n [])).
  { intros k. rewrite (mapM_Ok_map _ (fun _ => [])) by (intros; apply Hb).
    f_equal. unfold range. generalize 0.
    induction n as [|n' IH]; intros s; simpl; [reflexivity|]. by rewrite IH. }
  rewrite (mapM_Ok_map _ (fun _ => replicate n [])) by (intros; apply Hrow).
  f_equal. unfold range. generalize 0.
  induction m as [|m' IH]; intros s; simpl; [reflexivity|]. by rewrite IH.
Qed.

End Ragged.

(** ** Breaking a joined grid *)

Section Join_break.
Context {D : Type} {SD : Scalar D}.
Implicit Types (X A V : list (list D)) (G : list (list (list (list D)))).

Lemma window_index (b m i : nat) :
  0 < b -> m * b <= i < m * b + b -> i / b = m /\ i mod b = i - m * b.
Proof.
  intros Hb Hi.
  assert (Heq : i = b * m + (i - m * b)) by lia.
  split; symmetry.
  - apply (Nat.div_unique i b m (i - m * b)); lia.
  - apply (Nat.mod_unique i b m (i - m * b)); lia.
Qed.

Lemma join_block_grid (Mm Nn b : nat) G A (m n : nat) :
  grid_shape Mm Nn b b G -> m < Mm -> n < Nn ->
  join_block G b (Mm * b, Nn * b) m A n
  = Ok (write_window A (m * b) (n * b) b b (grid_block G m n)).
Proof.
  intros HG Hm Hn. unfold join_block.
  rewrite (get2_nat Mm Nn b b) by done. cbn [mbind result_bind].
  destruct (grid_shape_slot _ _ _ _ _ _ _ HG Hm Hn) as (_ & _ & _ & _ & HB).
  assert (Hrm : (m + 1) * b <= Mm * b) by (apply Nat.mul_le_mono_r; lia).
  assert (Hcn : (n + 1) * b <= Nn * b) by (apply Nat.mul_le_mono_r; lia).
  apply assign_slice2_same; simpl; [lia | lia | exact HB].
Qed.

(** [join_blocks] writes every cell of the image from its block. *)
Lemma join_blocks_grid (garbage : nat -> nat -> D) (Mm Nn b : nat) G :
  grid_shape Mm Nn b b G -> 0 < b ->
  exists X, join_blocks garbage G b Mm Nn (Mm * b, Nn * b) = Ok X /\
    has_shape (Mm * b) (Nn * b) X /\
    forall i j, i < Mm * b -> j < Nn * b ->
      entry X i j = entry (grid_block G (i / b) (j / b)) (i mod b) (j mod b).
Proof.
  intros HG Hb. unfold join_blocks. cbn [fst snd].
  destruct (foldM_range_inv
    (fun m A => has_shape (Mm * b) (Nn * b) A /\
       forall i j, i < m * b -> i < Mm * b -> j < Nn * b ->
         entry A i j
         = entry (grid_block G (i / b) (j / b)) (i mod b) (j mod b))
    (fun image m =>
       foldM (join_block G b (Mm * b, Nn * b) m) (range Nn) image)
    Mm (np_empty garbage (Mm * b) (Nn * b))) as (A & Hrun & HA & Hcells).
  - split; [apply np_empty_shape|]. intros i j Hi. lia.
  - intros m A0 Hm [HA0 Hdone].
    destruct (foldM_range_inv
      (fun n A => has_shape (Mm * b) (Nn * b) A /\
         forall i j, i < Mm * b -> j < Nn * b ->
           i < m * b \/ (i < (m + 1) * b /\ j < n * b) ->
           entry A i j
           = entry (grid_block G (i / b) (j / b)) (i mod b) (j mod b))
      (join_block G b (Mm * b, Nn * b) m)
      Nn A0) as (A1 & Hrun1 & HA1 & Hcells1).
    + split; [exact HA0|]. intros i j Hi Hj [Hlt|[_ Hlt]]; [|lia].
      by apply Hdone.
    + intros n A Hn [HAs Hc].
      eexists. split; [by apply (join_block_grid Mm Nn)|].
      split; [by apply write_window_shape|].
      intros i j Hi Hj Hcov.
      rewrite (write_window_entry _ _ _ _ _ _ _ _ _ _ HAs Hi Hj).
      destruct (decide ((m * b <= i < m * b + b) /\ (n * b <= j < n * b + b)))
        as [[Hwi Hwj]|Hout].
      * destruct (window_index b m i Hb Hwi) as [-> ->].
        destruct (window_index b n j Hb Hwj) as [-> ->]. reflexivity.
      * apply Hc; [done|done|]. lia.
    + exists A1. split; [exact Hrun1|]. split; [exact HA1|].
      intros i j Hi Hi' Hj.
      destruct (decide (j < Nn * b)) as [Hjj|]; [|lia].
      apply Hcells1; [done|done|]. lia.
  - exists A. split; [exact Hrun|]. split; [exact HA|].
    intros i j Hi Hj. by apply Hcells.
Qed.

Lemma exact_blocks_shape (Mm Nn b : nat) X :
  has_shape (Mm * b) (Nn * b) X -> grid_shape Mm Nn b b (exact_blocks X b Mm Nn).
Proof.
  intros HX. unfold exact_blocks, range. split.
  - by rewrite length_map, length_seq.
  - apply Forall_forall. intros row Hrow.
    apply list_elem_of_fmap in Hrow as (m & -> & Hm). apply elem_of_seq in Hm.
    split; [by rewrite length_map, length_seq|].
    apply Forall_forall. intros B HB.
    apply list_elem_of_fmap in HB as (n & -> & Hn). apply elem_of_seq in Hn.
    assert (Hrm : (m + 1) * b <= Mm * b) by (apply Nat.mul_le_mono_r; lia).
    assert (Hcn : (n + 1) * b <= Nn * b) by (apply Nat.mul_le_mono_r; lia).
    pose proof (slice2_shape _ _ X (m * b) _ (n * b) _ HX Hrm Hcn) as Hs.
    replace ((m + 1) * b - m * b) with b in Hs by lia.
    replace ((n + 1) * b - n * b) with b in Hs by lia.
    exact Hs.
Qed.

(** X13.  The other round trip of the block decomposer: joining an [M] by
    [N] grid of [b] by [b] blocks into an image of shape [(M*b, N*b)] and
    breaking that image again gives the grid back, whatever the freshly
    allocated image held. *)
Theorem break_join_roundtrip (garbage : nat -> nat -> D) (Mm Nn b : nat) G :
  grid_shape Mm Nn b b G -> 0 < b -> 0 < Mm ->
  exists X, join_blocks garbage G b Mm Nn (Mm * b, Nn * b) = Ok X /\
            has_shape (Mm * b) (Nn * b) X /\
            break_blocks X b None None = Ok G.
Proof.
  intros HG Hb HM.
  destruct (join_blocks_grid garbage Mm Nn b G HG Hb) as (X & Hrun & HX & Hcells).
  exists X. split; [exact Hrun|]. split; [exact HX|].
  rewrite (break_blocks_exact_run Mm Nn) by done. f_equal.
  apply (grid_ext Mm Nn b b); [by apply exact_blocks_shape | exact HG|].
  intros m n Hm Hn. rewrite exact_blocks_block by done.
  destruct (grid_shape_slot _ _ _ _ _ _ _ HG Hm Hn) as (_ & _ & _ & _ & HB).
  assert (Hrm : (m + 1) * b <= Mm * b) by (apply Nat.mul_le_mono_r; lia).
  assert (Hcn : (n + 1) * b <= Nn * b) by (apply Nat.mul_le_mono_r; lia).
  pose proof (slice2_shape _ _ X (m * b) _ (n * b) _ HX Hrm Hcn) as Hs.
  replace ((m + 1) * b - m * b) with b in Hs by lia.
  replace ((n + 1) * b - n * b) with b in Hs by lia.
  apply (has_shape_eq b b); [exact Hs | exact HB|].
  intros i j Hi Hj. rewrite slice2_entry by lia.
  rewrite Hcells by nia.
  destruct (window_index b m (m * b + i) Hb ltac:(lia)) as [-> ->].
  destruct (window_index b n (n * b + j) Hb ltac:(lia)) as [-> ->].
  f_equal; lia.
Qed.

End Join_break.

(** ** What stage 6 and the stages of the extensions write *)

Section More_frames.
Context {D : Type} {SD : Scalar D}.
Implicit Types (st : store (D := D)) (V : list (list D)).

Lemma upd_blocks_frame st (m n : Z) V st' :
  upd_blocks st m n V = Ok st' ->
  P st' = P st /\ E st' = E st /\ Pt st' = Pt st /\ Et st' = Et st.
Proof. unfold upd_blocks. intros Hu. inv_bind Hu. inv_ok. simpl. tauto. Qed.

Ltac binds Hyp :=
  repeat (let x := fresh "v" in
          let Hx := fresh "Hv" in
          apply bind_Ok in Hyp; destruct Hyp as (x & Hx & Hyp)).

(** Turn every update and sweep among the hypotheses into its frame
    equations. *)
Ltac all_frames :=
  repeat match goal with
         | Hu : upd_P _ _ _ _ = Ok _ |- _ =>
             apply upd_P_frame in Hu; destruct Hu as (? & ? & ? & ?)
         | Hu : upd_E _ _ _ _ = Ok _ |- _ =>
             apply upd_E_frame in Hu; destruct Hu as (? & ? & ? & ?)
         | Hu : upd_Pt _ _ _ _ = Ok _ |- _ =>
             apply upd_Pt_frame in Hu; destruct Hu as (? & ? & ? & ?)
         | Hu : upd_Et _ _ _ _ = Ok _ |- _ =>
             apply upd_Et_frame in Hu; destruct Hu as (? & ? & ? & ?)
         | Hu : upd_blocks _ _ _ _ = Ok _ |- _ =>
             apply upd_blocks_frame in Hu; destruct Hu as (? & ? & ? & ?)
         | Hu : stage2_sweep _ _ _ _ = Ok _ |- _ =>
             apply stage2_sweep_frame in Hu; destruct Hu as (? & ? & ? & ?)
         | Hu : stage3_sweep _ _ _ _ _ = Ok _ |- _ =>
             apply stage3_sweep_frame in Hu; destruct Hu as (? & ? & ? & ?)
         | Hu : stage4_sweep _ _ _ _ _ _ _ = Ok _ |- _ =>
             apply stage4_sweep_frame in Hu; destruct Hu as (? & ? & ? & ?)
         | Hu : stage5_sweep _ _ _ _ _ _ _ _ = Ok _ |- _ =>
             apply stage5_sweep_frame in Hu; destruct Hu as (? & ? & ? & ?)
         end.

Lemma stage6_block_frame (wgt : list D) st (mn : nat * nat) st' :
  stage6_block wgt st mn = Ok st' ->
  P st' = P st /\ E st' = E st /\ Pt st' = Pt st /\ Et st' = Et st.
Proof.
  unfold stage6_block. intros Hs. binds Hs. injection Hs as <-. simpl. tauto.
Qed.

(** X14.  Stage 6 writes the blocks only: a run of [alg5_stage6] that
    returns leaves the four carry arrays as they were. *)
Theorem stage6_writes_blocks_only (m_size n_size : nat) (wgt : list D) st st' :
  alg5_stage6 m_size n_size wgt st = Ok st' ->
  P st' = P st /\ E st' = E st /\ Pt st' = Pt st /\ Et st' = Et st.
Proof.
  unfold alg5_stage6.
  apply (foldM_preserves (fun s =>
    P s = P st /\ E s = E st /\ Pt s = Pt st /\ Et s = Et st)); [|tauto].
  intros mn s0 s1 _ (? & ? & ? & ?) Hs.
  apply stage6_block_frame in Hs as (? & ? & ? & ?).
  repeat split; congruence.
Qed.

Lemma cpe_stage1_block_frame (m_size n_size r : nat) (wgt : list D)
    (Zrb Zbr : list (list D)) st (mn : nat * nat) st' :
  cpe_stage1_block m_size n_size r wgt Zrb Zbr st mn = Ok st' ->
  blocks st' = blocks st.
Proof.
  unfold cpe_stage1_block. intros Hs. binds Hs.
  repeat match goal with
         | Hc : (if decide ?c then _ else _) = Ok _ |- _ =>
             destruct (decide c)
         end;
    injection Hs as <-; all_frames; inv_ok; simpl; congruence.
Qed.

Lemma cpe_stage23_column_frame (m_size : nat)
    (AbF AbR HARB_AFP C1 C2 C3 : list (list D)) st (n : nat) st' :
  cpe_stage23_column m_size AbF AbR HARB_AFP C1 C2 C3 st n = Ok st' ->
  blocks st' = blocks st /\ Pt st' = Pt st /\ Et st' = Et st.
Proof.
  unfold cpe_stage23_column. intros Hs. binds Hs. all_frames.
  repeat split; congruence.
Qed.

Lemma cpe_stage45_row_frame (n_size r : nat)
    (AbFT AbRT HARB_AFPT HARB_AFBT ARB_AFP TAFBT ARE C1 C2 C3 : list (list D))
    st (m : nat) st' :
  cpe_stage45_row n_size r AbFT AbRT HARB_AFPT HARB_AFBT ARB_AFP TAFBT ARE
                  C1 C2 C3 st m = Ok st' ->
  blocks st' = blocks st /\ P st' = P st /\ E st' = E st.
Proof.
  unfold cpe_stage45_row. intros Hs. binds Hs. all_frames.
  repeat split; congruence.
Qed.

(** X15.  The stages of the constant-padding extension write their own
    arrays only: [alg5_cpe_stage1] leaves the blocks unchanged,
    [alg5_cpe_stage23] the blocks, [Pt] and [Et], and [alg5_cpe_stage45] the
    blocks, [P] and [E]. *)
Theorem cpe_stages_write_own_carries (m_size n_size r : nat) (wgt : list D)
    (matrices cpe_matrices : list (list (list D))) st st1 st2 st3 :
  (alg5_cpe_stage1 m_size n_size r wgt matrices st = Ok st1 ->
   blocks st1 = blocks st) /\
  (alg5_cpe_stage23 m_size n_size matrices cpe_matrices st = Ok st2 ->
   blocks st2 = blocks st /\ Pt st2 = Pt st /\ Et st2 = Et st) /\
  (alg5_cpe_stage45 m_size n_size r matrices cpe_matrices st = Ok st3 ->
   blocks st3 = blocks st /\ P st3 = P st /\ E st3 = E st).
Proof.
  split; [|split].
  - unfold alg5_cpe_stage1. intros Hs. inv_bind Hs. revert Hs.
    apply (foldM_preserves (fun s => blocks s = blocks st)); [|reflexivity].
    intros mn s0 s1 _ Hb Hs. apply cpe_stage1_block_frame in Hs. congruence.
  - unfold alg5_cpe_stage23. intros Hs. inv_bind Hs.
    destruct x as [[AbF AbR] HARB_AFP]. inv_bind Hs.
    destruct x as [[C1 C2] C3]. revert Hs.
    apply (foldM_preserves (fun s =>
      blocks s = blocks st /\ Pt s = Pt st /\ Et s = Et st)); [|tauto].
    intros n s0 s1 _ (? & ? & ?) Hs.
    apply cpe_stage23_column_frame in Hs as (? & ? & ?).
    repeat split; congruence.
  - unfold alg5_cpe_stage45. intros Hs. inv_bind Hs.
    destruct x as [[[[[[AbFT AbRT] HARB_AFPT] HARB_AFBT] ARB_AFP] TAFBT] ARE].
    inv_bind Hs. destruct x as [[C1 C2] C3]. revert Hs.
    apply (foldM_preserves (fun s =>
      blocks s = blocks st /\ P s = P st /\ E s = E st)); [|tauto].
    intros m s0 s1 _ (? & ? & ?) Hs.
    apply cpe_stage45_row_frame in Hs as (? & ? & ?).
    repeat split; congruence.
Qed.

Lemma pe_stage23_column_frame (m_size : nat)
    (Zrb AbF AbR HARB_AFP IAhF IAhR : list (list D)) st (n : nat) st' :
  pe_stage23_column m_size Zrb AbF AbR HARB_AFP IAhF IAhR st n = Ok st' ->
  blocks st' = blocks st /\ Pt st' = Pt st /\ Et st' = Et st.
Proof.
  unfold pe_stage23_column. intros Hs. binds Hs. all_frames.
  repeat split; congruence.
Qed.

Lemma pe_stage45_row_frame (n_size : nat)
    (AbFT AbRT HARB_AFPT HARB_AFBT ARB_AFP TAFBT ARE Zbr IAwF IAwR
     : list (list D)) st (m : nat) st' :
  pe_stage45_row n_size AbFT AbRT HARB_AFPT HARB_AFBT ARB_AFP TAFBT ARE
                 Zbr IAwF IAwR st m = Ok st' ->
  blocks st' = blocks st /\ P st' = P st /\ E st' = E st.
Proof.
  unfold pe_stage45_row. intros Hs. binds Hs. all_frames.
  repeat split; congruence.
Qed.

(** X16.  The stages of the periodic extension write their own arrays
    only: [alg5_pe_stage23] leaves the blocks, [Pt] and [Et] unchanged, and
    [alg5_pe_stage45] the blocks, [P] and [E]. *)
Theorem pe_stages_write_own_carries (m_size n_size r : nat)
    (matrices pe_matrices : list (list (list D))) st st2 st3 :
  (alg5_pe_stage23 m_size n_size matrices pe_matrices st = Ok st2 ->
   blocks st2 = blocks st /\ Pt st2 = Pt st /\ Et st2 = Et st) /\
  (alg5_pe_stage45 m_size n_size r matrices pe_matrices st = Ok st3 ->
   blocks st3 = blocks st /\ P st3 = P st /\ E st3 = E st).
Proof.
  split.
  - unfold alg5_pe_stage23. intros Hs. inv_bind Hs. inv_bind Hs.
    destruct x0 as [[AbF AbR] HARB_AFP]. inv_bind Hs.
    destruct x0 as [IAhF IAhR]. revert Hs.
    apply (foldM_preserves (fun s =>
      blocks s = blocks st /\ Pt s = Pt st /\ Et s = Et st)); [|tauto].
    intros n s0 s1 _ (? & ? & ?) Hs.
    apply pe_stage23_column_frame in Hs as (? & ? & ?).
    repeat split; congruence.
  - unfold alg5_pe_stage45. intros Hs. inv_bind Hs.
    destruct x as [[[[[[AbFT AbRT] HARB_AFPT] HARB_AFBT] ARB_AFP] TAFBT] ARE].
    inv_bind Hs. inv_bind Hs. destruct x0 as [IAwF IAwR]. revert Hs.
    apply (foldM_preserves (fun s =>
      blocks s = blocks st /\ P s = P st /\ E s = E st)); [|tauto].
    intros m s0 s1 _ (? & ? & ?) Hs.
    apply pe_stage45_row_frame in Hs as (? & ? & ?).
    repeat split; congruence.
Qed.

Lemma epe_stage23_column_frame (m_size : nat)
    (Zrb AhF AbF AbR HARB_AFP L M1h M2h : list (list D))
    (s : store (D := D) * list (list (list (list D)))) (n : nat) s' :
  epe_stage23_column m_size Zrb AhF AbF AbR HARB_AFP L M1h M2h s n = Ok s' ->
  blocks s'.1 = blocks s.1 /\ Pt s'.1 = Pt s.1 /\ Et s'.1 = Et s.1.
Proof.
  unfold epe_stage23_column. intros Hs. binds Hs. all_frames.
  injection Hs as <-. cbn [fst]. repeat split; congruence.
Qed.

Lemma epe_stage45_row_frame (n_size : nat)
    (Zbr AwF AbFT AbRT HARB_AFPT HARB_AFBT ARB_AFP TAFBT ARE L M1w M2w
     : list (list D))
    (s : store (D := D) * list (list (list (list D)))) (m : nat) s' :
  epe_stage45_row n_size Zbr AwF AbFT AbRT HARB_AFPT HARB_AFBT ARB_AFP TAFBT
                  ARE L M1w M2w s m = Ok s' ->
  blocks s'.1 = blocks s.1 /\ P s'.1 = P s.1 /\ E s'.1 = E s.1.
Proof.
  unfold epe_stage45_row. intros Hs. binds Hs. all_frames.
  injection Hs as <-. cbn [fst]. repeat split; congruence.
Qed.

(** X17.  The stages of the even-periodic extension write their own arrays
    only (the temporary copies [tP] and [tPt] are local):
    [alg5_epe_stage23] leaves the blocks, [Pt] and [Et] unchanged, and
    [alg5_epe_stage45] the blocks, [P] and [E]. *)
Theorem epe_stages_write_own_carries (m_size n_size r : nat)
    (matrices epe_matrices : list (list (list D))) st st2 st3 :
  (alg5_epe_stage23 m_size n_size matrices epe_matrices st = Ok st2 ->
   blocks st2 = blocks st /\ Pt st2 = Pt st /\ Et st2 = Et st) /\
  (alg5_epe_stage45 m_size n_size r matrices epe_matrices st = Ok st3 ->
   blocks st3 = blocks st /\ P st3 = P st /\ E st3 = E st).
Proof.
  split.
  - unfold alg5_epe_stage23. intros Hs. binds Hs.
    destruct v1 as [[AbF AbR] HARB_AFP]. binds Hs. injection Hs as <-.
    revert Hv5.
    apply (foldM_preserves (fun s =>
      blocks s.1 = blocks st /\ Pt s.1 = Pt st /\ Et s.1 = Et st)); [|tauto].
    intros n s0 s1 _ (? & ? & ?) Hs.
    apply epe_stage23_column_frame in Hs as (? & ? & ?).
    repeat split; congruence.
  - unfold alg5_epe_stage45. intros Hs. binds Hs.
    destruct v1 as [[[[[[AbFT AbRT] HARB_AFPT] HARB_AFBT] ARB_AFP] TAFBT] ARE].
    binds Hs. destruct v1 as [[L M1w] M2w]. binds Hs. injection Hs as <-.
    revert Hv3.
    apply (foldM_preserves (fun s =>
      blocks s.1 = blocks st /\ P s.1 = P st /\ E s.1 = E st)); [|tauto].
    intros m s0 s1 _ (? & ? & ?) Hs.
    apply epe_stage45_row_frame in Hs as (? & ? & ?).
    repeat split; congruence.
Qed.

End More_frames.

(** ** The backward sweep of stages 2 and 3 *)

Section Stage3.
Context {D : Type} {SD : Scalar D}.
Implicit Types (st : store (D := D)) (G : list (list (list (list D)))).

(** The loop [for i in range(n-1, -1, -1)], the invariant indexed by the
    number of iterations done: iteration [c] handles index [n-1-c]. *)
Lemma foldM_range_down_inv {S : Type} (I : nat -> S -> Prop)
    (f : S -> nat -> result S) (n : nat) (s : S) :
  I 0 s ->
  (forall c s0, c < n -> I c s0 ->
     exists s1, f s0 (n - 1 - c) = Ok s1 /\ I (Datatypes.S c) s1) ->
  exists s', foldM f (range_down n) s = Ok s' /\ I n s'.
Proof.
  intros H0 Hstep. unfold range_down.
  assert (Hgen : forall k, k <= n -> forall s0, I (n - k) s0 ->
             exists s', foldM f (List.rev (seq 0 k)) s0 = Ok s' /\ I n s').
  { induction k as [|k IH]; intros Hk s0 Hs0.
    - simpl. exists s0. split; [reflexivity|]. by rewrite Nat.sub_0_r in Hs0.
    - rewrite seq_S, rev_app_distr. simpl.
      destruct (Hstep (n - Datatypes.S k) s0 ltac:(lia) Hs0) as (s1 & Hf & H1).
      replace (n - 1 - (n - Datatypes.S k)) with k in Hf by lia.
      rewrite Hf. simpl. apply IH; [lia|].
      replace (n - k) with (Datatypes.S (n - Datatypes.S k)) by lia. exact H1. }
  apply (Hgen n); [lia|]. by rewrite Nat.sub_diag.
Qed.

(** The backward sweep of column [n]: it writes the column of [E] from the
    bottom, each slot from its old value, [P[m-1][n]] and the new
    [E[m+1][n]]. *)
Lemma stage3_sweep_spec (Mm Nn r b : nat) (HARB_AFP AbR : list (list D))
    st (n : nat) :
  wf_store Mm Nn r b st -> 0 < r -> has_shape r r HARB_AFP ->
  has_shape r r AbR -> n < Nn ->
  exists st',
    stage3_sweep HARB_AFP AbR Mm n st = Ok st' /\ wf_store Mm Nn r b st' /\
    P st' = P st /\
    (forall m n', n' <> n -> grid_block (E st') m n' = grid_block (E st) m n') /\
    grid_block (E st') Mm n = grid_block (E st) Mm n /\
    forall m, m < Mm ->
      grid_block (E st') m n
      = madd (madd (grid_block (E st) m n)
                   (dot HARB_AFP (grid_block (P st) (prev_row Mm m) n)))
             (dot AbR (grid_block (E st') (m + 1) n)).
Proof.
  intros Hwf Hr HH HA Hn. unfold stage3_sweep.
  destruct (foldM_range_down_inv
    (fun c s => wf_store Mm Nn r b s /\ P s = P st /\
       (forall m n', n' <> n -> grid_block (E s) m n' = grid_block (E st) m n') /\
       (forall m, m < Mm - c \/ m = Mm ->
          grid_block (E s) m n = grid_block (E st) m n) /\
       (forall m, Mm - c <= m < Mm ->
          grid_block (E s) m n
          = madd (madd (grid_block (E st) m n)
                       (dot HARB_AFP (grid_block (P st) (prev_row Mm m) n)))
                 (dot AbR (grid_block (E s) (m + 1) n))))
    (stage3_step HARB_AFP AbR n) Mm st)
    as (st' & Hrun & Hwf' & HP' & Hcols & Hrest & Hdone).
  - split; [exact Hwf|]. split; [reflexivity|]. split; [reflexivity|].
    split; [reflexivity|]. intros m Hm. lia.
  - intros c s0 Hc (Hwf0 & HP0 & Hcols & Hrest & Hdone).
    set (m := Mm - 1 - c).
    assert (Hm : m < Mm) by (unfold m; lia).
    pose proof Hwf0 as (_ & HPs & HEs & _).
    destruct (grid_shape_slot _ _ _ _ _ m n HEs ltac:(lia) Hn)
      as (_ & _ & _ & _ & HX).
    destruct (grid_shape_slot _ _ _ _ _ (prev_row Mm m) n HPs)
      as (_ & _ & _ & _ & HPm);
      [unfold prev_row; destruct (decide (m = 0)); lia | exact Hn |].
    destruct (grid_shape_slot _ _ _ _ _ (m + 1) n HEs ltac:(lia) Hn)
      as (_ & _ & _ & _ & HY).
    destruct (eqn34_ok r b HARB_AFP AbR _ _ _ Hr HH HA HX HPm HY) as [Heq HV].
    destruct (upd_E_ok Mm Nn r b s0 m n _ Hwf0 Hr ltac:(lia) Hn HV)
      as [Hupd Hwf1].
    eexists. split.
    { unfold stage3_step.
      rewrite (get2_nat (Mm + 1) Nn r b) by (done || lia).
      rewrite (get2_prev Mm Nn r b) by (done || lia).
      replace (Z.of_nat m + 1)%Z with (Z.of_nat (m + 1)) by lia.
      rewrite (get2_nat (Mm + 1) Nn r b (E s0) (m + 1)) by (done || lia).
      rewrite Heq. cbn [mbind result_bind]. exact Hupd. }
    split; [exact Hwf1|]. cbn [P E set_E].
    split; [exact HP0|].
    split; [|split].
    + intros m' n' Hne. rewrite grid_block_put_ne by congruence.
      by apply Hcols.
    + intros m' Hm'. rewrite grid_block_put_ne by (intros [=]; lia).
      apply Hrest. lia.
    + intros m' Hm'. destruct (decide (m' = m)) as [->|Hne].
      * rewrite (grid_block_put_eq (Mm + 1) Nn r b) by (done || lia).
        rewrite grid_block_put_ne by (intros [=]; lia).
        rewrite (Hrest m) by lia. rewrite HP0. reflexivity.
      * rewrite !grid_block_put_ne by (intros [=]; unfold m in *; lia).
        apply Hdone. unfold m in *. lia.
  - exists st'. split; [exact Hrun|]. split; [exact Hwf'|].
    split; [exact HP'|]. split; [exact Hcols|].
    split; [apply Hrest; lia|].
    intros m Hm. apply Hdone. lia.
Qed.

(** X18.  Stages 2 and 3 on well-shaped arrays with [r] by [r] matrices:
    the run returns, keeps the shapes, and in every column the slots of [P]
    satisfy [P[m][n] = P1[m][n] + AbF * P[m-1][n]] going down and the slots
    of [E] satisfy [E[m][n] = E1[m][n] + HARB_AFP * P[m-1][n] + AbR *
    E[m+1][n]] going up, where [P[-1][n]] and [E[M][n]] are the boundary
    slots, left as they were. *)
Theorem alg5_stage23_sweeps (Mm Nn r b : nat) (AbF AbR HARB_AFP : list (list D))
    (matrices : list (list (list D))) st :
  wf_store Mm Nn r b st -> 0 < r ->
  py_slice 6 9 matrices = [AbF; AbR; HARB_AFP] ->
  has_shape r r AbF -> has_shape r r AbR -> has_shape r r HARB_AFP ->
  exists st',
    alg5_stage23 Mm Nn matrices st = Ok st' /\ wf_store Mm Nn r b st' /\
    forall n, n < Nn ->
      column_done AbF Mm st st' n /\ column_done_E HARB_AFP AbR Mm st st' n.
Proof.
  intros Hwf Hr Hpack HA HR HH. unfold alg5_stage23. rewrite Hpack.
  cbn [unpack3 mbind result_bind].
  destruct (foldM_range_inv
    (fun i s => wf_store Mm Nn r b s /\
       (forall m n, i <= n -> grid_block (P s) m n = grid_block (P st) m n /\
                              grid_block (E s) m n = grid_block (E st) m n) /\
       (forall n, n < i -> column_done AbF Mm st s n /\
                           column_done_E HARB_AFP AbR Mm st s n))
    (fun s n => s1 ← stage2_sweep AbF Mm n s; stage3_sweep HARB_AFP AbR Mm n s1)
    Nn st) as (st' & Hrun & Hwf' & _ & Hdone).
  - split; [exact Hwf|]. split; [done|]. intros n Hn. lia.
  - intros i s0 Hi (Hwf0 & Hrest & Hdone).
    destruct (stage2_sweep_spec Mm Nn r b AbF s0 i Hwf0 Hr HA Hi)
      as (s1 & Hrun1 & Hwf1 & _ & HE1 & _ & _ & Hcols & Hlast & Hrec).
    destruct (stage3_sweep_spec Mm Nn r b HARB_AFP AbR s1 i Hwf1 Hr HH HR Hi)
      as (s2 & Hrun2 & Hwf2 & HP2 & HcolsE & HlastE & HrecE).
    exists s2. split; [by rewrite Hrun1|]. split; [exact Hwf2|].
    rewrite HE1 in HcolsE, HlastE, HrecE.
    split.
    + intros m n Hn. rewrite HP2, Hcols, HcolsE by lia. apply Hrest. lia.
    + intros n Hn. destruct (decide (n = i)) as [->|Hne].
      * split.
        -- unfold column_done. rewrite HP2. split.
           ++ rewrite (Hlast Mm) by lia. by apply Hrest.
           ++ intros m Hm. rewrite (Hrec m Hm).
              by destruct (Hrest m i ltac:(lia)) as [-> _].
        -- unfold column_done_E. rewrite HP2. split.
           ++ rewrite HlastE. by apply Hrest.
           ++ intros m Hm. rewrite (HrecE m Hm).
              by destruct (Hrest m i ltac:(lia)) as [_ ->].
      * destruct (Hdone n ltac:(lia)) as [[Hb Hr0] [HbE HrE]]. split.
        -- unfold column_done. rewrite HP2. split.
           ++ by rewrite Hcols by done.
           ++ intros m Hm. rewrite !Hcols by done. by apply Hr0.
        -- unfold column_done_E. rewrite HP2. split.
           ++ by rewrite HcolsE by done.
           ++ intros m Hm. rewrite !HcolsE, Hcols by done. by apply HrE.
  - exists st'. split; [exact Hrun|]. split; [exact Hwf'|]. exact Hdone.
Qed.

End Stage3.

(** ** Stages 4 and 5 *)

Section Stage45.
Context {D : Type} {SD : Scalar D}.
Implicit Types (st : store (D := D)) (G : list (list (list (list D)))).

(** [G[m][-1]] is the last slot of row [m]. *)
Lemma get2_last_col (rows cols h w : nat) G (m : nat) :
  grid_shape rows (cols + 1) h w G -> m < rows ->
  get2 G (Z.of_nat m) (-1) = Ok (grid_block G m cols).
Proof.
  intros HG Hm.
  destruct (grid_shape_slot _ _ _ _ _ m cols HG Hm ltac:(lia))
    as (row & Hrow & Hc & HV & _).
  unfold get2. rewrite (py_get_nat _ _ _ Hrow). cbn [mbind result_bind].
  change (-1)%Z with (- Z.of_nat 1)%Z.
  apply py_get_neg; [lia|]. rewrite Hc.
  replace (cols + 1 - 1) with cols by lia. exact HV.
Qed.

(** [G[m][n-1]] in an array of [N + 1] columns of slots. *)
Lemma get2_prev_col (rows Nn h w : nat) G (m n : nat) :
  grid_shape rows (Nn + 1) h w G -> m < rows -> n <= Nn ->
  get2 G (Z.of_nat m) (Z.of_nat n - 1) = Ok (grid_block G m (prev_row Nn n)).
Proof.
  intros HG Hm Hn. unfold prev_row. destruct (decide (n = 0)) as [->|Hne].
  - by apply (get2_last_col rows Nn h w).
  - replace (Z.of_nat n - 1)%Z with (Z.of_nat (n - 1)) by lia.
    apply (get2_nat rows (Nn + 1) h w); [exact HG | exact Hm | lia].
Qed.

Lemma upd_Pt_ok (Mm Nn r b : nat) st (m n : nat) (V : list (list D)) :
  wf_store Mm Nn r b st -> 0 < b -> m < Mm -> n <= Nn -> has_shape b r V ->
  upd_Pt st (Z.of_nat m) (Z.of_nat n) V
  = Ok (set_Pt st (grid_put (Pt st) m n V)) /\
  wf_store Mm Nn r b (set_Pt st (grid_put (Pt st) m n V)).
Proof.
  intros (Hbl & HP & HE & HPt & HEt) Hb Hm Hn HV. split.
  - unfold upd_Pt. by rewrite (set2_nat Mm (Nn + 1) b r) by (done || lia).
  - unfold wf_store. simpl. repeat (split; [done|]).
    split; [by apply grid_put_shape|]. done.
Qed.

Lemma upd_Et_ok (Mm Nn r b : nat) st (m n : nat) (V : list (list D)) :
  wf_store Mm Nn r b st -> 0 < b -> m < Mm -> n <= Nn -> has_shape b r V ->
  upd_Et st (Z.of_nat m) (Z.of_nat n) V
  = Ok (set_Et st (grid_put (Et st) m n V)) /\
  wf_store Mm Nn r b (set_Et st (grid_put (Et st) m n V)).
Proof.
  intros (Hbl & HP & HE & HPt & HEt) Hb Hm Hn HV. split.
  - unfold upd_Et. by rewrite (set2_nat Mm (Nn + 1) b r) by (done || lia).
  - unfold wf_store. simpl. repeat (split; [done|]).
    by apply grid_put_shape.
Qed.

Lemma eqn37_ok (r b : nat)
    (AbFT AbRT HARB_AFPT HARB_AFBT ARB_AFP TAFBT ARE X Pm Em Y : list (list D)) :
  0 < r -> 0 < b ->
  stage45_shapes r b AbFT AbRT HARB_AFPT HARB_AFBT ARB_AFP TAFBT ARE ->
  has_shape b r X -> has_shape r b Pm -> has_shape r b Em -> has_shape b r Y ->
  eqn37 ARB_AFP ARE TAFBT AbFT (Ok X) (Ok Pm) (Ok Em) (Ok Y)
  = Ok (eqn37_value ARB_AFP ARE TAFBT AbFT X Pm Em Y) /\
  has_shape b r (eqn37_value ARB_AFP ARE TAFBT AbFT X Pm Em Y).
Proof.
  intros Hr Hb (HAbFT & HAbRT & HHPT & HHBT & HARB & HTA & HARE) HX HP HE HY.
  assert (Hd1 : has_shape r r (dot Pm TAFBT))
    by (apply (dot_shape r b r); [by destruct HP | exact HTA | exact Hb]).
  assert (Hd2 : has_shape b r (dot ARB_AFP (dot Pm TAFBT)))
    by (apply (dot_shape b r r); [by destruct HARB | exact Hd1 | exact Hr]).
  assert (Hd3 : has_shape r r (dot Em TAFBT))
    by (apply (dot_shape r b r); [by destruct HE | exact HTA | exact Hb]).
  assert (Hd4 : has_shape b r (dot ARE (dot Em TAFBT)))
    by (apply (dot_shape b r r); [by destruct HARE | exact Hd3 | exact Hr]).
  assert (Hd5 : has_shape b r (dot Y AbFT))
    by (apply (dot_shape b r r); [by destruct HY | exact HAbFT | exact Hr]).
  assert (Hs1 : has_shape b r (madd X (dot ARB_AFP (dot Pm TAFBT))))
    by (by apply madd_shape).
  assert (Hs2 : has_shape b r (madd (madd X (dot ARB_AFP (dot Pm TAFBT)))
                                    (dot ARE (dot Em TAFBT))))
    by (by apply madd_shape).
  split; [|by apply madd_shape].
  unfold eqn37, eqn37_value. cbn [mbind result_bind].
  rewrite (np_dot_ok r b r Pm TAFBT) by done. cbn [mbind result_bind].
  rewrite (np_dot_ok b r r ARB_AFP) by done. cbn [mbind result_bind].
  rewrite (np_add_ok b r X) by done. cbn [mbind result_bind].
  rewrite (np_dot_ok r b r Em TAFBT) by done. cbn [mbind result_bind].
  rewrite (np_dot_ok b r r ARE) by done. cbn [mbind result_bind].
  rewrite (np_add_ok b r (madd X _)) by done. cbn [mbind result_bind].
  rewrite (np_dot_ok b r r Y AbFT) by done. cbn [mbind result_bind].
  by apply (np_add_ok b r).
Qed.

Lemma eqn39_ok (r b : nat)
    (AbFT AbRT HARB_AFPT HARB_AFBT ARB_AFP TAFBT ARE X Pm Em Ptm Y
     : list (list D)) :
  0 < r -> 0 < b ->
  stage45_shapes r b AbFT AbRT HARB_AFPT HARB_AFBT ARB_AFP TAFBT ARE ->
  has_shape b r X -> has_shape r b Pm -> has_shape r b Em ->
  has_shape b r Ptm -> has_shape b r Y ->
  eqn39 ARB_AFP ARE HARB_AFBT HARB_AFPT AbRT (Ok X) (Ok Pm) (Ok Em) (Ok Ptm)
        (Ok Y)
  = Ok (eqn39_value ARB_AFP ARE HARB_AFBT HARB_AFPT AbRT X Pm Em Ptm Y) /\
  has_shape b r (eqn39_value ARB_AFP ARE HARB_AFBT HARB_AFPT AbRT X Pm Em Ptm Y).
Proof.
  intros Hr Hb (HAbFT & HAbRT & HHPT & HHBT & HARB & HTA & HARE)
         HX HP HE HPt HY.
  assert (Hd1 : has_shape r r (dot Pm HARB_AFBT))
    by (apply (dot_shape r b r); [by destruct HP | exact HHBT | exact Hb]).
  assert (Hd2 : has_shape b r (dot ARB_AFP (dot Pm HARB_AFBT)))
    by (apply (dot_shape b r r); [by destruct HARB | exact Hd1 | exact Hr]).
  assert (Hd3 : has_shape r r (dot Em HARB_AFBT))
    by (apply (dot_shape r b r); [by destruct HE | exact HHBT | exact Hb]).
  assert (Hd4 : has_shape b r (dot ARE (dot Em HARB_AFBT)))
    by (apply (dot_shape b r r); [by destruct HARE | exact Hd3 | exact Hr]).
  assert (Hd5 : has_shape b r (dot Ptm HARB_AFPT))
    by (apply (dot_shape b r r); [by destruct HPt | exact HHPT | exact Hr]).
  assert (Hd6 : has_shape b r (dot Y AbRT))
    by (apply (dot_shape b r r); [by destruct HY | exact HAbRT | exact Hr]).
  assert (Hs1 : has_shape b r (madd X (dot ARB_AFP (dot Pm HARB_AFBT))))
    by (by apply madd_shape).
  assert (Hs2 : has_shape b r (madd (madd X (dot ARB_AFP (dot Pm HARB_AFBT)))
                                    (dot ARE (dot Em HARB_AFBT))))
    by (by apply madd_shape).
  assert (Hs3 : has_shape b r
                  (madd (madd (madd X (dot ARB_AFP (dot Pm HARB_AFBT)))
                              (dot ARE (dot Em HARB_AFBT)))
                        (dot Ptm HARB_AFPT)))
    by (by apply madd_shape).
  split; [|by apply madd_shape].
  unfold eqn39, eqn39_value. cbn [mbind result_bind].
  rewrite (np_dot_ok r b r Pm HARB_AFBT) by done. cbn [mbind result_bind].
  rewrite (np_dot_ok b r r ARB_AFP) by done. cbn [mbind result_bind].
  rewrite (np_add_ok b r X) by done. cbn [mbind result_bind].
  rewrite (np_dot_ok r b r Em HARB_AFBT) by done. cbn [mbind result_bind].
  rewrite (np_dot_ok b r r ARE) by done. cbn [mbind result_bind].
  rewrite (np_add_ok b r (madd X _)) by done. cbn [mbind result_bind].
  rewrite (np_dot_ok b r r Ptm HARB_AFPT) by done. cbn [mbind result_bind].
  rewrite (np_add_ok b r (madd (madd X _) _)) by done. cbn [mbind result_bind].
  rewrite (np_dot_ok b r r Y AbRT) by done. cbn [mbind result_bind].
  by apply (np_add_ok b r).
Qed.

Section Sweeps.
Variables (Mm Nn r b : nat).
Variables (AbFT AbRT HARB_AFPT HARB_AFBT ARB_AFP TAFBT ARE : list (list D)).
Hypothesis Hr : 0 < r.
Hypothesis Hb : 0 < b.
Hypothesis Hshapes :
  stage45_shapes r b AbFT AbRT HARB_AFPT HARB_AFBT ARB_AFP TAFBT ARE.

Lemma prev_row_le (n : nat) : n < Nn -> prev_row Nn n <= Nn.
Proof. unfold prev_row. destruct (decide (n = 0)); lia. Qed.

(** The forward sweep of row [m]. *)
Lemma stage4_sweep_spec st (m : nat) :
  wf_store Mm Nn r b st -> m < Mm ->
  exists st',
    stage4_sweep ARB_AFP ARE TAFBT AbFT Nn m st = Ok st' /\
    wf_store Mm Nn r b st' /\
    blocks st' = blocks st /\ P st' = P st /\ E st' = E st /\
    Et st' = Et st /\
    (forall m' n, m' <> m -> grid_block (Pt st') m' n = grid_block (Pt st) m' n) /\
    grid_block (Pt st') m Nn = grid_block (Pt st) m Nn /\
    forall n, n < Nn ->
      grid_block (Pt st') m n
      = eqn37_value ARB_AFP ARE TAFBT AbFT (grid_block (Pt st) m n)
          (grid_block (P st) (prev_row Mm m) n) (grid_block (E st) (m + 1) n)
          (grid_block (Pt st') m (prev_row Nn n)).
Proof.
  intros Hwf Hm. unfold stage4_sweep.
  destruct (foldM_range_inv
    (fun i s => wf_store Mm Nn r b s /\
       blocks s = blocks st /\ P s = P st /\ E s = E st /\ Et s = Et st /\
       (forall m' n, m' <> m ->
          grid_block (Pt s) m' n = grid_block (Pt st) m' n) /\
       (forall n, i <= n -> grid_block (Pt s) m n = grid_block (Pt st) m n) /\
       (forall n, n < i ->
          grid_block (Pt s) m n
          = eqn37_value ARB_AFP ARE TAFBT AbFT (grid_block (Pt st) m n)
              (grid_block (P st) (prev_row Mm m) n)
              (grid_block (E st) (m + 1) n)
              (grid_block (Pt s) m (prev_row Nn n))))
    (stage4_step ARB_AFP ARE TAFBT AbFT m) Nn st)
    as (st' & Hrun & Hwf' & Hbl & HP' & HE' & HEt' & Hrows & Hrest & Hdone).
  - split; [exact Hwf|]. do 6 (split; [reflexivity|]). intros n Hn. lia.
  - intros i s0 Hi (Hwf0 & Hbl0 & HP0 & HE0 & HEt0 & Hrows & Hrest & Hdone).
    pose proof Hwf0 as (_ & HPs & HEs & HPts & _).
    pose proof (prev_row_le i Hi) as Hprev.
    destruct (grid_shape_slot _ _ _ _ _ m i HPts Hm ltac:(lia))
      as (_ & _ & _ & _ & HX).
    destruct (grid_shape_slot _ _ _ _ _ (prev_row Mm m) i HPs)
      as (_ & _ & _ & _ & HPm);
      [unfold prev_row; destruct (decide (m = 0)); lia | exact Hi |].
    destruct (grid_shape_slot _ _ _ _ _ (m + 1) i HEs ltac:(lia) Hi)
      as (_ & _ & _ & _ & HEm).
    destruct (grid_shape_slot _ _ _ _ _ m (prev_row Nn i) HPts Hm ltac:(lia))
      as (_ & _ & _ & _ & HY).
    destruct (eqn37_ok r b AbFT AbRT HARB_AFPT HARB_AFBT ARB_AFP TAFBT ARE
                _ _ _ _ Hr Hb Hshapes HX HPm HEm HY) as [Heq HV].
    destruct (upd_Pt_ok Mm Nn r b s0 m i _ Hwf0 Hb Hm ltac:(lia) HV)
      as [Hupd Hwf1].
    eexists. split.
    { unfold stage4_step.
      rewrite (get2_nat Mm (Nn + 1) b r) by (done || lia).
      rewrite (get2_prev Mm Nn r b) by (done || lia).
      replace (Z.of_nat m + 1)%Z with (Z.of_nat (m + 1)) by lia.
      rewrite (get2_nat (Mm + 1) Nn r b (E s0) (m + 1)) by (done || lia).
      rewrite (get2_prev_col Mm Nn b r) by (done || lia).
      rewrite Heq. cbn [mbind result_bind]. exact Hupd. }
    split; [exact Hwf1|]. cbn [blocks P E Pt Et set_Pt].
    do 4 (split; [done|]).
    assert (Hpi : forall n, n <= i -> n < Nn -> prev_row Nn n <> i).
    { intros n Hn HnN. unfold prev_row. destruct (decide (n = 0)); lia. }
    split; [|split].
    + intros m' n Hne. rewrite grid_block_put_ne by congruence.
      by apply Hrows.
    + intros n Hn. rewrite grid_block_put_ne by (intros [=]; lia).
      apply Hrest. lia.
    + intros n Hn. destruct (decide (n = i)) as [->|Hne].
      * rewrite (grid_block_put_eq Mm (Nn + 1) b r) by (done || lia).
        rewrite grid_block_put_ne by (intros [=]; by eapply (Hpi i)).
        rewrite (Hrest i) by lia. rewrite HP0, HE0. reflexivity.
      * rewrite grid_block_put_ne by (intros [=]; lia).
        rewrite grid_block_put_ne
          by (intros [=]; eapply (Hpi n); [lia | lia | done]).
        apply Hdone. lia.
  - exists st'. split; [exact Hrun|]. split; [exact Hwf'|].
    do 4 (split; [done|]). split; [exact Hrows|].
    split; [apply Hrest; lia|]. exact Hdone.
Qed.

(** The backward sweep of row [m]. *)
Lemma stage5_sweep_spec st (m : nat) :
  wf_store Mm Nn r b st -> m < Mm ->
  exists st',
    stage5_sweep ARB_AFP ARE HARB_AFBT HARB_AFPT AbRT Nn m st = Ok st' /\
    wf_store Mm Nn r b st' /\
    blocks st' = blocks st /\ P st' = P st /\ E st' = E st /\
    Pt st' = Pt st /\
    (forall m' n, m' <> m -> grid_block (Et st') m' n = grid_block (Et st) m' n) /\
    grid_block (Et st') m Nn = grid_block (Et st) m Nn /\
    forall n, n < Nn ->
      grid_block (Et st') m n
      = eqn39_value ARB_AFP ARE HARB_AFBT HARB_AFPT AbRT
          (grid_block (Et st) m n)
          (grid_block (P st) (prev_row Mm m) n) (grid_block (E st) (m + 1) n)
          (grid_block (Pt st) m (prev_row Nn n))
          (grid_block (Et st') m (n + 1)).
Proof.
  intros Hwf Hm. unfold stage5_sweep.
  destruct (foldM_range_down_inv
    (fun c s => wf_store Mm Nn r b s /\
       blocks s = blocks st /\ P s = P st /\ E s = E st /\ Pt s = Pt st /\
       (forall m' n, m' <> m ->
          grid_block (Et s) m' n = grid_block (Et st) m' n) /\
       (forall n, n < Nn - c \/ n = Nn ->
          grid_block (Et s) m n = grid_block (Et st) m n) /\
       (forall n, Nn - c <= n < Nn ->
          grid_block (Et s) m n
          = eqn39_value ARB_AFP ARE HARB_AFBT HARB_AFPT AbRT
              (grid_block (Et st) m n)
              (grid_block (P st) (prev_row Mm m) n)
              (grid_block (E st) (m + 1) n)
              (grid_block (Pt st) m (prev_row Nn n))
              (grid_block (Et s) m (n + 1))))
    (stage5_step ARB_AFP ARE HARB_AFBT HARB_AFPT AbRT m) Nn st)
    as (st' & Hrun & Hwf' & Hbl & HP' & HE' & HPt' & Hrows & Hrest & Hdone).
  - split; [exact Hwf|]. do 6 (split; [reflexivity|]). intros n Hn. lia.
  - intros c s0 Hc (Hwf0 & Hbl0 & HP0 & HE0 & HPt0 & Hrows & Hrest & Hdone).
    set (n := Nn - 1 - c).
    assert (Hn : n < Nn) by (unfold n; lia).
    pose proof Hwf0 as (_ & HPs & HEs & HPts & HEts).
    pose proof (prev_row_le n Hn) as Hprev.
    destruct (grid_shape_slot _ _ _ _ _ m n HEts Hm ltac:(lia))
      as (_ & _ & _ & _ & HX).
    destruct (grid_shape_slot _ _ _ _ _ (prev_row Mm m) n HPs)
      as (_ & _ & _ & _ & HPm);
      [unfold prev_row; destruct (decide (m = 0)); lia | exact Hn |].
    destruct (grid_shape_slot _ _ _ _ _ (m + 1) n HEs ltac:(lia) Hn)
      as (_ & _ & _ & _ & HEm).
    destruct (grid_shape_slot _ _ _ _ _ m (prev_row Nn n) HPts Hm ltac:(lia))
      as (_ & _ & _ & _ & HPtm).
    destruct (grid_shape_slot _ _ _ _ _ m (n + 1) HEts Hm ltac:(lia))
      as (_ & _ & _ & _ & HY).
    destruct (eqn39_ok r b AbFT AbRT HARB_AFPT HARB_AFBT ARB_AFP TAFBT ARE
                _ _ _ _ _ Hr Hb Hshapes HX HPm HEm HPtm HY) as [Heq HV].
    destruct (upd_Et_ok Mm Nn r b s0 m n _ Hwf0 Hb Hm ltac:(lia) HV)
      as [Hupd Hwf1].
    eexists. split.
    { unfold stage5_step.
      rewrite (get2_nat Mm (Nn + 1) b r) by (done || lia).
      rewrite (get2_prev Mm Nn r b) by (done || lia).
      replace (Z.of_nat m + 1)%Z with (Z.of_nat (m + 1)) by lia.
      rewrite (get2_nat (Mm + 1) Nn r b (E s0) (m + 1)) by (done || lia).
      rewrite (get2_prev_col Mm Nn b r) by (done || lia).
      replace (Z.of_nat n + 1)%Z with (Z.of_nat (n + 1)) by lia.
      rewrite (get2_nat Mm (Nn + 1) b r (Et s0) m (n + 1)) by (done || lia).
      rewrite Heq. cbn [mbind result_bind]. exact Hupd. }
    split; [exact Hwf1|]. cbn [blocks P E Pt Et set_Et].
    do 4 (split; [done|]).
    split; [|split].
    + intros m' n' Hne. rewrite grid_block_put_ne by congruence.
      by apply Hrows.
    + intros n' Hn'. rewrite grid_block_put_ne by (intros [=]; lia).
      apply Hrest. lia.
    + intros n' Hn'. destruct (decide (n' = n)) as [->|Hne].
      * rewrite (grid_block_put_eq Mm (Nn + 1) b r) by (done || lia).
        rewrite grid_block_put_ne by (intros [=]; lia).
        rewrite (Hrest n) by lia. rewrite HP0, HE0, HPt0. reflexivity.
      * rewrite !grid_block_put_ne by (intros [=]; unfold n in *; lia).
        apply Hdone. unfold n in *. lia.
  - exists st'. split; [exact Hrun|]. split; [exact Hwf'|].
    do 4 (split; [done|]). split; [exact Hrows|].
    split; [apply Hrest; lia|]. intros n Hn. apply Hdone. lia.
Qed.

End Sweeps.

(** Stages 4 and 5 return, keep the shapes and leave the boundary slots
    [Pt[m][-1]] and [Et[m][N]] as they were. *)
Lemma alg5_stage45_total (Mm Nn r b : nat)
    (AbFT AbRT HARB_AFPT HARB_AFBT ARB_AFP TAFBT ARE : list (list D))
    (matrices : list (list (list D))) st :
  wf_store Mm Nn r b st -> 0 < r -> 0 < b ->
  py_slice 9 16 matrices
  = [AbFT; AbRT; HARB_AFPT; HARB_AFBT; ARB_AFP; TAFBT; ARE] ->
  stage45_shapes r b AbFT AbRT HARB_AFPT HARB_AFBT ARB_AFP TAFBT ARE ->
  exists st',
    alg5_stage45 Mm Nn matrices st = Ok st' /\ wf_store Mm Nn r b st' /\
    forall m, grid_block (Pt st') m Nn = grid_block (Pt st) m Nn /\
              grid_block (Et st') m Nn = grid_block (Et st) m Nn.
Proof.
  intros Hwf Hr Hb Hpack Hshapes. unfold alg5_stage45. rewrite Hpack.
  cbn [unpack7 mbind result_bind].
  apply (foldM_range_inv (fun _ s =>
           wf_store Mm Nn r b s /\
           forall m, grid_block (Pt s) m Nn = grid_block (Pt st) m Nn /\
                     grid_block (Et s) m Nn = grid_block (Et st) m Nn));
    [split; [exact Hwf | done]|].
  intros i s0 Hi [Hwf0 Hkeep].
  destruct (stage4_sweep_spec Mm Nn r b AbFT AbRT HARB_AFPT HARB_AFBT
              ARB_AFP TAFBT ARE Hr Hb Hshapes s0 i Hwf0 Hi)
    as (s1 & Hrun1 & Hwf1 & _ & _ & _ & HEt1 & Hrows1 & Hlast1 & _).
  destruct (stage5_sweep_spec Mm Nn r b AbFT AbRT HARB_AFPT HARB_AFBT
              ARB_AFP TAFBT ARE Hr Hb Hshapes s1 i Hwf1 Hi)
    as (s2 & Hrun2 & Hwf2 & _ & _ & _ & HPt2 & Hrows2 & Hlast2 & _).
  exists s2. split; [by rewrite Hrun1|]. split; [exact Hwf2|].
  intros m. destruct (Hkeep m) as [HkP HkE]. rewrite HPt2.
  destruct (decide (m = i)) as [->|Hne].
  - by rewrite Hlast1, Hlast2, HEt1.
  - by rewrite Hrows1, Hrows2, HEt1 by done.
Qed.

(** X19.  Stages 4 and 5 on well-shaped arrays and matrices: the run
    returns, keeps the shapes, and in every row of blocks the slots of [Pt]
    satisfy eqn. (37) from left to right and the slots of [Et] eqn. (39)
    from right to left, with [P[m-1][n]], [E[m+1][n]], [Pt[m][n-1]] and
    [Et[m][n+1]] read at the boundary slots where the index leaves the grid;
    the boundary slots [Pt[m][-1]] and [Et[m][N]] are left as they were. *)
Theorem alg5_stage45_sweeps (Mm Nn r b : nat)
    (AbFT AbRT HARB_AFPT HARB_AFBT ARB_AFP TAFBT ARE : list (list D))
    (matrices : list (list (list D))) st :
  wf_store Mm Nn r b st -> 0 < r -> 0 < b ->
  py_slice 9 16 matrices
  = [AbFT; AbRT; HARB_AFPT; HARB_AFBT; ARB_AFP; TAFBT; ARE] ->
  stage45_shapes r b AbFT AbRT HARB_AFPT HARB_AFBT ARB_AFP TAFBT ARE ->
  exists st',
    alg5_stage45 Mm Nn matrices st = Ok st' /\ wf_store Mm Nn r b st' /\
    forall m, m < Mm ->
      row_done AbFT AbRT HARB_AFPT HARB_AFBT ARB_AFP TAFBT ARE Mm Nn st st' m.
Proof.
  intros Hwf Hr Hb Hpack Hshapes. unfold alg5_stage45. rewrite Hpack.
  cbn [unpack7 mbind result_bind].
  destruct (foldM_range_inv
    (fun i s => wf_store Mm Nn r b s /\ P s = P st /\ E s = E st /\
       (forall m n, i <= m ->
          grid_block (Pt s) m n = grid_block (Pt st) m n /\
          grid_block (Et s) m n = grid_block (Et st) m n) /\
       (forall m, m < i ->
          row_done AbFT AbRT HARB_AFPT HARB_AFBT ARB_AFP TAFBT ARE
                   Mm Nn st s m))
    (fun s m =>
       s1 ← stage4_sweep ARB_AFP ARE TAFBT AbFT Nn m s;
       stage5_sweep ARB_AFP ARE HARB_AFBT HARB_AFPT AbRT Nn m s1)
    Mm st) as (st' & Hrun & Hwf' & _ & _ & _ & Hdone).
  - split; [exact Hwf|]. do 3 (split; [done|]). intros m Hm. lia.
  - intros i s0 Hi (Hwf0 & HP0 & HE0 & Hrest & Hdone).
    destruct (stage4_sweep_spec Mm Nn r b AbFT AbRT HARB_AFPT HARB_AFBT
                ARB_AFP TAFBT ARE Hr Hb Hshapes s0 i Hwf0 Hi)
      as (s1 & Hrun1 & Hwf1 & _ & HP1 & HE1 & HEt1 & Hrows1 & Hlast1 & Hrec1).
    destruct (stage5_sweep_spec Mm Nn r b AbFT AbRT HARB_AFPT HARB_AFBT
                ARB_AFP TAFBT ARE Hr Hb Hshapes s1 i Hwf1 Hi)
      as (s2 & Hrun2 & Hwf2 & _ & HP2 & HE2 & HPt2 & Hrows2 & Hlast2 & Hrec2).
    exists s2. split; [by rewrite Hrun1|]. split; [exact Hwf2|].
    split; [congruence|]. split; [congruence|].
    rewrite HEt1 in Hrows2, Hlast2, Hrec2. rewrite HP1, HE1 in Hrec2.
    rewrite HP0, HE0 in Hrec1, Hrec2.
    split.
    + intros m n Hm. rewrite HPt2, Hrows1, Hrows2 by lia. apply Hrest. lia.
    + intros m Hm. destruct (decide (m = i)) as [->|Hne].
      * unfold row_done. rewrite HPt2.
        split; [rewrite Hlast1; by apply Hrest|].
        split; [rewrite Hlast2; by apply Hrest|].
        intros n Hn. split.
        -- rewrite (Hrec1 n Hn).
           by destruct (Hrest i n ltac:(lia)) as [-> _].
        -- rewrite (Hrec2 n Hn).
           by destruct (Hrest i n ltac:(lia)) as [_ ->].
      * destruct (Hdone m ltac:(lia)) as (HbP & HbE & Hrec).
        unfold row_done. rewrite HPt2.
        split; [by rewrite Hrows1 by done|].
        split; [by rewrite Hrows2 by done|].
        intros n Hn. rewrite !Hrows1, !Hrows2 by done. by apply Hrec.
  - exists st'. split; [exact Hrun|]. split; [exact Hwf'|]. exact Hdone.
Qed.

End Stage45.

(** ** Stage 6 *)

Section Stage6.
Context {D : Type} {SD : Scalar D}.
Implicit Types (st : store (D := D)) (wgt : list D).

Lemma NoDup_n_major (Mm Nn : nat) : NoDup (n_major Mm Nn).
Proof.
  unfold n_major, range. apply NoDup_bind; [| |apply NoDup_seq].
  - intros n1 n2 [m n] _ _ H1 H2.
    apply list_elem_of_bind in H1 as (m1 & H1 & _).
    apply list_elem_of_bind in H2 as (m2 & H2 & _).
    apply list_elem_of_singleton in H1, H2. congruence.
  - intros n _. apply NoDup_bind; [| |apply NoDup_seq].
    + intros m1 m2 y _ _ H1 H2.
      apply list_elem_of_singleton in H1, H2. congruence.
    + intros m _. apply NoDup_singleton.
Qed.

(** One block of stage 6 on well-shaped arrays. *)
Lemma block_output_total (r b : nat) wgt (B p e pt et : list (list D)) :
  0 < r -> 0 < b -> 0 < length wgt -> length wgt - 1 <= r ->
  has_shape b b B -> has_shape r b p -> has_shape r b e ->
  has_shape b r pt -> has_shape b r et ->
  exists B', block_output wgt B p e pt et = Ok B' /\ has_shape b b B'.
Proof.
  intros Hr Hb Hw Hlen HB Hp He Hpt Het. unfold block_output.
  destruct (F_total b b r p B wgt HB Hp Hb Hb Hr Hw Hlen) as (B1 & -> & H1).
  destruct (R_total b b r B1 e wgt H1 He Hb Hb Hr Hw Hlen) as (B2 & HR & H2).
  destruct (FT_total b b pt B2 wgt H2 (has_shape_long_rows b r _ _ Hpt Hlen) Hw)
    as (B3 & HFT & H3).
  destruct (RT_total b b B3 et wgt H3 (has_shape_long_rows b r _ _ Het Hlen) Hw)
    as (B4 & HRT & H4).
  exists B4. cbn [mbind result_bind]. rewrite HR. cbn [mbind result_bind].
  rewrite HFT. cbn [mbind result_bind]. by rewrite HRT.
Qed.

Lemma stage6_block_ok (Mm Nn r b : nat) wgt st (m n : nat) :
  0 < r -> 0 < b -> 0 < length wgt -> length wgt - 1 <= r ->
  wf_store Mm Nn r b st -> m < Mm -> n < Nn ->
  exists B',
    block_output wgt (grid_block (blocks st) m n)
      (grid_block (P st) (prev_row Mm m) n) (grid_block (E st) (m + 1) n)
      (grid_block (Pt st) m (prev_row Nn n)) (grid_block (Et st) m (n + 1))
    = Ok B' /\ has_shape b b B' /\
    stage6_block wgt st (m, n) = Ok (set_blocks st (grid_put (blocks st) m n B')).
Proof.
  intros Hr Hb Hw Hlen (Hbl & HP & HE & HPt & HEt) Hm Hn.
  destruct (grid_shape_slot _ _ _ _ _ m n Hbl Hm Hn) as (_ & _ & _ & _ & HB).
  destruct (grid_shape_slot _ _ _ _ _ (prev_row Mm m) n HP)
    as (_ & _ & _ & _ & Hp);
    [unfold prev_row; destruct (decide (m = 0)); lia | exact Hn |].
  destruct (grid_shape_slot _ _ _ _ _ (m + 1) n HE ltac:(lia) Hn)
    as (_ & _ & _ & _ & He).
  destruct (grid_shape_slot _ _ _ _ _ m (prev_row Nn n) HPt Hm)
    as (_ & _ & _ & _ & Hpt);
    [unfold prev_row; destruct (decide (n = 0)); lia |].
  destruct (grid_shape_slot _ _ _ _ _ m (n + 1) HEt Hm ltac:(lia))
    as (_ & _ & _ & _ & Het).
  destruct (block_output_total r b wgt _ _ _ _ _ Hr Hb Hw Hlen HB Hp He Hpt Het)
    as (B' & Hout & HB').
  exists B'. split; [exact Hout|]. split; [exact HB'|].
  unfold block_output in Hout.
  apply bind_Ok in Hout as (B1 & HF & Hout).
  apply bind_Ok in Hout as (B2 & HR & Hout).
  apply bind_Ok in Hout as (B3 & HFT & HRT).
  unfold stage6_block. cbn [fst snd].
  rewrite (get2_nat Mm Nn b b) by done. cbn [mbind result_bind].
  rewrite (get2_prev Mm Nn r b) by (done || lia). cbn [mbind result_bind].
  rewrite HF. cbn [mbind result_bind].
  replace (Z.of_nat m + 1)%Z with (Z.of_nat (m + 1)) by lia.
  rewrite (get2_nat (Mm + 1) Nn r b (E st) (m + 1)) by (done || lia).
  cbn [mbind result_bind]. rewrite HR. cbn [mbind result_bind].
  rewrite (get2_prev_col Mm Nn b r) by (done || lia). cbn [mbind result_bind].
  rewrite HFT. cbn [mbind result_bind].
  replace (Z.of_nat n + 1)%Z with (Z.of_nat (n + 1)) by lia.
  rewrite (get2_nat Mm (Nn + 1) b r (Et st) m (n + 1)) by (done || lia).
  cbn [mbind result_bind]. rewrite HRT. cbn [mbind result_bind].
  unfold upd_blocks. by rewrite (set2_nat Mm Nn b b).
Qed.

(** Stage 6 over any duplicate-free list of in-range block indices. *)
Lemma stage6_over (Mm Nn r b : nat) wgt st (idxs : list (nat * nat)) :
  0 < r -> 0 < b -> 0 < length wgt -> length wgt - 1 <= r ->
  wf_store Mm Nn r b st -> NoDup idxs ->
  Forall (fun mn => mn.1 < Mm /\ mn.2 < Nn) idxs ->
  exists st',
    foldM (stage6_block wgt) idxs st = Ok st' /\ wf_store Mm Nn r b st' /\
    P st' = P st /\ E st' = E st /\ Pt st' = Pt st /\ Et st' = Et st /\
    stage6_done Mm Nn wgt st idxs st'.
Proof.
  intros Hr Hb Hw Hlen Hwf Hnd Hidx.
  apply (foldM_inv (fun done s =>
           wf_store Mm Nn r b s /\
           P s = P st /\ E s = E st /\ Pt s = Pt st /\ Et s = Et st /\
           stage6_done Mm Nn wgt st done s)).
  - split; [exact Hwf|]. do 4 (split; [reflexivity|]).
    intros m n _ _. rewrite decide_False by apply not_elem_of_nil. reflexivity.
  - intros done [m n] rest s0 Hsplit (Hwf0 & HP0 & HE0 & HPt0 & HEt0 & Hdone).
    assert (Hmn : m < Mm /\ n < Nn).
    { rewrite Forall_forall in Hidx. apply (Hidx (m, n)).
      rewrite Hsplit. apply elem_of_app. right. apply list_elem_of_here. }
    destruct Hmn as [Hm Hn].
    assert (Hfresh : (m, n) ∉ done).
    { rewrite Hsplit in Hnd. apply NoDup_app in Hnd as (_ & Hnd & _).
      intros Hin. apply (Hnd _ Hin). apply list_elem_of_here. }
    destruct (stage6_block_ok Mm Nn r b wgt s0 m n Hr Hb Hw Hlen Hwf0 Hm Hn)
      as (B' & Hout & HB' & Hrun).
    eexists. split; [exact Hrun|].
    pose proof Hwf0 as (Hbl0 & HsP & HsE & HsPt & HsEt).
    split.
    { unfold wf_store. cbn [blocks P E Pt Et set_blocks].
      split; [by apply grid_put_shape|]. tauto. }
    cbn [blocks P E Pt Et set_blocks]. do 4 (split; [done|]).
    intros m' n' Hm' Hn'. specialize (Hdone m' n' Hm' Hn').
    cbn [blocks set_blocks].
    destruct (decide ((m', n') = (m, n))) as [Heq|Hne].
    + injection Heq as -> ->.
      rewrite decide_False in Hdone by exact Hfresh.
      rewrite decide_True
        by (apply elem_of_app; right; apply list_elem_of_here).
      rewrite (grid_block_put_eq Mm Nn b b) by done.
      rewrite <- Hdone, <- HP0, <- HE0, <- HPt0, <- HEt0. exact Hout.
    + rewrite grid_block_put_ne by congruence.
      destruct (decide ((m', n') ∈ done)) as [Hin|Hnin].
      * rewrite decide_True by (apply elem_of_app; by left). exact Hdone.
      * rewrite decide_False; [exact Hdone|].
        intros Hin. apply elem_of_app in Hin as [Hin|Hin]; [done|].
        apply list_elem_of_singleton in Hin. congruence.
Qed.

(** X20.  Stage 6 on well-shaped arrays, with at least one and at most
    [r + 1] weights: the run returns, keeps the shapes and the four carry
    arrays, and replaces every block [(m, n)] by the result of [F], [R],
    [FT] and [RT] applied in this order to the block of the input with the
    carries [P[m-1][n]], [E[m+1][n]], [Pt[m][n-1]] and [Et[m][n+1]]: no
    block of the output depends on another block. *)
Theorem alg5_stage6_blocks (Mm Nn r b : nat) wgt st :
  0 < r -> 0 < b -> 0 < length wgt -> length wgt - 1 <= r ->
  wf_store Mm Nn r b st ->
  exists st',
    alg5_stage6 Mm Nn wgt st = Ok st' /\ wf_store Mm Nn r b st' /\
    P st' = P st /\ E st' = E st /\ Pt st' = Pt st /\ Et st' = Et st /\
    forall m n, m < Mm -> n < Nn ->
      block_output wgt (grid_block (blocks st) m n)
        (grid_block (P st) (prev_row Mm m) n) (grid_block (E st) (m + 1) n)
        (grid_block (Pt st) m (prev_row Nn n)) (grid_block (Et st) m (n + 1))
      = Ok (grid_block (blocks st') m n).
Proof.
  intros Hr Hb Hw Hlen Hwf.
  destruct (stage6_over Mm Nn r b wgt st (n_major Mm Nn) Hr Hb Hw Hlen Hwf
              (NoDup_n_major Mm Nn))
    as (st' & Hrun & Hwf' & HP & HE & HPt & HEt & Hdone).
  { apply Forall_forall. intros [m n] Hin. simpl. by apply elem_of_n_major. }
  exists st'. split; [exact Hrun|]. split; [exact Hwf'|].
  do 4 (split; [done|]). intros m n Hm Hn. specialize (Hdone m n Hm Hn).
  rewrite decide_True in Hdone by (apply elem_of_n_major; lia). exact Hdone.
Qed.

End Stage6.

(** ** The matrices of Algorithm 5 *)

Section Build.
Context {D : Type} {SD : Scalar D}.
Implicit Types (A : list (list D)) (wgt : list D).

Lemma mget_ok (h w : nat) A (i j : nat) :
  has_shape h w A -> i < h -> j < w ->
  is_ok (mget A (Z.of_nat i) (Z.of_nat j)).
Proof.
  intros HA Hi Hj. pose proof HA as [Hlen Hrows].
  destruct (lookup_lt_is_Some_2 A i ltac:(lia)) as [row Hrow].
  pose proof (has_shape_lookup _ _ _ _ _ HA Hrow) as Hw.
  destruct (lookup_lt_is_Some_2 row j ltac:(lia)) as [x Hx].
  exists x. unfold mget. rewrite (py_get_nat _ _ _ Hrow).
  cbn [mbind result_bind]. by apply py_get_nat.
Qed.

Lemma mset_ok (h w : nat) A (i j : nat) (v : D) :
  has_shape h w A -> i < h -> j < w ->
  exists A', mset A (Z.of_nat i) (Z.of_nat j) v = Ok A' /\ has_shape h w A'.
Proof.
  intros HA Hi Hj. pose proof HA as [Hlen Hrows].
  destruct (lookup_lt_is_Some_2 A i ltac:(lia)) as [row Hrow].
  pose proof (has_shape_lookup _ _ _ _ _ HA Hrow) as Hw.
  exists (<[i := <[j := v]> row]> A). split.
  - unfold mset. rewrite (py_get_nat _ _ _ Hrow). cbn [mbind result_bind].
    rewrite py_set_nat by lia. cbn [mbind result_bind].
    apply py_set_nat. lia.
  - apply has_shape_insert; [exact HA|]. by rewrite length_insert.
Qed.

(** The loops that fill [AbarF] return an [r] by [r] matrix. *)
Lemma build_AbarF_total (r : nat) wgt ArF :
  0 < length wgt -> has_shape r r ArF ->
  exists AbarF, build_AbarF r wgt ArF = Ok AbarF /\ has_shape r r AbarF.
Proof.
  intros Hw HArF. unfold build_AbarF.
  destruct (lookup_lt_is_Some_2 wgt 0 Hw) as [w0 Hw0].
  assert (Hg0 : py_get wgt 0%Z = Ok w0) by (by apply (py_get_nat wgt 0)).
  apply (foldM_range_inv (fun _ A => has_shape r r A)).
  - apply has_shape_zeros.
  - intros i A0 Hi HA0. unfold AbarF_outer. rewrite Hg0.
    cbn [mbind result_bind].
    destruct (mset_ok r r A0 i i w0 HA0 Hi Hi) as (A1 & -> & HA1).
    cbn [mbind result_bind].
    apply (foldM_inv (fun _ A => has_shape r r A)); [exact HA1|].
    intros done j rest A2 Hsplit HA2.
    assert (Hj : i + 1 <= j < r).
    { assert (Hin : j ∈ seq (i + 1) (r - (i + 1))).
      { rewrite Hsplit. apply elem_of_app. right. apply list_elem_of_here. }
      apply elem_of_seq in Hin. lia. }
    unfold AbarF_inner.
    replace (Z.of_nat j - Z.of_nat i - 1)%Z with (Z.of_nat (j - i - 1)) by lia.
    replace (Z.of_nat r - 1)%Z with (Z.of_nat (r - 1)) by lia.
    destruct (mget_ok r r ArF (j - i - 1) (r - 1) HArF ltac:(lia) ltac:(lia))
      as (a & ->).
    cbn [mbind result_bind]. rewrite Hg0. cbn [mbind result_bind].
    apply (mset_ok r r); [done | lia | lia].
Qed.

Lemma T_shape_min (h w r : nat) A :
  has_shape h w A -> 0 < r -> has_shape (r `min` h) w (T A r).
Proof.
  intros [Hlen Hrows] Hr. unfold T, py_tail.
  destruct (decide (r = 0)); [lia|]. split.
  - rewrite length_drop. lia.
  - by apply Forall_drop.
Qed.

Lemma H_shape_min (h w r : nat) A :
  has_shape h w A -> has_shape (r `min` h) w (H A r).
Proof.
  intros [Hlen Hrows]. unfold H, py_head. split.
  - rewrite length_take. lia.
  - by apply Forall_take.
Qed.

Lemma TT_shape_min (h w r : nat) A :
  has_shape h w A -> 0 < r -> has_shape h (r `min` w) (TT A r).
Proof.
  intros [Hlen Hrows] Hr. unfold TT, py_tail. split.
  - by rewrite length_map.
  - apply Forall_fmap. eapply Forall_impl; [exact Hrows|].
    intros row Hrow. cbv beta in Hrow. simpl.
    destruct (decide (r = 0)); [lia|]. rewrite length_drop. lia.
Qed.

Lemma HT_shape_min (h w r : nat) A :
  has_shape h w A -> has_shape h (r `min` w) (HT A r).
Proof.
  intros [Hlen Hrows]. unfold HT, py_head. split.
  - by rewrite length_map.
  - apply Forall_fmap. eapply Forall_impl; [exact Hrows|].
    intros row Hrow. cbv beta in Hrow. simpl. rewrite length_take. lia.
Qed.

Lemma flipud_shape (h w : nat) A : has_shape h w A -> has_shape h w (flipud A).
Proof.
  intros [Hlen Hrows]. unfold flipud. split.
  - by rewrite length_reverse.
  - by apply Forall_reverse.
Qed.

(** The pack of [build_alg5_matrices] and the shapes of its members. *)
Lemma build_alg5_matrices_total (b r width height : nat) wgt :
  0 < r <= b -> 0 < length wgt <= r + 1 -> 0 < width -> 0 < height ->
  exists matrices,
    build_alg5_matrices b r wgt width height = Ok matrices /\
    Forall2 (fun s A => has_shape s.1 s.2 A)
            (alg5_matrix_shapes b r width height) matrices.
Proof.
  intros Hr Hw Hwd Hht. unfold build_alg5_matrices.
  assert (Hlen : length wgt - 1 <= r) by lia.
  assert (Hw0 : 0 < length wgt) by lia.
  pose proof (has_shape_zeros r b) as HZrb.
  pose proof (has_shape_zeros b r) as HZbr.
  pose proof (identity_shape r) as HIr.
  pose proof (identity_shape b) as HIb.
  destruct (F_total b r r (identity r) (zeros b r) wgt)
    as (AFP & -> & HAFP); [done || lia..|].
  destruct (F_total b b r (zeros r b) (identity b) wgt)
    as (AFB & -> & HAFB); [done || lia..|].
  destruct (R_total b r r (zeros b r) (identity r) wgt)
    as (ARE & -> & HARE); [done || lia..|].
  destruct (R_total b b r (identity b) (zeros r b) wgt)
    as (ARB & -> & HARB); [done || lia..|].
  cbn [mbind result_bind].
  assert (HH : has_shape r b (H ARB r)) by (apply (H_shape b); [done | lia]).
  rewrite (np_dot_ok r b r (H ARB r) AFP) by done. cbn [mbind result_bind].
  rewrite (np_dot_ok r b b (H ARB r) AFB) by done. cbn [mbind result_bind].
  rewrite (np_dot_ok b b r ARB AFP) by done. cbn [mbind result_bind].
  assert (HArF : has_shape r r (H AFP r)) by (apply (H_shape b); [done | lia]).
  destruct (build_AbarF_total r wgt (H AFP r) Hw0 HArF) as (AbarF & -> & HAbarF).
  cbn [mbind result_bind].
  destruct (F_total width r r (identity r) (zeros width r) wgt)
    as (FIZ & -> & HFIZ); [apply has_shape_zeros || done || lia..|].
  destruct (R_total width r r (zeros width r) (identity r) wgt)
    as (RZI & -> & HRZI); [apply has_shape_zeros || done || lia..|].
  destruct (FT_total r height (identity r) (zeros r height) wgt)
    as (FTIZ & -> & HFTIZ);
    [apply has_shape_zeros | by apply (has_shape_long_rows r r) | lia |].
  destruct (RT_total r height (zeros r height) (identity r) wgt)
    as (RTZI & -> & HRTZI);
    [apply has_shape_zeros | by apply (has_shape_long_rows r r) | lia |].
  cbn [mbind result_bind].
  assert (HAbF : has_shape r r (T AFP r)) by (apply (T_shape b); [done | lia]).
  assert (HAbR : has_shape r r (H ARE r)) by (apply (H_shape b); [done | lia]).
  assert (Hd1 : has_shape r r (dot (H ARB r) AFP)).
  { apply (dot_shape r b r); [by destruct HH | done | lia]. }
  assert (Hd2 : has_shape r b (dot (H ARB r) AFB)).
  { apply (dot_shape r b b); [by destruct HH | done | lia]. }
  assert (Hd3 : has_shape b r (dot ARB AFP)).
  { apply (dot_shape b b r); [by destruct HARB | done | lia]. }
  eexists. split; [reflexivity|].
  unfold alg5_matrix_shapes.
  repeat (apply Forall2_cons; split); try apply Forall2_nil_2; cbn [fst snd];
    try done.
  - apply transpose_shape; [done | lia].
  - apply transpose_shape; [done | lia].
  - apply transpose_shape; [done | lia].
  - apply transpose_shape; [done | lia].
  - apply transpose_shape; [|lia]. apply (T_shape b); [done | lia].
  - by apply flipud_shape.
  - by apply flip_shape.
  - by apply flip_shape.
  - apply T_shape_min; [done | lia].
  - by apply H_shape_min.
  - apply TT_shape_min; [done | lia].
  - by apply HT_shape_min.
Qed.

(** X21.  [build_alg5_matrices] with [0 < r <= b], between one and [r + 1]
    weights and a positive [width] and [height] returns its 25 matrices, and
    each has the shape listed in [alg5_matrix_shapes]: the members used by
    the stages are [r] by [r], [b] by [r], [r] by [b] or [b] by [b], and
    only the last four depend on [width] and [height]. *)
Theorem build_alg5_matrices_returns (b r width height : nat) wgt :
  0 < r <= b -> 0 < length wgt <= r + 1 -> 0 < width -> 0 < height ->
  exists matrices,
    build_alg5_matrices b r wgt width height = Ok matrices /\
    length matrices = 25 /\
    Forall2 (fun s A => has_shape s.1 s.2 A)
            (alg5_matrix_shapes b r width height) matrices.
Proof.
  intros Hr Hw Hwd Hht.
  destruct (build_alg5_matrices_total b r width height wgt Hr Hw Hwd Hht)
    as (matrices & Hrun & Hshapes).
  exists matrices. split; [exact Hrun|]. split; [|exact Hshapes].
  apply Forall2_length in Hshapes. rewrite <- Hshapes. reflexivity.
Qed.

(** The seven matrices that stages 4 and 5 unpack. *)
Lemma build_alg5_matrices_stage45 (b r width height : nat) wgt
    (matrices : list (list (list D))) :
  0 < r <= b -> 0 < length wgt <= r + 1 -> 0 < width -> 0 < height ->
  build_alg5_matrices b r wgt width height = Ok matrices ->
  exists AbFT AbRT HARB_AFPT HARB_AFBT ARB_AFP TAFBT ARE,
    py_slice 9 16 matrices
    = [AbFT; AbRT; HARB_AFPT; HARB_AFBT; ARB_AFP; TAFBT; ARE] /\
    stage45_shapes r b AbFT AbRT HARB_AFPT HARB_AFBT ARB_AFP TAFBT ARE.
Proof.
  intros Hr Hw Hwd Hht Hrun.
  destruct (build_alg5_matrices_total b r width height wgt Hr Hw Hwd Hht)
    as (matrices' & Hrun' & Hshapes).
  assert (matrices' = matrices) as -> by congruence.
  unfold alg5_matrix_shapes in Hshapes.
  repeat (let A := fresh "A" in let HA := fresh "HA" in
          apply Forall2_cons_inv_l in Hshapes as (A & ? & HA & Hshapes & ->);
          cbn [fst snd] in HA).
  apply Forall2_nil_inv_l in Hshapes as ->.
  do 7 eexists. split; [reflexivity|]. unfold stage45_shapes. tauto.
Qed.

End Build.

(** ** The stages of Algorithm 5 in sequence *)

Section Pipeline.
Context {D : Type} {SD : Scalar D}.

(** X22.  Algorithm 5 end to end on an image of [M * b] by [N * b] cells
    with [0 < r <= b] and [r + 1] weights: [break_blocks], the two builders,
    stages 1, 2-3, 4-5 and 6 and [join_blocks] all return, each on the
    arrays the one before it left, and the joined image has the shape of the
    input. *)
Theorem alg5_stages_compose (garbage : nat -> nat -> D)
    (Mm Nn r b width height : nat) (wgt : list D) (X : list (list D)) :
  0 < r <= b -> length wgt = r + 1 -> 0 < width -> 0 < height ->
  0 < Mm -> has_shape (Mm * b) (Nn * b) X ->
  exists bl matrices st1 st2 st3 st4 Y,
    break_blocks X b None None = Ok bl /\
    build_alg5_matrices b r wgt width height = Ok matrices /\
    alg5_stage1 Mm Nn r wgt matrices
                (store_of bl (build_alg5_carries Mm Nn b r)) = Ok st1 /\
    alg5_stage23 Mm Nn matrices st1 = Ok st2 /\
    alg5_stage45 Mm Nn matrices st2 = Ok st3 /\
    alg5_stage6 Mm Nn wgt st3 = Ok st4 /\
    join_blocks garbage (blocks st4) b Mm Nn (Mm * b, Nn * b) = Ok Y /\
    has_shape (Mm * b) (Nn * b) Y.
Proof.
  intros Hr Hw Hwd Hht HM HX.
  assert (Hb : 0 < b) by lia.
  pose proof (break_blocks_exact_run Mm Nn b X Hb HM HX) as Hbreak.
  pose proof (exact_blocks_shape Mm Nn b X HX) as Hbl.
  set (bl := exact_blocks X b Mm Nn) in *.
  destruct (build_alg5_matrices_total b r width height wgt Hr ltac:(lia)
              Hwd Hht) as (matrices & Hbuild & _).
  set (st0 := store_of bl (build_alg5_carries Mm Nn b r)).
  pose proof (build_alg5_carries_wf Mm Nn r b bl Hbl) as Hwf0. fold st0 in Hwf0.
  assert (Hidx : Forall (fun mn : nat * nat => mn.1 < Mm /\ mn.2 < Nn)
                        (n_major Mm Nn)).
  { apply Forall_forall. intros [m n] Hin. simpl. by apply elem_of_n_major. }
  destruct (stage1_over Mm Nn r b wgt st0 (n_major Mm Nn) Hr Hw Hwf0 Hidx)
    as (st1 & Hrun1 & Hwf1 & _).
  destruct (build_alg5_matrices_stage23 b r width height wgt matrices
              Hr Hw Hbuild) as (AbF & AbR & HARB_AFP & Hpack & HA & HR & HH).
  destruct (alg5_stage23_spec Mm Nn r b AbF AbR HARB_AFP matrices st1
              Hwf1 ltac:(lia) Hpack HA HR HH) as (st2 & Hrun2 & Hwf2 & _).
  destruct (build_alg5_matrices_stage45 b r width height wgt matrices
              Hr ltac:(lia) Hwd Hht Hbuild)
    as (AbFT & AbRT & HARB_AFPT & HARB_AFBT & ARB_AFP & TAFBT & ARE
        & Hpack45 & Hshapes45).
  destruct (alg5_stage45_total Mm Nn r b AbFT AbRT HARB_AFPT HARB_AFBT
              ARB_AFP TAFBT ARE matrices st2 Hwf2 ltac:(lia) Hb Hpack45
              Hshapes45) as (st3 & Hrun3 & Hwf3 & _).
  destruct (stage6_over Mm Nn r b wgt st3 (n_major Mm Nn) ltac:(lia) Hb
              ltac:(lia) ltac:(lia) Hwf3 (NoDup_n_major Mm Nn) Hidx)
    as (st4 & Hrun4 & Hwf4 & _).
  destruct (join_blocks_grid garbage Mm Nn b (blocks st4)
              ltac:(by destruct Hwf4) Hb) as (Y & HY & HsY & _).
  exists bl, matrices, st1, st2, st3, st4, Y.
  split; [exact Hbreak|]. split; [exact Hbuild|].
  split.
  { unfold alg5_stage1.
    rewrite (build_alg5_matrices_zeros _ _ _ _ _ _ Hbuild). exact Hrun1. }
  split; [exact Hrun2|]. split; [exact Hrun3|]. split; [exact Hrun4|].
  split; [exact HY | exact HsY].
Qed.

End Pipeline.

(** ** Zero padding *)

Section Zero_padding.
Context {D : Type} {SD : Scalar D}.
Implicit Types (st : store (D := D)) (wgt : list D).

Lemma grid_block_replicate (rows cols : nat) (V : list (list D)) (m n : nat) :
  m < rows -> n < cols ->
  grid_block (replicate rows (replicate cols V)) m n = V.
Proof.
  intros Hm Hn. unfold grid_block.
  erewrite (nth_lookup_Some _ m); [|by apply lookup_replicate_2].
  apply nth_lookup_Some. by apply lookup_replicate_2.
Qed.

(** Stages 2 and 3 return, keep the shapes and leave the boundary slots
    [P[-1][n]] and [E[M][n]] as they were. *)
Lemma alg5_stage23_boundary (Mm Nn r b : nat)
    (AbF AbR HARB_AFP : list (list D)) (matrices : list (list (list D))) st :
  wf_store Mm Nn r b st -> 0 < r ->
  py_slice 6 9 matrices = [AbF; AbR; HARB_AFP] ->
  has_shape r r AbF -> has_shape r r AbR -> has_shape r r HARB_AFP ->
  exists st',
    alg5_stage23 Mm Nn matrices st = Ok st' /\ wf_store Mm Nn r b st' /\
    forall n, grid_block (P st') Mm n = grid_block (P st) Mm n /\
              grid_block (E st') Mm n = grid_block (E st) Mm n.
Proof.
  intros Hwf Hr Hpack HA HR HH. unfold alg5_stage23. rewrite Hpack.
  cbn [unpack3 mbind result_bind].
  apply (foldM_range_inv (fun _ s =>
           wf_store Mm Nn r b s /\
           forall n, grid_block (P s) Mm n = grid_block (P st) Mm n /\
                     grid_block (E s) Mm n = grid_block (E st) Mm n));
    [split; [exact Hwf | done]|].
  intros i s0 Hi [Hwf0 Hkeep].
  destruct (stage2_sweep_spec Mm Nn r b AbF s0 i Hwf0 Hr HA Hi)
    as (s1 & Hrun1 & Hwf1 & _ & HE1 & _ & _ & Hcols1 & Hrest1 & _).
  destruct (stage3_sweep_spec Mm Nn r b HARB_AFP AbR s1 i Hwf1 Hr HH HR Hi)
    as (s2 & Hrun2 & Hwf2 & HP2 & Hcols2 & Hlast2 & _).
  exists s2. split; [by rewrite Hrun1|]. split; [exact Hwf2|].
  intros n. destruct (Hkeep n) as [HkP HkE]. rewrite HP2.
  destruct (decide (n = i)) as [->|Hne].
  - by rewrite Hrest1, Hlast2, HE1 by lia.
  - by rewrite Hcols1, Hcols2, HE1 by done.
Qed.

(** Stages 1 to 5 from the carries of [build_alg5_carries]: the runs return
    and the four boundary rows and columns of slots still hold zeros. *)
Lemma alg5_boundary_carries (Mm Nn r b width height : nat) wgt
    (bl : list (list (list (list D)))) :
  0 < r <= b -> length wgt = r + 1 -> 0 < width -> 0 < height ->
  grid_shape Mm Nn b b bl ->
  exists matrices st1 st2 st3,
    build_alg5_matrices b r wgt width height = Ok matrices /\
    alg5_stage1 Mm Nn r wgt matrices
                (store_of bl (build_alg5_carries Mm Nn b r)) = Ok st1 /\
    alg5_stage23 Mm Nn matrices st1 = Ok st2 /\
    alg5_stage45 Mm Nn matrices st2 = Ok st3 /\
    wf_store Mm Nn r b st3 /\ blocks st3 = bl /\
    (forall n, n < Nn -> grid_block (P st3) Mm n = zeros r b /\
                         grid_block (E st3) Mm n = zeros r b) /\
    (forall m, m < Mm -> grid_block (Pt st3) m Nn = zeros b r /\
                         grid_block (Et st3) m Nn = zeros b r).
Proof.
  intros Hr Hw Hwd Hht Hbl.
  assert (Hb : 0 < b) by lia.
  destruct (build_alg5_matrices_total b r width height wgt Hr ltac:(lia)
              Hwd Hht) as (matrices & Hbuild & _).
  set (st0 := store_of bl (build_alg5_carries Mm Nn b r)).
  pose proof (build_alg5_carries_wf Mm Nn r b bl Hbl) as Hwf0. fold st0 in Hwf0.
  assert (Hidx : Forall (fun mn : nat * nat => mn.1 < Mm /\ mn.2 < Nn)
                        (n_major Mm Nn)).
  { apply Forall_forall. intros [m n] Hin. simpl. by apply elem_of_n_major. }
  destruct (stage1_over Mm Nn r b wgt st0 (n_major Mm Nn) Hr Hw Hwf0 Hidx)
    as (st1 & Hrun1 & Hwf1 & Hbl1 & Hslots).
  destruct (build_alg5_matrices_stage23 b r width height wgt matrices
              Hr Hw Hbuild) as (AbF & AbR & HARB_AFP & Hpack & HA & HR & HH).
  destruct (alg5_stage23_boundary Mm Nn r b AbF AbR HARB_AFP matrices st1
              Hwf1 ltac:(lia) Hpack HA HR HH) as (st2 & Hrun2 & Hwf2 & Hkeep2).
  destruct (build_alg5_matrices_stage45 b r width height wgt matrices
              Hr ltac:(lia) Hwd Hht Hbuild)
    as (AbFT & AbRT & HARB_AFPT & HARB_AFBT & ARB_AFP & TAFBT & ARE
        & Hpack45 & Hshapes45).
  destruct (alg5_stage45_total Mm Nn r b AbFT AbRT HARB_AFPT HARB_AFBT
              ARB_AFP TAFBT ARE matrices st2 Hwf2 ltac:(lia) Hb Hpack45
              Hshapes45) as (st3 & Hrun3 & Hwf3 & Hkeep3).
  destruct (alg5_stage23_frame _ _ _ _ _ Hrun2) as (Hbl2 & HPt2 & HEt2).
  destruct (alg5_stage45_frame _ _ _ _ _ Hrun3) as (Hbl3 & HP3 & HE3).
  exists matrices, st1, st2, st3.
  split; [exact Hbuild|].
  split.
  { unfold alg5_stage1.
    rewrite (build_alg5_matrices_zeros _ _ _ _ _ _ Hbuild). exact Hrun1. }
  split; [exact Hrun2|]. split; [exact Hrun3|]. split; [exact Hwf3|].
  split; [by rewrite Hbl3, Hbl2, Hbl1|].
  split.
  - intros n Hn. rewrite HP3, HE3. destruct (Hkeep2 n) as [-> ->].
    destruct (Hslots Mm n) as (HP & HE & _).
    rewrite decide_False in HP, HE by (rewrite elem_of_n_major; lia).
    rewrite HP, HE. unfold st0, store_of, build_alg5_carries.
    cbn [P E fst snd].
    split; apply grid_block_replicate; lia.
  - intros m Hm. destruct (Hkeep3 m) as [-> ->]. rewrite HPt2, HEt2.
    destruct (Hslots m Nn) as (_ & _ & HPt & HEt).
    rewrite decide_False in HPt, HEt by (rewrite elem_of_n_major; lia).
    rewrite HPt, HEt. unfold st0, store_of, build_alg5_carries.
    cbn [Pt Et fst snd].
    split; apply grid_block_replicate; lia.
Qed.

(** X24.  Zero padding: with the carries of [build_alg5_carries], stages 1
    to 6 return, and stage 6 computes block [(m, n)] of the output from the
    block of the input and the resolved carries of its four neighbours,
    with a zero prologue or epilogue in place of the neighbour wherever the
    block lies on the border of the image. *)
Theorem alg5_zero_padding (Mm Nn r b width height : nat) wgt
    (bl : list (list (list (list D)))) :
  0 < r <= b -> length wgt = r + 1 -> 0 < width -> 0 < height ->
  grid_shape Mm Nn b b bl ->
  exists matrices st1 st2 st3 st4,
    build_alg5_matrices b r wgt width height = Ok matrices /\
    alg5_stage1 Mm Nn r wgt matrices
                (store_of bl (build_alg5_carries Mm Nn b r)) = Ok st1 /\
    alg5_stage23 Mm Nn matrices st1 = Ok st2 /\
    alg5_stage45 Mm Nn matrices st2 = Ok st3 /\
    alg5_stage6 Mm Nn wgt st3 = Ok st4 /\
    forall m n, m < Mm -> n < Nn ->
      block_output wgt (grid_block bl m n)
        (if decide (m = 0) then zeros r b else grid_block (P st3) (m - 1) n)
        (if decide (m + 1 = Mm) then zeros r b
         else grid_block (E st3) (m + 1) n)
        (if decide (n = 0) then zeros b r else grid_block (Pt st3) m (n - 1))
        (if decide (n + 1 = Nn) then zeros b r
         else grid_block (Et st3) m (n + 1))
      = Ok (grid_block (blocks st4) m n).
Proof.
  intros Hr Hw Hwd Hht Hbl.
  destruct (alg5_boundary_carries Mm Nn r b width height wgt bl
              Hr Hw Hwd Hht Hbl)
    as (matrices & st1 & st2 & st3 & Hbuild & Hrun1 & Hrun2 & Hrun3 & Hwf3
        & Hbl3 & Hcols & Hrows).
  destruct (stage6_over Mm Nn r b wgt st3 (n_major Mm Nn) ltac:(lia)
              ltac:(lia) ltac:(lia) ltac:(lia) Hwf3 (NoDup_n_major Mm Nn))
    as (st4 & Hrun4 & _ & _ & _ & _ & _ & Hdone).
  { apply Forall_forall. intros [m n] Hin. simpl. by apply elem_of_n_major. }
  exists matrices, st1, st2, st3, st4.
  do 4 (split; [done|]). split; [exact Hrun4|].
  intros m n Hm Hn. specialize (Hdone m n Hm Hn).
  rewrite decide_True in Hdone by (apply elem_of_n_major; lia).
  rewrite Hbl3 in Hdone. unfold prev_row in Hdone.
  destruct (Hcols n Hn) as [HP HE]. destruct (Hrows m Hm) as [HPt HEt].
  assert (HP' : grid_block (P st3) (if decide (m = 0) then Mm else m - 1) n
                = (if decide (m = 0) then zeros r b
                   else grid_block (P st3) (m - 1) n))
    by (destruct (decide (m = 0)); [exact HP | reflexivity]).
  assert (HPt' : grid_block (Pt st3) m (if decide (n = 0) then Nn else n - 1)
                 = (if decide (n = 0) then zeros b r
                    else grid_block (Pt st3) m (n - 1)))
    by (destruct (decide (n = 0)); [exact HPt | reflexivity]).
  assert (HE' : grid_block (E st3) (m + 1) n
                = (if decide (m + 1 = Mm) then zeros r b
                   else grid_block (E st3) (m + 1) n)).
  { destruct (decide (m + 1 = Mm)) as [Heq|_]; [|reflexivity].
    rewrite Heq. exact HE. }
  assert (HEt' : grid_block (Et st3) m (n + 1)
                 = (if decide (n + 1 = Nn) then zeros b r
                    else grid_block (Et st3) m (n + 1))).
  { destruct (decide (n + 1 = Nn)) as [Heq|_]; [|reflexivity].
    rewrite Heq. exact HEt. }
  rewrite <- HP', <- HPt', <- HE', <- HEt'. exact Hdone.
Qed.

(** X25.  A single block: Algorithm 5 on a one-block image returns the
    block filtered by [F], [R], [FT] and [RT] in this order with zero
    prologues and epilogues, that is, the image filtered sequentially. *)
Theorem alg5_single_block (r b width height : nat) wgt (B : list (list D)) :
  0 < r <= b -> length wgt = r + 1 -> 0 < width -> 0 < height ->
  has_shape b b B ->
  exists matrices st1 st2 st3 st4 Y,
    build_alg5_matrices b r wgt width height = Ok matrices /\
    alg5_stage1 1 1 r wgt matrices
                (store_of [[B]] (build_alg5_carries 1 1 b r)) = Ok st1 /\
    alg5_stage23 1 1 matrices st1 = Ok st2 /\
    alg5_stage45 1 1 matrices st2 = Ok st3 /\
    alg5_stage6 1 1 wgt st3 = Ok st4 /\
    blocks st4 = [[Y]] /\
    block_output wgt B (zeros r b) (zeros r b) (zeros b r) (zeros b r) = Ok Y.
Proof.
  intros Hr Hw Hwd Hht HB.
  assert (Hbl : grid_shape 1 1 b b [[B]]).
  { split; [reflexivity|]. apply Forall_cons. split; [|constructor].
    split; [reflexivity|]. apply Forall_cons. split; [exact HB | constructor]. }
  destruct (alg5_boundary_carries 1 1 r b width height wgt [[B]]
              Hr Hw Hwd Hht Hbl)
    as (matrices & st1 & st2 & st3 & Hbuild & Hrun1 & Hrun2 & Hrun3 & Hwf3
        & Hbl3 & Hcols & Hrows).
  destruct (stage6_over 1 1 r b wgt st3 (n_major 1 1) ltac:(lia)
              ltac:(lia) ltac:(lia) ltac:(lia) Hwf3 (NoDup_n_major 1 1))
    as (st4 & Hrun4 & Hwf4 & _ & _ & _ & _ & Hdone).
  { apply Forall_forall. intros [m n] Hin. simpl. by apply elem_of_n_major. }
  exists matrices, st1, st2, st3, st4, (grid_block (blocks st4) 0 0).
  do 4 (split; [done|]). split; [exact Hrun4|].
  split.
  - destruct Hwf4 as ((Hlen & Hrowsok) & _).
    destruct (blocks st4) as [|row [|row' G]]; try discriminate Hlen.
    apply Forall_cons in Hrowsok as [[Hrow _] _].
    destruct row as [|Y [|Y' row]]; try discriminate Hrow. reflexivity.
  - specialize (Hdone 0 0 ltac:(lia) ltac:(lia)).
    rewrite decide_True in Hdone by (apply elem_of_n_major; lia).
    rewrite Hbl3 in Hdone. unfold prev_row in Hdone. simpl in Hdone.
    destruct (Hcols 0 ltac:(lia)) as [HP HE].
    destruct (Hrows 0 ltac:(lia)) as [HPt HEt].
    rewrite HP, HE, HPt, HEt in Hdone. exact Hdone.
Qed.

End Zero_padding.

(** ** Packs that are too short *)

Section Short_pack.
Context {D : Type} {SD : Scalar D}.

Lemma py_slice_short {A : Type} (lo hi : nat) (l : list A) :
  length l < hi -> length (py_slice lo hi l) < hi - lo \/ hi <= lo.
Proof.
  intros Hl. unfold py_slice. rewrite length_take, length_drop. lia.
Qed.

(** X27.  A stage handed a pack with too few matrices raises [ValueError]
    when it unpacks its slice: stage 1 needs two matrices, stages 2-3 nine
    and stages 4-5 sixteen. *)
Theorem stages_short_pack (m_size n_size r : nat) (wgt : list D)
    (matrices : list (list (list D))) (st : store (D := D)) :
  (length matrices < 2 ->
   alg5_stage1 m_size n_size r wgt matrices st = Err ValueError) /\
  (length matrices < 9 ->
   alg5_stage23 m_size n_size matrices st = Err ValueError) /\
  (length matrices < 16 ->
   alg5_stage45 m_size n_size matrices st = Err ValueError).
Proof.
  split; [|split]; intros Hl.
  - unfold alg5_stage1.
    destruct (py_slice_short 0 2 matrices Hl) as [Hs|]; [|lia].
    destruct (py_slice 0 2 matrices) as [|a [|b0 [|c l]]];
      simpl in Hs; try lia; reflexivity.
  - unfold alg5_stage23.
    destruct (py_slice_short 6 9 matrices Hl) as [Hs|]; [|lia].
    destruct (py_slice 6 9 matrices) as [|a [|b0 [|c [|d l]]]];
      simpl in Hs; try lia; reflexivity.
  - unfold alg5_stage45.
    destruct (py_slice_short 9 16 matrices Hl) as [Hs|]; [|lia].
    destruct (py_slice 9 16 matrices)
      as [|a [|b0 [|c [|d [|e [|f [|g [|h l]]]]]]]];
      simpl in Hs; try lia; reflexivity.
Qed.

End Short_pack.

(** ** Constant-padding extension, stages 2 and 3 *)

Section Cpe_stage23.
Context {D : Type} {SD : Scalar D}.
Implicit Types (st : store (D := D)).

Section Column.
Variables (Mm Nn r b : nat).
Variables (AbF AbR HARB_AFP SFAbarF SRFArF SRAbaR : list (list D)).
Hypothesis Hr : 0 < r.
Hypothesis HM : 0 < Mm.
Hypothesis HAbF : has_shape r r AbF.
Hypothesis HAbR : has_shape r r AbR.
Hypothesis HHARB : has_shape r r HARB_AFP.
Hypothesis HS1 : has_shape r r SFAbarF.
Hypothesis HS2 : has_shape r r SRFArF.
Hypothesis HS3 : has_shape r r SRAbaR.

Lemma dot_rr_shape (A X : list (list D)) :
  has_shape r r A -> has_shape r b X -> has_shape r b (dot A X).
Proof.
  intros HA HX. apply (dot_shape r r b); [by destruct HA | exact HX | exact Hr].
Qed.

(** One column of the CPE stages 2 and 3. *)
Lemma cpe_stage23_column_spec st (n : nat) :
  wf_store Mm Nn r b st -> n < Nn ->
  exists st',
    cpe_stage23_column Mm AbF AbR HARB_AFP SFAbarF SRFArF SRAbaR st n = Ok st' /\
    wf_store Mm Nn r b st' /\
    (forall m n', n' <> n ->
       grid_block (P st') m n' = grid_block (P st) m n' /\
       grid_block (E st') m n' = grid_block (E st) m n') /\
    cpe_column_done AbF AbR HARB_AFP SFAbarF SRFArF SRAbaR Mm st st' n.
Proof.
  intros Hwf Hn. pose proof Hwf as (_ & HP0 & HE0 & _).
  (* P[-1][n] *)
  destruct (grid_shape_slot _ _ _ _ _ Mm n HP0 ltac:(lia) Hn)
    as (_ & _ & _ & _ & Hp).
  pose proof (dot_rr_shape _ _ HS1 Hp) as HV1.
  set (V1 := dot SFAbarF (grid_block (P st) Mm n)) in *.
  destruct (upd_P_ok Mm Nn r b st Mm n V1 Hwf Hr ltac:(lia) Hn HV1)
    as [_ Hwf1].
  set (st1 := set_P st (grid_put (P st) Mm n V1)) in *.
  (* the forward sweep *)
  destruct (stage2_sweep_spec Mm Nn r b AbF st1 n Hwf1 Hr HAbF Hn)
    as (st2 & Hrun2 & Hwf2 & Hbl2 & HE2 & HPt2 & HEt2 & Hcols2 & Hrest2 & Hdone2).
  pose proof Hwf2 as (_ & HP2 & HEs2 & _).
  (* E[M][n] *)
  destruct (grid_shape_slot _ _ _ _ _ (Mm - 1) n HP2 ltac:(lia) Hn)
    as (_ & _ & _ & _ & Hp2).
  destruct (grid_shape_slot _ _ _ _ _ Mm n HEs2 ltac:(lia) Hn)
    as (_ & _ & _ & _ & He2).
  pose proof (dot_rr_shape _ _ HS2 Hp2) as Ha.
  pose proof (dot_rr_shape _ _ HS3 He2) as Hb.
  set (V3 := madd (dot SRFArF (grid_block (P st2) (Mm - 1) n))
                  (dot SRAbaR (grid_block (E st2) Mm n))) in *.
  assert (HV3 : has_shape r b V3) by (by apply madd_shape).
  destruct (upd_E_ok Mm Nn r b st2 Mm n V3 Hwf2 Hr ltac:(lia) Hn HV3)
    as [Hupd3 Hwf3].
  set (st3 := set_E st2 (grid_put (E st2) Mm n V3)) in *.
  (* the backward sweep *)
  destruct (stage3_sweep_spec Mm Nn r b HARB_AFP AbR st3 n Hwf3 Hr HHARB HAbR Hn)
    as (st4 & Hrun4 & Hwf4 & HP4 & Hcols4 & Hlast4 & Hrec4).
  exists st4. split.
  { unfold cpe_stage23_column.
    rewrite (get2_last Mm Nn r b) by done. cbn [mbind result_bind].
    rewrite (np_dot_ok r r b) by done. cbn [mbind result_bind].
    rewrite (upd_P_last_ok Mm Nn r b) by done. cbn [mbind result_bind].
    fold V1 st1. rewrite Hrun2. cbn [mbind result_bind].
    rewrite (get2_prev Mm Nn r b (P st2) Mm n) by (done || lia).
    unfold prev_row. destruct (decide (Mm = 0)) as [|_]; [lia|].
    cbn [mbind result_bind].
    rewrite (np_dot_ok r r b) by done. cbn [mbind result_bind].
    rewrite (get2_nat (Mm + 1) Nn r b (E st2) Mm n) by (done || lia).
    cbn [mbind result_bind].
    rewrite (np_dot_ok r r b SRAbaR) by done. cbn [mbind result_bind].
    rewrite (np_add_ok r b) by done. cbn [mbind result_bind].
    fold V3. rewrite Hupd3. cbn [mbind result_bind]. exact Hrun4. }
  split; [exact Hwf4|].
  assert (HP1 : forall m n', (m, n') <> (Mm, n) ->
            grid_block (P st1) m n' = grid_block (P st) m n').
  { intros m n' Hne. unfold st1. cbn [P set_P].
    by rewrite grid_block_put_ne by congruence. }
  assert (HE3 : forall m n', (m, n') <> (Mm, n) ->
            grid_block (E st3) m n' = grid_block (E st) m n').
  { intros m n' Hne. unfold st3. cbn [E set_E].
    rewrite grid_block_put_ne by congruence. by rewrite HE2. }
  assert (HP3 : P st3 = P st2) by reflexivity.
  split.
  { intros m n' Hne. rewrite HP4, HP3. split.
    - rewrite Hcols2 by done. apply HP1. congruence.
    - rewrite Hcols4 by done. apply HE3. congruence. }
  unfold cpe_column_done. rewrite HP4, HP3.
  split; [|split; [|split]].
  - rewrite Hrest2 by lia. unfold st1. cbn [P set_P].
    by rewrite (grid_block_put_eq (Mm + 1) Nn r b) by (done || lia).
  - intros m Hm. rewrite (Hdone2 m Hm). rewrite HP1; [reflexivity|].
    intros [=]. lia.
  - rewrite Hlast4. unfold st3. cbn [E set_E].
    rewrite (grid_block_put_eq (Mm + 1) Nn r b) by (done || lia).
    unfold V3. rewrite HE2. reflexivity.
  - intros m Hm. rewrite (Hrec4 m Hm). rewrite HP3.
    rewrite HE3; [reflexivity|]. intros [=]. lia.
Qed.

End Column.

(** X28.  The constant-padding stages 2 and 3 on well-shaped arrays with
    [r] by [r] matrices and at least one block row: the run returns, keeps
    the shapes, and in every column the boundary slot [P[-1][n]] is
    multiplied by [SFAbarF] (eqn. 13), the slots of [P] satisfy the forward
    recurrence of eqn. (24) from it, the boundary slot [E[M][n]] becomes
    [SRFArF * P[M-1][n] + SRAbaR * E[M][n]] (eqn. 22) with the resolved
    [P[M-1][n]], and the slots of [E] satisfy the backward recurrence of
    eqn. (34) from it. *)
Theorem alg5_cpe_stage23_sweeps (Mm Nn r b : nat)
    (AbF AbR HARB_AFP SFAbarF SRFArF SRAbaR : list (list D))
    (matrices cpe_matrices : list (list (list D))) st :
  wf_store Mm Nn r b st -> 0 < r -> 0 < Mm ->
  py_slice 6 9 matrices = [AbF; AbR; HARB_AFP] ->
  py_slice 0 3 cpe_matrices = [SFAbarF; SRFArF; SRAbaR] ->
  has_shape r r AbF -> has_shape r r AbR -> has_shape r r HARB_AFP ->
  has_shape r r SFAbarF -> has_shape r r SRFArF -> has_shape r r SRAbaR ->
  exists st',
    alg5_cpe_stage23 Mm Nn matrices cpe_matrices st = Ok st' /\
    wf_store Mm Nn r b st' /\
    forall n, n < Nn ->
      cpe_column_done AbF AbR HARB_AFP SFAbarF SRFArF SRAbaR Mm st st' n.
Proof.
  intros Hwf Hr HM Hpack Hcpe HA HR HH H1 H2 H3.
  unfold alg5_cpe_stage23. rewrite Hpack, Hcpe.
  cbn [unpack3 mbind result_bind].
  destruct (foldM_range_inv
    (fun i s => wf_store Mm Nn r b s /\
       (forall m n, i <= n -> grid_block (P s) m n = grid_block (P st) m n /\
                              grid_block (E s) m n = grid_block (E st) m n) /\
       (forall n, n < i ->
          cpe_column_done AbF AbR HARB_AFP SFAbarF SRFArF SRAbaR Mm st s n))
    (cpe_stage23_column Mm AbF AbR HARB_AFP SFAbarF SRFArF SRAbaR) Nn st)
    as (st' & Hrun & Hwf' & _ & Hdone).
  - split; [exact Hwf|]. split; [done|]. intros n Hn. lia.
  - intros i s0 Hi (Hwf0 & Hrest & Hdone).
    destruct (cpe_stage23_column_spec Mm Nn r b AbF AbR HARB_AFP
                SFAbarF SRFArF SRAbaR Hr HM HA HR HH H1 H2 H3 s0 i Hwf0 Hi)
      as (s1 & Hrun1 & Hwf1 & Hcols & HP & HPrec & HE & HErec).
    exists s1. split; [exact Hrun1|]. split; [exact Hwf1|]. split.
    + intros m n Hn. destruct (Hcols m n ltac:(lia)) as [-> ->].
      apply Hrest. lia.
    + intros n Hn. destruct (decide (n = i)) as [->|Hne].
      * unfold cpe_column_done.
        destruct (Hrest Mm i ltac:(lia)) as [HbP HbE].
        split; [by rewrite HP, HbP|].
        split.
        { intros m Hm. rewrite (HPrec m Hm).
          by destruct (Hrest m i ltac:(lia)) as [-> _]. }
        split; [by rewrite HE, HbE|].
        intros m Hm. rewrite (HErec m Hm).
        by destruct (Hrest m i ltac:(lia)) as [_ ->].
      * destruct (Hdone n ltac:(lia)) as (HP' & HPrec' & HE' & HErec').
        pose proof (fun m => proj1 (Hcols m n Hne)) as HcP.
        pose proof (fun m => proj2 (Hcols m n Hne)) as HcE.
        unfold cpe_column_done. rewrite !HcP, !HcE.
        split; [exact HP'|]. split.
        { intros m Hm. rewrite !HcP. by apply HPrec'. }
        split; [exact HE'|].
        intros m Hm. rewrite !HcP, !HcE. by apply HErec'.
  - exists st'. split; [exact Hrun|]. split; [exact Hwf'|]. exact Hdone.
Qed.

End Cpe_stage23.

(** ** Constant-padding extension, stages 4 and 5 *)

Section Cpe_stage45.
Context {D : Type} {SD : Scalar D}.
Implicit Types (st : store (D := D)).

Lemma upd_Pt_last_ok (Mm Nn r b : nat) st (m : nat) (V : list (list D)) :
  wf_store Mm Nn r b st -> 0 < b -> m < Mm -> has_shape b r V ->
  upd_Pt st (Z.of_nat m) (-1) V = Ok (set_Pt st (grid_put (Pt st) m Nn V)).
Proof.
  intros (Hbl & HP & HE & HPt & HEt) Hb Hm HV.
  unfold upd_Pt. by rewrite (set2_last_col Mm Nn b r) by done.
Qed.

Section Row.
Variables (Mm Nn r b : nat).
Variables (AbFT AbRT HARB_AFPT HARB_AFBT ARB_AFP TAFBT ARE : list (list D)).
Variables (AbarFSFT ArFSRFT AbarFSFSRAbaRSRFArFT : list (list D)).
Hypothesis Hr : 0 < r.
Hypothesis Hb : 0 < b.
Hypothesis HN : 0 < Nn.
Hypothesis Hshapes :
  stage45_shapes r b AbFT AbRT HARB_AFPT HARB_AFBT ARB_AFP TAFBT ARE.
Hypothesis HC1 : has_shape r r AbarFSFT.
Hypothesis HC2 : has_shape r r ArFSRFT.
Hypothesis HC3 : has_shape r r AbarFSFSRAbaRSRFArFT.

(** A boundary slot corrected with two corner matrices. *)
Lemma corner_fix_shape (X c1 c2 : list (list D)) :
  has_shape b r X -> has_shape r r c1 -> has_shape r r c2 ->
  np_dot ARB_AFP c1 = Ok (dot ARB_AFP c1) /\
  np_add X (dot ARB_AFP c1) = Ok (madd X (dot ARB_AFP c1)) /\
  np_dot ARE c2 = Ok (dot ARE c2) /\
  np_add (madd X (dot ARB_AFP c1)) (dot ARE c2)
  = Ok (madd (madd X (dot ARB_AFP c1)) (dot ARE c2)) /\
  has_shape b r (madd (madd X (dot ARB_AFP c1)) (dot ARE c2)).
Proof.
  intros HX H1 H2.
  destruct Hshapes as (_ & _ & _ & _ & HARB & _ & HARE).
  assert (Hd1 : has_shape b r (dot ARB_AFP c1))
    by (apply (dot_shape b r r); [by destruct HARB | exact H1 | exact Hr]).
  assert (Hd2 : has_shape b r (dot ARE c2))
    by (apply (dot_shape b r r); [by destruct HARE | exact H2 | exact Hr]).
  assert (Hs : has_shape b r (madd X (dot ARB_AFP c1)))
    by (by apply madd_shape).
  split; [by apply (np_dot_ok b r r)|].
  split; [by apply (np_add_ok b r)|].
  split; [by apply (np_dot_ok b r r)|].
  split; [by apply (np_add_ok b r) | by apply madd_shape].
Qed.

Lemma corner_w_shape (V : list (list D)) :
  has_shape r b V -> has_shape r r (tile_cols (HT V 1) r).
Proof.
  intros HV. apply tile_cols_shape. apply (HT_shape r b); [exact HV | lia].
Qed.

Lemma corner_e_shape (V : list (list D)) :
  has_shape r b V -> has_shape r r (tile_cols (TT V 1) r).
Proof.
  intros HV. apply tile_cols_shape. apply (TT_shape r b); [exact HV | lia].
Qed.

(** One row of the CPE stages 4 and 5. *)
Lemma cpe_stage45_row_spec st (m : nat) :
  wf_store Mm Nn r b st -> m < Mm ->
  exists st',
    cpe_stage45_row Nn r AbFT AbRT HARB_AFPT HARB_AFBT ARB_AFP TAFBT ARE
                    AbarFSFT ArFSRFT AbarFSFSRAbaRSRFArFT st m = Ok st' /\
    wf_store Mm Nn r b st' /\ P st' = P st /\ E st' = E st /\
    (forall m' n, m' <> m ->
       grid_block (Pt st') m' n = grid_block (Pt st) m' n /\
       grid_block (Et st') m' n = grid_block (Et st) m' n) /\
    cpe_row_done AbFT AbRT HARB_AFPT HARB_AFBT ARB_AFP TAFBT ARE
                 AbarFSFT ArFSRFT AbarFSFSRAbaRSRFArFT Mm Nn r st st' m.
Proof.
  intros Hwf Hm. pose proof Hwf as (_ & HP0 & HE0 & HPt0 & HEt0).
  assert (Hprev : prev_row Mm m < Mm + 1)
    by (unfold prev_row; destruct (decide (m = 0)); lia).
  set (Pm := fun n => grid_block (P st) (prev_row Mm m) n).
  set (Em := fun n => grid_block (E st) (m + 1) n).
  assert (HPm : forall n, n < Nn -> has_shape r b (Pm n)).
  { intros n Hn. unfold Pm.
    by destruct (grid_shape_slot _ _ _ _ _ (prev_row Mm m) n HP0 Hprev Hn)
      as (_ & _ & _ & _ & ?). }
  assert (HEm : forall n, n < Nn -> has_shape r b (Em n)).
  { intros n Hn. unfold Em.
    by destruct (grid_shape_slot _ _ _ _ _ (m + 1) n HE0 ltac:(lia) Hn)
      as (_ & _ & _ & _ & ?). }
  (* the boundary slot of Pt *)
  destruct (grid_shape_slot _ _ _ _ _ m Nn HPt0 Hm ltac:(lia))
    as (_ & _ & _ & _ & Hpt).
  set (cnw := tile_cols (HT (Pm 0) 1) r).
  set (csw := tile_cols (HT (Em 0) 1) r).
  destruct (corner_fix_shape (grid_block (Pt st) m Nn) cnw csw Hpt
              (corner_w_shape _ (HPm 0 HN)) (corner_w_shape _ (HEm 0 HN)))
    as (Hd1 & Ha1 & Hd2 & Ha2 & HV1).
  set (V1 := madd (madd (grid_block (Pt st) m Nn) (dot ARB_AFP cnw))
                  (dot ARE csw)) in *.
  destruct (upd_Pt_ok Mm Nn r b st m Nn V1 Hwf Hb Hm ltac:(lia) HV1)
    as [_ Hwf1].
  set (st1 := set_Pt st (grid_put (Pt st) m Nn V1)) in *.
  pose proof Hwf1 as (_ & _ & _ & HPt1 & _).
  assert (Hg1 : grid_block (Pt st1) m Nn = V1).
  { unfold st1. cbn [Pt set_Pt].
    by rewrite (grid_block_put_eq Mm (Nn + 1) b r) by (done || lia). }
  assert (HV2 : has_shape b r (dot V1 AbarFSFT))
    by (apply (dot_shape b r r); [by destruct HV1 | exact HC1 | exact Hr]).
  set (V2 := dot V1 AbarFSFT) in *.
  destruct (upd_Pt_ok Mm Nn r b st1 m Nn V2 Hwf1 Hb Hm ltac:(lia) HV2)
    as [_ Hwf2].
  set (st2 := set_Pt st1 (grid_put (Pt st1) m Nn V2)) in *.
  (* the forward sweep *)
  destruct (stage4_sweep_spec Mm Nn r b AbFT AbRT HARB_AFPT HARB_AFBT
              ARB_AFP TAFBT ARE Hr Hb Hshapes st2 m Hwf2 Hm)
    as (st3 & Hrun3 & Hwf3 & _ & HP3 & HE3 & HEt3 & Hrows3 & Hlast3 & Hrec3).
  pose proof Hwf3 as (_ & HPs3 & HEs3 & HPt3 & HEts3).
  assert (HP3' : P st3 = P st) by (rewrite HP3; reflexivity).
  assert (HE3' : E st3 = E st) by (rewrite HE3; reflexivity).
  assert (HEt3' : Et st3 = Et st) by (rewrite HEt3; reflexivity).
  (* the boundary slot of Et *)
  destruct (grid_shape_slot _ _ _ _ _ m Nn HEt0 Hm ltac:(lia))
    as (_ & _ & _ & _ & Het).
  set (cne := tile_cols (TT (Pm (Nn - 1)) 1) r).
  set (cse := tile_cols (TT (Em (Nn - 1)) 1) r).
  destruct (corner_fix_shape (grid_block (Et st) m Nn) cne cse Het
              (corner_e_shape _ (HPm (Nn - 1) ltac:(lia)))
              (corner_e_shape _ (HEm (Nn - 1) ltac:(lia))))
    as (Hd3 & Ha3 & Hd4 & Ha4 & HV4).
  set (V4 := madd (madd (grid_block (Et st) m Nn) (dot ARB_AFP cne))
                  (dot ARE cse)) in *.
  destruct (upd_Et_ok Mm Nn r b st3 m Nn V4 Hwf3 Hb Hm ltac:(lia) HV4)
    as [Hupd4 Hwf4].
  set (st4 := set_Et st3 (grid_put (Et st3) m Nn V4)) in *.
  pose proof Hwf4 as (_ & _ & _ & HPt4 & HEt4).
  assert (Hg4 : grid_block (Et st4) m Nn = V4).
  { unfold st4. cbn [Et set_Et].
    by rewrite (grid_block_put_eq Mm (Nn + 1) b r) by (done || lia). }
  destruct (grid_shape_slot _ _ _ _ _ m (Nn - 1) HPt3 Hm ltac:(lia))
    as (_ & _ & _ & _ & Hptl).
  assert (Hda : has_shape b r (dot (grid_block (Pt st3) m (Nn - 1)) ArFSRFT))
    by (apply (dot_shape b r r); [by destruct Hptl | exact HC2 | exact Hr]).
  assert (Hdb : has_shape b r (dot V4 AbarFSFSRAbaRSRFArFT))
    by (apply (dot_shape b r r); [by destruct HV4 | exact HC3 | exact Hr]).
  set (V5 := madd (dot (grid_block (Pt st3) m (Nn - 1)) ArFSRFT)
                  (dot V4 AbarFSFSRAbaRSRFArFT)) in *.
  assert (HV5 : has_shape b r V5) by (by apply madd_shape).
  destruct (upd_Et_ok Mm Nn r b st4 m Nn V5 Hwf4 Hb Hm ltac:(lia) HV5)
    as [Hupd5 Hwf5].
  set (st5 := set_Et st4 (grid_put (Et st4) m Nn V5)) in *.
  (* the backward sweep *)
  destruct (stage5_sweep_spec Mm Nn r b AbFT AbRT HARB_AFPT HARB_AFBT
              ARB_AFP TAFBT ARE Hr Hb Hshapes st5 m Hwf5 Hm)
    as (st6 & Hrun6 & Hwf6 & _ & HP6 & HE6 & HPt6 & Hrows6 & Hlast6 & Hrec6).
  assert (G1 : get2 (P st) (Z.of_nat m - 1) 0 = Ok (Pm 0))
    by exact (get2_prev Mm Nn r b (P st) m 0 HP0 ltac:(lia) HN).
  assert (G2 : get2 (E st) (Z.of_nat (m + 1)) 0 = Ok (Em 0))
    by exact (get2_nat (Mm + 1) Nn r b (E st) (m + 1) 0 HE0 ltac:(lia) HN).
  exists st6. split.
  { unfold cpe_stage45_row. cbv zeta.
    rewrite G1. cbn [mbind result_bind].
    replace (Z.of_nat m + 1)%Z with (Z.of_nat (m + 1)) by lia.
    rewrite G2. cbn [mbind result_bind].
    rewrite (get2_last_col Mm Nn b r) by done. cbn [mbind result_bind].
    fold cnw csw.
    rewrite Hd1. cbn [mbind result_bind]. rewrite Ha1.
    cbn [mbind result_bind]. rewrite Hd2. cbn [mbind result_bind].
    rewrite Ha2. cbn [mbind result_bind]. fold V1.
    rewrite (upd_Pt_last_ok Mm Nn r b) by done. cbn [mbind result_bind].
    fold st1. rewrite (get2_last_col Mm Nn b r) by done.
    cbn [mbind result_bind]. rewrite Hg1.
    rewrite (np_dot_ok b r r) by done. cbn [mbind result_bind]. fold V2.
    rewrite (upd_Pt_last_ok Mm Nn r b) by done. cbn [mbind result_bind].
    fold st2. rewrite Hrun3. cbn [mbind result_bind].
    replace (Z.of_nat Nn - 1)%Z with (Z.of_nat (Nn - 1)) by lia.
    rewrite (get2_prev Mm Nn r b (P st3) m (Nn - 1)) by (done || lia).
    cbn [mbind result_bind].
    rewrite (get2_nat (Mm + 1) Nn r b (E st3) (m + 1) (Nn - 1))
      by (done || lia).
    cbn [mbind result_bind].
    rewrite (get2_nat Mm (Nn + 1) b r (Et st3) m Nn) by (done || lia).
    cbn [mbind result_bind].
    rewrite HP3', HE3', HEt3'.
    change (grid_block (P st) (prev_row Mm m) (Nn - 1)) with (Pm (Nn - 1)).
    change (grid_block (E st) (m + 1) (Nn - 1)) with (Em (Nn - 1)).
    fold cne cse.
    rewrite Hd3. cbn [mbind result_bind]. rewrite Ha3.
    cbn [mbind result_bind]. rewrite Hd4. cbn [mbind result_bind].
    rewrite Ha4. cbn [mbind result_bind]. fold V4.
    rewrite Hupd4. cbn [mbind result_bind]. fold st4.
    rewrite (get2_nat Mm (Nn + 1) b r (Pt st4) m (Nn - 1)) by (done || lia).
    cbn [mbind result_bind].
    change (Pt st4) with (Pt st3).
    rewrite (np_dot_ok b r r _ ArFSRFT) by done. cbn [mbind result_bind].
    rewrite (get2_nat Mm (Nn + 1) b r (Et st4) m Nn) by (done || lia).
    cbn [mbind result_bind]. rewrite Hg4.
    rewrite (np_dot_ok b r r V4) by done. cbn [mbind result_bind].
    rewrite (np_add_ok b r) by done. cbn [mbind result_bind]. fold V5.
    rewrite Hupd5. cbn [mbind result_bind]. exact Hrun6. }
  split; [exact Hwf6|].
  split; [by rewrite HP6|]. split; [by rewrite HE6|].
  assert (HPt2 : forall m' n, (m', n) <> (m, Nn) ->
            grid_block (Pt st2) m' n = grid_block (Pt st) m' n).
  { intros m' n Hne. unfold st2, st1. cbn [Pt set_Pt].
    by rewrite !grid_block_put_ne by congruence. }
  assert (HEt5 : forall m' n, (m', n) <> (m, Nn) ->
            grid_block (Et st5) m' n = grid_block (Et st) m' n).
  { intros m' n Hne. unfold st5, st4. cbn [Et set_Et].
    rewrite !grid_block_put_ne by congruence. by rewrite HEt3'. }
  assert (HPt5 : Pt st5 = Pt st3) by reflexivity.
  assert (HP5 : P st5 = P st) by exact HP3'.
  assert (HE5 : E st5 = E st) by exact HE3'.
  split.
  { intros m' n Hne. rewrite HPt6, HPt5. split.
    - rewrite Hrows3 by done. apply HPt2. congruence.
    - rewrite Hrows6 by done. apply HEt5. congruence. }
  unfold cpe_row_done. cbv zeta. fold Pm Em. rewrite HPt6, HPt5.
  split; [|split; [|split]].
  - rewrite Hlast3. unfold st2. cbn [Pt set_Pt].
    by rewrite (grid_block_put_eq Mm (Nn + 1) b r) by (done || lia).
  - intros n Hn. rewrite (Hrec3 n Hn).
    rewrite HPt2 by (intros [=]; lia). reflexivity.
  - rewrite Hlast6. unfold st5. cbn [Et set_Et].
    by rewrite (grid_block_put_eq Mm (Nn + 1) b r) by (done || lia).
  - intros n Hn. rewrite (Hrec6 n Hn). rewrite HP5, HE5, HPt5.
    rewrite HEt5 by (intros [=]; lia). reflexivity.
Qed.

End Row.

(** X29.  The constant-padding stages 4 and 5 on well-shaped arrays and
    matrices with at least one block column: the run returns, keeps the
    shapes, and in every row of blocks the boundary slot [Pt[m][-1]] is
    corrected with the replicated first columns of [P[m-1][0]] and
    [E[m+1][0]] and multiplied by [AbarFSFT], the slots of [Pt] satisfy eqn.
    (37) from it, the boundary slot [Et[m][N]] is corrected with the
    replicated last columns of [P[m-1][N-1]] and [E[m+1][N-1]] and combined
    with the resolved [Pt[m][N-1]], and the slots of [Et] satisfy eqn. (39)
    from it. *)
Theorem alg5_cpe_stage45_sweeps (Mm Nn r b : nat)
    (AbFT AbRT HARB_AFPT HARB_AFBT ARB_AFP TAFBT ARE : list (list D))
    (AbarFSFT ArFSRFT AbarFSFSRAbaRSRFArFT : list (list D))
    (matrices cpe_matrices : list (list (list D))) st :
  wf_store Mm Nn r b st -> 0 < r -> 0 < b -> 0 < Nn ->
  py_slice 9 16 matrices
  = [AbFT; AbRT; HARB_AFPT; HARB_AFBT; ARB_AFP; TAFBT; ARE] ->
  drop 3 cpe_matrices = [AbarFSFT; ArFSRFT; AbarFSFSRAbaRSRFArFT] ->
  stage45_shapes r b AbFT AbRT HARB_AFPT HARB_AFBT ARB_AFP TAFBT ARE ->
  has_shape r r AbarFSFT -> has_shape r r ArFSRFT ->
  has_shape r r AbarFSFSRAbaRSRFArFT ->
  exists st',
    alg5_cpe_stage45 Mm Nn r matrices cpe_matrices st = Ok st' /\
    wf_store Mm Nn r b st' /\
    forall m, m < Mm ->
      cpe_row_done AbFT AbRT HARB_AFPT HARB_AFBT ARB_AFP TAFBT ARE
                   AbarFSFT ArFSRFT AbarFSFSRAbaRSRFArFT Mm Nn r st st' m.
Proof.
  intros Hwf Hr Hb HN Hpack Hcpe Hshapes H1 H2 H3.
  unfold alg5_cpe_stage45. rewrite Hpack, Hcpe.
  cbn [unpack7 unpack3 mbind result_bind].
  destruct (foldM_range_inv
    (fun i s => wf_store Mm Nn r b s /\ P s = P st /\ E s = E st /\
       (forall m n, i <= m ->
          grid_block (Pt s) m n = grid_block (Pt st) m n /\
          grid_block (Et s) m n = grid_block (Et st) m n) /\
       (forall m, m < i ->
          cpe_row_done AbFT AbRT HARB_AFPT HARB_AFBT ARB_AFP TAFBT ARE
                       AbarFSFT ArFSRFT AbarFSFSRAbaRSRFArFT Mm Nn r st s m))
    (cpe_stage45_row Nn r AbFT AbRT HARB_AFPT HARB_AFBT ARB_AFP TAFBT ARE
                     AbarFSFT ArFSRFT AbarFSFSRAbaRSRFArFT) Mm st)
    as (st' & Hrun & Hwf' & _ & _ & _ & Hdone).
  - split; [exact Hwf|]. do 3 (split; [done|]). intros m Hm. lia.
  - intros i s0 Hi (Hwf0 & HP0 & HE0 & Hrest & Hdone).
    destruct (cpe_stage45_row_spec Mm Nn r b AbFT AbRT HARB_AFPT HARB_AFBT
                ARB_AFP TAFBT ARE AbarFSFT ArFSRFT AbarFSFSRAbaRSRFArFT
                Hr Hb HN Hshapes H1 H2 H3 s0 i Hwf0 Hi)
      as (s1 & Hrun1 & Hwf1 & HP1 & HE1 & Hrows & Hrow).
    exists s1. split; [exact Hrun1|]. split; [exact Hwf1|].
    split; [congruence|]. split; [congruence|]. split.
    + intros m n Hm. destruct (Hrows m n ltac:(lia)) as [-> ->].
      apply Hrest. lia.
    + intros m Hm. destruct (decide (m = i)) as [->|Hne].
      * unfold cpe_row_done in *. cbv zeta in *.
        rewrite HP0, HE0 in Hrow.
        destruct Hrow as (Hb1 & Hr1 & Hb2 & Hr2).
        pose proof (fun n => proj1 (Hrest i n ltac:(lia))) as HkP.
        pose proof (fun n => proj2 (Hrest i n ltac:(lia))) as HkE.
        rewrite HkP in Hb1. rewrite HkE in Hb2.
        split; [exact Hb1|]. split.
        { intros n Hn. rewrite (Hr1 n Hn). by rewrite HkP. }
        split; [exact Hb2|].
        intros n Hn. rewrite (Hr2 n Hn). by rewrite HkE.
      * pose proof (Hdone m ltac:(lia)) as Hold.
        pose proof (fun n => proj1 (Hrows m n Hne)) as HcP.
        pose proof (fun n => proj2 (Hrows m n Hne)) as HcE.
        unfold cpe_row_done in *. cbv zeta in *.
        destruct Hold as (Hb1 & Hr1 & Hb2 & Hr2).
        rewrite !HcP, !HcE.
        split; [exact Hb1|]. split.
        { intros n Hn. rewrite !HcP. by apply Hr1. }
        split; [exact Hb2|].
        intros n Hn. rewrite !HcP, !HcE. by apply Hr2.
  - exists st'. split; [exact Hrun|]. split; [exact Hwf'|]. exact Hdone.
Qed.

End Cpe_stage45.

(** ** Periodic extension, stages 4 and 5 *)

Section Pe_stage45.
Context {D : Type} {SD : Scalar D}.
Implicit Types (st : store (D := D)).

(** A loop whose iterations all return is a fold. *)
Lemma foldM_fold_left {S X : Type} (I : S -> Prop)
    (f : S -> X -> result S) (g : S -> X -> S) (xs : list X) (s : S) :
  I s ->
  (forall x s0, x ∈ xs -> I s0 -> f s0 x = Ok (g s0 x) /\ I (g s0 x)) ->
  foldM f xs s = Ok (fold_left g xs s) /\ I (fold_left g xs s).
Proof.
  revert s. induction xs as [|x xs IH]; intros s Hs Hstep; simpl.
  - split; [reflexivity | exact Hs].
  - destruct (Hstep x s (list_elem_of_here _ _) Hs) as [-> Hg]. simpl.
    apply IH; [exact Hg|].
    intros y s0 Hy. apply Hstep. by apply list_elem_of_further.
Qed.

Section Row.
Variables (Mm Nn r b : nat).
Variables (AbFT AbRT HARB_AFPT HARB_AFBT ARB_AFP TAFBT ARE : list (list D)).
Variables (Zbr IAwF IAwR : list (list D)).
Hypothesis Hr : 0 < r.
Hypothesis Hb : 0 < b.
Hypothesis Hshapes :
  stage45_shapes r b AbFT AbRT HARB_AFPT HARB_AFBT ARB_AFP TAFBT ARE.
Hypothesis HZ : has_shape b r Zbr.
Hypothesis HI1 : has_shape r r IAwF.
Hypothesis HI2 : has_shape r r IAwR.

(** One row of the PE stages 4 and 5. *)
Lemma pe_stage45_row_spec st (m : nat) :
  wf_store Mm Nn r b st -> m < Mm ->
  exists st',
    pe_stage45_row Nn AbFT AbRT HARB_AFPT HARB_AFBT ARB_AFP TAFBT ARE
                   Zbr IAwF IAwR st m = Ok st' /\
    wf_store Mm Nn r b st' /\ P st' = P st /\ E st' = E st /\
    (forall m' n, m' <> m ->
       grid_block (Pt st') m' n = grid_block (Pt st) m' n /\
       grid_block (Et st') m' n = grid_block (Et st) m' n) /\
    pe_row_done AbFT AbRT HARB_AFPT HARB_AFBT ARB_AFP TAFBT ARE
                Zbr IAwF IAwR Mm Nn st st' m.
Proof.
  intros Hwf Hm. pose proof Hwf as (_ & HP0 & HE0 & HPt0 & HEt0).
  assert (Hprev : prev_row Mm m < Mm + 1)
    by (unfold prev_row; destruct (decide (m = 0)); lia).
  set (Pm := fun n => grid_block (P st) (prev_row Mm m) n).
  set (Em := fun n => grid_block (E st) (m + 1) n).
  assert (HPm : forall n, n < Nn -> has_shape r b (Pm n)).
  { intros n Hn. unfold Pm.
    by destruct (grid_shape_slot _ _ _ _ _ (prev_row Mm m) n HP0 Hprev Hn)
      as (_ & _ & _ & _ & ?). }
  assert (HEm : forall n, n < Nn -> has_shape r b (Em n)).
  { intros n Hn. unfold Em.
    by destruct (grid_shape_slot _ _ _ _ _ (m + 1) n HE0 ltac:(lia) Hn)
      as (_ & _ & _ & _ & ?). }
  (* the accumulator of eqn. (37) *)
  set (acc1 := pe_row_accumulate_Pt ARB_AFP ARE TAFBT AbFT Zbr
                 (fun n => grid_block (Pt st) m n) Pm Em Nn).
  destruct (foldM_fold_left (has_shape b r)
    (fun PtNU n =>
       eqn37 ARB_AFP ARE TAFBT AbFT
         (get2 (Pt st) (Z.of_nat m) (Z.of_nat n))
         (get2 (P st) (Z.of_nat m - 1) (Z.of_nat n))
         (get2 (E st) (Z.of_nat m + 1) (Z.of_nat n)) (Ok PtNU))
    (fun acc n => eqn37_value ARB_AFP ARE TAFBT AbFT
                    (grid_block (Pt st) m n) (Pm n) (Em n) acc)
    (range Nn) Zbr HZ) as [Hacc1 Hsacc1].
  { intros n acc Hn Hacc. apply elem_of_seq in Hn.
    rewrite (get2_nat Mm (Nn + 1) b r) by (done || lia).
    rewrite (get2_prev Mm Nn r b) by (done || lia).
    replace (Z.of_nat m + 1)%Z with (Z.of_nat (m + 1)) by lia.
    rewrite (get2_nat (Mm + 1) Nn r b (E st) (m + 1)) by (done || lia).
    destruct (grid_shape_slot _ _ _ _ _ m n HPt0 Hm ltac:(lia))
      as (_ & _ & _ & _ & HX).
    apply (eqn37_ok r b AbFT AbRT HARB_AFPT HARB_AFBT ARB_AFP TAFBT ARE);
      try done; [apply HPm | apply HEm]; lia. }
  change (fold_left _ (range Nn) Zbr) with acc1 in Hacc1, Hsacc1.
  assert (HV1 : has_shape b r (dot acc1 IAwF))
    by (apply (dot_shape b r r); [by destruct Hsacc1 | exact HI1 | exact Hr]).
  set (V1 := dot acc1 IAwF) in *.
  destruct (upd_Pt_ok Mm Nn r b st m Nn V1 Hwf Hb Hm ltac:(lia) HV1)
    as [_ Hwf1].
  set (st1 := set_Pt st (grid_put (Pt st) m Nn V1)) in *.
  (* the forward sweep *)
  destruct (stage4_sweep_spec Mm Nn r b AbFT AbRT HARB_AFPT HARB_AFBT
              ARB_AFP TAFBT ARE Hr Hb Hshapes st1 m Hwf1 Hm)
    as (st2 & Hrun2 & Hwf2 & _ & HP2 & HE2 & HEt2 & Hrows2 & Hlast2 & Hrec2).
  pose proof Hwf2 as (_ & HPs2 & HEs2 & HPt2 & HEts2).
  assert (HP2' : P st2 = P st) by (rewrite HP2; reflexivity).
  assert (HE2' : E st2 = E st) by (rewrite HE2; reflexivity).
  assert (HEt2' : Et st2 = Et st) by (rewrite HEt2; reflexivity).
  (* the accumulator of eqn. (39) *)
  set (acc2 := pe_row_accumulate_Et ARB_AFP ARE HARB_AFBT HARB_AFPT AbRT Zbr
                 (fun n => grid_block (Et st) m n) Pm Em
                 (fun n => grid_block (Pt st2) m (prev_row Nn n)) Nn).
  destruct (foldM_fold_left (has_shape b r)
    (fun Et0V n =>
       eqn39 ARB_AFP ARE HARB_AFBT HARB_AFPT AbRT
         (get2 (Et st2) (Z.of_nat m) (Z.of_nat n))
         (get2 (P st2) (Z.of_nat m - 1) (Z.of_nat n))
         (get2 (E st2) (Z.of_nat m + 1) (Z.of_nat n))
         (get2 (Pt st2) (Z.of_nat m) (Z.of_nat n - 1)) (Ok Et0V))
    (fun acc n => eqn39_value ARB_AFP ARE HARB_AFBT HARB_AFPT AbRT
                    (grid_block (Et st) m n) (Pm n) (Em n)
                    (grid_block (Pt st2) m (prev_row Nn n)) acc)
    (range_down Nn) Zbr HZ) as [Hacc2 Hsacc2].
  { intros n acc Hn Hacc.
    assert (Hlt : n < Nn).
    { unfold range_down in Hn.
      apply list_elem_of_In, in_rev, in_seq in Hn. lia. }
    rewrite (get2_nat Mm (Nn + 1) b r) by (done || lia).
    rewrite (get2_prev Mm Nn r b) by (done || lia).
    replace (Z.of_nat m + 1)%Z with (Z.of_nat (m + 1)) by lia.
    rewrite (get2_nat (Mm + 1) Nn r b (E st2) (m + 1)) by (done || lia).
    rewrite (get2_prev_col Mm Nn b r) by (done || lia).
    rewrite HP2', HE2', HEt2'.
    destruct (grid_shape_slot _ _ _ _ _ m n HEt0 Hm ltac:(lia))
      as (_ & _ & _ & _ & HX).
    destruct (grid_shape_slot _ _ _ _ _ m (prev_row Nn n) HPt2 Hm)
      as (_ & _ & _ & _ & HY);
      [unfold prev_row; destruct (decide (n = 0)); lia|].
    apply (eqn39_ok r b AbFT AbRT HARB_AFPT HARB_AFBT ARB_AFP TAFBT ARE);
      try done; [apply HPm | apply HEm]; lia. }
  change (fold_left _ (range_down Nn) Zbr) with acc2 in Hacc2, Hsacc2.
  assert (HV3 : has_shape b r (dot acc2 IAwR))
    by (apply (dot_shape b r r); [by destruct Hsacc2 | exact HI2 | exact Hr]).
  set (V3 := dot acc2 IAwR) in *.
  destruct (upd_Et_ok Mm Nn r b st2 m Nn V3 Hwf2 Hb Hm ltac:(lia) HV3)
    as [Hupd3 Hwf3].
  set (st3 := set_Et st2 (grid_put (Et st2) m Nn V3)) in *.
  (* the backward sweep *)
  destruct (stage5_sweep_spec Mm Nn r b AbFT AbRT HARB_AFPT HARB_AFBT
              ARB_AFP TAFBT ARE Hr Hb Hshapes st3 m Hwf3 Hm)
    as (st4 & Hrun4 & Hwf4 & _ & HP4 & HE4 & HPt4 & Hrows4 & Hlast4 & Hrec4).
  exists st4. split.
  { unfold pe_stage45_row. cbv zeta.
    rewrite Hacc1. cbn [mbind result_bind].
    rewrite (np_dot_ok b r r) by done. cbn [mbind result_bind]. fold V1.
    rewrite (upd_Pt_last_ok Mm Nn r b) by done. cbn [mbind result_bind].
    fold st1. rewrite Hrun2. cbn [mbind result_bind].
    rewrite Hacc2. cbn [mbind result_bind].
    rewrite (np_dot_ok b r r) by done. cbn [mbind result_bind]. fold V3.
    rewrite Hupd3. cbn [mbind result_bind]. exact Hrun4. }
  split; [exact Hwf4|].
  split; [by rewrite HP4|]. split; [by rewrite HE4|].
  assert (HPt1 : forall m' n, (m', n) <> (m, Nn) ->
            grid_block (Pt st1) m' n = grid_block (Pt st) m' n).
  { intros m' n Hne. unfold st1. cbn [Pt set_Pt].
    by rewrite grid_block_put_ne by congruence. }
  assert (HEt3 : forall m' n, (m', n) <> (m, Nn) ->
            grid_block (Et st3) m' n = grid_block (Et st) m' n).
  { intros m' n Hne. unfold st3. cbn [Et set_Et].
    rewrite grid_block_put_ne by congruence. by rewrite HEt2'. }
  assert (HPt3 : Pt st3 = Pt st2) by reflexivity.
  assert (HP3 : P st3 = P st) by exact HP2'.
  assert (HE3 : E st3 = E st) by exact HE2'.
  split.
  { intros m' n Hne. rewrite HPt4, HPt3. split.
    - rewrite Hrows2 by done. apply HPt1. congruence.
    - rewrite Hrows4 by done. apply HEt3. congruence. }
  unfold pe_row_done. cbv zeta. fold Pm Em. rewrite HPt4, HPt3.
  split; [|split; [|split]].
  - rewrite Hlast2. unfold st1. cbn [Pt set_Pt].
    by rewrite (grid_block_put_eq Mm (Nn + 1) b r) by (done || lia).
  - intros n Hn. rewrite (Hrec2 n Hn).
    rewrite HPt1 by (intros [=]; lia). reflexivity.
  - rewrite Hlast4. unfold st3. cbn [Et set_Et].
    by rewrite (grid_block_put_eq Mm (Nn + 1) b r) by (done || lia).
  - intros n Hn. rewrite (Hrec4 n Hn). rewrite HP3, HE3, HPt3.
    rewrite HEt3 by (intros [=]; lia). reflexivity.
Qed.

End Row.

(** X30.  The periodic stages 4 and 5 on well-shaped arrays and matrices:
    the run returns, keeps the shapes, and in every row of blocks the
    boundary slot [Pt[m][-1]] is the accumulator of eqn. (37) over the row
    times [IAwF], the slots of [Pt] satisfy eqn. (37) from it, the boundary
    slot [Et[m][N]] is the accumulator of eqn. (39) over the row, read on
    the resolved [Pt], times [IAwR], and the slots of [Et] satisfy eqn. (39)
    from it. *)
Theorem alg5_pe_stage45_sweeps (Mm Nn r b : nat)
    (AbFT AbRT HARB_AFPT HARB_AFBT ARB_AFP TAFBT ARE : list (list D))
    (Zbr IAwF IAwR : list (list D))
    (matrices pe_matrices : list (list (list D))) st :
  wf_store Mm Nn r b st -> 0 < r -> 0 < b ->
  py_slice 9 16 matrices
  = [AbFT; AbRT; HARB_AFPT; HARB_AFBT; ARB_AFP; TAFBT; ARE] ->
  matrices !! 1 = Some Zbr ->
  drop 2 pe_matrices = [IAwF; IAwR] ->
  stage45_shapes r b AbFT AbRT HARB_AFPT HARB_AFBT ARB_AFP TAFBT ARE ->
  has_shape b r Zbr -> has_shape r r IAwF -> has_shape r r IAwR ->
  exists st',
    alg5_pe_stage45 Mm Nn r matrices pe_matrices st = Ok st' /\
    wf_store Mm Nn r b st' /\
    forall m, m < Mm ->
      pe_row_done AbFT AbRT HARB_AFPT HARB_AFBT ARB_AFP TAFBT ARE
                  Zbr IAwF IAwR Mm Nn st st' m.
Proof.
  intros Hwf Hr Hb Hpack HZbr Hpe Hshapes HZ H1 H2.
  unfold alg5_pe_stage45. rewrite Hpack, Hpe.
  cbn [unpack7 mbind result_bind].
  assert (Hg : py_get matrices 1 = Ok Zbr)
    by exact (py_get_nat matrices 1 Zbr HZbr).
  rewrite Hg.
  cbn [unpack2 mbind result_bind].
  destruct (foldM_range_inv
    (fun i s => wf_store Mm Nn r b s /\ P s = P st /\ E s = E st /\
       (forall m n, i <= m ->
          grid_block (Pt s) m n = grid_block (Pt st) m n /\
          grid_block (Et s) m n = grid_block (Et st) m n) /\
       (forall m, m < i ->
          pe_row_done AbFT AbRT HARB_AFPT HARB_AFBT ARB_AFP TAFBT ARE
                      Zbr IAwF IAwR Mm Nn st s m))
    (pe_stage45_row Nn AbFT AbRT HARB_AFPT HARB_AFBT ARB_AFP TAFBT ARE
                    Zbr IAwF IAwR) Mm st)
    as (st' & Hrun & Hwf' & _ & _ & _ & Hdone).
  - split; [exact Hwf|]. do 3 (split; [done|]). intros m Hm. lia.
  - intros i s0 Hi (Hwf0 & HP0 & HE0 & Hrest & Hdone).
    destruct (pe_stage45_row_spec Mm Nn r b AbFT AbRT HARB_AFPT HARB_AFBT
                ARB_AFP TAFBT ARE Zbr IAwF IAwR
                Hr Hb Hshapes HZ H1 H2 s0 i Hwf0 Hi)
      as (s1 & Hrun1 & Hwf1 & HP1 & HE1 & Hrows & Hrow).
    exists s1. split; [exact Hrun1|]. split; [exact Hwf1|].
    split; [congruence|]. split; [congruence|]. split.
    + intros m n Hm. destruct (Hrows m n ltac:(lia)) as [-> ->].
      apply Hrest. lia.
    + intros m Hm. destruct (decide (m = i)) as [->|Hne].
      * unfold pe_row_done in *. cbv zeta in *.
        rewrite HP0, HE0 in Hrow.
        destruct Hrow as (Hb1 & Hr1 & Hb2 & Hr2).
        pose proof (fun n => proj1 (Hrest i n ltac:(lia))) as HkP.
        pose proof (fun n => proj2 (Hrest i n ltac:(lia))) as HkE.
        split.
        { rewrite Hb1. unfold pe_row_accumulate_Pt. f_equal.
          apply fold_left_agree. intros n acc _. by rewrite HkP. }
        split.
        { intros n Hn. rewrite (Hr1 n Hn). by rewrite HkP. }
        split.
        { rewrite Hb2. unfold pe_row_accumulate_Et. f_equal.
          apply fold_left_agree. intros n acc _. by rewrite HkE. }
        intros n Hn. rewrite (Hr2 n Hn). by rewrite HkE.
      * pose proof (Hdone m ltac:(lia)) as Hold.
        pose proof (fun n => proj1 (Hrows m n Hne)) as HcP.
        pose proof (fun n => proj2 (Hrows m n Hne)) as HcE.
        unfold pe_row_done in *. cbv zeta in *.
        destruct Hold as (Hb1 & Hr1 & Hb2 & Hr2).
        split; [by rewrite HcP|]. split.
        { intros n Hn. rewrite !HcP. by apply Hr1. }
        split.
        { rewrite HcE, Hb2. unfold pe_row_accumulate_Et. f_equal.
          apply fold_left_agree. intros n acc _. by rewrite HcP. }
        intros n Hn. rewrite !HcP, !HcE. by apply Hr2.
  - exists st'. split; [exact Hrun|]. split; [exact Hwf'|]. exact Hdone.
Qed.

End Pe_stage45.

(** ** The sweeps, the decomposer and the stages on the example runs *)

Lemma rev_backward_sweep_witness :
  exists y, rev [1; 2; 3]%Z [4]%Z ex_weights = Ok y /\ length y = 3 /\
    forall j, j < 3 ->
      y !! j = Some (rev_entry [4]%Z ex_weights [1; 2; 3]%Z y j).
Proof.
  apply (rev_backward_sweep (D := Z) [1; 2; 3]%Z [4]%Z ex_weights); simpl; lia.
Defined.

Lemma FT_rows_witness :
  FT [[1]; [2]]%Z [[1; 2]; [3; 4]]%Z ex_weights
  = mapM (fun pb => fwd pb.1 pb.2 ex_weights)
         (zip [[1]; [2]]%Z [[1; 2]; [3; 4]]%Z) /\
  FT [[1]]%Z [[1; 2]; [3; 4]]%Z ex_weights = Err IndexError.
Proof.
  split.
  - apply (proj1 (FT_rows (D := Z) [[1]; [2]]%Z [[1; 2]; [3; 4]]%Z ex_weights)).
    simpl. lia.
  - apply (proj2 (FT_rows (D := Z) [[1]]%Z [[1; 2]; [3; 4]]%Z ex_weights)).
    simpl. lia.
Defined.

Lemma RT_rows_witness :
  RT [[1; 2]; [3; 4]]%Z [[1]; [2]]%Z ex_weights
  = mapM (fun be => rev be.1 be.2 ex_weights)
         (zip [[1; 2]; [3; 4]]%Z [[1]; [2]]%Z) /\
  RT [[1; 2]; [3; 4]]%Z [[1]]%Z ex_weights = Err IndexError.
Proof.
  split.
  - apply (proj1 (RT_rows (D := Z) [[1; 2]; [3; 4]]%Z [[1]; [2]]%Z ex_weights)).
    simpl. lia.
  - apply (proj2 (RT_rows (D := Z) [[1; 2]; [3; 4]]%Z [[1]]%Z ex_weights)).
    simpl. lia.
Defined.

Lemma F_columns_witness :
  (F [[1; 2]]%Z [[1; 2]; [3; 4]]%Z ex_weights
   = (B ← mapM (fun j => fwd (column j [[1; 2]]%Z)
                             (column j [[1; 2]; [3; 4]]%Z) ex_weights)
               (seq 0 2);
      Ok (transpose B))) /\
  F [[1]]%Z [[1; 2]; [3; 4]]%Z ex_weights = Err IndexError.
Proof.
  split.
  - apply (proj1 (F_columns (D := Z) 2 2 1 2 [[1; 2]]%Z [[1; 2]; [3; 4]]%Z
                    ex_weights
                    ltac:(split; [reflexivity | repeat constructor])
                    ltac:(split; [reflexivity | repeat constructor])
                    ltac:(lia) ltac:(lia) ltac:(lia))).
    lia.
  - apply (proj2 (F_columns (D := Z) 2 2 1 1 [[1]]%Z [[1; 2]; [3; 4]]%Z
                    ex_weights
                    ltac:(split; [reflexivity | repeat constructor])
                    ltac:(split; [reflexivity | repeat constructor])
                    ltac:(lia) ltac:(lia) ltac:(lia))).
    lia.
Defined.

Lemma R_columns_witness :
  (R [[1; 2]; [3; 4]]%Z [[1; 2]]%Z ex_weights
   = (B ← mapM (fun j => rev (column j [[1; 2]; [3; 4]]%Z)
                             (column j [[1; 2]]%Z) ex_weights)
               (seq 0 2);
      Ok (transpose B))) /\
  R [[1; 2]; [3; 4]]%Z [[1]]%Z ex_weights = Err IndexError.
Proof.
  split.
  - apply (proj1 (R_columns (D := Z) 2 2 1 2 [[1; 2]; [3; 4]]%Z [[1; 2]]%Z
                    ex_weights
                    ltac:(split; [reflexivity | repeat constructor])
                    ltac:(split; [reflexivity | repeat constructor])
                    ltac:(lia) ltac:(lia) ltac:(lia))).
    lia.
  - apply (proj2 (R_columns (D := Z) 2 2 1 1 [[1; 2]; [3; 4]]%Z [[1]]%Z
                    ex_weights
                    ltac:(split; [reflexivity | repeat constructor])
                    ltac:(split; [reflexivity | repeat constructor])
                    ltac:(lia) ltac:(lia) ltac:(lia))).
    lia.
Defined.

Lemma fwd_superposition_witness :
  exists y1 y2,
    fwd [1]%Z [1; 2; 3]%Z ex_weights = Ok y1 /\
    fwd [5]%Z [0; 1; 4]%Z ex_weights = Ok y2 /\
    fwd (vadd [1]%Z [5]%Z) (vadd [1; 2; 3]%Z [0; 1; 4]%Z) ex_weights
    = Ok (vadd y1 y2).
Proof.
  apply (fwd_superposition (SD := Z_scalar) Z.opp Zth
           [1]%Z [5]%Z [1; 2; 3]%Z [0; 1; 4]%Z ex_weights);
    simpl; lia.
Defined.

Lemma flip_involutive_witness :
  flip ex_image = flipud (map reverse ex_image) /\ flip (flip ex_image) = ex_image.
Proof.
  apply (flip_involutive (D := Z) 4 4 ex_image).
  split; [reflexivity | repeat constructor].
Defined.

Lemma get_mn_covers_witness :
  get_mn ex_image 0 = Err ZeroDivisionError /\
  exists M N, get_mn ex_image 3 = Ok (M, N) /\
    4 <= M * 3 < 4 + 3 /\ 4 <= N * 3 < 4 + 3.
Proof.
  assert (Hs : has_shape 4 4 ex_image)
    by (split; [reflexivity | repeat constructor]).
  split.
  - apply (proj1 (get_mn_covers (D := Z) 4 4 ex_image 0 Hs ltac:(lia)
                    ltac:(lia) ltac:(lia) ltac:(lia))).
    reflexivity.
  - apply (proj2 (get_mn_covers (D := Z) 4 4 ex_image 3 Hs ltac:(lia)
                    ltac:(lia) ltac:(lia) ltac:(lia))).
    lia.
Defined.

Lemma break_blocks_returns_iff_witness :
  (is_ok (break_blocks ex_image 3 None None)
   <-> 4 `mod` 3 <= 1 /\ 4 `mod` 3 <= 1) /\
  (is_ok (break_blocks ex_image 3 None None) \/
   break_blocks ex_image 3 None None = Err ValueError).
Proof.
  apply (break_blocks_returns_iff (D := Z) 4 4 3 ex_image);
    [split; [reflexivity | repeat constructor] | lia | lia | lia].
Defined.

Lemma break_join_roundtrip_witness :
  exists X,
    join_blocks (fun _ _ => 7%Z) ex_blocks 2 2 2 (2 * 2, 2 * 2) = Ok X /\
    has_shape (2 * 2) (2 * 2) X /\
    break_blocks X 2 None None = Ok ex_blocks.
Proof.
  apply (break_join_roundtrip (D := Z) (fun _ _ => 7%Z) 2 2 2 ex_blocks);
    [exact ex_blocks_shape | lia | lia].
Defined.

Lemma stage6_writes_blocks_only_witness :
  exists st',
    alg5_stage6 2 2 ex_weights ex_store = Ok st' /\
    P st' = P ex_store /\ E st' = E ex_store /\
    Pt st' = Pt ex_store /\ Et st' = Et ex_store.
Proof.
  eexists.
  match goal with
  | |- ?a = Ok ?s /\ _ => assert (Ha : a = Ok s) by (vm_compute; reflexivity)
  end.
  split; [exact Ha|].
  exact (stage6_writes_blocks_only (D := Z) 2 2 ex_weights ex_store _ Ha).
Defined.

Lemma cpe_stages_write_own_carries_witness :
  exists alg5m pack st st1 st2 st3,
    build_alg5_matrices 3 2 ex_cpe_weights 3 3 = Ok alg5m /\
    build_cpe_matrices inv_Z lu_solve_Z 2 ex_cpe_weights alg5m = Ok pack /\
    st = store_of [[[[1; 2; 3]; [4; 5; 6]; [7; 8; 10]]]]%Z
                  (build_alg5_carries 1 1 3 2) /\
    alg5_cpe_stage1 1 1 2 ex_cpe_weights alg5m st = Ok st1 /\
    alg5_cpe_stage23 1 1 alg5m pack st1 = Ok st2 /\
    alg5_cpe_stage45 1 1 2 alg5m pack st1 = Ok st3 /\
    blocks st1 = blocks st /\
    (blocks st2 = blocks st1 /\ Pt st2 = Pt st1 /\ Et st2 = Et st1) /\
    (blocks st3 = blocks st1 /\ P st3 = P st1 /\ E st3 = E st1).
Proof.
  do 6 eexists.
  split; [vm_compute; reflexivity|].
  split; [vm_compute; reflexivity|].
  split; [reflexivity|].
  match goal with
  | |- ?a = Ok ?s1 /\ _ =>
      assert (Ha : a = Ok s1) by (vm_compute; reflexivity)
  end.
  split; [exact Ha|].
  match goal with
  | |- ?b = Ok ?s2 /\ ?c = Ok ?s3 /\ _ =>
      assert (Hb : b = Ok s2) by (vm_compute; reflexivity);
      assert (Hc : c = Ok s3) by (vm_compute; reflexivity)
  end.
  split; [exact Hb|]. split; [exact Hc|].
  split; [exact (proj1 (cpe_stages_write_own_carries (D := Z)
                          1 1 2 ex_cpe_weights _ [] _ _ ex_pe_store ex_pe_store)
                        Ha)|].
  split.
  - exact (proj1 (proj2 (cpe_stages_write_own_carries (D := Z)
                           1 1 2 ex_cpe_weights _ _ _ ex_pe_store _
                           ex_pe_store)) Hb).
  - exact (proj2 (proj2 (cpe_stages_write_own_carries (D := Z)
                           1 1 2 ex_cpe_weights _ _ _ ex_pe_store
                           ex_pe_store _)) Hc).
Defined.

Lemma pe_stages_write_own_carries_witness :
  exists alg5m pack st2 st3,
    build_alg5_matrices 1 1 ex_pe_weights 1 1 = Ok alg5m /\
    build_pe_matrices inv_Z 1 ex_pe_weights alg5m = Ok pack /\
    alg5_pe_stage23 1 1 alg5m pack ex_pe_store = Ok st2 /\
    alg5_pe_stage45 1 1 1 alg5m pack ex_pe_store = Ok st3 /\
    (blocks st2 = blocks ex_pe_store /\ Pt st2 = Pt ex_pe_store /\
     Et st2 = Et ex_pe_store) /\
    (blocks st3 = blocks ex_pe_store /\ P st3 = P ex_pe_store /\
     E st3 = E ex_pe_store).
Proof.
  do 4 eexists.
  split; [vm_compute; reflexivity|].
  split; [vm_compute; reflexivity|].
  match goal with
  | |- ?b = Ok ?s2 /\ ?c = Ok ?s3 /\ _ =>
      assert (Hb : b = Ok s2) by (vm_compute; reflexivity);
      assert (Hc : c = Ok s3) by (vm_compute; reflexivity)
  end.
  split; [exact Hb|]. split; [exact Hc|].
  split.
  - exact (proj1 (pe_stages_write_own_carries (D := Z) 1 1 1 _ _ _ _
                    ex_pe_store) Hb).
  - exact (proj2 (pe_stages_write_own_carries (D := Z) 1 1 1 _ _ _
                    ex_pe_store _) Hc).
Defined.

Lemma epe_stages_write_own_carries_witness :
  exists alg5m pack st2 st3,
    build_alg5_matrices 1 1 [1; 0]%Z 1 1 = Ok alg5m /\
    build_epe_matrices inv_Z 1 [1; 0]%Z alg5m = Ok pack /\
    alg5_epe_stage23 1 1 alg5m pack ex_pe_store = Ok st2 /\
    alg5_epe_stage45 1 1 1 alg5m pack ex_pe_store = Ok st3 /\
    (blocks st2 = blocks ex_pe_store /\ Pt st2 = Pt ex_pe_store /\
     Et st2 = Et ex_pe_store) /\
    (blocks st3 = blocks ex_pe_store /\ P st3 = P ex_pe_store /\
     E st3 = E ex_pe_store).
Proof.
  do 4 eexists.
  split; [vm_compute; reflexivity|].
  split; [vm_compute; reflexivity|].
  match goal with
  | |- ?b = Ok ?s2 /\ ?c = Ok ?s3 /\ _ =>
      assert (Hb : b = Ok s2) by (vm_compute; reflexivity);
      assert (Hc : c = Ok s3) by (vm_compute; reflexivity)
  end.
  split; [exact Hb|]. split; [exact Hc|].
  split.
  - exact (proj1 (epe_stages_write_own_carries (D := Z) 1 1 1 _ _ _ _
                    ex_pe_store) Hb).
  - exact (proj2 (epe_stages_write_own_carries (D := Z) 1 1 1 _ _ _
                    ex_pe_store _) Hc).
Defined.

Lemma alg5_stage23_sweeps_witness :
  exists matrices AbF AbR HARB_AFP,
    build_alg5_matrices 2 1 ex_weights 4 4 = Ok matrices /\
    py_slice 6 9 matrices = [AbF; AbR; HARB_AFP] /\
    exists st',
      alg5_stage23 2 2 matrices ex_store = Ok st' /\ wf_store 2 2 1 2 st' /\
      forall n, n < 2 ->
        column_done AbF 2 ex_store st' n /\
        column_done_E HARB_AFP AbR 2 ex_store st' n.
Proof.
  do 4 eexists.
  split; [vm_compute; reflexivity|].
  match goal with
  | |- ?a = ?l /\ _ => assert (Ha : a = l) by (vm_compute; reflexivity)
  end.
  split; [exact Ha|].
  apply (alg5_stage23_sweeps (D := Z) 2 2 1 2 _ _ _ _ ex_store ex_store_wf
           ltac:(lia) Ha);
    (split; [reflexivity | repeat constructor]).
Defined.

Lemma alg5_stage45_sweeps_witness :
  exists matrices AbFT AbRT HARB_AFPT HARB_AFBT ARB_AFP TAFBT ARE,
    build_alg5_matrices 2 1 ex_weights 4 4 = Ok matrices /\
    py_slice 9 16 matrices
    = [AbFT; AbRT; HARB_AFPT; HARB_AFBT; ARB_AFP; TAFBT; ARE] /\
    exists st',
      alg5_stage45 2 2 matrices ex_store = Ok st' /\ wf_store 2 2 1 2 st' /\
      forall m, m < 2 ->
        row_done AbFT AbRT HARB_AFPT HARB_AFBT ARB_AFP TAFBT ARE
                 2 2 ex_store st' m.
Proof.
  do 8 eexists.
  split; [vm_compute; reflexivity|].
  match goal with
  | |- ?a = ?l /\ _ => assert (Ha : a = l) by (vm_compute; reflexivity)
  end.
  split; [exact Ha|].
  apply (alg5_stage45_sweeps (D := Z) 2 2 1 2 _ _ _ _ _ _ _ _ ex_store
           ex_store_wf ltac:(lia) ltac:(lia) Ha).
  unfold stage45_shapes, has_shape. simpl.
  repeat split; repeat constructor.
Defined.

Lemma alg5_stage6_blocks_witness :
  exists st',
    alg5_stage6 2 2 ex_weights ex_store = Ok st' /\ wf_store 2 2 1 2 st' /\
    P st' = P ex_store /\ E st' = E ex_store /\
    Pt st' = Pt ex_store /\ Et st' = Et ex_store /\
    forall m n, m < 2 -> n < 2 ->
      block_output ex_weights (grid_block (blocks ex_store) m n)
        (grid_block (P ex_store) (prev_row 2 m) n)
        (grid_block (E ex_store) (m + 1) n)
        (grid_block (Pt ex_store) m (prev_row 2 n))
        (grid_block (Et ex_store) m (n + 1))
      = Ok (grid_block (blocks st') m n).
Proof.
  apply (alg5_stage6_blocks (D := Z) 2 2 1 2 ex_weights ex_store);
    [lia | lia | simpl; lia | simpl; lia | exact ex_store_wf].
Defined.

Lemma build_alg5_matrices_returns_witness :
  exists matrices,
    build_alg5_matrices 2 1 ex_weights 4 4 = Ok matrices /\
    length matrices = 25 /\
    Forall2 (fun s A => has_shape s.1 s.2 A) (alg5_matrix_shapes 2 1 4 4)
            matrices.
Proof.
  apply (build_alg5_matrices_returns (D := Z) 2 1 4 4 ex_weights);
    simpl; lia.
Defined.

Lemma alg5_stages_compose_witness :
  exists bl matrices st1 st2 st3 st4 Y,
    break_blocks ex_image 2 None None = Ok bl /\
    build_alg5_matrices 2 1 ex_weights 4 4 = Ok matrices /\
    alg5_stage1 2 2 1 ex_weights matrices
                (store_of bl (build_alg5_carries 2 2 2 1)) = Ok st1 /\
    alg5_stage23 2 2 matrices st1 = Ok st2 /\
    alg5_stage45 2 2 matrices st2 = Ok st3 /\
    alg5_stage6 2 2 ex_weights st3 = Ok st4 /\
    join_blocks (fun _ _ => 0%Z) (blocks st4) 2 2 2 (2 * 2, 2 * 2) = Ok Y /\
    has_shape (2 * 2) (2 * 2) Y.
Proof.
  apply (alg5_stages_compose (D := Z) (fun _ _ => 0%Z) 2 2 1 2 4 4
           ex_weights ex_image);
    [lia | reflexivity | lia | lia | lia
    | split; [reflexivity | repeat constructor]].
Defined.

Lemma alg5_cpe_stage1_slots_witness :
  exists matrices,
    build_alg5_matrices 2 1 ex_weights 4 4 = Ok matrices /\
    exists st',
      alg5_cpe_stage1 2 2 1 ex_weights matrices ex_store = Ok st' /\
      blocks st' = blocks ex_store /\
      (forall m n, m < 2 -> n < 2 ->
         let c := carries_of 1 ex_weights (grid_block (blocks ex_store) m n) in
         grid_block (P st') m n = c.1.1.1 /\ grid_block (E st') m n = c.1.1.2 /\
         grid_block (Pt st') m n = c.1.2 /\ grid_block (Et st') m n = c.2) /\
      (forall n, 0 < 2 -> n < 2 ->
         grid_block (P st') 2 n
         = tile_rows (H (grid_block (blocks ex_store) 0 n) 1) 1 /\
         grid_block (E st') 2 n
         = (if decide (2 = 1) then grid_block (E ex_store) 2 n
            else tile_rows (T (grid_block (blocks ex_store) (2 - 1) n) 1) 1)) /\
      (forall m, m < 2 -> 0 < 2 ->
         grid_block (Pt st') m 2
         = tile_cols
             (HT (row_filtered 1 ex_weights (grid_block (blocks ex_store) m 0))
                 1) 1 /\
         grid_block (Et st') m 2
         = (if decide (2 = 1) then grid_block (Et ex_store) m 2
            else tile_cols
                   (TT (row_filtered 1 ex_weights
                          (grid_block (blocks ex_store) m (2 - 1))) 1) 1)).
Proof.
  eexists. split; [vm_compute; reflexivity|].
  apply (alg5_cpe_stage1_slots (D := Z) 2 2 1 2 4 4 ex_weights _ ex_store).
  - lia.
  - reflexivity.
  - vm_compute. reflexivity.
  - exact ex_store_wf.
Defined.

Lemma alg5_zero_padding_witness :
  exists matrices st1 st2 st3 st4,
    build_alg5_matrices 2 1 ex_weights 4 4 = Ok matrices /\
    alg5_stage1 2 2 1 ex_weights matrices
                (store_of ex_blocks (build_alg5_carries 2 2 2 1)) = Ok st1 /\
    alg5_stage23 2 2 matrices st1 = Ok st2 /\
    alg5_stage45 2 2 matrices st2 = Ok st3 /\
    alg5_stage6 2 2 ex_weights st3 = Ok st4 /\
    forall m n, m < 2 -> n < 2 ->
      block_output ex_weights (grid_block ex_blocks m n)
        (if decide (m = 0) then zeros 1 2 else grid_block (P st3) (m - 1) n)
        (if decide (m + 1 = 2) then zeros 1 2
         else grid_block (E st3) (m + 1) n)
        (if decide (n = 0) then zeros 2 1 else grid_block (Pt st3) m (n - 1))
        (if decide (n + 1 = 2) then zeros 2 1
         else grid_block (Et st3) m (n + 1))
      = Ok (grid_block (blocks st4) m n).
Proof.
  apply (alg5_zero_padding (D := Z) 2 2 1 2 4 4 ex_weights ex_blocks);
    [lia | reflexivity | lia | lia | exact ex_blocks_shape].
Defined.

(** On integer images the sequential filter of a [b] by [b] image is
    [block_output] with zero prologues and epilogues. *)
Lemma sequential_filter_block_output (B : list (list Z)) (r b : nat)
    (wgt : list Z) :
  sequential_filter B r wgt b b
  = block_output wgt B (zeros r b) (zeros r b) (zeros b r) (zeros b r).
Proof. reflexivity. Qed.

Lemma alg5_single_block_witness :
  exists matrices st1 st2 st3 st4 Y,
    build_alg5_matrices 2 1 ex_weights 2 2 = Ok matrices /\
    alg5_stage1 1 1 1 ex_weights matrices
                (store_of [[[[1; 2]; [3; 4]]]]%Z (build_alg5_carries 1 1 2 1))
    = Ok st1 /\
    alg5_stage23 1 1 matrices st1 = Ok st2 /\
    alg5_stage45 1 1 matrices st2 = Ok st3 /\
    alg5_stage6 1 1 ex_weights st3 = Ok st4 /\
    blocks st4 = [[Y]] /\
    block_output ex_weights [[1; 2]; [3; 4]]%Z
                 (zeros 1 2) (zeros 1 2) (zeros 2 1) (zeros 2 1) = Ok Y.
Proof.
  apply (alg5_single_block (D := Z) 1 2 2 2 ex_weights [[1; 2]; [3; 4]]%Z);
    [lia | reflexivity | lia | lia | split; [reflexivity | repeat constructor]].
Defined.

Lemma pe_inversions_in_setup_witness :
  exists alg5m pack,
    build_alg5_matrices 1 1 ex_pe_weights 1 1 = Ok alg5m /\
    build_pe_matrices inv_Z 1 ex_pe_weights alg5m = Ok pack /\
    pe_inversions_ok inv_Z alg5m /\ length pack = 4.
Proof.
  eexists. eexists.
  split; [vm_compute; reflexivity|].
  match goal with
  | |- ?b = Ok ?p /\ _ =>
      assert (Hb : b = Ok p) by (vm_compute; reflexivity)
  end.
  split; [exact Hb|].
  exact (proj1 (pe_inversions_in_setup (D := Z) inv_Z) _ _ _ _ Hb).
Defined.

Lemma stages_short_pack_witness :
  alg5_stage1 2 2 1 ex_weights [] ex_store = Err ValueError /\
  alg5_stage23 2 2 [zeros 1 2; zeros 2 1] ex_store = Err ValueError /\
  alg5_stage45 2 2 [zeros 1 2; zeros 2 1] ex_store = Err ValueError.
Proof.
  split; [|split].
  - apply (proj1 (stages_short_pack (D := Z) 2 2 1 ex_weights [] ex_store)).
    simpl. lia.
  - apply (proj1 (proj2 (stages_short_pack (D := Z) 2 2 1 ex_weights
                           [zeros 1 2; zeros 2 1] ex_store))).
    simpl. lia.
  - apply (proj2 (proj2 (stages_short_pack (D := Z) 2 2 1 ex_weights
                           [zeros 1 2; zeros 2 1] ex_store))).
    simpl. lia.
Defined.

Lemma ex_cpe_store_wf : wf_store 1 1 2 3 ex_cpe_store.
Proof.
  unfold wf_store, grid_shape, has_shape. simpl.
  repeat split; repeat constructor.
Qed.

Lemma ex_pe_store_wf : wf_store 1 1 1 1 ex_pe_store.
Proof.
  unfold wf_store, grid_shape, has_shape. simpl.
  repeat split; repeat constructor.
Qed.

Lemma alg5_cpe_stage23_sweeps_witness :
  exists alg5m pack AbF AbR HARB_AFP SFAbarF SRFArF SRAbaR,
    build_alg5_matrices 3 2 ex_cpe_weights 3 3 = Ok alg5m /\
    build_cpe_matrices inv_Z lu_solve_Z 2 ex_cpe_weights alg5m = Ok pack /\
    alg5_cpe_stage1 1 1 2 ex_cpe_weights alg5m
      (store_of (blocks ex_cpe_store) (build_alg5_carries 1 1 3 2))
    = Ok ex_cpe_store /\
    py_slice 6 9 alg5m = [AbF; AbR; HARB_AFP] /\
    py_slice 0 3 pack = [SFAbarF; SRFArF; SRAbaR] /\
    exists st',
      alg5_cpe_stage23 1 1 alg5m pack ex_cpe_store = Ok st' /\
      wf_store 1 1 2 3 st' /\
      forall n, n < 1 ->
        cpe_column_done AbF AbR HARB_AFP SFAbarF SRFArF SRAbaR 1
                        ex_cpe_store st' n.
Proof.
  do 8 eexists.
  split; [vm_compute; reflexivity|].
  split; [vm_compute; reflexivity|].
  split; [vm_compute; reflexivity|].
  match goal with
  | |- ?a = ?l /\ ?c = ?k /\ _ =>
      assert (Ha : a = l) by (vm_compute; reflexivity);
      assert (Hc : c = k) by (vm_compute; reflexivity)
  end.
  split; [exact Ha|]. split; [exact Hc|].
  apply (alg5_cpe_stage23_sweeps (D := Z) 1 1 2 3 _ _ _ _ _ _ _ _
           ex_cpe_store ex_cpe_store_wf ltac:(lia) ltac:(lia) Ha Hc);
    (split; [reflexivity | repeat constructor]).
Defined.

Lemma alg5_cpe_stage45_sweeps_witness :
  exists alg5m pack AbFT AbRT HARB_AFPT HARB_AFBT ARB_AFP TAFBT ARE
         AbarFSFT ArFSRFT AbarFSFSRAbaRSRFArFT,
    build_alg5_matrices 3 2 ex_cpe_weights 3 3 = Ok alg5m /\
    build_cpe_matrices inv_Z lu_solve_Z 2 ex_cpe_weights alg5m = Ok pack /\
    py_slice 9 16 alg5m
    = [AbFT; AbRT; HARB_AFPT; HARB_AFBT; ARB_AFP; TAFBT; ARE] /\
    drop 3 pack = [AbarFSFT; ArFSRFT; AbarFSFSRAbaRSRFArFT] /\
    exists st',
      alg5_cpe_stage45 1 1 2 alg5m pack ex_cpe_store = Ok st' /\
      wf_store 1 1 2 3 st' /\
      forall m, m < 1 ->
        cpe_row_done AbFT AbRT HARB_AFPT HARB_AFBT ARB_AFP TAFBT ARE
                     AbarFSFT ArFSRFT AbarFSFSRAbaRSRFArFT 1 1 2
                     ex_cpe_store st' m.
Proof.
  do 12 eexists.
  split; [vm_compute; reflexivity|].
  split; [vm_compute; reflexivity|].
  match goal with
  | |- ?a = ?l /\ ?c = ?k /\ _ =>
      assert (Ha : a = l) by (vm_compute; reflexivity);
      assert (Hc : c = k) by (vm_compute; reflexivity)
  end.
  split; [exact Ha|]. split; [exact Hc|].
  apply (alg5_cpe_stage45_sweeps (D := Z) 1 1 2 3 _ _ _ _ _ _ _ _ _ _ _ _
           ex_cpe_store ex_cpe_store_wf ltac:(lia) ltac:(lia) ltac:(lia)
           Ha Hc).
  - unfold stage45_shapes, has_shape. simpl. repeat split; repeat constructor.
  - split; [reflexivity | repeat constructor].
  - split; [reflexivity | repeat constructor].
  - split; [reflexivity | repeat constructor].
Defined.

Lemma alg5_pe_stage45_sweeps_witness :
  exists alg5m pack AbFT AbRT HARB_AFPT HARB_AFBT ARB_AFP TAFBT ARE
         Zbr IAwF IAwR,
    build_alg5_matrices 1 1 ex_pe_weights 1 1 = Ok alg5m /\
    build_pe_matrices inv_Z 1 ex_pe_weights alg5m = Ok pack /\
    py_slice 9 16 alg5m
    = [AbFT; AbRT; HARB_AFPT; HARB_AFBT; ARB_AFP; TAFBT; ARE] /\
    alg5m !! 1 = Some Zbr /\
    drop 2 pack = [IAwF; IAwR] /\
    exists st',
      alg5_pe_stage45 1 1 1 alg5m pack ex_pe_store = Ok st' /\
      wf_store 1 1 1 1 st' /\
      forall m, m < 1 ->
        pe_row_done AbFT AbRT HARB_AFPT HARB_AFBT ARB_AFP TAFBT ARE
                    Zbr IAwF IAwR 1 1 ex_pe_store st' m.
Proof.
  do 12 eexists.
  split; [vm_compute; reflexivity|].
  split; [vm_compute; reflexivity|].
  match goal with
  | |- ?a = ?l /\ ?z = ?zz /\ ?c = ?k /\ _ =>
      assert (Ha : a = l) by (vm_compute; reflexivity);
      assert (Hz : z = zz) by (vm_compute; reflexivity);
      assert (Hc : c = k) by (vm_compute; reflexivity)
  end.
  split; [exact Ha|]. split; [exact Hz|]. split; [exact Hc|].
  apply (alg5_pe_stage45_sweeps (D := Z) 1 1 1 1 _ _ _ _ _ _ _ _ _ _ _ _
           ex_pe_store ex_pe_store_wf ltac:(lia) ltac:(lia) Ha Hz Hc).
  - unfold stage45_shapes, has_shape. simpl. repeat split; repeat constructor.
  - split; [reflexivity | repeat constructor].
  - split; [reflexivity | repeat constructor].
  - split; [reflexivity | repeat constructor].
Defined.
